(* ===== verification/_CoqProject ===== *)
-Q . S2P
Prelude.v
Wire.v
Builder.v
BuilderSpec.v
Roundtrip.v
Envelope.v
Sha256.v
HsLabels.v
HsFrames.v
HsReplay.v
HsPSK.v
HsKdf.v
HsSession.v
HsRun.v
HsHonest.v
Attest.v
PqConn.v
BufPool.v
NodeWire.v
NodeLoop.v
NodeNet.v
Router.v
Http.v
Forward.v
ZapClient.v
ZapTs.v
Schema.v
V1View.v
V1Build.v
DexWire.v
DexCall.v
DexCap.v
DexSession.v
DexV4.v
DexV4Spec.v
DexServer.v
