(* ===== verification/Prelude.v ===== *)
(** * ZAP: a verification development

    ZAP (Go module [luxfi/zap]) is a zero-copy message format and a node
    library around it. Its parts, from the inside out:

    - the wire format: a 16-byte header, objects with fields at fixed offsets,
      and lists and byte strings behind relative pointers. [src/zap.go] reads
      messages, [src/builder.go] writes them, [src/schema.go] and [src/evm.go]
      lay structs out and add fixed-size fields;
    - the post-quantum handshake ([src/handshake/]): frames, replay cache,
      resumption store, transcript, key schedule, identities, the initiator and
      responder state machines, and the encrypted session they end in;
    - its clients in the root package: [src/conn_pq.go] turns a session into a
      byte stream, [src/pq_attestation.go] and [src/identity_pq.go] sign and
      check attestations and plugin registrations;
    - the node ([src/node.go], [src/node_codec.go], [src/bufpool.go]): framed
      messages on a socket, read into pooled reference-counted buffers, request
      and response correlation, the loop that dispatches to handlers, and the
      table of connections that goroutines on both ends share; [src/network.go]
      chooses TCP or Unix sockets, [src/router.go] and [src/interface.go] send
      to a destination over the cheapest interface that reaches it;
    - typed views over messages ([src/v1/]);
    - what is built on the node: HTTP over ZAP ([src/forward/]), procedures by
      name ([src/zapclient/]) and the same over WebSocket, in Go and in the
      browser ([src/zapweb/]), and the sessions of a decentralised exchange
      ([src/dexsession/]).

    ** Files

    - [Prelude]: Go's panics ([outcome]) and error returns ([result]) with
      their binds, byte lists, slicing, indexing and stores that panic out of
      range, little- and big-endian integers, fixed-width wrap-around, the
      shared lemmas and tactics.
    - [Wire]: [src/zap.go]. A [Message] is its bytes (and its buffer
      reference); an [Object] or [List] is a message and an absolute offset.
    - [Builder]: [src/builder.go], with the buffer's real length, its write
      position and the stale bytes behind it, and the builder pool.
    - [BuilderSpec]: the document specification (the bytes written so far and
      nothing else), the contract of each call, the refinement, and the pool.
    - [Roundtrip]: trees of objects, the client that writes one, and the
      theorem that reading gives it back.
    - [Envelope]: messages with one flat object, as all clients build them: the
      record [Envelope] with the class [EnvelopeLaws].
    - [Sha256]: the standard library's SHA-256, executable.
    - [HsLabels]: [labels.go] and [errors.go] of the handshake.
    - [HsFrames]: [frames.go]; the codecs satisfy one interface, [Codec] with
      [CodecLaws], against which framing is proved.
    - [HsReplay], [HsPSK]: [replay.go] and [psk.go]; the clock is an argument.
    - [HsKdf]: [transcript.go], [kdf.go], [identity.go], over the class
      [Crypto] of primitives.
    - [HsSession]: [session.go]; [Send], [Recv], [Rekey] and [Close] under their
      mutexes are functions on a session and a connection.
    - [HsRun]: [initiator.go] and [responder.go] in a state and error monad
      over the stream, entropy, clock, cache and store.
    - [HsHonest]: a program logic for that monad, with which both roles are run
      against each other.
    - [Attest]: [src/pq_attestation.go] and [src/identity_pq.go].
    - [PqConn]: [src/conn_pq.go] over [HsSession].
    - [BufPool]: [src/bufpool.go] and [Message.Release]/[Retain], as a heap of
      reference headers and slabs that are shared and recycled.
    - [NodeWire]: [src/node_codec.go] and the framing functions of
      [src/node.go].
    - [NodeLoop]: [dispatchLoop], the receive loop of dialled connections and
      both halves of [Call], with their buffers, over [BufPool] and [NodeWire].
    - [NodeNet]: the connection half of [src/node.go] with [src/network.go]; a
      goroutine is a task cut at its locks and socket operations, and [step]
      runs any of them.
    - [Router]: [src/router.go] and [src/interface.go], with the backing array
      that [Register] and [Send] share.
    - [Http]: what [src/forward/] uses of Go's [strings], [strconv] and
      [net/http].
    - [Forward]: [src/forward/]: envelopes, identity headers, gateway client,
      relay, backend server.
    - [ZapClient]: [src/zapclient/] and the Go side of [src/zapweb/].
    - [ZapTs]: [src/zapweb/ts/src/zap.ts] and [client.ts].
    - [Schema]: [src/schema.go] and [src/evm.go].
    - [V1View]: [src/v1/]; [V1Build]: whole typed objects, written and read.
    - [DexWire], [DexCall], [DexCap], [DexSession], [DexV4], [DexServer]: the
      messages, calldata, capabilities, client, action sessions and server of
      [src/dexsession/]; [DexV4Spec]: what action sessions promise.

    ** What the theorems show

    - Reader: no input makes [Parse] panic, and no accessor panics on what it
      accepts; every pointer stays inside the message and off its header.
    - Writer: the builder implements the document specification whatever its
      buffer held; what it writes is read back; pooled builders write what new
      ones write, except for version and flags, which [Reset] leaves.
    - Frames: decoders never panic and accept canonical bytes only; frames
      survive the stream, and cut frames are errors.
    - Replay and resumption: what the cache and the store remember and for how
      long, that keys are single use, and what the two clock readings cost.
    - Handshake: transcripts bind everything exchanged, or there is a hash
      collision; each role returns a session only after the other's signature
      over this connection's transcript verified; strict profiles are strict;
      honest parties finish with sessions in step, in full and resumed runs.
    - Session: delivery in order across rekeys, no nonce twice while writes
      succeed (and what happens when one fails), nothing replayed is delivered,
      [Close] is final; the wrapped connection is a byte stream.
    - Node: a frame's bytes do not change while it is held; the dispatch loop
      refines a frame-by-frame specification and gives its buffers back;
      pipelined calls get their own answers; how plain messages are told from
      calls.
    - Connections: under every schedule the tables name live connections and
      every open socket has one owner; dialling a listening node connects both;
      loops end; what two simultaneous dials do.
    - Router: sending is scanning all interfaces in order of cost.
    - Schema: struct layouts are aligned, in order and free of overlap.
    - Typed views: no view leaves its buffer, typed reads are the untyped ones,
      typed objects are read back whole, and which inline lists are not.
    - Forwarding: every identity header a backend sees comes from the edge; the
      tunnel is the handler itself; the relay calls one backend or none.
    - Procedures: a name that registered is what calls of it run, behind the
      verifier; a failed [Connect] leaks nothing; round robin is fair; a call
      over WebSocket is the native dispatch; what happens to lost static peers
      and to errors on the native transport.
    - Browser: the TypeScript builder writes the Go builder's bytes and its
      reader is the Go reader; promises are settled by their own reply or the
      closing, by nothing else.
    - DEX: envelopes round trip, identifiers bind, calldata follows the ABI;
      capabilities gate every message; whatever the peer answers, a session
      notifies and settles its own intent only; against an honest venue a swap
      settles; the server answers as its venue does and never panics.

    ** Modelling choices

    - [int] is unbounded where the code's values are lengths and offsets below
      2^33; 8-, 16-, 32- and 64-bit integers wrap where the code converts.
    - A stream is the list of bytes the peer will have sent, then end of file;
      a writer records its [Write] calls and may be broken.
    - What [sync.Pool] keeps, drops or hands out is an argument over which the
      theorems quantify.
    - Primitives outside the repository (SHA-3, SHAKE, HKDF, X25519, ML-KEM,
      ML-DSA, AES-GCM) are the operations of the class [Crypto]; [CryptoLaws]
      and [EntropyLaws] state sizes and correctness, not secrecy, and
      [toy_laws] and [toy_entropy] instantiate them. Security statements are
      reductions: the property, or an explicit collision.
    - Loops: [Recv] has one unit of fuel per byte left in its stream and one
      more, and each iteration consumes a frame of at least five bytes;
      [dispatchLoop] likewise with frames of at least four; [Write] has one per
      byte of its argument and each round sends at least one. Running out is
      [Panic], and the theorems show that it does not happen.
    - Mutexes make the modelled operations atomic; concurrency is the order of
      the steps. In [NodeNet] and in [ZapTs]'s client the order is a list of
      events over which the theorems quantify.
    - The peer of a DEX client, its venue, HTTP handlers, gates, procedure
      handlers and verifiers, JSON and URL codecs, UTF-8 and the network's
      address resolution are parameters.
    - JavaScript numbers are integers below 2^53, with bit operations at 32
      bits; an exception of a typed array is [Panic].

    ** Not modelled

    Broadcast in [src/node.go] and [src/zapclient/]; QUIC ([src/quic/],
    [src/node_quic.go], [src/transport.go]) and the device transports
    ([src/transport/]), which wrap libraries for sockets, TLS and hardware;
    multicast DNS ([src/mdns/]); the code generator ([src/v1/codegen/]), which
    prints Go text, and its generated packages; the MCP bridge ([src/mcp/]),
    which drives processes; read deadlines, logging, the tools, examples and
    benchmarks. *)

From Stdlib Require String.
From stdpp Require Export base list option numbers decidable relations.
From stdpp Require Import countable.
From coqutil Require Export Byte.
From coqutil Require Export Word.LittleEndianList.
From Stdlib Require Export ZArith Lia.

Global Open Scope Z_scope.
Global Set Default Goal Selector "!".

(** ** Go runtime outcomes *)

(** What evaluating a Go expression yields: a value, or a run-time panic
    (nil dereference, slice or index out of range). *)
Inductive outcome (A : Type) : Type :=
| Ret (a : A)
| Panic.
Arguments Ret {A} a.
Arguments Panic {A}.

#[export] Instance outcome_ret : MRet outcome := fun A a => Ret a.
#[export] Instance outcome_bind : MBind outcome := fun A B f m =>
  match m with Ret a => f a | Panic => Panic end.

(** Go's two-valued [(T, error)] return. *)
Inductive result (A E : Type) : Type :=
| Ok (a : A)
| Err (e : E).
Arguments Ok {A E} a.
Arguments Err {A E} e.

(** Dereferencing a pointer. *)
Definition deref {A} (p : option A) : outcome A :=
  match p with Some a => Ret a | None => Panic end.

(** ** Slices of bytes *)

(** Go's [len]. *)
Definition len {A} (l : list A) : Z := Z.of_nat (length l).

(** The [n] elements of [l] that start at [at_], without a bounds check. *)
Definition sub {A} (l : list A) (at_ n : Z) : list A :=
  take (Z.to_nat n) (drop (Z.to_nat at_) l).

(** The slice expression [l[lo:hi]]; it panics out of range. *)
Definition slice {A} (l : list A) (lo hi : Z) : outcome (list A) :=
  if (0 <=? lo) && (lo <=? hi) && (hi <=? len l)
  then Ret (sub l lo (hi - lo)) else Panic.

(** The slice expression [l[lo:]]. *)
Definition slice_from {A} (l : list A) (lo : Z) : outcome (list A) :=
  slice l lo (len l).

(** The index expression [l[i]]. *)
Definition index {A} (l : list A) (i : Z) : outcome A :=
  if 0 <=? i then
    match l !! Z.to_nat i with Some a => Ret a | None => Panic end
  else Panic.

(** Overwriting [bs] into [l] at [at_], without a bounds check. *)
Definition put {A} (l : list A) (at_ : Z) (bs : list A) : list A :=
  take (Z.to_nat at_) l ++ bs ++ drop (Z.to_nat at_ + length bs) l.

(** The assignment [l[at_:at_+len(bs)] = bs]: what an index store, a
    [binary.PutUintN] or a [copy] into a slice that is long enough does. It
    panics when the target range is not inside [l]. *)
Definition store {A} (l : list A) (at_ : Z) (bs : list A) : outcome (list A) :=
  if (0 <=? at_) && (at_ + len bs <=? len l)
  then Ret (put l at_ bs) else Panic.

(** [make([]byte, n)]. *)
Definition zeros (n : Z) : list byte := replicate (Z.to_nat n) Byte.x00.

(** ** Machine integers *)

(** Conversion to an unsigned width. *)
Definition u8 (z : Z) : Z := z mod 2 ^ 8.
Definition u16 (z : Z) : Z := z mod 2 ^ 16.
Definition u32 (z : Z) : Z := z mod 2 ^ 32.
Definition u64 (z : Z) : Z := z mod 2 ^ 64.

(** Two's-complement conversion to a signed width of [w] bits. *)
Definition swrap (w z : Z) : Z := (z + 2 ^ (w - 1)) mod 2 ^ w - 2 ^ (w - 1).
Definition s8 (z : Z) : Z := swrap 8 z.
Definition s16 (z : Z) : Z := swrap 16 z.
Definition s32 (z : Z) : Z := swrap 32 z.
Definition s64 (z : Z) : Z := swrap 64 z.

(** [binary.LittleEndian.UintN] on the first [n] bytes of a slice. *)
Definition le_uint (n : Z) (s : list byte) : outcome Z :=
  if n <=? len s then Ret (le_combine (sub s 0 n)) else Panic.

(** [binary.LittleEndian.PutUintN]'s bytes, least significant first. *)
Definition le_bytes (n : Z) (v : Z) : list byte := le_split (Z.to_nat n) v.

(** [binary.BigEndian.UintN] and [PutUintN]. *)
Definition be_uint (n : Z) (s : list byte) : outcome Z :=
  if n <=? len s then Ret (le_combine (rev (sub s 0 n))) else Panic.
Definition be_bytes (n : Z) (v : Z) : list byte := rev (le_split (Z.to_nat n) v).

(** Equality of byte strings as the code's [==] and [string(x) != y] test. *)
#[export] Instance byte_eq_dec : EqDecision byte := Byte.byte_eq_dec.
Definition bytes_eqb (a b : list byte) : bool := bool_decide (a = b).

(** Bytes as keys of maps. *)
#[export] Instance byte_countable : Countable byte.
Proof. apply (inj_countable Byte.to_N Byte.of_N); apply Byte.of_to_N. Defined.

Global Arguments le_bytes : simpl never.
Global Arguments be_bytes : simpl never.

(** ** Automation *)

Create HintDb zap discriminated.
Create HintDb zap_len discriminated.

(** Reflect the boolean tests of the code into propositions. *)
Ltac bool_to_prop :=
  repeat match goal with
  | H : (_ && _) = true |- _ => apply andb_true_iff in H; destruct H
  | H : (_ || _) = false |- _ => apply orb_false_iff in H; destruct H
  | H : (_ && _) = false |- _ => apply andb_false_iff in H
  | H : (_ || _) = true |- _ => apply orb_true_iff in H
  | H : negb _ = true |- _ => apply negb_true_iff in H
  | H : negb _ = false |- _ => apply negb_false_iff in H
  | H : (_ <=? _) = true |- _ => apply Z.leb_le in H
  | H : (_ <=? _) = false |- _ => apply Z.leb_gt in H
  | H : (_ <? _) = true |- _ => apply Z.ltb_lt in H
  | H : (_ <? _) = false |- _ => apply Z.ltb_ge in H
  | H : (_ =? _) = true |- _ => apply Z.eqb_eq in H
  | H : (_ =? _) = false |- _ => apply Z.eqb_neq in H
  end.

(** Split the conditionals of a hypothesis or of the goal. *)
Ltac case_if :=
  match goal with
  | H : context [if ?b then _ else _] |- _ =>
      lazymatch type of b with bool => destruct b eqn:? end
  | |- context [if ?b then _ else _] =>
      lazymatch type of b with bool => destruct b eqn:? end
  end; bool_to_prop.

(** Discharge a guard the context decides. *)
Ltac guard_true :=
  match goal with
  | |- context [if ?b then _ else _] =>
      replace b with true by (symmetry; rewrite ?andb_true_iff, ?Z.leb_le, ?Z.ltb_lt, ?Z.eqb_eq; lia)
  end.
Ltac guard_false :=
  match goal with
  | |- context [if ?b then _ else _] =>
      replace b with false by (symmetry; rewrite ?Z.leb_gt, ?Z.ltb_ge, ?Z.eqb_neq; lia)
  end.

(** ** Lemmas on slices *)

Lemma len_nonneg {A} (l : list A) : 0 <= len l.
Proof. unfold len; lia. Qed.
#[export] Hint Resolve len_nonneg : zap.

Lemma len_app {A} (l k : list A) : len (l ++ k) = len l + len k.
Proof. unfold len; rewrite length_app; lia. Qed.

Lemma len_cons {A} (a : A) l : len (a :: l) = 1 + len l.
Proof. unfold len; simpl; lia. Qed.

Lemma len_nil {A} : len (@nil A) = 0.
Proof. reflexivity. Qed.

Lemma len_zeros n : 0 <= n -> len (zeros n) = n.
Proof. intros; unfold len, zeros; rewrite length_replicate; lia. Qed.

Lemma len_sub {A} (l : list A) at_ n :
  0 <= at_ -> 0 <= n -> at_ + n <= len l -> len (sub l at_ n) = n.
Proof.
  intros; unfold len, sub in *; rewrite length_take, length_drop; lia.
Qed.

Lemma len_sub_le {A} (l : list A) at_ n : 0 <= n -> len (sub l at_ n) <= n.
Proof. intros; unfold len, sub in *; rewrite length_take, length_drop; lia. Qed.

Lemma len_put {A} (l : list A) at_ bs :
  0 <= at_ -> at_ + len bs <= len l -> len (put l at_ bs) = len l.
Proof.
  intros; unfold len, put in *; rewrite !length_app, length_take, length_drop; lia.
Qed.

Lemma len_le_bytes n v : 0 <= n -> len (le_bytes n v) = n.
Proof. intros; unfold len, le_bytes; rewrite length_le_split; lia. Qed.

Lemma len_be_bytes n v : 0 <= n -> len (be_bytes n v) = n.
Proof. intros; unfold len, be_bytes; rewrite length_rev, length_le_split; lia. Qed.

Lemma lookup_sub {A} (l : list A) at_ n (i : nat) :
  0 <= at_ ->
  sub l at_ n !! i =
    if decide (Z.of_nat i < n) then l !! (Z.to_nat at_ + i)%nat else None.
Proof.
  intros; unfold sub. rewrite lookup_take.
  repeat case_decide; rewrite ?lookup_drop; try done; lia.
Qed.

Lemma lookup_put {A} (l : list A) at_ bs (i : nat) :
  0 <= at_ -> at_ + len bs <= len l ->
  put l at_ bs !! i =
    if decide (at_ <= Z.of_nat i < at_ + len bs)
    then bs !! (i - Z.to_nat at_)%nat else l !! i.
Proof.
  unfold put, len; intros Hat Hl.
  destruct (decide (Z.of_nat i < at_)).
  { rewrite lookup_app_l by (rewrite length_take; lia).
    rewrite decide_False, lookup_take, decide_True by lia; done. }
  rewrite lookup_app_r by (rewrite length_take; lia).
  rewrite length_take, Nat.min_l by lia.
  case_decide.
  { rewrite lookup_app_l by lia; done. }
  rewrite lookup_app_r, lookup_drop by lia. f_equal; lia.
Qed.

(** Equality of byte strings built from [sub] and [put], decided index by
    index. *)
Ltac solve_slices :=
  apply list_eq; intros ?i;
  repeat (repeat (rewrite lookup_sub by lia); repeat (rewrite lookup_put by lia);
          try case_decide);
  try lia; try done; try (f_equal; lia).

Lemma sub_all {A} (l : list A) n : len l <= n -> sub l 0 n = l.
Proof. unfold sub, len; intros; rewrite drop_0, take_ge by lia; done. Qed.

Lemma sub_0_put {A} (l : list A) bs :
  len bs <= len l -> sub (put l 0 bs) 0 (len bs) = bs.
Proof.
  intros; unfold sub, put, len in *; rewrite drop_0; simpl.
  rewrite take_app_length' by lia; done.
Qed.

Lemma sub_put_same {A} (l : list A) at_ bs :
  0 <= at_ -> at_ + len bs <= len l -> sub (put l at_ bs) at_ (len bs) = bs.
Proof.
  intros. apply list_eq; intros i. rewrite lookup_sub, lookup_put by lia.
  repeat case_decide; try lia; try (f_equal; lia).
  symmetry; apply lookup_ge_None; unfold len in *; lia.
Qed.

Lemma sub_put_other {A} (l : list A) at_ bs lo n :
  0 <= at_ -> at_ + len bs <= len l -> 0 <= lo ->
  lo + n <= at_ \/ at_ + len bs <= lo ->
  sub (put l at_ bs) lo n = sub l lo n.
Proof. intros; solve_slices. Qed.

Lemma sub_sub {A} (l : list A) a n b k :
  0 <= a -> 0 <= b -> b + k <= n -> sub (sub l a n) b k = sub l (a + b) k.
Proof. intros; solve_slices. Qed.

Lemma sub_split {A} (l : list A) a n k :
  0 <= a -> 0 <= n -> 0 <= k -> sub l a (n + k) = sub l a n ++ sub l (a + n) k.
Proof.
  intros; unfold sub.
  rewrite !Z2Nat.inj_add, <- drop_drop by lia.
  symmetry; apply take_take_drop.
Qed.

Lemma sub_app_l {A} (l k : list A) a n :
  0 <= a -> a + n <= len l -> sub (l ++ k) a n = sub l a n.
Proof.
  intros. apply list_eq; intros i. rewrite !lookup_sub by lia.
  case_decide; [|done]. apply lookup_app_l. unfold len in *; lia.
Qed.

Lemma sub_app_r {A} (l k : list A) a n :
  len l <= a -> sub (l ++ k) a n = sub k (a - len l) n.
Proof.
  intros. pose proof (len_nonneg l).
  apply list_eq; intros i. rewrite !lookup_sub by lia.
  case_decide; [|done]. rewrite lookup_app_r by (unfold len in *; lia).
  f_equal; unfold len in *; lia.
Qed.

Lemma sub_prefix_eq {A} (l1 l2 : list A) n a k :
  sub l1 0 n = sub l2 0 n -> 0 <= a -> a + k <= n -> sub l1 a k = sub l2 a k.
Proof.
  intros H Ha Hk.
  pose proof (sub_sub l1 0 n a k) as H1; pose proof (sub_sub l2 0 n a k) as H2.
  rewrite Z.add_0_l in H1, H2; rewrite <- H1, <- H2, H by lia; done.
Qed.

(** ** Reading and writing integers *)

Lemma slice_ok {A} (l : list A) lo hi :
  0 <= lo <= hi -> hi <= len l -> slice l lo hi = Ret (sub l lo (hi - lo)).
Proof. intros; unfold slice; guard_true; done. Qed.

Lemma slice_from_ok {A} (l : list A) lo :
  0 <= lo <= len l -> slice_from l lo = Ret (sub l lo (len l - lo)).
Proof. intros; apply slice_ok; lia. Qed.

Lemma store_ok {A} (l : list A) at_ bs :
  0 <= at_ -> at_ + len bs <= len l -> store l at_ bs = Ret (put l at_ bs).
Proof. intros; unfold store; guard_true; done. Qed.

Lemma index_ok {A} (l : list A) i :
  0 <= i < len l -> exists a, index l i = Ret a /\ l !! Z.to_nat i = Some a.
Proof.
  intros; unfold index; guard_true.
  destruct (lookup_lt_is_Some_2 l (Z.to_nat i)) as [a ->]; [unfold len in *; lia|eauto].
Qed.

(** A fixed-width read at [at_] of a long enough string. *)
Lemma le_uint_sub l at_ n k :
  0 <= at_ -> 0 <= n <= k -> at_ + k <= len l ->
  le_uint n (sub l at_ k) = Ret (le_combine (sub l at_ n)).
Proof.
  intros; unfold le_uint; rewrite len_sub by lia; guard_true.
  rewrite sub_sub, Z.add_0_r by lia; done.
Qed.

Lemma le_combine_le_bytes n v :
  0 <= n -> le_combine (le_bytes n v) = v mod 2 ^ (8 * n).
Proof.
  intros; unfold le_bytes; rewrite le_combine_split; f_equal; f_equal; lia.
Qed.

Lemma le_combine_range l : 0 <= le_combine l < 2 ^ (8 * len l).
Proof. unfold len; apply le_combine_bound. Qed.

Lemma le_combine_sub_range l at_ n :
  0 <= n -> 0 <= le_combine (sub l at_ n) < 2 ^ (8 * n).
Proof.
  intros; pose proof (le_combine_range (sub l at_ n)).
  pose proof (len_sub_le l at_ n ltac:(lia)); pose proof (len_nonneg (sub l at_ n)).
  assert (2 ^ (8 * len (sub l at_ n)) <= 2 ^ (8 * n)) by (apply Z.pow_le_mono_r; lia).
  lia.
Qed.

Lemma be_bytes_uint n v :
  0 <= n -> be_uint n (be_bytes n v) = Ret (v mod 2 ^ (8 * n)).
Proof.
  intros; unfold be_uint; rewrite len_be_bytes by lia; rewrite Z.leb_refl.
  rewrite sub_all by (rewrite len_be_bytes; lia).
  unfold be_bytes; rewrite rev_involutive.
  fold (le_bytes n v); rewrite le_combine_le_bytes by lia; done.
Qed.

Lemma s32_u32 z : - 2 ^ 31 <= z < 2 ^ 31 -> s32 (u32 z) = z.
Proof.
  intros; unfold s32, swrap, u32; simpl Z.sub.
  rewrite Zplus_mod_idemp_l, Z.mod_small; lia.
Qed.

Lemma s32_range z : - 2 ^ 31 <= s32 z < 2 ^ 31.
Proof.
  unfold s32, swrap; pose proof (Z.mod_pos_bound (z + 2 ^ (32 - 1)) (2 ^ 32) eq_refl); lia.
Qed.

(** ** Symbolic evaluation of bounds-checked code *)

Lemma if_orb {A} (a b : bool) (x y : A) :
  (if a || b then x else y) = (if a then x else if b then x else y).
Proof. destruct a; done. Qed.

(** Evaluate the difference of two literals, as slicing at constants leaves. *)
Ltac const_sub :=
  match goal with
  | |- context [Zpos ?a - 0] => rewrite (Z.sub_0_r (Zpos a))
  | |- context [Zpos ?a - Zpos ?b] =>
      let r := eval vm_compute in (Zpos a - Zpos b) in
      change (Zpos a - Zpos b) with r
  end.

(** One step: resolve a bounds-checked operation whose bounds the context
    decides, or split the next guard of the code. *)
Ltac go_step :=
  first
    [ progress (unfold mbind, outcome_bind)
    | rewrite if_orb
    | const_sub
    | rewrite slice_from_ok by lia
    | rewrite slice_ok by lia
    | rewrite le_uint_sub by lia
    | case_if ].
Ltac go_eval := repeat go_step; try reflexivity; try lia.

(** The unsigned little-endian integer of width [n] at [pos]. *)
Definition rd (n : Z) (d : list byte) (pos : Z) : Z := le_combine (sub d pos n).

Lemma rd_range n d pos : 0 <= n -> 0 <= rd n d pos < 2 ^ (8 * n).
Proof. apply le_combine_sub_range. Qed.

(** The operation returns; Go does not panic. *)
Definition is_ret {A} (x : outcome A) : Prop := exists a, x = Ret a.

Lemma is_ret_bind {A B} (x : outcome A) (k : A -> outcome B) :
  is_ret x -> (forall a, is_ret (k a)) -> is_ret (x ≫= k).
Proof. intros [a ->] Hk; apply Hk. Qed.

Lemma is_ret_eq {A} (x : outcome A) a : x = Ret a -> is_ret x.
Proof. intros ->; exists a; done. Qed.
#[export] Hint Resolve is_ret_bind is_ret_eq : zap.
#[export] Hint Extern 1 (is_ret (Ret _)) => (eexists; reflexivity) : zap.

(** ** Big-endian reads *)

(** The unsigned big-endian integer of width [n] at [pos]. *)
Definition be_rd (n : Z) (d : list byte) (pos : Z) : Z := le_combine (rev (sub d pos n)).

Global Arguments be_rd : simpl never.

Lemma be_uint_sub l at_ n k :
  0 <= at_ -> 0 <= n <= k -> at_ + k <= len l ->
  be_uint n (sub l at_ k) = Ret (be_rd n l at_).
Proof.
  intros; unfold be_uint, be_rd; rewrite len_sub by lia; guard_true.
  rewrite sub_sub, Z.add_0_r by lia; done.
Qed.

Lemma be_rd_range n d pos : 0 <= n -> 0 <= be_rd n d pos < 2 ^ (8 * n).
Proof.
  intros; unfold be_rd; pose proof (le_combine_range (rev (sub d pos n))) as H'.
  assert (len (rev (sub d pos n)) <= n)
    by (unfold len; rewrite length_rev; apply (len_sub_le d pos n); lia).
  assert (2 ^ (8 * len (rev (sub d pos n))) <= 2 ^ (8 * n)) by (apply Z.pow_le_mono_r; lia).
  lia.
Qed.

Lemma be_rd_be_bytes n d pos v :
  0 <= n -> sub d pos n = be_bytes n v -> be_rd n d pos = v mod 2 ^ (8 * n).
Proof.
  intros Hn H; unfold be_rd; rewrite H; unfold be_bytes; rewrite rev_involutive.
  fold (le_bytes n v); apply le_combine_le_bytes; done.
Qed.

Lemma be_bytes_be_rd n d pos :
  0 <= n -> 0 <= pos -> pos + n <= len d -> be_bytes n (be_rd n d pos) = sub d pos n.
Proof.
  intros; unfold be_bytes, be_rd.
  replace (Z.to_nat n) with (length (rev (sub d pos n)))
    by (rewrite length_rev; pose proof (len_sub d pos n ltac:(lia) ltac:(lia) ltac:(lia)); unfold len in *; lia).
  rewrite split_le_combine, rev_involutive; done.
Qed.

(** ** Taking a concatenation apart and together *)

Lemma len_single {A} (a : A) : len [a] = 1.
Proof. done. Qed.

Lemma sub_app_hd {A} (l k : list A) n : len l = n -> sub (l ++ k) 0 n = l.
Proof. intros; rewrite sub_app_l by lia; apply sub_all; lia. Qed.

Lemma sub_join {A} (l : list A) a n c k :
  0 <= a -> 0 <= n -> 0 <= k -> c = a + n -> sub l a n ++ sub l c k = sub l a (n + k).
Proof. intros; subst; rewrite sub_split by lia; done. Qed.

Lemma sub_index {A} (l : list A) i a : 0 <= i -> index l i = Ret a -> sub l i 1 = [a].
Proof.
  intros Hi; unfold index, sub; guard_true.
  destruct (l !! Z.to_nat i) as [b|] eqn:E; [|done].
  rewrite (drop_S _ _ _ E); intros; simplify_eq; done.
Qed.

Lemma index_app_r {A} (l k : list A) i : len l <= i -> index (l ++ k) i = index k (i - len l).
Proof.
  intros; pose proof (len_nonneg l); unfold index; do 2 guard_true.
  rewrite lookup_app_r by (unfold len in *; lia).
  replace (Z.to_nat i - length l)%nat with (Z.to_nat (i - len l)) by (unfold len in *; lia); done.
Qed.

(** ** Single elements *)

(** The byte at [i] of a string that is long enough. *)
Definition byte_at (l : list byte) (i : Z) : byte := default Byte.x00 (l !! Z.to_nat i).

Lemma index_byte_at l i : 0 <= i < len l -> index l i = Ret (byte_at l i).
Proof.
  intros; unfold byte_at; destruct (index_ok l i) as (b & -> & ->); done.
Qed.

Lemma sub_byte_at l i : 0 <= i < len l -> sub l i 1 = [byte_at l i].
Proof. intros; apply sub_index; [lia|apply index_byte_at; done]. Qed.

(** ** Filling a buffer from the front *)

Lemma put_0 {A} (l v : list A) : put l 0 v = v ++ drop (length v) l.
Proof. unfold put; simpl; done. Qed.

Lemma put_skip {A} (x l v : list A) n : len x = n -> put (x ++ l) n v = x ++ put l 0 v.
Proof.
  intros <-; unfold put, len; rewrite !Nat2Z.id, take_app_length; simpl.
  rewrite drop_app_add; done.
Qed.

Definition list_sum_Z (l : list Z) : Z := foldr Z.add 0 l.

(** The bytes of an ASCII literal. *)
Definition ascii (s : String.string) : list byte := String.list_byte_of_string s.
Global Arguments ascii : simpl never.

(** [n] times the byte [b]. *)
Definition rep (n : nat) (b : byte) : list byte := replicate n b.

Lemma len_rep n b : len (rep n b) = Z.of_nat n.
Proof. unfold len, rep; rewrite length_replicate; done. Qed.

(** ** Arrays and hashes *)

(** A fixed-size array filled from a slice with [copy]. *)
Definition to_array (n : Z) (s : list byte) : list byte :=
  sub s 0 n ++ zeros (n - len s).

Lemma to_array_id n s : len s = n -> to_array n s = s.
Proof.
  intros <-; unfold to_array, zeros; rewrite sub_all by lia.
  replace (Z.to_nat _) with 0%nat by lia; apply app_nil_r.
Qed.

Lemma len_to_array n s : 0 <= n -> len (to_array n s) = n.
Proof.
  intros; unfold to_array, zeros; rewrite len_app.
  unfold len at 2; rewrite length_replicate.
  unfold sub; rewrite drop_0; unfold len; rewrite length_take; lia.
Qed.

Lemma app_eq_len {A} (x y x' y' : list A) :
  len x = len x' -> x ++ y = x' ++ y' -> x = x' /\ y = y'.
Proof. intros Hl Ha; apply app_inj_1 in Ha; [done|unfold len in Hl; lia]. Qed.

(** [x] and [y] are a collision of the hash [h]. Collisions of a hash always
    exist, so what a hash binds is stated with the two inputs that would have to
    collide. *)
Definition collides (h : list byte -> list byte) (x y : list byte) : Prop := x <> y /\ h x = h y.

Lemma hash_eq (h : list byte -> list byte) x y : h x = h y -> x = y \/ collides h x y.
Proof. intros He; destruct (decide (x = y)); [auto|right; done]. Qed.

Lemma be_bytes_inj n v w :
  0 <= n -> 0 <= v < 2 ^ (8 * n) -> 0 <= w < 2 ^ (8 * n) ->
  be_bytes n v = be_bytes n w -> v = w.
Proof.
  intros Hn Hv Hw He; pose proof (be_bytes_uint n v Hn) as Hu.
  rewrite He, (be_bytes_uint n w Hn), !Z.mod_small in Hu by lia; injection Hu; done.
Qed.
