(* ===== verification/Wire.v ===== *)
(** * Wire: the zero-copy reader of [zap.go]

    [Parse], [ParseHeader] and the [Message], [Object] and [List] accessors.
    A Go pointer to a message is an [option Message]; a byte slice that may be
    [nil] is an [option (list byte)]; a Go [int] is a [Z]; an operation that
    indexes memory yields an [outcome], [Panic] when Go would panic. *)

From S2P Require Import Prelude.

(** ** Constants and data *)

Definition HeaderSize : Z := 16.
(** "ZAP\x00" *)
Definition Magic : list byte := [Byte.x5a; Byte.x41; Byte.x50; Byte.x00].
Definition Version1 : Z := 1.
Definition Version2 : Z := 2.
Definition Alignment : Z := 8.

Inductive zap_error : Type :=
| ErrInvalidMagic
| ErrInvalidVersion
| ErrBufferTooSmall
| ErrOutOfBounds
| ErrInvalidOffset.

(** A message: its bytes and the handle of the pooled slab under it, [None]
    for bytes the garbage collector manages. *)
Record Message : Type := mkMessage {
  data : list byte;
  refs : option nat
}.

(** A view of a struct; [msg] is [None] in Go's zero [Object{}]. *)
Record Object : Type := mkObject {
  msg : option Message;
  offset : Z
}.
Definition Object_zero : Object := mkObject None 0.

Record List : Type := mkList {
  lmsg : option Message;
  loffset : Z;
  llength : Z
}.
Definition List_zero : List := mkList None 0 0.

(** ** Parsing *)

Definition Parse (d : list byte) : outcome (result Message zap_error) :=
  if len d <? HeaderSize then Ret (Err ErrBufferTooSmall) else
  magic ← slice d 0 4;
  if negb (bytes_eqb magic Magic) then Ret (Err ErrInvalidMagic) else
  vs ← slice d 4 6; version ← le_uint 2 vs;
  if negb (version =? Version1) && negb (version =? Version2)
  then Ret (Err ErrInvalidVersion) else
  ss ← slice d 12 16; size ← le_uint 4 ss;
  if (size <? HeaderSize) || (len d <? size) then Ret (Err ErrBufferTooSmall) else
  body ← slice d 0 size;
  Ret (Ok (mkMessage body None)).

Definition parseHeaderImpl (d : list byte)
  : outcome (result (list byte * Z) zap_error) :=
  if len d <? HeaderSize then Ret (Err ErrBufferTooSmall) else
  magic ← slice d 0 4;
  if negb (bytes_eqb magic Magic) then Ret (Err ErrInvalidMagic) else
  vs ← slice d 4 6; version ← le_uint 2 vs;
  if negb (version =? Version1) && negb (version =? Version2)
  then Ret (Err ErrInvalidVersion) else
  ss ← slice d 12 16; size ← le_uint 4 ss;
  if (size <? HeaderSize) || (len d <? size) then Ret (Err ErrBufferTooSmall) else
  rs ← slice d 8 12; rootOff ← le_uint 4 rs;
  body ← slice d 0 size;
  Ret (Ok (body, rootOff)).

Definition ParseHeader (d : list byte)
  : outcome (result (list byte * Z) zap_error) := parseHeaderImpl d.

Definition WrapBuffer (d : list byte) : Message := mkMessage d None.

(** ** Message accessors *)

Definition Message_Version (m : Message) : outcome Z :=
  s ← slice (data m) 4 6; le_uint 2 s.

Definition Message_Bytes (m : Message) : list byte := data m.

Definition Message_Size (m : Message) : Z := len (data m).

Definition Message_Flags (m : Message) : outcome Z :=
  s ← slice (data m) 6 8; le_uint 2 s.

Definition Message_Root (m : Message) : outcome Object :=
  s ← slice (data m) 8 12; off ← le_uint 4 s;
  Ret (mkObject (Some m) off).

Definition RootObjectAt (m : Message) (off : Z) : Object := mkObject (Some m) off.

(** ** Object accessors *)

(** [o.msg.data] *)
Definition odata (o : Object) : outcome (list byte) :=
  m ← deref (msg o); Ret (data m).

Definition Object_IsNull (o : Object) : bool := offset o =? 0.

Definition Object_Offset (o : Object) : Z := offset o.

Definition Object_Message (o : Object) : option Message := msg o.

Definition Object_Uint8 (o : Object) (fieldOffset : Z) : outcome Z :=
  let pos := offset o + fieldOffset in
  d ← odata o;
  if len d <=? pos then Ret 0 else
  b ← index d pos; Ret (byte.unsigned b).

Definition Object_Bool (o : Object) (fieldOffset : Z) : outcome bool :=
  v ← Object_Uint8 o fieldOffset; Ret (negb (v =? 0)).

(** The body [Uint16], [Uint32] and [Uint64] share, at width [n]. *)
Definition Object_UintN (n : Z) (o : Object) (fieldOffset : Z) : outcome Z :=
  let pos := offset o + fieldOffset in
  d ← odata o;
  if len d <? pos + n then Ret 0 else
  s ← slice_from d pos; le_uint n s.

Definition Object_Uint16 := Object_UintN 2.
Definition Object_Uint32 := Object_UintN 4.
Definition Object_Uint64 := Object_UintN 8.

Definition Object_Int8 (o : Object) (f : Z) : outcome Z :=
  v ← Object_Uint8 o f; Ret (s8 v).
Definition Object_Int16 (o : Object) (f : Z) : outcome Z :=
  v ← Object_Uint16 o f; Ret (s16 v).
Definition Object_Int32 (o : Object) (f : Z) : outcome Z :=
  v ← Object_Uint32 o f; Ret (s32 v).
Definition Object_Int64 (o : Object) (f : Z) : outcome Z :=
  v ← Object_Uint64 o f; Ret (s64 v).

(** Floats are their IEEE 754 bit patterns. *)
Definition Object_Float32 (o : Object) (f : Z) : outcome Z := Object_Uint32 o f.
Definition Object_Float64 (o : Object) (f : Z) : outcome Z := Object_Uint64 o f.

Definition Object_BytesFixedSlice (o : Object) (fieldOffset n : Z)
  : outcome (option (list byte)) :=
  if n <=? 0 then Ret None else
  let pos := offset o + fieldOffset in
  d ← odata o;
  if len d <? pos + n then Ret None else
  s ← slice d pos (pos + n); Ret (Some s).

Definition Object_Bytes (o : Object) (fieldOffset : Z)
  : outcome (option (list byte)) :=
  let pos := offset o + fieldOffset in
  d ← odata o;
  if len d <? pos + 4 then Ret None else
  s ← slice_from d pos; relOffset ← le_uint 4 s;
  if relOffset =? 0 then Ret None else
  let lenPos := pos + 4 in
  if len d <? lenPos + 4 then Ret None else
  s' ← slice_from d lenPos; length ← le_uint 4 s';
  let absPos := pos + relOffset in
  if absPos <? HeaderSize then Ret None else
  if len d <? absPos + length then Ret None else
  b ← slice d absPos (absPos + length); Ret (Some b).

(** The zero-copy string over the bytes; [""] for an absent or empty field. *)
Definition Object_Text (o : Object) (fieldOffset : Z) : outcome (list byte) :=
  ob ← Object_Bytes o fieldOffset;
  Ret (default [] ob).

Definition Object_Object (o : Object) (fieldOffset : Z) : outcome Object :=
  let pos := offset o + fieldOffset in
  d ← odata o;
  if len d <? pos + 4 then Ret Object_zero else
  s ← slice_from d pos; raw ← le_uint 4 s;
  let relOffset := s32 raw in
  if relOffset =? 0 then Ret Object_zero else
  let absOffset := pos + relOffset in
  if (absOffset <? HeaderSize) || (len d <=? absOffset) then Ret Object_zero else
  Ret (mkObject (msg o) absOffset).

Definition Object_List (o : Object) (fieldOffset : Z) : outcome List :=
  let pos := offset o + fieldOffset in
  d ← odata o;
  if len d <? pos + 8 then Ret List_zero else
  s ← slice_from d pos; raw ← le_uint 4 s;
  let relOffset := s32 raw in
  if relOffset =? 0 then Ret List_zero else
  s' ← slice_from d (pos + 4); length ← le_uint 4 s';
  if len d <? length then Ret List_zero else
  let absOffset := pos + relOffset in
  if (absOffset <? HeaderSize) || (len d <=? absOffset) then Ret List_zero else
  Ret (mkList (msg o) absOffset length).

Definition Object_ListStride (o : Object) (fieldOffset minStride : Z) : outcome List :=
  let pos := offset o + fieldOffset in
  d ← odata o;
  if len d <? pos + 8 then Ret List_zero else
  s ← slice_from d pos; raw ← le_uint 4 s;
  let relOffset := s32 raw in
  if relOffset =? 0 then Ret List_zero else
  s' ← slice_from d (pos + 4); length ← le_uint 4 s';
  let absOffset := pos + relOffset in
  if (absOffset <? HeaderSize) || (len d <=? absOffset) then Ret List_zero else
  let bufRem := u64 (len d - absOffset) in
  if (if 0 <? minStride
      then bufRem <? u64 (length * minStride)
      else len d <? length)
  then Ret List_zero
  else Ret (mkList (msg o) absOffset length).

(** ** List accessors *)

Definition ldata (l : List) : outcome (list byte) :=
  m ← deref (lmsg l); Ret (data m).

Definition List_Len (l : List) : Z := llength l.

Definition List_IsNull (l : List) : bool :=
  match lmsg l with None => true | Some _ => false end.

(** The guard [i < 0 || i >= l.length] every element accessor starts with. *)
Definition out_of_list (l : List) (i : Z) : bool := (i <? 0) || (llength l <=? i).

Definition List_Uint8 (l : List) (i : Z) : outcome Z :=
  if out_of_list l i then Ret 0 else
  let pos := loffset l + i in
  d ← ldata l;
  if len d <=? pos then Ret 0 else
  b ← index d pos; Ret (byte.unsigned b).

(** The body [Uint32] and [Uint64] share, at width [n]. *)
Definition List_UintN (n : Z) (l : List) (i : Z) : outcome Z :=
  if out_of_list l i then Ret 0 else
  let pos := loffset l + i * n in
  d ← ldata l;
  if len d <? pos + n then Ret 0 else
  s ← slice_from d pos; le_uint n s.

Definition List_Uint32 := List_UintN 4.
Definition List_Uint64 := List_UintN 8.

Definition List_Object (l : List) (i elemSize : Z) : Object :=
  if out_of_list l i then Object_zero else
  mkObject (lmsg l) (loffset l + i * elemSize).

Definition List_ObjectPtr (l : List) (i : Z) : outcome Object :=
  if out_of_list l i then Ret Object_zero else
  let pos := loffset l + i * 4 in
  d ← ldata l;
  if len d <? pos + 4 then Ret Object_zero else
  s ← slice_from d pos; raw ← le_uint 4 s;
  let rel := s32 raw in
  if rel =? 0 then Ret Object_zero else
  let absOffset := pos + rel in
  if (absOffset <? HeaderSize) || (len d <=? absOffset) then Ret Object_zero else
  Ret (mkObject (lmsg l) absOffset).

Definition List_Bytes (l : List) : outcome (option (list byte)) :=
  match lmsg l with
  | None => Ret None
  | Some m =>
      if len (data m) <? loffset l + llength l then Ret None else
      b ← slice (data m) (loffset l) (loffset l + llength l); Ret (Some b)
  end.

(** ** The accessors as equations *)

Section accessor_equations.
Context (o : Object) (m : Message) (f : Z).
Hypothesis Hmsg : msg o = Some m.
Hypothesis Hpos : 0 <= offset o + f.
Let d := data m.
Let pos := offset o + f.

Lemma odata_eq : odata o = Ret d.
Proof. unfold odata; rewrite Hmsg; done. Qed.

Lemma Object_Uint8_eq :
  Object_Uint8 o f =
    Ret (if len d <=? pos then 0 else rd 1 d pos).
Proof.
  unfold Object_Uint8; rewrite odata_eq; fold pos d. unfold mbind, outcome_bind.
  case_if; [done|].
  destruct (index_ok d pos) as (b & -> & Hb); [lia|].
  unfold rd, sub. rewrite (drop_S _ _ _ Hb). simpl.
  rewrite le_combine_1; done.
Qed.

Lemma Object_UintN_eq n :
  0 <= n ->
  Object_UintN n o f = Ret (if len d <? pos + n then 0 else rd n d pos).
Proof.
  intros; unfold Object_UintN, rd; rewrite odata_eq; fold pos d; go_eval.
Qed.

Lemma Object_BytesFixedSlice_eq n :
  Object_BytesFixedSlice o f n =
    Ret (if (n <=? 0) || (len d <? pos + n) then None else Some (sub d pos n)).
Proof.
  unfold Object_BytesFixedSlice; rewrite odata_eq; fold pos d; go_eval.
  do 3 f_equal; lia.
Qed.

Lemma Object_Bytes_eq :
  Object_Bytes o f =
    Ret (let rel := rd 4 d pos in
         let length := rd 4 d (pos + 4) in
         if (len d <? pos + 4) || (rel =? 0) || (len d <? pos + 8)
            || (pos + rel <? HeaderSize) || (len d <? pos + rel + length)
         then None else Some (sub d (pos + rel) length)).
Proof.
  unfold Object_Bytes; rewrite odata_eq; fold pos d.
  pose proof (rd_range 4 d pos ltac:(lia)); pose proof (rd_range 4 d (pos + 4) ltac:(lia)).
  change (pos + 8) with (pos + (4 + 4)); rewrite Z.add_assoc.
  unfold rd in *; cbv zeta; go_eval. do 3 f_equal; lia.
Qed.

Lemma Object_Object_eq :
  Object_Object o f =
    Ret (let abs := pos + s32 (rd 4 d pos) in
         if (len d <? pos + 4) || (s32 (rd 4 d pos) =? 0)
            || (abs <? HeaderSize) || (len d <=? abs)
         then Object_zero else mkObject (Some m) abs).
Proof.
  unfold Object_Object; rewrite odata_eq; fold pos d; rewrite Hmsg.
  unfold rd in *; cbv zeta; go_eval.
Qed.

Lemma Object_List_eq :
  Object_List o f =
    Ret (let abs := pos + s32 (rd 4 d pos) in
         let length := rd 4 d (pos + 4) in
         if (len d <? pos + 8) || (s32 (rd 4 d pos) =? 0)
            || (len d <? length) || (abs <? HeaderSize) || (len d <=? abs)
         then List_zero else mkList (Some m) abs length).
Proof.
  unfold Object_List; rewrite odata_eq; fold pos d; rewrite Hmsg.
  unfold rd in *; cbv zeta; go_eval.
Qed.

Lemma Object_ListStride_eq stride :
  0 <= stride < 2 ^ 32 -> len d < 2 ^ 63 ->
  Object_ListStride o f stride =
    Ret (let abs := pos + s32 (rd 4 d pos) in
         let length := rd 4 d (pos + 4) in
         if (len d <? pos + 8) || (s32 (rd 4 d pos) =? 0)
            || (abs <? HeaderSize) || (len d <=? abs)
            || (if 0 <? stride then len d - abs <? length * stride
                else len d <? length)
         then List_zero else mkList (Some m) abs length).
Proof.
  intros Hs Hd.
  unfold Object_ListStride; rewrite odata_eq; fold pos d; rewrite Hmsg.
  pose proof (rd_range 4 d (pos + 4) ltac:(lia)) as Hr.
  assert (Hu : forall x, 0 <= x -> 0 <= len d - x ->
    (u64 (len d - x) <? u64 (rd 4 d (pos + 4) * stride))
      = (len d - x <? rd 4 d (pos + 4) * stride)).
  { intros; unfold u64; rewrite !Z.mod_small by nia; done. }
  unfold rd, HeaderSize in *; cbv zeta.
  destruct (0 <? stride); repeat first [rewrite Hu by lia | go_step]; try done; lia.
Qed.
End accessor_equations.

Section list_equations.
Context (l : List) (m : Message) (i : Z).
Hypothesis Hmsg : lmsg l = Some m.
Hypothesis Hoff : 0 <= loffset l.
Let d := data m.

Lemma ldata_eq : ldata l = Ret d.
Proof. unfold ldata; rewrite Hmsg; done. Qed.

Lemma List_Uint8_eq :
  List_Uint8 l i =
    Ret (if out_of_list l i || (len d <=? loffset l + i) then 0
         else rd 1 d (loffset l + i)).
Proof.
  unfold List_Uint8; rewrite ldata_eq. unfold mbind, outcome_bind, out_of_list.
  rewrite !if_orb. repeat case_if; try done.
  destruct (index_ok d (loffset l + i)) as (b & -> & Hb); [lia|].
  unfold rd, sub. rewrite (drop_S _ _ _ Hb). simpl. rewrite le_combine_1; done.
Qed.

Lemma List_UintN_eq n :
  0 <= n ->
  List_UintN n l i =
    Ret (if out_of_list l i || (len d <? loffset l + i * n + n) then 0
         else rd n d (loffset l + i * n)).
Proof.
  intros; unfold List_UintN, rd; rewrite ldata_eq, if_orb.
  destruct (out_of_list l i) eqn:E; [done|].
  unfold out_of_list in E; bool_to_prop. assert (0 <= i * n) by nia. go_eval.
Qed.

Lemma List_ObjectPtr_eq :
  List_ObjectPtr l i =
    Ret (let pos := loffset l + i * 4 in
         let abs := pos + s32 (rd 4 d pos) in
         if out_of_list l i || (len d <? pos + 4) || (s32 (rd 4 d pos) =? 0)
            || (abs <? HeaderSize) || (len d <=? abs)
         then Object_zero else mkObject (Some m) abs).
Proof.
  unfold List_ObjectPtr, rd; rewrite ldata_eq, Hmsg; cbv zeta.
  destruct (out_of_list l i) eqn:E; [done|].
  unfold out_of_list in E; bool_to_prop. simpl orb. go_eval.
Qed.
End list_equations.

(** ** Parsing, as an equation *)

Lemma Parse_eq d :
  Parse d = Ret (
    if len d <? HeaderSize then Err ErrBufferTooSmall else
    if negb (bytes_eqb (sub d 0 4) Magic) then Err ErrInvalidMagic else
    if negb (rd 2 d 4 =? Version1) && negb (rd 2 d 4 =? Version2)
    then Err ErrInvalidVersion else
    if (rd 4 d 12 <? HeaderSize) || (len d <? rd 4 d 12)
    then Err ErrBufferTooSmall else
    Ok (mkMessage (sub d 0 (rd 4 d 12)) None)).
Proof.
  unfold Parse, rd. destruct (len d <? HeaderSize) eqn:E; [done|].
  unfold HeaderSize in *; bool_to_prop.
  go_eval. rewrite Z.sub_0_r; done.
Qed.

Lemma Parse_Ok_inv d m :
  Parse d = Ret (Ok m) ->
  HeaderSize <= rd 4 d 12 <= len d /\ sub d 0 4 = Magic
  /\ (rd 2 d 4 = Version1 \/ rd 2 d 4 = Version2)
  /\ m = mkMessage (sub d 0 (rd 4 d 12)) None.
Proof.
  rewrite Parse_eq; intros H; simplify_eq.
  repeat case_if; simplify_eq; unfold HeaderSize, bytes_eqb in *.
  match goal with H : bool_decide _ = true |- _ => apply bool_decide_eq_true in H end.
  repeat split; try lia; try done.
Qed.

Lemma Parse_Ok_intro d :
  HeaderSize <= rd 4 d 12 <= len d -> sub d 0 4 = Magic ->
  rd 2 d 4 = Version1 \/ rd 2 d 4 = Version2 ->
  Parse d = Ret (Ok (mkMessage (sub d 0 (rd 4 d 12)) None)).
Proof.
  intros Hs Hm Hv; rewrite Parse_eq, Hm; unfold HeaderSize in *.
  guard_false. replace (bytes_eqb Magic Magic) with true by done; simpl.
  replace (negb _ && negb _) with false
    by (destruct Hv as [-> | ->]; done).
  rewrite if_orb; do 2 guard_false; done.
Qed.

Lemma Parse_Ok_data d m :
  Parse d = Ret (Ok m) -> HeaderSize <= len (data m) <= len d.
Proof.
  intros (? & ? & ? & ->)%Parse_Ok_inv; unfold HeaderSize in *; simpl.
  rewrite len_sub; lia.
Qed.

(** ** Objects a reader can reach *)

(** The views a reader obtains from a message by following [Root], nested
    objects and list elements, each checked with [IsNull] before it is used,
    as the accessors' contract asks. *)
Inductive reachable (m : Message) : Object -> Prop :=
| reach_root o :
    Message_Root m = Ret o -> reachable m o
| reach_object o f o' :
    reachable m o -> 0 <= f ->
    Object_Object o f = Ret o' -> Object_IsNull o' = false -> reachable m o'
| reach_elem o f l i sz :
    reachable m o -> 0 <= f -> Object_List o f = Ret l ->
    0 <= sz -> Object_IsNull (List_Object l i sz) = false ->
    reachable m (List_Object l i sz)
| reach_ptr o f l i o' :
    reachable m o -> 0 <= f -> Object_List o f = Ret l ->
    List_ObjectPtr l i = Ret o' -> Object_IsNull o' = false -> reachable m o'.

(** A list view is null or starts behind the header of [m]. *)
Definition list_inside (m : Message) (l : List) : Prop :=
  l = List_zero \/
  (lmsg l = Some m /\ HeaderSize <= loffset l < len (data m)
   /\ 0 <= llength l <= len (data m)).

(** An object view is null or starts behind the header of [m]. *)
Definition object_inside (m : Message) (o : Object) : Prop :=
  o = Object_zero \/ (msg o = Some m /\ HeaderSize <= offset o < len (data m)).

Section inside.
Context (o : Object) (m : Message) (f : Z).
Hypothesis Hmsg : msg o = Some m.
Hypothesis Hpos : 0 <= offset o + f.

Lemma Object_List_inside : exists l, Object_List o f = Ret l /\ list_inside m l.
Proof.
  eexists; split; [apply (Object_List_eq o m f Hmsg Hpos)|]; cbv zeta.
  pose proof (rd_range 4 (data m) (offset o + f + 4) ltac:(lia)).
  unfold list_inside; case_if; [auto|]; right; simpl; repeat split; lia.
Qed.

Lemma Object_Object_inside : exists o', Object_Object o f = Ret o' /\ object_inside m o'.
Proof.
  eexists; split; [apply (Object_Object_eq o m f Hmsg Hpos)|]; cbv zeta.
  unfold object_inside; case_if; [auto|]; right; simpl; split; [done|lia].
Qed.

Lemma Object_ListStride_inside stride :
  0 <= stride < 2 ^ 32 -> len (data m) < 2 ^ 63 ->
  exists l, Object_ListStride o f stride = Ret l /\ list_inside m l.
Proof.
  intros; eexists; split; [apply (Object_ListStride_eq o m f Hmsg Hpos); done|]; cbv zeta.
  pose proof (rd_range 4 (data m) (offset o + f + 4) ltac:(lia)).
  unfold list_inside; case_if; [auto|]; right; simpl; repeat split; try lia.
  case_if; [|lia].
  assert (rd 4 (data m) (offset o + f + 4) * 1 <= rd 4 (data m) (offset o + f + 4) * stride)
    by (apply Z.mul_le_mono_nonneg_l; lia).
  unfold HeaderSize in *; lia.
Qed.
End inside.

Lemma List_ObjectPtr_inside m l i :
  list_inside m l -> exists o, List_ObjectPtr l i = Ret o /\ object_inside m o.
Proof.
  intros [->|(Hm & Ho & Hl)].
  { exists Object_zero; unfold List_ObjectPtr, out_of_list, object_inside; simpl.
    destruct (i <? 0) eqn:?; simpl; [auto|]. bool_to_prop. guard_true; auto. }
  eexists; split; [apply (List_ObjectPtr_eq l m i Hm); unfold HeaderSize in *; lia|].
  cbv zeta; unfold object_inside; case_if; [auto|]; right; simpl; split; [done|lia].
Qed.

Lemma object_inside_nonnull m o :
  object_inside m o -> Object_IsNull o = false -> msg o = Some m /\ 0 <= offset o.
Proof. intros [->|[? ?]]; [done|]; unfold HeaderSize in *; split; [done|lia]. Qed.

Lemma reachable_wf m o :
  HeaderSize <= len (data m) -> reachable m o -> msg o = Some m /\ 0 <= offset o.
Proof.
  unfold HeaderSize; intros Hlen; induction 1 as
    [o Hr | o f o' _ [Hm Ho] Hf Hr Hn | o f l i sz _ [Hm Ho] Hf Hl Hsz Hn
    | o f l i o' _ [Hm Ho] Hf Hl Hr Hn].
  - unfold Message_Root in Hr. rewrite slice_ok in Hr by lia.
    unfold mbind, outcome_bind in Hr. rewrite le_uint_sub in Hr by lia.
    simplify_eq; simpl. split; [done|apply le_combine_range].
  - destruct (Object_Object_inside o m f Hm ltac:(lia)) as (o'' & Heq & Hin).
    rewrite Heq in Hr; simplify_eq; eauto using object_inside_nonnull.
  - destruct (Object_List_inside o m f Hm ltac:(lia)) as (l' & Heq & Hin).
    rewrite Heq in Hl; simplify_eq; unfold List_Object in *.
    destruct (out_of_list l i) eqn:E; [done|].
    unfold out_of_list in E; bool_to_prop.
    destruct Hin as [->|(Hm' & Ho' & Hl')]; [simpl in *; lia|].
    simpl; split; [done|unfold HeaderSize in *; nia].
  - destruct (Object_List_inside o m f Hm ltac:(lia)) as (l' & Heq & Hin).
    rewrite Heq in Hl; simplify_eq.
    destruct (List_ObjectPtr_inside m l i Hin) as (o'' & Heq' & Hin').
    rewrite Heq' in Hr; simplify_eq; eauto using object_inside_nonnull.
Qed.

(** ** Properties *)

Section object_safe.
Context (o : Object) (m : Message) (f : Z).
Hypothesis Hmsg : msg o = Some m.
Hypothesis Hpos : 0 <= offset o + f.

Lemma Object_Uint8_safe : is_ret (Object_Uint8 o f).
Proof. eapply is_ret_eq, Object_Uint8_eq; done. Qed.

Lemma Object_UintN_safe n : 0 <= n -> is_ret (Object_UintN n o f).
Proof. intros; eapply is_ret_eq, Object_UintN_eq; done. Qed.

Lemma Object_Bytes_safe : is_ret (Object_Bytes o f).
Proof. eapply is_ret_eq, Object_Bytes_eq; done. Qed.

Lemma Object_ListStride_safe stride : is_ret (Object_ListStride o f stride).
Proof.
  unfold Object_ListStride, odata; rewrite Hmsg; simpl deref.
  repeat go_step; eauto with zap; lia.
Qed.
End object_safe.

Section list_safe.
Context (l : List) (m : Message).
Hypothesis Hl : list_inside m l.

Lemma list_inside_cases :
  l = List_zero \/ (lmsg l = Some m /\ 0 <= loffset l).
Proof. destruct Hl as [->|(? & ? & ?)]; unfold HeaderSize in *; [auto|right; split; [done|lia]]. Qed.

Lemma out_of_list_zero i : out_of_list List_zero i = true.
Proof. unfold out_of_list; simpl; lia. Qed.

Lemma List_Uint8_safe i : is_ret (List_Uint8 l i).
Proof.
  destruct list_inside_cases as [->|[? ?]]; [|eapply is_ret_eq, List_Uint8_eq; done].
  unfold List_Uint8; rewrite out_of_list_zero; eauto with zap.
Qed.

Lemma List_UintN_safe n i : 0 <= n -> is_ret (List_UintN n l i).
Proof.
  intros; destruct list_inside_cases as [->|[? ?]]; [|eapply is_ret_eq, List_UintN_eq; done].
  unfold List_UintN; rewrite out_of_list_zero; eauto with zap.
Qed.

Lemma List_Bytes_safe : is_ret (List_Bytes l).
Proof.
  destruct Hl as [->|(Hm & Ho & Hn)]; unfold List_Bytes; [simpl; eauto with zap|].
  rewrite Hm; unfold HeaderSize in *; repeat go_step; eauto with zap.
Qed.
End list_safe.

(** The accessors of an object at a field offset, run one after the other. *)
Definition reads_safely (o : Object) (f : Z) : Prop :=
  is_ret (Object_Bool o f) /\ is_ret (Object_Uint8 o f) /\ is_ret (Object_Uint16 o f)
  /\ is_ret (Object_Uint32 o f) /\ is_ret (Object_Uint64 o f)
  /\ is_ret (Object_Int8 o f) /\ is_ret (Object_Int16 o f)
  /\ is_ret (Object_Int32 o f) /\ is_ret (Object_Int64 o f)
  /\ (forall n, is_ret (Object_BytesFixedSlice o f n))
  /\ is_ret (Object_Bytes o f) /\ is_ret (Object_Text o f)
  /\ is_ret (Object_Object o f) /\ is_ret (Object_List o f)
  /\ (forall stride, is_ret (Object_ListStride o f stride)).

(** The element accessors of a list. *)
Definition elements_safely (l : List) : Prop :=
  (forall i, is_ret (List_Uint8 l i) /\ is_ret (List_Uint32 l i)
             /\ is_ret (List_Uint64 l i) /\ is_ret (List_ObjectPtr l i))
  /\ is_ret (List_Bytes l).


(** A pointer read off the wire never leaves the message nor aliases its
    header: a byte field lies behind its own pointer and behind the header and
    ends inside the message; a nested object or list starts behind the header
    and inside the message, and a list's length is at most the message's. *)
Theorem pointers_confined m o f :
  msg o = Some m -> 0 <= offset o + f ->
  (forall b, Object_Bytes o f = Ret (Some b) ->
     exists abs, HeaderSize <= abs /\ offset o + f < abs
       /\ abs + len b <= len (data m) /\ b = sub (data m) abs (len b))
  /\ (exists o', Object_Object o f = Ret o' /\ object_inside m o')
  /\ (exists l, Object_List o f = Ret l /\ list_inside m l
        /\ forall i, exists o', List_ObjectPtr l i = Ret o' /\ object_inside m o').
Proof.
  intros Hm Hpos; split_and!; [|apply Object_Object_inside; done|].
  - intros b; rewrite (Object_Bytes_eq o m f Hm Hpos); cbv zeta.
    pose proof (rd_range 4 (data m) (offset o + f) ltac:(lia)).
    pose proof (rd_range 4 (data m) (offset o + f + 4) ltac:(lia)).
    case_if; intros; simplify_eq.
    exists (offset o + f + rd 4 (data m) (offset o + f)); unfold HeaderSize in *.
    rewrite len_sub by lia; repeat split; lia.
  - destruct (Object_List_inside o m f Hm Hpos) as (l & Hl & Hin).
    exists l; eauto using List_ObjectPtr_inside.
Qed.

(** [ListStride] accepts only lists whose every element is in the buffer:
    where it yields a non-null list, bare [List] yields the same one, and for
    each index below the length the [stride] bytes of that element end inside
    the message. *)
Theorem list_stride_tight m o f stride l :
  msg o = Some m -> 0 <= offset o + f -> 0 < stride < 2 ^ 32 ->
  len (data m) < 2 ^ 63 ->
  Object_ListStride o f stride = Ret l -> List_IsNull l = false ->
  Object_List o f = Ret l
  /\ forall i, 0 <= i < List_Len l ->
       loffset l + i * stride + stride <= len (data m).
Proof.
  intros Hm Hpos Hs Hd Hl Hn.
  rewrite (Object_ListStride_eq o m f Hm Hpos) in Hl by lia; cbv zeta in Hl.
  rewrite (Object_List_eq o m f Hm Hpos); cbv zeta.
  pose proof (rd_range 4 (data m) (offset o + f + 4) ltac:(lia)).
  case_if; simplify_eq; replace (0 <? stride) with true in * by lia; bool_to_prop.
  unfold HeaderSize in *.
  assert (rd 4 (data m) (offset o + f + 4) * 1 <= rd 4 (data m) (offset o + f + 4) * stride)
    by (apply Z.mul_le_mono_nonneg_l; lia).
  split; [rewrite !if_orb; repeat guard_false; done|].
  unfold List_Len; simpl; intros i Hi; nia.
Qed.

(** The allocation-free [ParseHeader] decides exactly what [Parse] and
    then [Root] do: same errors, same bytes, same root offset. *)
Theorem ParseHeader_mirrors_Parse d :
  ParseHeader d =
    (r ← Parse d;
     match r with
     | Err e => Ret (Err e)
     | Ok m => o ← Message_Root m; Ret (Ok (Message_Bytes m, Object_Offset o))
     end).
Proof.
  rewrite Parse_eq; unfold ParseHeader, parseHeaderImpl, Message_Root, rd.
  unfold HeaderSize in *.
  repeat first [rewrite len_sub by lia | go_step]; try done; simpl.
  rewrite slice_ok by (rewrite ?len_sub; lia); unfold mbind, outcome_bind; const_sub.
  rewrite sub_sub, le_uint_sub, Z.sub_0_r by lia; done.
Qed.

(** Parsing looks only at the declared size: bytes behind an accepted
    message are ignored, and parsing what was accepted again yields it. *)
Theorem Parse_ignores_trailing d m :
  Parse d = Ret (Ok m) ->
  (forall junk, Parse (d ++ junk) = Ret (Ok m)) /\ Parse (data m) = Ret (Ok m).
Proof.
  intros (Hs & Hmag & Hv & ->)%Parse_Ok_inv; unfold HeaderSize in *.
  assert (Hrd : forall n a junk, 0 <= a -> a + n <= len d -> rd n (d ++ junk) a = rd n d a)
    by (intros; unfold rd; rewrite sub_app_l by lia; done).
  split.
  - intros junk; rewrite Parse_Ok_intro; rewrite ?Hrd by lia;
      rewrite ?sub_app_l, ?len_app by lia; auto;
      unfold HeaderSize; pose proof (len_nonneg junk); lia.
  - simpl; assert (Hr : forall n a, 0 <= a -> a + n <= rd 4 d 12 ->
      rd n (sub d 0 (rd 4 d 12)) a = rd n d a).
    { intros; unfold rd at 1; rewrite sub_sub by lia; done. }
    rewrite Parse_Ok_intro; rewrite ?Hr, ?sub_sub, ?len_sub by lia; auto.
    unfold HeaderSize; lia.
Qed.

(** ** Witnesses *)

(** A message of 44 bytes: a root object at 16 with a byte field "abc" at its
    offset 0 and a list of two [uint32] at its offset 8. *)
Definition sample : list byte :=
  Magic ++ le_bytes 2 2 ++ le_bytes 2 0 ++ le_bytes 4 16 ++ le_bytes 4 44
  ++ le_bytes 4 16 ++ le_bytes 4 3 ++ le_bytes 4 12 ++ le_bytes 4 2
  ++ [Byte.x61; Byte.x62; Byte.x63; Byte.x00] ++ le_bytes 4 7 ++ le_bytes 4 9.

Definition sample_msg : Message := mkMessage sample None.


Lemma pointers_confined_witness :
  exists b abs, Object_Bytes (mkObject (Some sample_msg) 16) 0 = Ret (Some b)
    /\ HeaderSize <= abs /\ b = sub sample abs (len b).
Proof.
  destruct (proj1 (pointers_confined sample_msg (mkObject (Some sample_msg) 16) 0
    eq_refl ltac:(simpl; lia)) [Byte.x61; Byte.x62; Byte.x63]
    ltac:(vm_compute; reflexivity)) as (abs & ? & ? & ? & ?).
  exists [Byte.x61; Byte.x62; Byte.x63], abs; split_and!; [vm_compute; reflexivity|done|done].
Defined.

Lemma list_stride_tight_witness :
  36 + 1 * 4 + 4 <= len sample.
Proof.
  refine (proj2 (list_stride_tight sample_msg (mkObject (Some sample_msg) 16) 8 4
    (mkList (Some sample_msg) 36 2) _ _ _ _ _ _) 1 _);
    try (vm_compute; reflexivity); try (simpl; lia); try (unfold List_Len; simpl; lia).
Defined.
