(* ===== verification/Builder.v ===== *)
(** * Builder: the writer of [builder.go]

    The state of a [*Builder] is passed explicitly. An [ObjectBuilder] and a
    [ListBuilder] hold a pointer to their builder in Go; here they hold their
    own fields only and every method takes the builder's state and returns the
    new one. The buffer keeps whatever bytes it has behind the write position,
    as a reused Go buffer does. *)

From S2P Require Import Prelude Wire.

(** ** State *)

Record Builder : Type := mkBuilder {
  buf : list byte;
  pos : Z;
  rootOffset : Z
}.

Record ObjectBuilder : Type := mkObjectBuilder {
  startPos : Z;
  dataSize : Z
}.

Record ListBuilder : Type := mkListBuilder {
  lstartPos : Z;
  count : Z
}.

Definition set_buf (b : Builder) (d : list byte) : Builder :=
  mkBuilder d (pos b) (rootOffset b).
Definition set_pos (b : Builder) (p : Z) : Builder :=
  mkBuilder (buf b) p (rootOffset b).

(** ** Construction, growth, alignment *)

Definition newBuilder (capacity version : Z) : outcome Builder :=
  let capacity := if capacity <? HeaderSize then 256 else capacity in
  d ← store (zeros capacity) 0 Magic;
  d' ← store d 4 (le_bytes 2 version);
  Ret (mkBuilder d' HeaderSize 0).

Definition NewBuilder (capacity : Z) : outcome Builder := newBuilder capacity Version2.
Definition NewBuilderV1 (capacity : Z) : outcome Builder := newBuilder capacity Version1.

Definition Builder_Reset (b : Builder) : Builder := mkBuilder (buf b) HeaderSize 0.

Definition grow (b : Builder) (n : Z) : outcome Builder :=
  if pos b + n <=? len (buf b) then Ret b else
  let newCap := len (buf b) * 2 in
  let newCap := if newCap <? pos b + n then pos b + n else newCap in
  used ← slice (buf b) 0 (pos b);
  d ← store (zeros newCap) 0 used;
  Ret (set_buf b d).

(** [for i := from; i < from+n; i++ { d[i] = 0 }] *)
Fixpoint zero_loop (n : nat) (d : list byte) (from : Z) : outcome (list byte) :=
  match n with
  | O => Ret d
  | S n => d' ← store d from [Byte.x00]; zero_loop n d' (from + 1)
  end.

Definition align (b : Builder) (alignment : Z) : outcome Builder :=
  let padding := Z.rem (alignment - Z.rem (pos b) alignment) alignment in
  b ← grow b padding;
  d ← zero_loop (Z.to_nat padding) (buf b) (pos b);
  Ret (mkBuilder d (pos b + padding) (rootOffset b)).

(** ** Finishing a message *)

Definition Builder_Finish (b : Builder) : outcome (list byte * Builder) :=
  d ← store (buf b) 8 (le_bytes 4 (u32 (rootOffset b)));
  d' ← store d 12 (le_bytes 4 (u32 (pos b)));
  out ← slice d' 0 (pos b);
  Ret (out, set_buf b d').

Definition FinishWithFlags (b : Builder) (flags : Z) : outcome (list byte * Builder) :=
  d ← store (buf b) 6 (le_bytes 2 flags);
  Builder_Finish (set_buf b d).

(** ** Objects *)

Definition ensureField (ob : ObjectBuilder) (b : Builder) (endOffset : Z) : outcome Builder :=
  let needed := startPos ob + endOffset in
  if pos b <? needed then
    b ← grow b (needed - pos b);
    d ← zero_loop (Z.to_nat (needed - pos b)) (buf b) (pos b);
    Ret (mkBuilder d needed (rootOffset b))
  else Ret b.

Definition StartObject (b : Builder) (size : Z) : outcome (ObjectBuilder * Builder) :=
  b ← align b Alignment;
  let ob := mkObjectBuilder (pos b) size in
  b ← ensureField ob b size;
  Ret (ob, b).

(** Storing the [n]-byte integer [v] at a field: the shared body of
    [SetUint8], [SetUint16], [SetUint32] and [SetUint64]. *)
Definition SetUintN (n : Z) (ob : ObjectBuilder) (b : Builder) (fieldOffset v : Z)
  : outcome Builder :=
  b ← ensureField ob b (fieldOffset + n);
  d ← store (buf b) (startPos ob + fieldOffset) (le_bytes n v);
  Ret (set_buf b d).

Definition SetUint8 := SetUintN 1.
Definition SetUint16 := SetUintN 2.
Definition SetUint32 := SetUintN 4.
Definition SetUint64 := SetUintN 8.

Definition SetBool (ob : ObjectBuilder) (b : Builder) (f : Z) (v : bool) : outcome Builder :=
  if v then SetUint8 ob b f 1 else SetUint8 ob b f 0.
Definition SetInt8 (ob : ObjectBuilder) (b : Builder) (f v : Z) := SetUint8 ob b f (u8 v).
Definition SetInt16 (ob : ObjectBuilder) (b : Builder) (f v : Z) := SetUint16 ob b f (u16 v).
Definition SetInt32 (ob : ObjectBuilder) (b : Builder) (f v : Z) := SetUint32 ob b f (u32 v).
Definition SetInt64 (ob : ObjectBuilder) (b : Builder) (f v : Z) := SetUint64 ob b f (u64 v).

(** Floats are their IEEE 754 bit patterns. *)
Definition float32bits (v : Z) : Z := v.
Definition float64bits (v : Z) : Z := v.
Definition SetFloat32 (ob : ObjectBuilder) (b : Builder) (f v : Z) :=
  SetUint32 ob b f (float32bits v).
Definition SetFloat64 (ob : ObjectBuilder) (b : Builder) (f v : Z) :=
  SetUint64 ob b f (float64bits v).

Definition SetBytesFixed (ob : ObjectBuilder) (b : Builder) (fieldOffset : Z) (v : list byte)
  : outcome Builder :=
  if len v =? 0 then Ret b else
  b ← ensureField ob b (fieldOffset + len v);
  d ← store (buf b) (startPos ob + fieldOffset) v;
  Ret (set_buf b d).

(** Unlike the other setters it does not call [ensureField]. *)
Definition SetBytes (ob : ObjectBuilder) (b : Builder) (fieldOffset : Z) (v : list byte)
  : outcome Builder :=
  if len v =? 0 then
    d ← store (buf b) (startPos ob + fieldOffset) (le_bytes 4 0);
    d' ← store d (startPos ob + fieldOffset + 4) (le_bytes 4 0);
    Ret (set_buf b d')
  else
    let dataPos := pos b in
    b ← grow b (len v);
    d ← store (buf b) (pos b) v;
    let b := mkBuilder d (pos b + len v) (rootOffset b) in
    let fieldAbsPos := startPos ob + fieldOffset in
    let relOffset := s32 (dataPos - fieldAbsPos) in
    d ← store (buf b) fieldAbsPos (le_bytes 4 (u32 relOffset));
    d' ← store d (fieldAbsPos + 4) (le_bytes 4 (u32 (len v)));
    Ret (set_buf b d').

Definition SetText := SetBytes.

Definition SetObject (ob : ObjectBuilder) (b : Builder) (fieldOffset objOffset : Z)
  : outcome Builder :=
  b ← ensureField ob b (fieldOffset + 4);
  if objOffset =? 0 then
    d ← store (buf b) (startPos ob + fieldOffset) (le_bytes 4 0);
    Ret (set_buf b d)
  else
    let relOffset := objOffset - (startPos ob + fieldOffset) in
    d ← store (buf b) (startPos ob + fieldOffset) (le_bytes 4 (u32 relOffset));
    Ret (set_buf b d).

Definition SetList (ob : ObjectBuilder) (b : Builder) (fieldOffset listOffset length : Z)
  : outcome Builder :=
  b ← ensureField ob b (fieldOffset + 8);
  if (listOffset =? 0) || (length =? 0) then
    d ← store (buf b) (startPos ob + fieldOffset) (le_bytes 4 0);
    d' ← store d (startPos ob + fieldOffset + 4) (le_bytes 4 0);
    Ret (set_buf b d')
  else
    let relOffset := listOffset - (startPos ob + fieldOffset) in
    d ← store (buf b) (startPos ob + fieldOffset) (le_bytes 4 (u32 relOffset));
    d' ← store d (startPos ob + fieldOffset + 4) (le_bytes 4 (u32 length));
    Ret (set_buf b d').

Definition ReserveFixed (ob : ObjectBuilder) (b : Builder) (size : Z) : outcome Builder :=
  ensureField ob b size.

Definition ObjectBuilder_Finish (ob : ObjectBuilder) : Z := startPos ob.

Definition FinishAsRoot (ob : ObjectBuilder) (b : Builder) : Z * Builder :=
  let offset := ObjectBuilder_Finish ob in
  (offset, mkBuilder (buf b) (pos b) offset).

(** ** Raw bytes and lists *)

Definition WriteBytes (b : Builder) (v : list byte) : outcome (Z * Builder) :=
  if len v =? 0 then Ret (0, b) else
  b ← align b Alignment;
  let offset := pos b in
  b ← grow b (len v);
  d ← store (buf b) (pos b) v;
  Ret (offset, mkBuilder d (pos b + len v) (rootOffset b)).

Definition WriteText := WriteBytes.

Definition StartList (b : Builder) (elemSize : Z) : outcome (ListBuilder * Builder) :=
  b ← align b Alignment;
  Ret (mkListBuilder (pos b) 0, b).

(** The shared body of [AddUint8], [AddUint32] and [AddUint64]. *)
Definition AddUintN (n : Z) (lb : ListBuilder) (b : Builder) (v : Z)
  : outcome (ListBuilder * Builder) :=
  b ← grow b n;
  d ← store (buf b) (pos b) (le_bytes n v);
  Ret (mkListBuilder (lstartPos lb) (count lb + 1),
       mkBuilder d (pos b + n) (rootOffset b)).

Definition AddUint8 := AddUintN 1.
Definition AddUint32 := AddUintN 4.
Definition AddUint64 := AddUintN 8.

Definition AddBytes (lb : ListBuilder) (b : Builder) (v : list byte)
  : outcome (ListBuilder * Builder) :=
  b ← grow b (len v);
  d ← store (buf b) (pos b) v;
  Ret (mkListBuilder (lstartPos lb) (count lb + len v),
       mkBuilder d (pos b + len v) (rootOffset b)).

Definition AddObjectPtr (lb : ListBuilder) (b : Builder) (targetPos : Z)
  : outcome (ListBuilder * Builder) :=
  b ← grow b 4;
  d ← (if targetPos =? 0 then store (buf b) (pos b) (le_bytes 4 0)
       else store (buf b) (pos b) (le_bytes 4 (u32 (s32 (targetPos - pos b)))));
  Ret (mkListBuilder (lstartPos lb) (count lb + 1),
       mkBuilder d (pos b + 4) (rootOffset b)).

Definition ListBuilder_Finish (lb : ListBuilder) : Z * Z := (lstartPos lb, count lb).

(** ** The pool *)

(** The [sync.Pool] [p] hands out a builder of its choice, or has none and makes one. *)
Definition GetBuilder (pick : option nat) (p : list Builder)
  : outcome (Builder * list Builder) :=
  match pick with
  | Some i =>
      match p !! i with
      | Some b => Ret (Builder_Reset b, delete i p)
      | None => b ← NewBuilder 512; Ret (Builder_Reset b, p)
      end
  | None => b ← NewBuilder 512; Ret (Builder_Reset b, p)
  end.
Definition PutBuilder (b : Builder) (p : list Builder) : list Builder := b :: p.
