(* ===== verification/BuilderSpec.v ===== *)
(** * BuilderSpec: what a builder promises, and that [builder.go] keeps it

    The abstract state of a builder is the byte string written so far and the
    root offset: no capacity, no bytes behind the write position. Commands are
    the builder's methods; [aexec] says what each does to the abstract state.
    The refinement theorem says that the buffer management of [builder.go]
    (growth, reuse of a dirty buffer, zero filling) implements exactly this. *)

From S2P Require Import Prelude Wire Builder.

(** ** Abstract states *)

Record Doc : Type := mkDoc { bytes : list byte; root : Z }.

(** [b] holds the document [a]. *)
Definition holds (b : Builder) (a : Doc) : Prop :=
  0 <= pos b <= len (buf b) /\ sub (buf b) 0 (pos b) = bytes a /\ rootOffset b = root a.

Lemma holds_pos b a : holds b a -> pos b = len (bytes a).
Proof. intros (? & <- & ?); rewrite len_sub; lia. Qed.

Definition a_append (a : Doc) (v : list byte) : Doc := mkDoc (bytes a ++ v) (root a).
Definition a_patch (a : Doc) (at_ : Z) (v : list byte) : Doc :=
  mkDoc (put (bytes a) at_ v) (root a).
(** Zero bytes up to length [needed], none when it is already that long. *)
Definition a_extend (a : Doc) (needed : Z) : Doc :=
  a_append a (zeros (needed - len (bytes a))).
Definition a_padding (p : Z) : Z := (8 - p mod 8) mod 8.
Definition a_align (a : Doc) : Doc := a_append a (zeros (a_padding (len (bytes a)))).

Lemma len_zeros_max n : len (zeros n) = Z.max 0 n.
Proof. unfold len, zeros; rewrite length_replicate; lia. Qed.

Lemma len_extend a needed :
  len (bytes (a_extend a needed)) = Z.max (len (bytes a)) needed.
Proof. simpl; rewrite len_app, len_zeros_max; lia. Qed.

Lemma a_padding_range p : 0 <= a_padding p < 8.
Proof. apply Z.mod_pos_bound; lia. Qed.

Lemma len_align a : len (bytes (a_align a)) = len (bytes a) + a_padding (len (bytes a)).
Proof.
  simpl; rewrite len_app, len_zeros_max.
  pose proof (a_padding_range (len (bytes a))); lia.
Qed.

(** ** The buffer operations hold documents *)

Lemma sub_0_put_app {A} (l : list A) p v :
  0 <= p -> p + len v <= len l -> sub (put l p v) 0 (p + len v) = sub l 0 p ++ v.
Proof.
  intros. rewrite sub_split by (auto with zap; lia).
  rewrite sub_put_other, Z.add_0_l, sub_put_same by (auto with zap; lia); done.
Qed.

Lemma sub_put_inside {A} (l : list A) n p v :
  0 <= p -> p + len v <= n -> n <= len l -> sub (put l p v) 0 n = put (sub l 0 n) p v.
Proof.
  intros. apply list_eq; intros i.
  pose proof (len_nonneg v).
  rewrite lookup_sub, !lookup_put by (rewrite ?len_sub; lia).
  rewrite Nat.add_0_l. repeat case_decide; try lia; try done.
  - rewrite lookup_sub by lia. rewrite decide_True by lia; done.
  - rewrite lookup_sub by lia. rewrite decide_False by lia; done.
Qed.

Lemma zero_loop_eq n : forall d from,
  0 <= from -> from + Z.of_nat n <= len d ->
  zero_loop n d from = Ret (put d from (replicate n Byte.x00)).
Proof.
  induction n as [|n IH]; intros d from Hf Hn; simpl.
  { f_equal; apply list_eq; intros i; rewrite lookup_put by (rewrite ?len_nil; lia).
    rewrite len_nil; case_decide; [lia|done]. }
  rewrite store_ok by (rewrite ?len_cons, ?len_nil; lia); simpl.
  rewrite IH by (rewrite ?len_put; rewrite ?len_cons, ?len_nil; lia); f_equal.
  assert (Hr : forall k, len (replicate k Byte.x00) = Z.of_nat k)
    by (intros; unfold len; rewrite length_replicate; done).
  apply list_eq; intros i.
  rewrite !lookup_put by (rewrite ?len_put, ?len_cons, ?len_nil, ?Hr by (rewrite ?len_cons, ?len_nil; lia); lia).
  change (Byte.x00 :: replicate n Byte.x00) with (replicate (S n) Byte.x00).
  rewrite ?len_cons, ?len_nil, ?Hr.
  repeat case_decide; try lia; try done.
  - rewrite !lookup_replicate_2 by lia; done.
  - replace (i - Z.to_nat from)%nat with 0%nat by lia; done.
Qed.

Section buffer.
Context (b : Builder) (a : Doc).
Hypothesis H : holds b a.

Lemma grow_holds n :
  0 <= n -> exists b', grow b n = Ret b' /\ holds b' a /\ pos b' + n <= len (buf b').
Proof.
  intros Hn; destruct H as (Hp & Hb & Hr); unfold grow.
  case_if; [exists b; unfold holds; auto|].
  rewrite slice_ok, Z.sub_0_r by lia; unfold mbind, outcome_bind.
  set (nc := if len (buf b) * 2 <? pos b + n then pos b + n else len (buf b) * 2).
  assert (pos b + n <= nc) by (unfold nc; case_if; lia).
  rewrite store_ok by (rewrite ?len_sub, ?len_zeros; lia).
  eexists; split; [reflexivity|]; unfold holds; simpl.
  rewrite len_put by (rewrite ?len_sub, ?len_zeros; lia).
  rewrite len_zeros by lia; split_and!; try lia; try done.
  pose proof (sub_0_put (zeros nc) (sub (buf b) 0 (pos b))) as Hs.
  rewrite len_sub, len_zeros in Hs by lia; rewrite Hs by lia; done.
Qed.

(** Writing at the end of the used part. *)
Lemma append_holds v :
  pos b + len v <= len (buf b) ->
  store (buf b) (pos b) v = Ret (put (buf b) (pos b) v)
  /\ holds (mkBuilder (put (buf b) (pos b) v) (pos b + len v) (rootOffset b)) (a_append a v).
Proof.
  destruct H as (Hp & Hb & Hr); intros; pose proof (len_nonneg v).
  split; [apply store_ok; lia|].
  unfold holds; simpl; rewrite len_put, sub_0_put_app, Hb by lia; split_and!; [lia..|done|done].
Qed.

(** Writing inside the used part. *)
Lemma patch_holds at_ v :
  0 <= at_ -> at_ + len v <= len (bytes a) ->
  store (buf b) at_ v = Ret (put (buf b) at_ v)
  /\ holds (set_buf b (put (buf b) at_ v)) (a_patch a at_ v).
Proof.
  pose proof (holds_pos b a H); destruct H as (Hp & Hb & Hr); intros.
  split; [apply store_ok; lia|].
  unfold holds; simpl; rewrite len_put, sub_put_inside, Hb by lia; done.
Qed.

Lemma extend_holds n :
  0 <= n -> pos b + n <= len (buf b) ->
  exists d, zero_loop (Z.to_nat n) (buf b) (pos b) = Ret d
    /\ holds (mkBuilder d (pos b + n) (rootOffset b)) (a_append a (zeros n)).
Proof.
  intros; pose proof H as (Hp & Hb & Hr).
  rewrite zero_loop_eq by lia; eexists; split; [reflexivity|].
  destruct (append_holds (zeros n)) as [_ Hh]; rewrite len_zeros in * by lia; done.
Qed.
End buffer.

Lemma align_holds b a :
  holds b a -> exists b', align b Alignment = Ret b' /\ holds b' (a_align a).
Proof.
  intros H; pose proof (holds_pos _ _ H) as Hlen.
  unfold align, Alignment; pose proof (proj1 H).
  rewrite (Z.rem_mod_nonneg (pos b) 8) by lia.
  pose proof (Z.mod_pos_bound (pos b) 8 ltac:(lia)).
  rewrite Z.rem_mod_nonneg by lia. fold (a_padding (pos b)).
  pose proof (a_padding_range (pos b)).
  destruct (grow_holds b a H (a_padding (pos b))) as (b1 & -> & Hb1 & Hroom); [lia|].
  unfold mbind, outcome_bind.
  assert (Hpos : pos b1 = pos b) by (rewrite (holds_pos _ _ Hb1), Hlen; done).
  destruct (extend_holds b1 a Hb1 (a_padding (pos b))) as (d & Hd & Hh); [lia..|].
  rewrite Hd; eexists; split; [reflexivity|]. unfold a_align; rewrite <- Hlen; done.
Qed.

Lemma ensureField_holds b a ob e :
  holds b a ->
  exists b', ensureField ob b e = Ret b' /\ holds b' (a_extend a (startPos ob + e)).
Proof.
  intros H; pose proof (holds_pos _ _ H) as Hlen; unfold ensureField, a_extend.
  case_if.
  - destruct (grow_holds b a H (startPos ob + e - pos b)) as (b1 & -> & Hb1 & Hroom); [lia|].
    unfold mbind, outcome_bind.
    assert (Hpos : pos b1 = pos b) by (rewrite (holds_pos _ _ Hb1), Hlen; done).
    destruct (extend_holds b1 a Hb1 (startPos ob + e - pos b)) as (d & Hd & Hh); [lia..|].
    rewrite Hpos in Hd |- *; rewrite Hd; eexists; split; [reflexivity|].
    rewrite <- Hlen; replace (pos b1 + _) with (startPos ob + e) in Hh by lia.
    done.
  - exists b; split; [done|]. unfold a_append, zeros.
    replace (Z.to_nat _) with 0%nat by lia; simpl; rewrite app_nil_r; destruct a; done.
Qed.

(** ** Commands *)

(** A use of the builder's API. Setters act on the object started last,
    element operations on the list started last. *)
Inductive cmd : Type :=
| CStartObject (size : Z)
| CSetUint (n f v : Z)
| CSetBytesFixed (f : Z) (v : list byte)
| CSetBytes (f : Z) (v : list byte)
| CSetObject (f off : Z)
| CSetList (f off length : Z)
| CFinishAsRoot
| CWriteBytes (v : list byte)
| CStartList (elemSize : Z)
| CAddUint (n v : Z)
| CAddBytes (v : list byte)
| CAddObjectPtr (target : Z).

(** The commands on [builder.go]. *)
Definition exec (c : cmd) (s : Builder * ObjectBuilder * ListBuilder)
  : outcome (Builder * ObjectBuilder * ListBuilder) :=
  let '(b, ob, lb) := s in
  match c with
  | CStartObject size => r ← StartObject b size; Ret (r.2, r.1, lb)
  | CSetUint n f v => b ← SetUintN n ob b f v; Ret (b, ob, lb)
  | CSetBytesFixed f v => b ← SetBytesFixed ob b f v; Ret (b, ob, lb)
  | CSetBytes f v => b ← SetBytes ob b f v; Ret (b, ob, lb)
  | CSetObject f off => b ← SetObject ob b f off; Ret (b, ob, lb)
  | CSetList f off n => b ← SetList ob b f off n; Ret (b, ob, lb)
  | CFinishAsRoot => Ret ((FinishAsRoot ob b).2, ob, lb)
  | CWriteBytes v => r ← WriteBytes b v; Ret (r.2, ob, lb)
  | CStartList sz => r ← StartList b sz; Ret (r.2, ob, r.1)
  | CAddUint n v => r ← AddUintN n lb b v; Ret (r.2, ob, r.1)
  | CAddBytes v => r ← AddBytes lb b v; Ret (r.2, ob, r.1)
  | CAddObjectPtr t => r ← AddObjectPtr lb b t; Ret (r.2, ob, r.1)
  end.

Fixpoint run (cs : list cmd) (s : Builder * ObjectBuilder * ListBuilder)
  : outcome (Builder * ObjectBuilder * ListBuilder) :=
  match cs with
  | [] => Ret s
  | c :: cs => s ← exec c s; run cs s
  end.

(** A field of the current object: behind the header, at a non-negative
    offset. *)
Definition field_ok (ob : ObjectBuilder) (f : Z) : bool :=
  (HeaderSize <=? startPos ob) && (0 <=? f).

(** A document changes by primitive edits only. *)
Inductive edit : Type :=
| EAppend (v : list byte)
| EPatch (at_ : Z) (v : list byte)
| ERoot (r : Z).

Definition apply_edit (a : Doc) (e : edit) : Doc :=
  match e with
  | EAppend v => a_append a v
  | EPatch p v => a_patch a p v
  | ERoot r => mkDoc (bytes a) r
  end.
Definition apply_edits (es : list edit) (a : Doc) : Doc := foldl apply_edit a es.

(** The edits of a command on a document of length [n]: they depend on nothing
    else of it. [None] is a use outside the API's contract: a negative field
    offset, a setter before any [StartObject], or a [SetBytes] whose pointer
    pair is not in the section the object reserved. *)
Definition aplan (c : cmd) (n : Z) (ob : ObjectBuilder) (lb : ListBuilder)
  : option (list edit * ObjectBuilder * ListBuilder) :=
  let at_ f := startPos ob + f in
  let extend needed := EAppend (zeros (needed - n)) in
  let pad := EAppend (zeros (a_padding n)) in
  let aligned := n + a_padding n in
  let counted k := mkListBuilder (lstartPos lb) (count lb + k) in
  match c with
  | CStartObject size =>
      Some ([pad; EAppend (zeros size)], mkObjectBuilder aligned size, lb)
  | CSetUint w f v =>
      if field_ok ob f && (0 <=? w)
      then Some ([extend (at_ (f + w)); EPatch (at_ f) (le_bytes w v)], ob, lb)
      else None
  | CSetBytesFixed f v =>
      if field_ok ob f then
        Some (if len v =? 0 then []
              else [extend (at_ (f + len v)); EPatch (at_ f) v], ob, lb)
      else None
  | CSetBytes f v =>
      if field_ok ob f && (at_ f + 8 <=? n) then
        let rel := if len v =? 0 then 0 else n - at_ f in
        Some ([EAppend v; EPatch (at_ f) (le_bytes 4 rel);
               EPatch (at_ f + 4) (le_bytes 4 (len v))], ob, lb)
      else None
  | CSetObject f off =>
      if field_ok ob f then
        let rel := if off =? 0 then 0 else off - at_ f in
        Some ([extend (at_ (f + 4)); EPatch (at_ f) (le_bytes 4 rel)], ob, lb)
      else None
  | CSetList f off k =>
      if field_ok ob f then
        let null := (off =? 0) || (k =? 0) in
        let rel := if null then 0 else off - at_ f in
        Some ([extend (at_ (f + 8)); EPatch (at_ f) (le_bytes 4 rel);
               EPatch (at_ f + 4) (le_bytes 4 (if null then 0 else k))], ob, lb)
      else None
  | CFinishAsRoot => Some ([ERoot (startPos ob)], ob, lb)
  | CWriteBytes v => Some (if len v =? 0 then [] else [pad; EAppend v], ob, lb)
  | CStartList _ => Some ([pad], ob, mkListBuilder aligned 0)
  | CAddUint w v =>
      if 0 <=? w then Some ([EAppend (le_bytes w v)], ob, counted 1) else None
  | CAddBytes v => Some ([EAppend v], ob, counted (len v))
  | CAddObjectPtr t =>
      let rel := if t =? 0 then 0 else t - n in
      Some ([EAppend (le_bytes 4 rel)], ob, counted 1)
  end.

(** The commands on documents. *)
Definition aexec (c : cmd) (s : Doc * ObjectBuilder * ListBuilder)
  : option (Doc * ObjectBuilder * ListBuilder) :=
  let '(a, ob, lb) := s in
  match aplan c (len (bytes a)) ob lb with
  | Some (es, ob', lb') => Some (apply_edits es a, ob', lb')
  | None => None
  end.

Fixpoint arun (cs : list cmd) (s : Doc * ObjectBuilder * ListBuilder)
  : option (Doc * ObjectBuilder * ListBuilder) :=
  match cs with
  | [] => Some s
  | c :: cs => s ← aexec c s; arun cs s
  end.

(** ** Each command of [builder.go] implements its abstract counterpart *)

Lemma le_bytes_u32 z : le_bytes 4 (u32 z) = le_bytes 4 z.
Proof. unfold le_bytes; rewrite (le_split_mod z); done. Qed.

Lemma le_bytes_s32 z : le_bytes 4 (u32 (s32 z)) = le_bytes 4 z.
Proof.
  unfold le_bytes; rewrite (le_split_mod z), (le_split_mod (u32 (s32 z))); f_equal.
  change (2 ^ (Z.of_nat (Z.to_nat 4) * 8)) with (2 ^ 32).
  unfold u32, s32, swrap; rewrite Z.mod_mod, Zminus_mod_idemp_l by lia; f_equal; lia.
Qed.

(** Run the buffer operation in head position with its [_holds] lemma. *)
Ltac hold_step :=
  unfold mbind, outcome_bind;
  match goal with
  | Hh : holds ?b ?a |- context [ensureField ?ob ?b ?e] =>
      let b' := fresh "b" in let Hn := fresh "Hh" in
      destruct (ensureField_holds b a ob e Hh) as (b' & -> & Hn); clear Hh
  | Hh : holds ?b ?a |- context [align ?b Alignment] =>
      let b' := fresh "b" in let Hn := fresh "Hh" in
      destruct (align_holds b a Hh) as (b' & -> & Hn); clear Hh
  | Hh : holds ?b ?a |- context [grow ?b ?n] =>
      let b' := fresh "b" in let Hn := fresh "Hh" in let Hr := fresh "Hroom" in
      destruct (grow_holds b a Hh n) as (b' & -> & Hn & Hr);
        [rewrite ?len_le_bytes by lia; auto with zap; lia | clear Hh]
  end.

(** Two patches in a row, as the pointer pairs are written. *)
Lemma patch2_holds b a p v w :
  holds b a -> 0 <= p -> len v = 4 -> p + 4 + len w <= len (bytes a) ->
  exists d d', store (buf b) p v = Ret d /\ store d (p + 4) w = Ret d'
    /\ holds (set_buf b d') (a_patch (a_patch a p v) (p + 4) w).
Proof.
  intros H Hp Hv Hw; pose proof (len_nonneg w).
  destruct (patch_holds b a H p v) as [H1 H2]; [lia..|].
  destruct (patch_holds _ _ H2 (p + 4) w) as [H3 H4]; [lia|simpl; rewrite len_put; lia|].
  eauto.
Qed.

Lemma append_grown b a v :
  holds b a ->
  exists b' d, grow b (len v) = Ret b' /\ store (buf b') (pos b') v = Ret d
    /\ pos b' = pos b
    /\ holds (mkBuilder d (pos b' + len v) (rootOffset b')) (a_append a v).
Proof.
  intros H; destruct (grow_holds b a H (len v)) as (b' & Hg & H' & Hr); [auto with zap|].
  destruct (append_holds b' a H' v Hr) as [? ?].
  exists b'; eexists; split_and!; eauto.
  rewrite (holds_pos _ _ H'), (holds_pos _ _ H); done.
Qed.

Lemma SetUintN_holds b a ob n f v :
  holds b a -> field_ok ob f = true -> 0 <= n ->
  exists b', SetUintN n ob b f v = Ret b'
    /\ holds b' (a_patch (a_extend a (startPos ob + (f + n))) (startPos ob + f) (le_bytes n v)).
Proof.
  unfold field_ok, HeaderSize, SetUintN; intros H Hf Hn; bool_to_prop; hold_step.
  destruct (patch_holds _ _ Hh (startPos ob + f) (le_bytes n v)) as [-> Hp];
    [lia|rewrite len_extend, len_le_bytes; lia|]; eauto.
Qed.

Lemma SetBytesFixed_holds b a ob f v :
  holds b a -> field_ok ob f = true ->
  exists b', SetBytesFixed ob b f v = Ret b'
    /\ holds b' (if len v =? 0 then a
                 else a_patch (a_extend a (startPos ob + (f + len v))) (startPos ob + f) v).
Proof.
  unfold field_ok, HeaderSize, SetBytesFixed; intros H Hf; bool_to_prop.
  case_if; [eauto|]; hold_step.
  destruct (patch_holds _ _ Hh (startPos ob + f) v) as [-> Hp];
    [lia|rewrite len_extend; lia|]; eauto.
Qed.

Lemma SetBytes_holds b a ob f v :
  holds b a -> field_ok ob f = true -> startPos ob + f + 8 <= len (bytes a) ->
  exists b', SetBytes ob b f v = Ret b'
    /\ holds b' (a_patch (a_patch (a_append a v) (startPos ob + f)
         (le_bytes 4 (if len v =? 0 then 0 else len (bytes a) - (startPos ob + f))))
         (startPos ob + f + 4) (le_bytes 4 (len v))).
Proof.
  unfold field_ok, HeaderSize, SetBytes; intros H Hf Hr; bool_to_prop.
  pose proof (len_nonneg v); case_if.
  - destruct v; [|rewrite len_cons in *; pose proof (len_nonneg v); lia].
    replace (a_append a []) with a by (unfold a_append; rewrite app_nil_r; destruct a; done).
    destruct (patch2_holds b a (startPos ob + f) (le_bytes 4 0) (le_bytes 4 0) H)
      as (d & d' & -> & Hd & Hh); rewrite ?len_le_bytes by lia; try lia.
    unfold mbind, outcome_bind; rewrite Hd; eauto.
  - destruct (append_grown b a v H) as (b' & d & -> & Hs & Hpos & Hh).
    unfold mbind, outcome_bind; rewrite Hs; simpl buf; simpl pos; simpl rootOffset.
    rewrite le_bytes_s32, le_bytes_u32, (holds_pos _ _ H).
    destruct (patch2_holds _ _ (startPos ob + f)
      (le_bytes 4 (len (bytes a) - (startPos ob + f))) (le_bytes 4 (len v)) Hh)
      as (d1 & d2 & Hd1 & Hd2 & Hh'); simpl; rewrite ?len_app, ?len_le_bytes by lia; try lia.
    simpl in Hd1; rewrite Hd1, Hd2; eauto.
Qed.

Lemma SetObject_holds b a ob f off :
  holds b a -> field_ok ob f = true ->
  exists b', SetObject ob b f off = Ret b'
    /\ holds b' (a_patch (a_extend a (startPos ob + (f + 4))) (startPos ob + f)
         (le_bytes 4 (if off =? 0 then 0 else off - (startPos ob + f)))).
Proof.
  unfold field_ok, HeaderSize, SetObject; intros H Hf; bool_to_prop; hold_step.
  rewrite le_bytes_u32; case_if;
    match goal with |- context [store _ _ ?w] =>
      destruct (patch_holds _ _ Hh (startPos ob + f) w) as [-> Hp] end;
    rewrite ?len_extend, ?len_le_bytes by lia; try lia; eauto.
Qed.

Lemma SetList_holds b a ob f off n :
  holds b a -> field_ok ob f = true ->
  let null := (off =? 0) || (n =? 0) in
  exists b', SetList ob b f off n = Ret b'
    /\ holds b' (a_patch (a_patch (a_extend a (startPos ob + (f + 8))) (startPos ob + f)
         (le_bytes 4 (if null then 0 else off - (startPos ob + f))))
         (startPos ob + f + 4) (le_bytes 4 (if null then 0 else n))).
Proof.
  intros H Hf null; unfold field_ok, HeaderSize in Hf; unfold SetList.
  bool_to_prop; hold_step.
  rewrite !le_bytes_u32; fold null; destruct null;
    match goal with |- context [store (buf ?b) ?p ?w] =>
      match goal with |- context [store _ (p + 4) ?w'] =>
      destruct (patch2_holds b _ p w w' Hh) as (d & d' & -> & Hd & Hh') end end;
    rewrite ?len_extend, ?len_le_bytes by lia; try lia; rewrite Hd; eauto.
Qed.

Lemma StartObject_holds b a size :
  holds b a ->
  let s := len (bytes a) + a_padding (len (bytes a)) in
  exists b', StartObject b size = Ret (mkObjectBuilder s size, b')
    /\ holds b' (a_append (a_align a) (zeros size)).
Proof.
  intros H s; unfold StartObject; hold_step; rewrite (holds_pos _ _ Hh), len_align; hold_step.
  eexists; split; [reflexivity|]; unfold a_extend in *; rewrite len_align in *.
  simpl startPos in *; rewrite Z.add_simpl_l in *; done.
Qed.

Lemma StartList_holds b a sz :
  holds b a ->
  exists b', StartList b sz = Ret (mkListBuilder (len (bytes a) + a_padding (len (bytes a))) 0, b')
    /\ holds b' (a_align a).
Proof. intros H; unfold StartList; hold_step; rewrite (holds_pos _ _ Hh), len_align; eauto. Qed.

Lemma AddUintN_holds b a lb n v :
  holds b a -> 0 <= n ->
  exists b', AddUintN n lb b v = Ret (mkListBuilder (lstartPos lb) (count lb + 1), b')
    /\ holds b' (a_append a (le_bytes n v)).
Proof.
  intros H Hn; unfold AddUintN.
  destruct (append_grown b a (le_bytes n v) H) as (b' & d & Hg & Hs & _ & Hh').
  rewrite len_le_bytes in * by lia; rewrite Hg; simpl; rewrite Hs; eauto.
Qed.

Lemma AddObjectPtr_holds b a lb t :
  holds b a ->
  exists b', AddObjectPtr lb b t = Ret (mkListBuilder (lstartPos lb) (count lb + 1), b')
    /\ holds b' (a_append a (le_bytes 4 (if t =? 0 then 0 else t - len (bytes a)))).
Proof.
  intros H; pose proof (holds_pos _ _ H) as Hpos; unfold AddObjectPtr.
  set (w := le_bytes 4 (if t =? 0 then 0 else t - len (bytes a))).
  destruct (append_grown b a w H) as (b' & d & Hg & Hs & Hp & Hh').
  unfold w in Hg, Hh'; rewrite len_le_bytes in Hg, Hh' by lia; rewrite Hg; simpl.
  rewrite le_bytes_s32, Hp, Hpos; rewrite Hp, Hpos in Hs; unfold w in Hs.
  destruct (t =? 0); rewrite Hs; rewrite Hp, Hpos in Hh'; eauto.
Qed.

Lemma exec_holds c b a ob lb a' ob' lb' :
  holds b a -> aexec c (a, ob, lb) = Some (a', ob', lb') ->
  exists b', exec c (b, ob, lb) = Ret (b', ob', lb') /\ holds b' a'.
Proof.
  intros H Ha; pose proof (holds_pos _ _ H) as Hpos.
  destruct c; simpl in Ha |- *.
  - simplify_eq; destruct (StartObject_holds b a size H) as (b' & -> & ?); eauto.
  - case_if; simplify_eq.
    destruct (SetUintN_holds b a ob' n f v) as (b' & -> & ?); eauto.
  - case_if; [|done].
    destruct (SetBytesFixed_holds b a ob f v) as (b' & -> & ?); [done..|].
    destruct (len v =? 0); simplify_eq; eauto.
  - case_if; simplify_eq.
    destruct (SetBytes_holds b a ob' f v) as (b' & -> & ?); eauto.
  - destruct (field_ok ob f) eqn:?; simplify_eq.
    destruct (SetObject_holds b a ob' f off) as (b' & -> & ?); eauto.
  - destruct (field_ok ob f) eqn:?; simplify_eq.
    destruct (SetList_holds b a ob' f off length) as (b' & -> & ?); eauto.
  - simplify_eq; eexists; split; [reflexivity|]. destruct H as (? & ? & ?); done.
  - unfold WriteBytes; destruct (len v =? 0); simplify_eq; [simpl; eauto|]; hold_step.
    destruct (append_grown _ _ v Hh) as (b' & d & -> & Hs & _ & Hh'); simpl.
    rewrite Hs; eauto.
  - simplify_eq; destruct (StartList_holds b a elemSize H) as (b' & -> & ?); eauto.
  - case_if; simplify_eq; destruct (AddUintN_holds b a lb n v H) as (b' & -> & ?); eauto.
  - simplify_eq; unfold AddBytes.
    destruct (append_grown b a v H) as (b' & d & -> & Hs & _ & Hh'); simpl.
    rewrite Hs; eauto.
  - simplify_eq; destruct (AddObjectPtr_holds b a lb target H) as (b' & -> & ?); eauto.
Qed.

Lemma builder_run cs b a ob lb a' ob' lb' :
  holds b a -> arun cs (a, ob, lb) = Some (a', ob', lb') ->
  exists b', run cs (b, ob, lb) = Ret (b', ob', lb') /\ holds b' a'.
Proof.
  revert b a ob lb; induction cs as [|c cs IH]; intros b a ob lb H Ha; cbn [run arun] in *.
  { simplify_eq; eauto. }
  destruct (aexec c (a, ob, lb)) as [[[a1 ob1] lb1]|] eqn:E; [|done].
  destruct (exec_holds _ _ _ _ _ _ _ _ H E) as (b1 & -> & H1).
  eapply IH; eauto.
Qed.

(** ** Fresh, reused and finished builders *)

(** The document of a builder just made at a wire version. *)
Definition fresh_doc (version : Z) : Doc :=
  mkDoc (Magic ++ le_bytes 2 version ++ zeros 10) 0.

(** What [Finish] makes of a document. *)
Definition a_finish (a : Doc) : Doc :=
  a_patch (a_patch a 8 (le_bytes 4 (root a))) 12 (le_bytes 4 (len (bytes a))).

Lemma newBuilder_holds capacity version :
  exists b, newBuilder capacity version = Ret b /\ holds b (fresh_doc version).
Proof.
  unfold newBuilder, HeaderSize.
  set (n := if capacity <? 16 then 256 else capacity).
  assert (16 <= n) by (unfold n; case_if; lia).
  assert (H0 : holds (mkBuilder (zeros n) 16 0) (mkDoc (zeros 16) 0)).
  { unfold holds; simpl; rewrite len_zeros by lia; split_and!; try lia; try done.
    unfold sub, zeros; rewrite drop_0, take_replicate; f_equal; lia. }
  destruct (patch_holds _ _ H0 0 Magic) as [E1 H1]; [lia|simpl; vm_compute; discriminate|].
  simpl in E1; rewrite E1; unfold mbind, outcome_bind.
  destruct (patch_holds _ _ H1 4 (le_bytes 2 version)) as [E2 H2];
    [lia|rewrite len_le_bytes by lia; vm_compute; discriminate|].
  simpl in E2; rewrite E2; eexists; split; [reflexivity|].
  unfold fresh_doc; replace (Magic ++ le_bytes 2 version ++ zeros 10)
    with (bytes (a_patch (a_patch (mkDoc (zeros 16) 0) 0 Magic) 4 (le_bytes 2 version)));
    [exact H2|].
  simpl; unfold put; rewrite take_0; simpl; do 4 f_equal.
Qed.

Lemma Reset_holds b a :
  holds b a -> HeaderSize <= len (bytes a) ->
  holds (Builder_Reset b) (mkDoc (sub (bytes a) 0 HeaderSize) 0).
Proof.
  intros H Hl; pose proof (holds_pos _ _ H); destruct H as (Hp & Hb & Hr).
  unfold HeaderSize in *; unfold holds; simpl; split_and!; [unfold HeaderSize; lia..| |done].
  unfold HeaderSize; rewrite <- Hb, sub_sub by lia; done.
Qed.

Lemma Finish_holds b a :
  holds b a -> HeaderSize <= len (bytes a) ->
  exists b', Builder_Finish b = Ret (bytes (a_finish a), b') /\ holds b' (a_finish a).
Proof.
  intros H Hl; pose proof (holds_pos _ _ H) as Hpos.
  pose proof (proj2 (proj2 H)) as Hroot; unfold HeaderSize in Hl.
  unfold Builder_Finish; rewrite !le_bytes_u32, Hpos, Hroot.
  destruct (patch2_holds b a 8 (le_bytes 4 (root a)) (le_bytes 4 (len (bytes a))) H)
    as (d & d' & -> & Hd & Hh); rewrite ?len_le_bytes by lia; try lia.
  change (8 + 4) with 12 in Hd, Hh; unfold mbind, outcome_bind; rewrite Hd.
  pose proof Hh as (Hp & Hb & _); simpl in Hp, Hb.
  rewrite slice_ok by lia; eexists; split; [|exact Hh].
  rewrite Hpos in Hb; rewrite Z.sub_0_r, Hb; done.
Qed.

Lemma FinishWithFlags_holds b a flags :
  holds b a -> HeaderSize <= len (bytes a) ->
  let a' := a_finish (a_patch a 6 (le_bytes 2 flags)) in
  exists b', FinishWithFlags b flags = Ret (bytes a', b') /\ holds b' a'.
Proof.
  intros H Hl; unfold HeaderSize in Hl; unfold FinishWithFlags.
  destruct (patch_holds b a H 6 (le_bytes 2 flags)) as [-> H'];
    rewrite ?len_le_bytes by lia; try lia.
  apply Finish_holds; [done|].
  simpl; rewrite len_put; unfold HeaderSize; rewrite ?len_le_bytes; lia.
Qed.

(** ** The header is not touched by commands *)

(** Two documents agree outside the root and size fields of the header, which
    [Finish] writes. *)
Definition doc_equiv (a1 a2 : Doc) : Prop :=
  root a1 = root a2 /\ len (bytes a1) = len (bytes a2)
  /\ forall i : nat, (i < 8 \/ 16 <= i)%nat -> bytes a1 !! i = bytes a2 !! i.

#[export] Instance doc_equiv_equivalence : Equivalence doc_equiv.
Proof.
  split.
  - intros a; split_and!; done.
  - intros a1 a2 (? & ? & H); split_and!; try done; intros; symmetry; auto.
  - intros a1 a2 a3 (? & ? & H) (? & ? & H'); split_and!; try congruence.
    intros; rewrite H by done; auto.
Qed.

#[export] Instance a_append_proper : Proper (doc_equiv ==> eq ==> doc_equiv) a_append.
Proof.
  intros a1 a2 (Hr & Hl & H) v ? <-; split_and!; simpl; rewrite ?len_app; try lia.
  intros i Hi; unfold len in Hl.
  destruct (decide (i < length (bytes a1))%nat).
  - rewrite !lookup_app_l by lia; auto.
  - rewrite !lookup_app_r by lia; f_equal; lia.
Qed.

Lemma a_extend_proper n a1 a2 : doc_equiv a1 a2 -> doc_equiv (a_extend a1 n) (a_extend a2 n).
Proof. intros H; unfold a_extend; pose proof H as (_ & -> & _); rewrite H; done. Qed.

Lemma a_align_proper a1 a2 : doc_equiv a1 a2 -> doc_equiv (a_align a1) (a_align a2).
Proof. intros H; unfold a_align; pose proof H as (_ & -> & _); rewrite H; done. Qed.

Lemma a_patch_proper p v a1 a2 :
  doc_equiv a1 a2 -> 0 <= p -> p + len v <= len (bytes a1) ->
  doc_equiv (a_patch a1 p v) (a_patch a2 p v).
Proof.
  intros (Hr & Hl & H) Hp Hv; split_and!; simpl; rewrite ?len_put; try lia.
  intros i Hi; rewrite !lookup_put by lia; case_decide; auto.
Qed.

(** The length of a document never shrinks and its first eight bytes (magic,
    version, flags) stay as they were. *)
Definition keeps_header (a a' : Doc) : Prop :=
  len (bytes a) <= len (bytes a')
  /\ forall i : nat, (i < 8)%nat -> bytes a' !! i = bytes a !! i.

#[export] Instance keeps_header_preorder : PreOrder keeps_header.
Proof.
  split.
  - intros a; split; [lia|done].
  - intros a1 a2 a3 [? H] [? H']; split; [lia|]; intros; rewrite H', H by done; done.
Qed.

Lemma keeps_append a v : 8 <= len (bytes a) -> keeps_header a (a_append a v).
Proof.
  intros; pose proof (len_nonneg v); split; simpl; [rewrite len_app; lia|].
  intros i Hi; apply lookup_app_l; unfold len in *; lia.
Qed.

Lemma keeps_patch a p v :
  8 <= p -> p + len v <= len (bytes a) -> keeps_header a (a_patch a p v).
Proof.
  intros; split; simpl; [rewrite len_put; lia|].
  intros i Hi; rewrite lookup_put by lia; rewrite decide_False by lia; done.
Qed.

(** ** Edits inside the contract *)

(** An edit a command may make on a document of length [n]: it patches behind
    the header and inside the document. *)
Definition edit_ok (n : Z) (e : edit) : Prop :=
  match e with
  | EPatch p v => HeaderSize <= p /\ p + len v <= n
  | _ => True
  end.
Definition edit_len (n : Z) (e : edit) : Z :=
  match e with EAppend v => n + len v | _ => n end.
Fixpoint edits_ok (n : Z) (es : list edit) : Prop :=
  match es with
  | [] => True
  | e :: es => edit_ok n e /\ edits_ok (edit_len n e) es
  end.

Lemma aplan_edits_ok c n ob lb es ob' lb' :
  HeaderSize <= n -> aplan c n ob lb = Some (es, ob', lb') -> edits_ok n es.
Proof.
  intros Hn Ha.
  destruct c; simpl in Ha; repeat case_if; simplify_eq; simpl;
    unfold field_ok, HeaderSize in *; bool_to_prop; split_and?; try done; rewrite ?len_zeros_max, ?len_le_bytes by lia; try lia;
    match goal with v : list _ |- _ => pose proof (len_nonneg v) end; lia.
Qed.

Lemma apply_edit_len n a e :
  len (bytes a) = n -> edit_ok n e -> len (bytes (apply_edit a e)) = edit_len n e.
Proof.
  destruct e; simpl; unfold HeaderSize; intros <-; rewrite ?len_app; try done.
  intros; rewrite len_put; lia.
Qed.

Lemma edit_keeps_header a e :
  HeaderSize <= len (bytes a) -> edit_ok (len (bytes a)) e ->
  keeps_header a (apply_edit a e).
Proof.
  unfold HeaderSize; destruct e; simpl; unfold HeaderSize; intros Hl He.
  - apply keeps_append; lia.
  - apply keeps_patch; lia.
  - split; [simpl; lia|done].
Qed.

Lemma edits_keep_header es : forall a,
  HeaderSize <= len (bytes a) -> edits_ok (len (bytes a)) es ->
  keeps_header a (apply_edits es a).
Proof.
  induction es as [|e es IH]; simpl; intros a Hl Hok; [done|].
  destruct Hok as [He Hes]; pose proof (edit_keeps_header a e Hl He) as Hk.
  transitivity (apply_edit a e); [done|]; apply IH; [destruct Hk; lia|].
  rewrite (apply_edit_len _ _ _ eq_refl He); done.
Qed.

Lemma edits_equiv es : forall a1 a2,
  doc_equiv a1 a2 -> edits_ok (len (bytes a1)) es ->
  doc_equiv (apply_edits es a1) (apply_edits es a2).
Proof.
  induction es as [|e es IH]; simpl; intros a1 a2 H Hok; [done|].
  destruct Hok as [He Hes]; apply IH.
  - destruct e; simpl in *; [rewrite H; done| |destruct H as (? & ? & ?); done].
    unfold HeaderSize in *; apply a_patch_proper; try lia; done.
  - rewrite (apply_edit_len _ _ _ eq_refl He); done.
Qed.

Lemma arun_keeps_header cs : forall a ob lb a' ob' lb',
  HeaderSize <= len (bytes a) -> arun cs (a, ob, lb) = Some (a', ob', lb') ->
  keeps_header a a'.
Proof.
  induction cs as [|c cs IH]; cbn [arun]; intros a ob lb a' ob' lb' Hl Ha; [by simplify_eq|].
  unfold aexec in Ha.
  destruct (aplan c (len (bytes a)) ob lb) as [[[es ob1] lb1]|] eqn:E; [|done].
  pose proof (edits_keep_header es a Hl (aplan_edits_ok _ _ _ _ _ _ _ Hl E)) as Hk.
  transitivity (apply_edits es a); [done|].
  eapply IH; [|exact Ha]; destruct Hk; lia.
Qed.

Lemma arun_equiv cs : forall a1 a2 ob lb a1' ob' lb',
  HeaderSize <= len (bytes a1) -> doc_equiv a1 a2 ->
  arun cs (a1, ob, lb) = Some (a1', ob', lb') ->
  exists a2', arun cs (a2, ob, lb) = Some (a2', ob', lb') /\ doc_equiv a1' a2'.
Proof.
  induction cs as [|c cs IH]; cbn [arun]; intros a1 a2 ob lb a1' ob' lb' Hl H Ha.
  { simplify_eq; eauto. }
  unfold aexec in Ha |- *; rewrite <- (proj1 (proj2 H)).
  destruct (aplan c (len (bytes a1)) ob lb) as [[[es ob1] lb1]|] eqn:E; [|done].
  pose proof (aplan_edits_ok _ _ _ _ _ _ _ Hl E) as Hok.
  eapply IH; [|apply edits_equiv; eauto|exact Ha].
  destruct (edits_keep_header es a1 Hl Hok); lia.
Qed.

(** Finishing erases the difference. *)
Lemma a_finish_equiv a1 a2 :
  doc_equiv a1 a2 -> HeaderSize <= len (bytes a1) ->
  bytes (a_finish a1) = bytes (a_finish a2).
Proof.
  unfold HeaderSize; intros (Hr & Hl & H) Hn; unfold a_finish; simpl; rewrite Hr, Hl.
  apply list_eq; intros i.
  rewrite !lookup_put by (rewrite ?len_put, ?len_le_bytes by (rewrite ?len_le_bytes; lia); lia).
  rewrite !len_le_bytes by lia. repeat case_decide; try done.
  apply H; lia.
Qed.

(** ** Whole messages *)

Definition no_object : ObjectBuilder := mkObjectBuilder 0 0.
Definition no_list : ListBuilder := mkListBuilder 0 0.

(** Run an API use on a builder and finish the message. *)
Definition build (b : Builder) (cs : list cmd) : outcome (list byte * Builder) :=
  s ← run cs (b, no_object, no_list); Builder_Finish s.1.1.

(** The use is inside the contract, from a document of header size. *)
Definition in_contract (cs : list cmd) : Prop :=
  is_Some (arun cs (fresh_doc Version2, no_object, no_list)).

Lemma len_fresh v : len (bytes (fresh_doc v)) = HeaderSize.
Proof. cbn [fresh_doc bytes]; rewrite !len_app, len_le_bytes, len_zeros by lia; done. Qed.

Lemma arun_len_only cs a a0 s0 :
  len (bytes a) = HeaderSize -> len (bytes a0) = HeaderSize ->
  arun cs (a0, no_object, no_list) = Some s0 ->
  is_Some (arun cs (a, no_object, no_list)).
Proof.
  intros Hl Hl0.
  assert (forall cs a1 a2 ob lb, len (bytes a1) = len (bytes a2) ->
    HeaderSize <= len (bytes a1) ->
    is_Some (arun cs (a1, ob, lb)) -> is_Some (arun cs (a2, ob, lb))) as Hgen.
  { clear; induction cs as [|c cs IH]; cbn [arun]; intros a1 a2 ob lb Hl Hh Hs; [eauto|].
    unfold aexec in *; rewrite <- Hl.
    destruct (aplan c (len (bytes a1)) ob lb) as [[[es ob1] lb1]|] eqn:E; [|done].
    pose proof (aplan_edits_ok _ _ _ _ _ _ _ Hh E) as Hok.
    eapply IH; [| |exact Hs]; [|destruct (edits_keep_header es a1 Hh Hok); lia].
    clear -Hl Hok; revert a1 a2 Hl Hok; induction es as [|e es IH]; simpl; [done|].
    intros a1 a2 Hl [He Hes]; apply IH.
    - rewrite (apply_edit_len _ _ _ eq_refl He), (apply_edit_len _ a2 e (eq_sym Hl)); done.
    - rewrite (apply_edit_len _ _ _ eq_refl He); done. }
  intros Ha; eapply Hgen; [| |exists s0; exact Ha]; [|rewrite Hl0]; lia.
Qed.

(** Building on any builder whose header is 16 bytes behaves as the
    specification says from that header. *)
Lemma build_holds b hdr cs :
  holds b (mkDoc hdr 0) -> len hdr = HeaderSize -> in_contract cs ->
  exists a b' ob lb,
    arun cs (mkDoc hdr 0, no_object, no_list) = Some (a, ob, lb)
    /\ keeps_header (mkDoc hdr 0) a
    /\ build b cs = Ret (bytes (a_finish a), b') /\ holds b' (a_finish a).
Proof.
  intros Hb Hl [s0 Hs0].
  destruct (arun_len_only cs (mkDoc hdr 0) _ s0 Hl (len_fresh Version2) Hs0) as [[[a ob] lb] Ha].
  destruct (builder_run cs b _ _ _ a ob lb Hb Ha) as (b1 & Hrun & Hh).
  assert (Hk : keeps_header (mkDoc hdr 0) a)
    by (eapply arun_keeps_header; [simpl; rewrite Hl; lia|exact Ha]).
  destruct (Finish_holds b1 a Hh) as (b' & Hf & Hh'); [destruct Hk; simpl in *; lia|].
  exists a, b', ob, lb; split_and!; try done.
  unfold build; rewrite Hrun; simpl; done.
Qed.

Lemma len_finish a : HeaderSize <= len (bytes a) -> len (bytes (a_finish a)) = len (bytes a).
Proof.
  unfold HeaderSize; intros; cbn [a_finish a_patch bytes].
  rewrite !len_put; rewrite ?len_put; rewrite ?len_le_bytes; lia.
Qed.

Lemma lookup_finish_low a (i : nat) :
  HeaderSize <= len (bytes a) -> (i < 8 \/ 16 <= i)%nat ->
  bytes (a_finish a) !! i = bytes a !! i.
Proof.
  unfold HeaderSize; intros; cbn [a_finish a_patch bytes].
  rewrite !lookup_put by (rewrite ?len_put, ?len_le_bytes by (rewrite ?len_le_bytes; lia); lia).
  rewrite !len_le_bytes by lia; rewrite !decide_False by lia; done.
Qed.

Lemma finish_header a :
  HeaderSize <= len (bytes a) -> sub (bytes (a_finish a)) 0 8 = sub (bytes a) 0 8.
Proof.
  intros; apply list_eq; intros i; rewrite !lookup_sub by lia; case_decide; [|done].
  apply lookup_finish_low; [done|lia].
Qed.

(** Resetting a finished message that started from a fresh header gives the
    fresh header back, but for the root and size fields. *)
Lemma reset_equiv v a :
  HeaderSize <= len (bytes a) -> keeps_header (fresh_doc v) a ->
  doc_equiv (fresh_doc v) (mkDoc (sub (bytes (a_finish a)) 0 HeaderSize) 0).
Proof.
  intros Hl [_ Hk]; pose proof (len_finish a Hl).
  split_and!; 
    [done|rewrite len_fresh; cbn [bytes]; rewrite len_sub; unfold HeaderSize in *; lia|].
  intros i [Hi|Hi]; cbn [bytes]; rewrite lookup_sub by lia.
  - unfold HeaderSize; rewrite decide_True by lia; simpl Nat.add.
    rewrite lookup_finish_low by auto; symmetry; apply Hk; done.
  - unfold HeaderSize; rewrite decide_False by lia.
    apply lookup_ge_None; pose proof (len_fresh v); unfold len, HeaderSize in *; lia.
Qed.

(** ** The pool *)

(** A builder reset for a message: its document is a fresh header, but for the
    root and size fields. *)
Definition ready (b : Builder) : Prop :=
  exists hdr, holds b (mkDoc hdr 0) /\ len hdr = HeaderSize
    /\ doc_equiv (fresh_doc Version2) (mkDoc hdr 0).

(** A builder that [Reset] makes ready. *)
Definition clean (b : Builder) : Prop := ready (Builder_Reset b).

(** Clients of the pool: take a builder; build and finish a message on a
    builder taken and put it back; and the pool drops a builder. The state is
    the pool and the builders in clients' hands. *)
Inductive pool_step : list Builder * list Builder -> list Builder * list Builder -> Prop :=
| pool_get pick p p' b taken :
    GetBuilder pick p = Ret (b, p') -> pool_step (p, taken) (p', b :: taken)
| pool_put cs p b b' out l k :
    in_contract cs -> build b cs = Ret (out, b') ->
    pool_step (p, l ++ b :: k) (PutBuilder b' p, l ++ k)
| pool_drop i p taken : pool_step (p, taken) (delete i p, taken).

Definition pool_runs : list Builder * list Builder -> list Builder * list Builder -> Prop := rtc pool_step.

Lemma fresh_ready c : exists b, NewBuilder c = Ret b /\ clean b.
Proof.
  destruct (newBuilder_holds c Version2) as (b & Hb & Hh); exists b; split; [done|].
  exists (bytes (fresh_doc Version2)).
  pose proof (Reset_holds b _ Hh ltac:(rewrite len_fresh; lia)) as Hr.
  rewrite sub_all in Hr by (rewrite len_fresh; lia).
  split_and!; [done|apply len_fresh|reflexivity].
Qed.

Lemma GetBuilder_ready pick p :
  Forall clean p ->
  exists b p', GetBuilder pick p = Ret (b, p') /\ ready b /\ Forall clean p'.
Proof.
  intros Hp; destruct (fresh_ready 512) as (b0 & Hb0 & Hc0); unfold GetBuilder; rewrite Hb0.
  destruct pick as [i|]; [destruct (p !! i) as [b|] eqn:Hi|]; simpl.
  2, 3: eexists _, _; split; [reflexivity|split; [exact Hc0|done]].
  eexists _, _; split; [reflexivity|split; [exact (Forall_lookup_1 _ _ _ _ Hp Hi)|]].
  apply Forall_delete; done.
Qed.

(** A message built on a ready builder is the one a fresh header gives, and
    leaves the builder clean. *)
Lemma ready_build b cs :
  ready b -> in_contract cs ->
  exists out b', build b cs = Ret (out, b') /\ clean b'
    /\ forall a ob lb, arun cs (fresh_doc Version2, no_object, no_list) = Some (a, ob, lb) ->
         out = bytes (a_finish a).
Proof.
  intros (hdr & Hh & Hl & He) Hcs.
  destruct (build_holds b hdr cs Hh Hl Hcs) as (a & b' & ob & lb & Ha & Hk & Hb & Hh').
  destruct Hcs as [[[a0 ob0] lb0] Ha0].
  destruct (arun_equiv cs _ _ _ _ _ _ _ ltac:(rewrite len_fresh; done) He Ha0) as (a1 & Ha1 & He1).
  rewrite Ha in Ha1; simplify_eq.
  assert (Hk0 : keeps_header (fresh_doc Version2) a0)
    by (eapply arun_keeps_header; [rewrite len_fresh; unfold HeaderSize; lia|exact Ha0]).
  assert (Hl0 : HeaderSize <= len (bytes a0))
    by (destruct Hk0 as [Hk0 _]; rewrite len_fresh in Hk0; done).
  pose proof (a_finish_equiv _ _ He1 Hl0) as Hf.
  exists (bytes (a_finish a1)), b'; split_and!; [done| |].
  - eexists; split; [apply (Reset_holds b' _ Hh'); rewrite <- Hf, len_finish; done|].
    rewrite <- Hf; split; [rewrite len_sub; rewrite ?len_finish by done; unfold HeaderSize in *; lia|].
    apply reset_equiv; done.
  - intros a ob' lb' Ha'; rewrite Ha0 in Ha'; simplify_eq; done.
Qed.

Lemma pool_runs_clean s s' :
  pool_runs s s' -> Forall clean s.1 /\ Forall ready s.2 -> Forall clean s'.1 /\ Forall ready s'.2.
Proof.
  induction 1 as [|s1 s2 s3 Hstep _ IH]; [done|]; intros [Hp Ht]; apply IH; clear IH.
  destruct Hstep as [pick p p' b taken Hg|cs p b b' out l k Hcs Hb|i p taken]; simpl in *.
  - destruct (GetBuilder_ready pick p Hp) as (b0 & p0 & Hg' & ? & ?); rewrite Hg in Hg'; simplify_eq.
    auto using Forall_cons_2.
  - apply Forall_app in Ht as [Hl [Hr Hk]%Forall_cons_1].
    destruct (ready_build b cs Hr Hcs) as (out' & b0 & Hb' & Hc & _); rewrite Hb in Hb'; simplify_eq.
    split; [by constructor|by apply Forall_app].
  - split; [by apply Forall_delete|done].
Qed.

(** ** Properties *)

(** C11: [builder.go] implements the document specification. Whatever the
    capacity of the buffer and whatever bytes it holds behind the write
    position, a sequence of API calls inside the contract does not panic and
    leaves exactly the specified bytes, offsets and root. *)
Theorem builder_refines_doc cs b a ob lb a' ob' lb' :
  holds b a -> arun cs (a, ob, lb) = Some (a', ob', lb') ->
  exists b', run cs (b, ob, lb) = Ret (b', ob', lb') /\ holds b' a'.
Proof. apply builder_run. Qed.

(** A pooled builder writes what a fresh one writes. However clients take
    builders, build messages inside the contract with [Finish] and put them
    back, and whatever the pool drops meanwhile, a builder taken from it then
    produces, for any further message, byte for byte what a new builder of any
    capacity produces. *)
Theorem pooled_builder_is_fresh c s pick cs :
  pool_runs ([], []) s -> in_contract cs ->
  exists b p b0 out r r0, GetBuilder pick s.1 = Ret (b, p) /\ NewBuilder c = Ret b0
    /\ build b cs = Ret (out, r) /\ build b0 cs = Ret (out, r0).
Proof.
  intros Hs Hcs; apply pool_runs_clean in Hs as [Hp _]; [|split; constructor].
  destruct (GetBuilder_ready pick s.1 Hp) as (b & p & Hg & Hb & _).
  destruct (newBuilder_holds c Version2) as (b0 & Hb0 & Hh0).
  destruct (ready_build b cs Hb Hcs) as (out & r & Hbuild & _ & Hsame).
  destruct (build_holds b0 _ cs Hh0 (len_fresh Version2) Hcs) as (a & r0 & ob & lb & Ha & _ & Hf & _).
  exists b, p, b0, out, r, r0; split_and!; try done.
  rewrite (Hsame a ob lb Ha) in *; done.
Qed.

(** What the pool does not reset. Whatever was done with a builder before
    it is put back, the next message built on it carries the magic, wire
    version and flags that the builder's header held then. A builder that
    finished with flags, or was made by [NewBuilderV1], hands its flags and its
    version to the next user of [GetBuilder]. *)
Theorem pooled_builder_keeps_version_and_flags b a p cs :
  holds b a -> HeaderSize <= len (bytes a) -> in_contract cs ->
  exists b' out r, GetBuilder (Some 0%nat) (PutBuilder b p) = Ret (b', p)
    /\ build b' cs = Ret (out, r) /\ sub out 0 8 = sub (buf b) 0 8.
Proof.
  intros Hb Hl Hcs; pose proof (Reset_holds b a Hb Hl) as Hr.
  destruct (build_holds _ _ cs Hr) as (a' & r & _ & _ & _ & Hk & Hbuild & _); try done.
  { unfold HeaderSize in *; rewrite len_sub; lia. }
  eexists _, _, r; split; [reflexivity|split; [exact Hbuild|]].
  rewrite (finish_header a') by (destruct Hk as [Hk _]; simpl in Hk;
    unfold HeaderSize in *; rewrite len_sub in Hk; lia).
  pose proof (holds_pos _ _ Hb); destruct Hb as (Hp & Hbytes & _).
  unfold HeaderSize in *; apply list_eq; intros i; rewrite !lookup_sub by lia.
  case_decide; [|done]; destruct Hk as [_ Hk]; rewrite Hk by lia; simpl.
  rewrite lookup_sub by lia; rewrite decide_True by lia.
  rewrite <- Hbytes, lookup_sub by lia; rewrite decide_True by lia; done.
Qed.

(** ** Witnesses *)

(** An object of sixteen bytes with two fields and a list of two integers. *)
Definition sample_cmds : list cmd :=
  [CStartList 4; CAddUint 4 7; CAddUint 4 9; CStartObject 16; CSetUint 4 0 5;
   CSetBytes 8 [Byte.x61]; CFinishAsRoot].

Lemma builder_refines_doc_witness :
  exists b s s', NewBuilder 0 = Ret b /\ run sample_cmds (b, no_object, no_list) = Ret s
    /\ arun sample_cmds (fresh_doc Version2, no_object, no_list) = Some s'
    /\ holds s.1.1 s'.1.1 /\ root s'.1.1 = 24.
Proof.
  destruct (newBuilder_holds 0 Version2) as (b & Hb & Hh).
  destruct (arun sample_cmds (fresh_doc Version2, no_object, no_list)) as [[[a' ob'] lb']|] eqn:E;
    [|vm_compute in E; discriminate E].
  destruct (builder_refines_doc sample_cmds b _ _ _ a' ob' lb' Hh E) as (b' & Hr & Hh').
  exists b, (b', ob', lb'), (a', ob', lb'); split_and!; try assumption; [reflexivity|].
  assert (Hc : (fun s => root s.1.1) <$> arun sample_cmds (fresh_doc Version2, no_object, no_list)
               = Some 24) by (vm_compute; reflexivity).
  rewrite E in Hc; injection Hc; done.
Defined.

Lemma in_contract_sample : in_contract sample_cmds.
Proof. unfold in_contract; eexists; vm_compute; reflexivity. Qed.

(** A pool after one builder was taken, used and put back. *)
Lemma pooled_builder_is_fresh_witness :
  exists p b b0 out r r0, p <> [] /\ GetBuilder (Some 0%nat) p = Ret (b, [])
    /\ NewBuilder 20 = Ret b0
    /\ build b sample_cmds = Ret (out, r) /\ build b0 sample_cmds = Ret (out, r0).
Proof.
  assert (Hc : in_contract [CWriteBytes [Byte.xff; Byte.xff]])
    by (unfold in_contract; eexists; vm_compute; reflexivity).
  destruct (GetBuilder_ready None [] (Forall_nil_2 _)) as (b1 & p1 & Hg1 & Hr1 & _).
  destruct (ready_build b1 _ Hr1 Hc) as (out1 & b1' & Hb1 & _ & _).
  assert (Hp1 : p1 = [])
    by (destruct (fresh_ready 512) as (x & Hx & _); unfold GetBuilder in Hg1;
        rewrite Hx in Hg1; injection Hg1; done).
  subst p1; assert (Hrun : pool_runs ([], []) ([b1'], [])).
  { eapply rtc_l; [exact (pool_get None [] [] b1 [] Hg1)|].
    apply rtc_once; exact (pool_put _ [] b1 b1' out1 [] [] Hc Hb1). }
  destruct (pooled_builder_is_fresh 20 ([b1'], []) (Some 0%nat) sample_cmds Hrun in_contract_sample)
    as (b & p & b0 & out & r & r0 & Hg & Hb0 & Hb & Hb').
  exists [b1'], b, b0, out, r, r0; split_and!; try done.
  simpl fst in Hg; rewrite Hg; injection Hg as _ <-; done.
Defined.

(** A builder that finished one message with flags 1 puts them on the next. *)
Lemma pooled_builder_keeps_version_and_flags_witness :
  exists b out1 b1 b' out r, NewBuilderV1 0 = Ret b /\ FinishWithFlags b 1 = Ret (out1, b1)
    /\ GetBuilder (Some 0%nat) (PutBuilder b1 []) = Ret (b', [])
    /\ build b' [] = Ret (out, r)
    /\ sub out 4 4 = le_bytes 2 Version1 ++ le_bytes 2 1.
Proof.
  destruct (newBuilder_holds 0 Version1) as (b & Hb & Hh).
  destruct (FinishWithFlags_holds b _ 1 Hh ltac:(rewrite len_fresh; lia)) as (b1 & Hf & Hh1).
  destruct (pooled_builder_keeps_version_and_flags b1 _ [] [] Hh1
    ltac:(vm_compute; discriminate) ltac:(eexists; vm_compute; reflexivity))
    as (b' & out & r & Hg & Hout & Hs).
  eexists b, _, b1, b', out, r; split; [exact Hb|split; [exact Hf|split; [exact Hg|split; [exact Hout|]]]].
  assert (Hb8 : sub (buf b1) 0 8 = sub (bytes (a_finish (a_patch (fresh_doc Version1) 6 (le_bytes 2 1)))) 0 8).
  { pose proof (holds_pos _ _ Hh1) as Hp; destruct Hh1 as (Hr & Hbb & _).
    rewrite <- Hbb, sub_sub; [done|lia..|rewrite Hp; vm_compute; discriminate]. }
  rewrite (sub_prefix_eq _ _ 8 4 4 Hs), (sub_prefix_eq _ _ 8 4 4 Hb8) by lia; vm_compute; reflexivity.
Defined.
