(* ===== verification/Roundtrip.v ===== *)
(** * Roundtrip: what the builder writes, the reader reads

    A client of the API writes a tree of objects the way callers of
    [builder.go] do: children and lists first, then [StartObject], the setters
    and [Finish]; the root last. The theorem says that parsing the finished
    bytes gives the tree back through the accessors of [zap.go]. *)

From S2P Require Import Prelude Wire Builder BuilderSpec.

(** ** Trees and the client that writes them *)

(** A field of an object, over a type of nested objects. *)
Inductive field (A : Type) : Type :=
| TUint (n v : Z)                (** an integer of [n] bytes *)
| TFixed (v : list byte)         (** inline bytes *)
| TBytes (v : list byte)         (** out-of-line bytes or text *)
| TObject (t : A)                (** a nested object *)
| TUint32List (vs : list Z)      (** a list of [uint32] *)
| TObjectList (ts : list A).     (** a list of pointers to objects *)
Arguments TUint {A} n v.
Arguments TFixed {A} v.
Arguments TBytes {A} v.
Arguments TObject {A} t.
Arguments TUint32List {A} vs.
Arguments TObjectList {A} ts.

#[warnings="-register-all"]
Inductive tree : Type :=
| Node (size : Z) (fields : list (Z * field tree)).

(** A field whose nested objects and lists are already in the buffer. *)
Inductive resolved : Type :=
| RUint (n v : Z)
| RFixed (v : list byte)
| RBytes (v : list byte)
| RObject (off : Z)
| RList (off k : Z).

Definition set_resolved (ob : ObjectBuilder) (b : Builder) (f : Z) (r : resolved)
  : outcome Builder :=
  match r with
  | RUint n v => SetUintN n ob b f v
  | RFixed v => SetBytesFixed ob b f v
  | RBytes v => SetBytes ob b f v
  | RObject off => SetObject ob b f off
  | RList off k => SetList ob b f off k
  end.

Fixpoint set_fields (ob : ObjectBuilder) (b : Builder) (rs : list (Z * resolved))
  : outcome Builder :=
  match rs with
  | [] => Ret b
  | (f, r) :: rs => b ← set_resolved ob b f r; set_fields ob b rs
  end.

Fixpoint add_uint32s (lb : ListBuilder) (b : Builder) (vs : list Z)
  : outcome (ListBuilder * Builder) :=
  match vs with
  | [] => Ret (lb, b)
  | v :: vs => r ← AddUint32 lb b v; add_uint32s r.1 r.2 vs
  end.

Fixpoint add_pointers (lb : ListBuilder) (b : Builder) (offs : list Z)
  : outcome (ListBuilder * Builder) :=
  match offs with
  | [] => Ret (lb, b)
  | o :: offs => r ← AddObjectPtr lb b o; add_pointers r.1 r.2 offs
  end.

(** Write the objects of a list one after the other. *)
Definition emit_each {A} (emit : A -> Builder -> outcome (Z * Builder))
  : list A -> Builder -> outcome (list Z * Builder) :=
  fix go ts b :=
    match ts with
    | [] => Ret ([], b)
    | t :: ts =>
        r ← emit t b; rs ← go ts r.2; Ret (r.1 :: rs.1, rs.2)
    end.

(** Write what a field points to. *)
Definition resolve {A} (emit : A -> Builder -> outcome (Z * Builder))
  (x : field A) (b : Builder) : outcome (resolved * Builder) :=
  match x with
  | TUint n v => Ret (RUint n v, b)
  | TFixed v => Ret (RFixed v, b)
  | TBytes v => Ret (RBytes v, b)
  | TObject t => r ← emit t b; Ret (RObject r.1, r.2)
  | TUint32List vs =>
      s ← StartList b 4; r ← add_uint32s s.1 s.2 vs;
      let '(off, k) := ListBuilder_Finish r.1 in Ret (RList off k, r.2)
  | TObjectList ts =>
      os ← emit_each emit ts b;
      s ← StartList os.2 4; r ← add_pointers s.1 s.2 os.1;
      let '(off, k) := ListBuilder_Finish r.1 in Ret (RList off k, r.2)
  end.

Definition resolve_each {A} (emit : A -> Builder -> outcome (Z * Builder))
  : list (Z * field A) -> Builder -> outcome (list (Z * resolved) * Builder) :=
  fix go fs b :=
    match fs with
    | [] => Ret ([], b)
    | (f, x) :: fs =>
        r ← resolve emit x b; rs ← go fs r.2; Ret ((f, r.1) :: rs.1, rs.2)
    end.

Fixpoint emit (t : tree) (b : Builder) : outcome (Z * Builder) :=
  match t with
  | Node size fields =>
      rs ← resolve_each emit fields b;
      s ← StartObject rs.2 size;
      b ← set_fields s.1 s.2 rs.1;
      Ret (ObjectBuilder_Finish s.1, b)
  end.

(** The whole message: the tree, made the root, finished. *)
Definition write_message (b : Builder) (t : tree) : outcome (list byte * Builder) :=
  match t with
  | Node size fields =>
      rs ← resolve_each emit fields b;
      s ← StartObject rs.2 size;
      b ← set_fields s.1 s.2 rs.1;
      Builder_Finish (FinishAsRoot s.1 b).2
  end.

(** ** Reading a tree *)

(** [Forall] and [Forall2] as functions, which recursive definitions over
    nested objects can go through. *)
Definition all {A} (P : A -> Prop) : list A -> Prop :=
  fix go l := match l with [] => True | x :: l => P x /\ go l end.
Definition all2 {A B} (P : A -> B -> Prop) : list A -> list B -> Prop :=
  fix go (l : list A) (k : list B) {struct k} :=
    match k, l with
    | [], [] => True
    | y :: k, x :: l => P x y /\ go l k
    | _, _ => False
    end.

Definition obj (d : list byte) (off : Z) : Object := mkObject (Some (WrapBuffer d)) off.

(** The unsigned accessor of width [n]. *)
Definition read_uint (n : Z) (o : Object) (f : Z) : outcome Z :=
  if n =? 1 then Object_Uint8 o f else
  if n =? 2 then Object_Uint16 o f else
  if n =? 4 then Object_Uint32 o f else Object_Uint64 o f.

(** Reading field [x] of the object at [off] gives what was written. *)
Definition reads_field {A} (decodes : list byte -> Z -> A -> Prop)
  (d : list byte) (off f : Z) (x : field A) : Prop :=
  match x with
  | TUint n v => read_uint n (obj d off) f = Ret v
  | TFixed v => Object_BytesFixedSlice (obj d off) f (len v) = Ret (Some v)
  | TBytes v => Object_Text (obj d off) f = Ret v
  | TObject t => exists off', Object_Object (obj d off) f = Ret (obj d off') /\ decodes d off' t
  | TUint32List vs =>
      exists l, Object_List (obj d off) f = Ret l /\ List_Len l = len vs
        /\ forall (i : nat) v, vs !! i = Some v -> List_Uint32 l (Z.of_nat i) = Ret v
  | TObjectList ts =>
      exists l, Object_List (obj d off) f = Ret l /\ List_Len l = len ts
        /\ exists offs,
           (forall (i : nat) off', offs !! i = Some off' ->
              List_ObjectPtr l (Z.of_nat i) = Ret (obj d off'))
           /\ all2 (fun off t => decodes d off t) offs ts
  end.

Fixpoint decodes (d : list byte) (off : Z) (t : tree) {struct t} : Prop :=
  match t with
  | Node size fields =>
      HeaderSize <= off /\ off + size <= len d
      /\ all (fun p => reads_field decodes d off p.1 p.2) fields
  end.

(** ** Well-formed trees *)

Definition width {A} (x : field A) : Z :=
  match x with
  | TUint n _ => n
  | TFixed v => len v
  | TBytes _ => 8
  | TObject _ => 4
  | TUint32List _ => 8
  | TObjectList _ => 8
  end.

Definition field_wf {A} (wf : A -> Prop) (x : field A) : Prop :=
  match x with
  | TUint n v => (n = 1 \/ n = 2 \/ n = 4 \/ n = 8) /\ 0 <= v < 2 ^ (8 * n)
  | TFixed v => 1 <= len v
  | TBytes _ => True
  | TObject t => wf t
  | TUint32List vs => all (fun v => 0 <= v < 2 ^ 32) vs
  | TObjectList ts => all wf ts
  end.

(** The fields lie inside the object and do not overlap. *)
Fixpoint layout_ok {A} (size : Z) (fs : list (Z * field A)) : Prop :=
  match fs with
  | [] => True
  | (f, x) :: fs =>
      0 <= f /\ f + width x <= size
      /\ all (fun p => f + width x <= p.1 \/ p.1 + width p.2 <= f) fs
      /\ layout_ok size fs
  end.

Fixpoint tree_wf (t : tree) : Prop :=
  match t with
  | Node size fields =>
      1 <= size /\ layout_ok size fields
      /\ all (fun p => field_wf tree_wf p.2) fields
  end.

(** ** Bytes that stay *)

(** Everything of [d] but the flags, root and size fields of its header is still in
    [d'], at its place. *)
Definition keeps (d d' : list byte) : Prop :=
  len d <= len d' /\
  forall lo n, HeaderSize <= lo \/ (0 <= lo /\ lo + n <= 6) -> lo + n <= len d ->
    sub d' lo n = sub d lo n.

#[export] Instance keeps_preorder : PreOrder keeps.
Proof.
  split; [intros d; split; [lia|done]|].
  intros d1 d2 d3 [? H] [? H']; split; [lia|]; intros; rewrite H', H by lia; done.
Qed.

Lemma keeps_app d k : keeps d (d ++ k).
Proof.
  split; [rewrite len_app; pose proof (len_nonneg k); lia|].
  unfold HeaderSize; intros; apply sub_app_l; lia.
Qed.

Lemma keeps_finish a : HeaderSize <= len (bytes a) -> keeps (bytes a) (bytes (a_finish a)).
Proof.
  intros H; split; [rewrite len_finish; lia|].
  intros lo n Hlo Hn; unfold HeaderSize in *; apply list_eq; intros i.
  rewrite !lookup_sub by lia; case_decide; [|done].
  apply lookup_finish_low; unfold HeaderSize; [done|lia].
Qed.

(** ** Where the fields are stored *)

(** An eight-byte pointer pair. *)
Definition pair_bytes (rel k : Z) : list byte := le_bytes 4 rel ++ le_bytes 4 k.

Lemma len_pair rel k : len (pair_bytes rel k) = 8.
Proof. unfold pair_bytes; rewrite len_app, !len_le_bytes; lia. Qed.

Fixpoint uint32s (vs : list Z) : list byte :=
  match vs with
  | [] => []
  | v :: vs => le_bytes 4 v ++ uint32s vs
  end.

Lemma len_uint32s vs : len (uint32s vs) = 4 * len vs.
Proof.
  induction vs as [|v vs IH]; [done|]; cbn [uint32s].
  rewrite len_app, IH, len_le_bytes, !len_cons by lia; lia.
Qed.

(** The pointers of a list at [off] to objects at [offs]. *)
Fixpoint pointers (at_ : Z) (offs : list Z) : list byte :=
  match offs with
  | [] => []
  | o :: offs => le_bytes 4 (if o =? 0 then 0 else o - at_) ++ pointers (at_ + 4) offs
  end.

Lemma len_pointers offs : forall at_, len (pointers at_ offs) = 4 * len offs.
Proof.
  induction offs as [|o offs IH]; intros; [done|]; cbn [pointers].
  rewrite len_app, IH, len_le_bytes, len_cons by lia; lia.
Qed.

(** The pair that [SetList] stores at [p] for [k] elements at [off]. *)
Definition list_pair (p off k : Z) : list byte :=
  let null := (off =? 0) || (k =? 0) in
  pair_bytes (if null then 0 else off - p) (if null then 0 else k).

(** Field [x] of the object at [s] is stored in [d]; objects and lists it
    refers to were written before the object. *)
Definition cell {A} (stored : list byte -> Z -> A -> Prop)
  (d : list byte) (s f : Z) (x : field A) : Prop :=
  match x with
  | TUint n v => sub d (s + f) n = le_bytes n v
  | TFixed v => sub d (s + f) (len v) = v
  | TBytes v =>
      exists at_, s + f + 8 <= at_ /\ at_ + len v <= len d /\ sub d at_ (len v) = v
        /\ sub d (s + f) 8 = pair_bytes (if len v =? 0 then 0 else at_ - (s + f)) (len v)
  | TObject t =>
      exists off, HeaderSize <= off < s /\ sub d (s + f) 4 = le_bytes 4 (off - (s + f))
        /\ stored d off t
  | TUint32List vs =>
      exists off, HeaderSize <= off /\ off + 4 * len vs <= s
        /\ sub d (s + f) 8 = list_pair (s + f) off (len vs)
        /\ sub d off (4 * len vs) = uint32s vs
  | TObjectList ts =>
      exists off offs, HeaderSize <= off /\ off + 4 * len ts <= s
        /\ sub d (s + f) 8 = list_pair (s + f) off (len ts)
        /\ len offs = len ts /\ all (fun o => HeaderSize <= o < off) offs
        /\ sub d off (4 * len offs) = pointers off offs
        /\ all2 (fun off t => stored d off t) offs ts
  end.

Fixpoint stored (d : list byte) (s : Z) (t : tree) {struct t} : Prop :=
  match t with
  | Node size fields =>
      HeaderSize <= s /\ s + size <= len d
      /\ all (fun p => 0 <= p.1 /\ p.1 + width p.2 <= size /\ cell stored d s p.1 p.2) fields
  end.

(** ** Induction over trees *)

Definition field_all {A} (P : A -> Prop) (x : field A) : Prop :=
  match x with
  | TObject t => P t
  | TObjectList ts => all P ts
  | _ => True
  end.

Fixpoint tree_rect_all (P : tree -> Prop)
  (H : forall size fs, all (fun p => field_all P p.2) fs -> P (Node size fs))
  (t : tree) {struct t} : P t.
Proof.
  destruct t as [size fs]; apply H.
  induction fs as [|[f x] fs IH]; simpl; [exact I|]; split; [|exact IH].
  destruct x as [| | |t| |ts]; simpl; try exact I; [apply tree_rect_all; exact H|].
  induction ts as [|t ts IHts]; simpl; [exact I|]; split; [|exact IHts].
  apply tree_rect_all; exact H.
Defined.

Lemma all_impl {A} (P Q : A -> Prop) l :
  all (fun x => P x -> Q x) l -> all P l -> all Q l.
Proof. induction l; simpl; intuition auto. Qed.

Lemma all_mono {A} (P Q : A -> Prop) l : (forall x, P x -> Q x) -> all P l -> all Q l.
Proof. intros H; induction l; simpl; intuition auto. Qed.

Lemma all_and {A} (P Q : A -> Prop) l : all P l -> all Q l -> all (fun x => P x /\ Q x) l.
Proof. induction l; simpl; intuition auto. Qed.

Lemma all_lookup {A} (P : A -> Prop) l (i : nat) x : all P l -> l !! i = Some x -> P x.
Proof.
  revert i; induction l as [|y l IH]; intros i; [done|].
  intros [? ?]; destruct i; simpl; intros; simplify_eq; eauto.
Qed.

(** ** Stored trees stay stored *)

Lemma cell_keeps d d' s f (x : field tree) :
  field_all (fun t => forall s, stored d s t -> stored d' s t) x ->
  keeps d d' -> HeaderSize <= s -> 0 <= f -> s + f + width x <= len d ->
  cell stored d s f x -> cell stored d' s f x.
Proof.
  intros Hx [Hl Hk] Hs Hf Hw; unfold HeaderSize in *.
  destruct x as [n v|v|v|t|vs|ts]; simpl in *.
  - intros; rewrite Hk by lia; done.
  - intros; rewrite Hk by lia; done.
  - intros (at_ & ? & ? & ? & ?); exists at_; rewrite !Hk by lia; split_and!; auto; lia.
  - intros (off & ? & ? & ?); exists off; rewrite Hk by lia; split_and!; auto; lia.
  - intros (off & ? & ? & ? & ?); exists off; unfold HeaderSize in *; rewrite !Hk by lia; auto.
  - intros (off & offs & ? & ? & ? & Hlo & ? & ? & Hst); exists off, offs; unfold HeaderSize in *.
    rewrite !Hk by lia; split_and!; auto.
    clear -Hx Hst; revert ts Hx Hst; induction offs as [|o offs IH]; intros [|t ts]; simpl; auto.
    intros [? ?] [? ?]; auto.
Qed.

Lemma stored_keeps t : forall d d' s, keeps d d' -> stored d s t -> stored d' s t.
Proof.
  intros d d' s Hk; revert s; induction t as [size fs IH] using tree_rect_all; simpl.
  intros s (Hs & Hsz & Hall); split_and!; [done|destruct Hk; lia|].
  eapply all_impl; [|exact Hall]; eapply all_mono; [|exact IH].
  intros [f x]; simpl; intros Hx (? & ? & Hc); split_and!; try done.
  eapply cell_keeps; eauto; lia.
Qed.

(** ** The setters store their cells *)

Definition rwidth (r : resolved) : Z :=
  match r with
  | RUint n _ => n
  | RFixed v => len v
  | RBytes _ => 8
  | RObject _ => 4
  | RList _ _ => 8
  end.

(** What a setter appends to a document, and what it puts at the field's
    position [p] when the document had length [n]. *)
Definition tail (r : resolved) : list byte :=
  match r with RBytes v => v | _ => [] end.
Definition code (n p : Z) (r : resolved) : list byte :=
  match r with
  | RUint w v => le_bytes w v
  | RFixed v => v
  | RBytes v => pair_bytes (if len v =? 0 then 0 else n - p) (len v)
  | RObject off => le_bytes 4 (if off =? 0 then 0 else off - p)
  | RList off k => list_pair p off k
  end.

Definition resolved_wf (r : resolved) : Prop :=
  match r with RUint n _ => 0 <= n | RFixed v => 1 <= len v | _ => True end.

Lemma len_code n p r : resolved_wf r -> len (code n p r) = rwidth r.
Proof.
  destruct r; simpl; intros; rewrite ?len_le_bytes by lia; rewrite ?len_pair; done.
Qed.

Lemma a_extend_id a n : n <= len (bytes a) -> a_extend a n = a.
Proof.
  intros; unfold a_extend, a_append, zeros; replace (Z.to_nat _) with 0%nat by lia.
  simpl; rewrite app_nil_r; destruct a; done.
Qed.

Lemma put_pair (l : list byte) p v w :
  0 <= p -> len v = 4 -> p + 4 + len w <= len l ->
  put (put l p v) (p + 4) w = put l p (v ++ w).
Proof.
  intros Hp Hv Hw; pose proof (len_nonneg w); apply list_eq; intros i.
  rewrite !lookup_put by (rewrite ?len_put, ?len_app; lia).
  rewrite len_app; unfold len in *; repeat case_decide; try lia; try done.
  - rewrite lookup_app_r by lia; f_equal; lia.
  - rewrite lookup_app_l by lia; done.
Qed.

Lemma set_resolved_holds b a ob f r :
  holds b a -> HeaderSize <= startPos ob -> 0 <= f -> resolved_wf r ->
  startPos ob + f + rwidth r <= len (bytes a) ->
  exists b', set_resolved ob b f r = Ret b'
    /\ holds b' (mkDoc (put (bytes a ++ tail r) (startPos ob + f)
                          (code (len (bytes a)) (startPos ob + f) r)) (root a)).
Proof.
  intros H Hs Hf Hwf Hw.
  assert (Hok : field_ok ob f = true) by (unfold field_ok, HeaderSize in *; lia).
  unfold HeaderSize in *; destruct r as [n v|v|v|off|off k]; cbn [set_resolved tail code rwidth] in *.
  - destruct (SetUintN_holds b a ob n f v H Hok Hwf) as (b' & -> & Hh).
    rewrite a_extend_id in Hh by lia; rewrite app_nil_r; eauto.
  - destruct (SetBytesFixed_holds b a ob f v H Hok) as (b' & -> & Hh); simpl in Hwf.
    replace (len v =? 0) with false in Hh by lia.
    rewrite a_extend_id in Hh by lia; rewrite app_nil_r; eauto.
  - destruct (SetBytes_holds b a ob f v H Hok Hw) as (b' & -> & Hh).
    eexists; split; [done|]. unfold a_patch in Hh; cbn [bytes root a_append] in Hh.
    rewrite put_pair in Hh by (rewrite ?len_app, ?len_le_bytes by lia;
      pose proof (len_nonneg v); lia); done.
  - destruct (SetObject_holds b a ob f off H Hok) as (b' & -> & Hh).
    rewrite a_extend_id in Hh by lia; rewrite app_nil_r; eauto.
  - destruct (SetList_holds b a ob f off k H Hok) as (b' & -> & Hh).
    rewrite a_extend_id in Hh by lia; rewrite app_nil_r; eexists; split; [done|].
    unfold a_patch in Hh; cbn [bytes root] in Hh.
    rewrite put_pair in Hh by (rewrite ?len_le_bytes by lia; lia); done.
Qed.

(** Outside the cells [cs] (offsets and widths relative to [s]) the bytes of
    [d] are still in [d']. *)
Definition touches (d d' : list byte) (s : Z) (cs : list (Z * Z)) : Prop :=
  len d <= len d' /\
  forall lo n, 0 <= lo -> lo + n <= len d ->
    all (fun c => lo + n <= s + c.1 \/ s + c.1 + c.2 <= lo) cs ->
    sub d' lo n = sub d lo n.

(** Field [r] at [f] of the object at [s] is in [d]; out-of-line bytes lie
    behind [lim]. *)
Definition rcell (d : list byte) (s lim f : Z) (r : resolved) : Prop :=
  exists n, sub d (s + f) (rwidth r) = code n (s + f) r /\
    match r with
    | RBytes v => lim <= n /\ n + len v <= len d /\ sub d n (len v) = v
    | _ => True
    end.

Lemma set_cell d d' s lim f r :
  0 <= s -> 0 <= f -> resolved_wf r -> s + f + rwidth r <= lim -> lim <= len d ->
  d' = put (d ++ tail r) (s + f) (code (len d) (s + f) r) ->
  rcell d' s lim f r /\ touches d d' s [(f, rwidth r)].
Proof.
  intros Hs Hf Hwf Hw Hlim Hd'.
  pose proof (len_code (len d) (s + f) r Hwf) as Hc; pose proof (len_nonneg (tail r)).
  assert (Hin : s + f + len (code (len d) (s + f) r) <= len (d ++ tail r))
    by (rewrite len_app; lia).
  assert (Hld : len d' = len d + len (tail r))
    by (rewrite Hd', len_put, len_app by lia; done).
  split.
  - exists (len d); split.
    + rewrite Hd', <- Hc at 1; apply sub_put_same; lia.
    + destruct r as [| |v| |]; try done; cbn [rwidth tail] in *; split_and!; [done|lia|].
      rewrite Hd', sub_put_other by (auto with zap; lia).
      simpl tail; rewrite sub_app_r, Z.sub_diag by lia; apply sub_all; lia.
  - split; [lia|]; intros lo n Hlo Hn [Hd _]; simpl in Hd.
    rewrite Hd', sub_put_other by lia; apply sub_app_l; lia.
Qed.

Lemma rcell_touches d d' s lim f r cs :
  rcell d s lim f r -> touches d d' s cs ->
  0 <= s + f -> s + f + rwidth r <= len d -> 0 <= s <= lim ->
  all (fun c => f + rwidth r <= c.1 \/ c.1 + c.2 <= f) cs ->
  all (fun c => s + c.1 + c.2 <= lim) cs ->
  rcell d' s lim f r.
Proof.
  intros (n & Hc & Hp) [Hl Ht] Hf Hw Hlim Hdis Hcs; exists n; split.
  - rewrite Ht; [done|lia|lia|]; eapply all_mono; [|exact Hdis]; simpl; lia.
  - destruct r as [| |v| |]; try done; destruct Hp as (? & ? & ?); split_and!; [done|lia|].
    rewrite Ht; [done|lia|lia|]; eapply all_mono; [|exact Hcs]; simpl; lia.
Qed.

Lemma touches_trans d1 d2 d3 s cs cs' :
  touches d1 d2 s cs -> touches d2 d3 s cs' -> touches d1 d3 s (cs ++ cs').
Proof.
  intros [? H] [? H']; split; [lia|]; intros lo n ? ? Ha.
  assert (Hsplit : forall (P : Z * Z -> Prop) l k, all P (l ++ k) -> all P l /\ all P k)
    by (intros P l k; induction l; simpl; intuition auto).
  apply Hsplit in Ha as [? ?]; rewrite H', H by (auto; lia); done.
Qed.

Definition cells (rs : list (Z * resolved)) : list (Z * Z) :=
  map (fun p => (p.1, rwidth p.2)) rs.

(** The resolved fields fit the object and do not overlap. *)
Fixpoint rlayout (size : Z) (rs : list (Z * resolved)) : Prop :=
  match rs with
  | [] => True
  | (f, r) :: rs =>
      0 <= f /\ f + rwidth r <= size /\ resolved_wf r
      /\ all (fun c => f + rwidth r <= c.1 \/ c.1 + c.2 <= f) (cells rs)
      /\ rlayout size rs
  end.

Lemma rlayout_inside size rs :
  rlayout size rs -> all (fun c => c.1 + c.2 <= size) (cells rs).
Proof. induction rs as [|[f r] rs IH]; simpl; intuition auto. Qed.

Lemma set_fields_holds ob size rs : forall b a,
  holds b a -> HeaderSize <= startPos ob -> rlayout size rs -> 0 <= size ->
  startPos ob + size <= len (bytes a) ->
  exists b' a', set_fields ob b rs = Ret b' /\ holds b' a' /\ root a' = root a
    /\ touches (bytes a) (bytes a') (startPos ob) (cells rs)
    /\ all (fun p => rcell (bytes a') (startPos ob) (startPos ob + size) p.1 p.2) rs.
Proof.
  set (s := startPos ob); induction rs as [|[f r] rs IH]; intros b a H Hs Hlay Hsz Hlen; simpl.
  { exists b, a; split_and!; done. }
  destruct Hlay as (Hf & Hw & Hwf & Hdis & Hrest).
  destruct (set_resolved_holds b a ob f r H Hs Hf Hwf ltac:(fold s; lia)) as (b1 & -> & H1).
  fold s in H1; set (d1 := put _ _ _) in *; simpl.
  destruct (set_cell (bytes a) d1 s (s + size) f r) as [Hc Ht];
    [unfold HeaderSize in *; lia|lia|done|lia|lia|done|].
  destruct (IH b1 (mkDoc d1 (root a))) as (b' & a' & -> & Hh & Hr & Ht' & Hall);
    [done|done|done|lia|simpl; destruct Ht; lia|].
  exists b', a'; split_and!; try done.
  - apply (touches_trans _ _ _ _ [(f, rwidth r)] (cells rs) Ht Ht').
  - eapply rcell_touches; [exact Hc|exact Ht'|unfold HeaderSize in *; lia| |unfold HeaderSize in *; lia|exact Hdis|].
    + destruct Ht as [Hl _]; simpl; lia.
    + eapply all_mono; [|apply (rlayout_inside size rs Hrest)]; simpl; lia.
Qed.

(** ** Writing lists *)

Lemma a_append_app a v w : a_append (a_append a v) w = a_append a (v ++ w).
Proof. unfold a_append; simpl; rewrite app_assoc; done. Qed.

Lemma a_append_nil a : a_append a [] = a.
Proof. unfold a_append; rewrite app_nil_r; destruct a; done. Qed.

Lemma add_uint32s_holds vs : forall lb b a,
  holds b a ->
  exists b', add_uint32s lb b vs = Ret (mkListBuilder (lstartPos lb) (count lb + len vs), b')
    /\ holds b' (a_append a (uint32s vs)).
Proof.
  induction vs as [|v vs IH]; intros lb b a H; cbn [add_uint32s uint32s].
  { exists b; rewrite a_append_nil, len_nil, Z.add_0_r; destruct lb; done. }
  unfold AddUint32; destruct (AddUintN_holds b a lb 4 v H) as (b1 & -> & H1); [lia|].
  cbn; destruct (IH (mkListBuilder (lstartPos lb) (count lb + 1)) b1 _ H1) as (b' & -> & H').
  exists b'; simpl; rewrite len_cons; split; [do 3 f_equal; lia|].
  rewrite a_append_app in H'; done.
Qed.

Lemma add_pointers_holds offs : forall lb b a,
  holds b a ->
  exists b', add_pointers lb b offs = Ret (mkListBuilder (lstartPos lb) (count lb + len offs), b')
    /\ holds b' (a_append a (pointers (len (bytes a)) offs)).
Proof.
  induction offs as [|o offs IH]; intros lb b a H; cbn [add_pointers pointers].
  { exists b; rewrite a_append_nil, len_nil, Z.add_0_r; destruct lb; done. }
  destruct (AddObjectPtr_holds b a lb o H) as (b1 & -> & H1).
  cbn; destruct (IH (mkListBuilder (lstartPos lb) (count lb + 1)) b1 _ H1) as (b' & -> & H').
  exists b'; simpl; rewrite len_cons; split; [do 3 f_equal; lia|].
  rewrite a_append_app in H'; cbn [bytes a_append] in H'.
  rewrite len_app, len_le_bytes in H' by lia; done.
Qed.

(** ** Writing a tree stores it *)

(** From a builder holding [a], the result of writing is a builder [b']
    holding an extension [a'] of [a]. *)
Definition grows (a : Doc) (b' : Builder) (a' : Doc) : Prop :=
  holds b' a' /\ root a' = root a /\ keeps (bytes a) (bytes a').

Lemma grows_trans a1 b2 a2 b3 a3 : grows a1 b2 a2 -> grows a2 b3 a3 -> grows a1 b3 a3.
Proof. intros (? & ? & ?) (? & ? & ?); split_and!; [done|congruence|etrans; eauto]. Qed.

Lemma grows_app a b' v : holds b' (a_append a v) -> grows a b' (a_append a v).
Proof. intros; split_and!; [done|done|apply keeps_app]. Qed.

Lemma grows_align a b' : holds b' (a_align a) -> grows a b' (a_align a).
Proof. apply grows_app. Qed.

(** Writing [t] puts it into the document. *)
Definition emits (t : tree) : Prop :=
  forall b a, holds b a -> HeaderSize <= len (bytes a) -> tree_wf t ->
    exists off b' a', emit t b = Ret (off, b') /\ grows a b' a'
      /\ HeaderSize <= off < len (bytes a') /\ stored (bytes a') off t.

(** Setting the resolved field [r] in an object behind [d0] stores [x]. *)
Definition transfers (d0 : list byte) (r : resolved) (x : field tree) : Prop :=
  rwidth r = width x /\ resolved_wf r /\
  forall d s lim f, keeps d0 d -> len d0 <= s -> 0 <= f -> s + f + width x <= lim ->
    rcell d s lim f r -> cell stored d s f x.

Lemma transfers_keeps d0 d1 r x : keeps d0 d1 -> transfers d0 r x -> transfers d1 r x.
Proof.
  intros Hk (? & ? & H); split_and!; try done; intros d s lim f Hk' Hl.
  apply H; [etrans; eauto|destruct Hk; lia].
Qed.

Lemma all2_keeps d0 d1 offs ts :
  keeps d0 d1 -> all2 (fun o t => stored d0 o t) offs ts -> all2 (fun o t => stored d1 o t) offs ts.
Proof.
  intros Hk; revert ts; induction offs as [|o offs IH]; intros [|t ts]; simpl; auto.
  intros [? ?]; split; [eapply stored_keeps; eauto|auto].
Qed.

Lemma emit_each_holds ts : forall b a,
  all emits ts -> all tree_wf ts -> holds b a -> HeaderSize <= len (bytes a) ->
  exists offs b' a', emit_each emit ts b = Ret (offs, b') /\ grows a b' a'
    /\ len offs = len ts /\ all (fun o => HeaderSize <= o < len (bytes a')) offs
    /\ all2 (fun o t => stored (bytes a') o t) offs ts.
Proof.
  induction ts as [|t ts IH]; intros b a He Hwf H Hl; simpl.
  { exists [], b, a; split_and!; try done; split_and!; done. }
  destruct He as [He Hes], Hwf as [Hw Hws].
  destruct (He b a H Hl Hw) as (o & b1 & a1 & -> & Hg & Ho & Hst); simpl.
  pose proof Hg as (H1 & _ & [Hlen _]).
  destruct (IH b1 a1 Hes Hws H1 ltac:(lia)) as (offs & b' & a' & -> & Hg' & Hn & Hr & Hs); simpl.
  pose proof Hg' as (_ & _ & Hk).
  exists (o :: offs), b', a'; split; [done|split; [eapply grows_trans; eauto|]].
  split; [rewrite !len_cons; lia|split; (split; [|done])].
  - destruct Hk; lia.
  - eapply stored_keeps; eauto.
Qed.

Lemma transfers_uint32s d0 off vs :
  HeaderSize <= off -> off + 4 * len vs <= len d0 -> sub d0 off (4 * len vs) = uint32s vs ->
  transfers d0 (RList off (len vs)) (TUint32List vs).
Proof.
  intros Ho Hl Hs; split_and!; try done; intros d s lim f [_ Hk] ? ? ? (n & Hc & _).
  exists off; rewrite (Hk off) by lia; split_and!; try done; lia.
Qed.

Lemma transfers_pointers d0 off offs ts :
  HeaderSize <= off -> off + 4 * len ts <= len d0 -> len offs = len ts ->
  all (fun o => HeaderSize <= o < off) offs ->
  sub d0 off (4 * len offs) = pointers off offs ->
  all2 (fun o t => stored d0 o t) offs ts ->
  transfers d0 (RList off (len ts)) (TObjectList ts).
Proof.
  intros Ho Hl Hn Hr Hs Hst; split_and!; try done; intros d s lim f Hk ? ? ? (n & Hc & _).
  pose proof (all2_keeps _ _ _ _ Hk Hst); destruct Hk as [_ Hk].
  exists off, offs; rewrite (Hk off) by lia; split_and!; try done; lia.
Qed.

Lemma resolve_holds (x : field tree) b a :
  field_all emits x -> field_wf tree_wf x -> holds b a -> HeaderSize <= len (bytes a) ->
  exists r b' a', resolve emit x b = Ret (r, b') /\ grows a b' a' /\ transfers (bytes a') r x.
Proof.
  intros He Hwf H Hl; assert (Hid : grows a b a) by (split_and!; done).
  destruct x as [n v|v|v|t|vs|ts]; simpl in *.
  - exists (RUint n v), b, a; split; [done|split; [done|split; [done|split; [simpl; lia|]]]].
    intros d s lim f _ _ _ _ (? & Hc & _); exact Hc.
  - exists (RFixed v), b, a; split; [done|split; [done|split; [done|split; [done|]]]].
    intros d s lim f _ _ _ _ (? & Hc & _); exact Hc.
  - exists (RBytes v), b, a; split; [done|split; [done|split; [done|split; [done|]]]]; simpl.
    intros d s lim f _ _ _ ? (n & Hc & ? & ? & ?); exists n; split_and!; try done; lia.
  - destruct (He b a H Hl Hwf) as (o & b' & a' & -> & Hg & Ho & Hst).
    exists (RObject o), b', a'; split; [done|split; [done|split; [done|split; [done|]]]]; simpl.
    intros d s lim f Hk ? _ _ (n & Hc & _); exists o; unfold HeaderSize in *; split_and!; try lia.
    + simpl in Hc; replace (o =? 0) with false in Hc by lia; done.
    + eapply stored_keeps; eauto.
  - destruct (StartList_holds b a 4 H) as (b1 & -> & H1); simpl.
    destruct (add_uint32s_holds vs (mkListBuilder (len (bytes a) + a_padding (len (bytes a))) 0)
      b1 _ H1) as (b' & -> & H').
    rewrite <- len_align in *; cbn -[len a_align]; rewrite Z.add_0_l.
    eexists _, b', _; split; [reflexivity|].
    split; [eapply grows_trans; [apply grows_align, H1|apply grows_app, H']|].
    pose proof (len_align a); pose proof (a_padding_range (len (bytes a))).
    apply transfers_uint32s; [lia|cbn [bytes a_append]; rewrite len_app, len_uint32s; lia|].
    cbn [bytes a_append]; rewrite sub_app_r, Z.sub_diag by lia; apply sub_all; rewrite len_uint32s; lia.
  - destruct (emit_each_holds ts b a He Hwf H Hl) as (offs & b0 & a0 & -> & Hg & Hn & Hr & Hst).
    pose proof Hg as (H0 & _ & Hk & _).
    cbn; destruct (StartList_holds b0 a0 4 H0) as (b1 & -> & H1); simpl.
    destruct (add_pointers_holds offs (mkListBuilder (len (bytes a0) + a_padding (len (bytes a0))) 0)
      b1 _ H1) as (b' & -> & H').
    rewrite <- len_align in *; cbn -[len a_align]; rewrite Z.add_0_l, Hn; eexists _, b', _; split; [reflexivity|].
    split; [eapply grows_trans; [exact Hg|eapply grows_trans; [apply grows_align, H1|apply grows_app, H']]|].
    pose proof (len_align a0); pose proof (a_padding_range (len (bytes a0))).
    apply (transfers_pointers _ _ offs); [lia| |done| | |].
    + cbn [bytes a_append]; rewrite len_app, len_pointers; lia.
    + eapply all_mono; [|exact Hr]; cbv beta; lia.
    + cbn [bytes a_append]; rewrite sub_app_r, Z.sub_diag by lia; apply sub_all; rewrite len_pointers; lia.
    + eapply all2_keeps; [|exact Hst]; etrans; apply keeps_app.
Qed.

Lemma resolve_each_holds fs : forall b a,
  all (fun p => field_all emits p.2) fs -> all (fun p => field_wf tree_wf p.2) fs ->
  holds b a -> HeaderSize <= len (bytes a) ->
  exists rs b' a', resolve_each emit fs b = Ret (rs, b') /\ grows a b' a'
    /\ all2 (fun q p => q.1 = p.1 /\ transfers (bytes a') q.2 p.2) rs fs.
Proof.
  induction fs as [|[f x] fs IH]; intros b a He Hwf H Hl; simpl.
  { exists [], b, a; split_and!; try done; split_and!; done. }
  destruct He as [He Hes], Hwf as [Hw Hws].
  destruct (resolve_holds x b a He Hw H Hl) as (r & b1 & a1 & -> & Hg & Ht); simpl.
  pose proof Hg as (H1 & _ & [Hlen _]).
  destruct (IH b1 a1 Hes Hws H1 ltac:(lia)) as (rs & b' & a' & -> & Hg' & Hall); simpl.
  pose proof Hg' as (_ & _ & Hk).
  exists ((f, r) :: rs), b', a'; split; [done|split; [eapply grows_trans; eauto|]].
  split; [split; [done|eapply transfers_keeps; eauto]|done].
Qed.

Lemma rlayout_of (d : list byte) size (fs : list (Z * field tree)) : forall rs,
  all2 (fun q p => q.1 = p.1 /\ transfers d q.2 p.2) rs fs ->
  layout_ok size fs -> rlayout size rs.
Proof.
  assert (Hdis : forall f w (fs : list (Z * field tree)) rs,
    all2 (fun q p => q.1 = p.1 /\ transfers d q.2 p.2) rs fs ->
    all (fun p => f + w <= p.1 \/ p.1 + width p.2 <= f) fs ->
    all (fun c => f + w <= c.1 \/ c.1 + c.2 <= f) (cells rs)).
  { intros f w; induction fs0 as [|[g x] fs0 IH]; intros [|[g' r] rs]; simpl; try done.
    intros [[-> (-> & _)] ?] [? ?]; auto. }
  induction fs as [|[f x] fs IH]; intros [|[f' r] rs]; simpl; try done.
  intros [[-> (Hw & ? & _)] Hall] (? & ? & ? & ?); rewrite Hw; split_and!; eauto.
Qed.

Lemma rlayout_cells_low size rs : rlayout size rs -> all (fun c => 0 <= c.1) (cells rs).
Proof. induction rs as [|[f r] rs IH]; simpl; intuition auto. Qed.

(** The object proper: space for it, then its fields. *)
Lemma object_holds size fs rs b a :
  holds b a -> HeaderSize <= len (bytes a) -> 1 <= size -> layout_ok size fs ->
  all2 (fun q p => q.1 = p.1 /\ transfers (bytes a) q.2 p.2) rs fs ->
  exists ob b1 b' a', StartObject b size = Ret (ob, b1) /\ set_fields ob b1 rs = Ret b'
    /\ grows a b' a' /\ HeaderSize <= startPos ob < len (bytes a')
    /\ stored (bytes a') (startPos ob) (Node size fs).
Proof.
  intros H Hl Hsz Hlay Hall.
  pose proof (rlayout_of _ _ _ _ Hall Hlay) as Hrl.
  destruct (StartObject_holds b a size H) as (b1 & -> & H1).
  set (ob := mkObjectBuilder _ size) in *; set (a1 := a_append _ _) in *.
  pose proof (a_padding_range (len (bytes a))) as Hpad.
  assert (Hs : startPos ob = len (bytes (a_align a))) by (symmetry; apply len_align).
  assert (Hl1 : len (bytes a1) = startPos ob + size)
    by (rewrite Hs; cbn [bytes a1 a_append]; rewrite len_app, len_zeros_max; lia).
  assert (Hle : len (bytes a) <= startPos ob) by (rewrite Hs, len_align; lia).
  assert (Hk1 : keeps (bytes a) (bytes a1)) by (etrans; apply keeps_app).
  destruct (set_fields_holds ob size rs b1 a1 H1) as (b' & a' & Hset & H' & Hr & Ht & Hc);
    [lia|done|lia|lia|].
  assert (Hk : keeps (bytes a) (bytes a')).
  { destruct Ht as [? Ht], Hk1 as [? Hk1]; split; [lia|]; intros lo n Hlo Hn.
    rewrite Ht; [apply Hk1; lia|unfold HeaderSize in *; lia|lia|].
    eapply all_mono; [|apply (rlayout_cells_low _ _ Hrl)]; cbv beta; lia. }
  exists ob, b1, b', a'; split; [done|split; [done|split; [split_and!; done|]]].
  destruct Ht as [Htl _]; split; [lia|]; cbn [stored]; split; [lia|split; [lia|]].
  clear -Hall Hc Hk Hle Hlay; revert rs Hall Hc Hlay.
  induction fs as [|[f x] fs IH]; intros [|[f' r] rs]; simpl; try done.
  intros [[-> (Hw & ? & Htr)] Hall] [Hc Hcs] (? & ? & ? & ?); split_and!; try done; [|eauto].
  eapply Htr; [done|done|done| |exact Hc]; lia.
Qed.

Lemma emit_holds t : emits t.
Proof.
  induction t as [size fs IH] using tree_rect_all; intros b a H Hl (Hsz & Hlay & Hwf).
  cbn [emit]; destruct (resolve_each_holds fs b a IH Hwf H Hl) as (rs & b1 & a1 & -> & Hg & Hall).
  pose proof Hg as (H1 & _ & Hk & _); cbn.
  destruct (object_holds size fs rs b1 a1 H1 ltac:(lia) Hsz Hlay Hall)
    as (ob & b2 & b' & a' & -> & Hset & Hg' & Ho & Hst); cbn; rewrite Hset; cbn.
  exists (startPos ob), b', a'; split; [done|split; [eapply grows_trans; eauto|done]].
Qed.

(** ** Reading a stored tree *)

Lemma rd_le_bytes d p n z : 0 <= n -> sub d p n = le_bytes n z -> rd n d p = z mod 2 ^ (8 * n).
Proof. intros ? H; unfold rd; rewrite H; apply le_combine_le_bytes; done. Qed.

Lemma rd_pair d p x y :
  0 <= p -> sub d p 8 = pair_bytes x y ->
  rd 4 d p = u32 x /\ rd 4 d (p + 4) = u32 y.
Proof.
  intros Hp H; unfold pair_bytes in H; split; apply rd_le_bytes; try lia.
  - rewrite <- (Z.add_0_r p), <- (sub_sub d p 8 0 4), H by lia.
    rewrite sub_app_l by (rewrite ?len_le_bytes; lia).
    apply sub_all; rewrite len_le_bytes; lia.
  - rewrite <- (sub_sub d p 8 4 4), H by lia.
    rewrite sub_app_r by (rewrite len_le_bytes; lia).
    rewrite len_le_bytes by lia; apply sub_all; rewrite len_le_bytes; lia.
Qed.

Lemma sub_uint32s d vs : forall off (i : nat) v,
  0 <= off -> sub d off (4 * len vs) = uint32s vs -> vs !! i = Some v ->
  sub d (off + Z.of_nat i * 4) 4 = le_bytes 4 v.
Proof.
  induction vs as [|w vs IH]; intros off i v Ho Hs Hi; [done|].
  rewrite len_cons in Hs; pose proof (len_nonneg vs); cbn [uint32s] in Hs.
  replace (4 * (1 + len vs)) with (4 + 4 * len vs) in Hs by lia.
  rewrite sub_split in Hs by lia; apply app_inj_1 in Hs as [H1 H2].
  - destruct i as [|i]; simpl in Hi; simplify_eq; [rewrite Z.add_0_r; done|].
    rewrite <- (IH (off + 4) i v) by (done || lia); f_equal; lia.
  - apply (f_equal len) in Hs; rewrite !len_app, len_uint32s, len_le_bytes in Hs by lia.
    pose proof (len_sub_le d off 4 ltac:(lia)).
    pose proof (len_sub_le d (off + 4) (4 * len vs) ltac:(lia)).
    pose proof (len_le_bytes 4 w ltac:(lia)); unfold len in *; lia.
Qed.

(** A list of pointers is a list of [uint32] relative offsets. *)
Lemma pointers_uint32s offs : forall at_,
  pointers at_ offs = uint32s (imap (fun i o => if o =? 0 then 0 else o - (at_ + 4 * Z.of_nat i)) offs).
Proof.
  induction offs as [|o offs IH]; intros at_; [done|]; cbn [pointers imap uint32s].
  rewrite IH, Z.mul_0_r, Z.add_0_r; do 2 f_equal; apply imap_ext; intros i x _; simpl.
  replace (at_ + 4 + 4 * Z.of_nat i) with (at_ + 4 * Z.of_nat (S i)) by lia; done.
Qed.

Lemma sub_pointers d off offs (i : nat) o :
  0 <= off -> sub d off (4 * len offs) = pointers off offs -> offs !! i = Some o -> o <> 0 ->
  sub d (off + Z.of_nat i * 4) 4 = le_bytes 4 (o - (off + Z.of_nat i * 4)).
Proof.
  intros Ho Hs Hi Hz; rewrite pointers_uint32s in Hs.
  replace (len offs) with (len (imap (fun i o => if o =? 0 then 0 else o - (off + 4 * Z.of_nat i)) offs))
    in Hs by (unfold len; rewrite length_imap; done).
  erewrite sub_uint32s; [|done|exact Hs|rewrite list_lookup_imap, Hi; reflexivity].
  replace (o =? 0) with false by lia; do 2 f_equal; lia.
Qed.

Section reading.
Context (d : list byte) (s f : Z).
Hypothesis Hd : len d < 2 ^ 31.
Hypothesis Hs : HeaderSize <= s.
Hypothesis Hf : 0 <= f.

Let Hpos : 0 <= offset (obj d s) + f.
Proof. unfold HeaderSize in *; simpl; lia. Qed.

Lemma read_uint_cell n v :
  n = 1 \/ n = 2 \/ n = 4 \/ n = 8 -> 0 <= v < 2 ^ (8 * n) -> s + f + n <= len d ->
  sub d (s + f) n = le_bytes n v -> read_uint n (obj d s) f = Ret v.
Proof.
  intros Hn Hv Hw Hc; apply rd_le_bytes in Hc; [|lia]; rewrite Z.mod_small in Hc by done.
  unfold read_uint, Object_Uint16, Object_Uint32, Object_Uint64.
  destruct Hn as [-> | [-> | [-> | ->]]]; simpl Z.eqb; cbv iota;
    first [rewrite (Object_Uint8_eq (obj d s) (WrapBuffer d) f eq_refl Hpos)
          |rewrite (Object_UintN_eq (obj d s) (WrapBuffer d) f eq_refl Hpos) by lia];
    cbn [data WrapBuffer offset obj]; guard_false; rewrite Hc; done.
Qed.

Lemma read_bytes_cell v at_ :
  s + f + 8 <= at_ -> at_ + len v <= len d -> sub d at_ (len v) = v ->
  sub d (s + f) 8 = pair_bytes (if len v =? 0 then 0 else at_ - (s + f)) (len v) ->
  Object_Text (obj d s) f = Ret v.
Proof.
  intros Ha Hw Hv Hc; apply rd_pair in Hc as [H1 H2]; [|unfold HeaderSize in *; lia].
  pose proof (len_nonneg v); unfold Object_Text.
  rewrite (Object_Bytes_eq (obj d s) (WrapBuffer d) f eq_refl Hpos); cbv zeta.
  cbn [data WrapBuffer offset obj]; rewrite H1, H2; unfold u32, HeaderSize in *.
  rewrite (Z.mod_small (len v)) by lia.
  destruct (len v =? 0) eqn:E.
  - replace v with (@nil byte) by (destruct v; [done|rewrite len_cons in *; pose proof (len_nonneg v); lia]).
    rewrite !if_orb; guard_false; done.
  - bool_to_prop; rewrite Z.mod_small by lia; rewrite !if_orb.
    repeat guard_false; rewrite Zplus_minus, Hv; done.
Qed.

Lemma read_object_cell off :
  HeaderSize <= off < s -> s + f + 4 <= len d ->
  sub d (s + f) 4 = le_bytes 4 (off - (s + f)) ->
  Object_Object (obj d s) f = Ret (obj d off).
Proof.
  intros Ho Hw Hc; apply rd_le_bytes in Hc; [|lia].
  rewrite (Object_Object_eq (obj d s) (WrapBuffer d) f eq_refl Hpos); cbv zeta.
  cbn [data WrapBuffer offset obj]; rewrite Hc; change (2 ^ (8 * 4)) with (2 ^ 32).
  fold (u32 (off - (s + f))); unfold HeaderSize in *; rewrite s32_u32 by lia.
  rewrite Zplus_minus, !if_orb; repeat guard_false; done.
Qed.

Lemma read_list_cell off k :
  HeaderSize <= off -> 0 < k -> off + 4 * k <= s -> s + f + 8 <= len d ->
  sub d (s + f) 8 = list_pair (s + f) off k ->
  Object_List (obj d s) f = Ret (mkList (Some (WrapBuffer d)) off k).
Proof.
  intros Ho Hk Hl Hw Hc; unfold list_pair in Hc; unfold HeaderSize in *.
  replace ((off =? 0) || (k =? 0)) with false in Hc by lia.
  apply rd_pair in Hc as [H1 H2]; [|lia].
  rewrite (Object_List_eq (obj d s) (WrapBuffer d) f eq_refl Hpos); cbv zeta.
  cbn [data WrapBuffer offset obj]; rewrite H1, H2, s32_u32 by lia.
  unfold u32, HeaderSize; rewrite Z.mod_small, Zplus_minus, !if_orb by lia.
  repeat guard_false; done.
Qed.

Lemma read_empty_list_cell off :
  s + f + 8 <= len d -> sub d (s + f) 8 = list_pair (s + f) off 0 ->
  Object_List (obj d s) f = Ret List_zero.
Proof.
  intros Hw Hc; unfold list_pair in Hc; rewrite orb_true_r in Hc.
  apply rd_pair in Hc as [H1 H2]; [|unfold HeaderSize in *; lia].
  rewrite (Object_List_eq (obj d s) (WrapBuffer d) f eq_refl Hpos); cbv zeta.
  cbn [data WrapBuffer offset obj]; rewrite H1, !if_orb; guard_false; done.
Qed.
End reading.

Section elements.
Context (d : list byte) (off k : Z) (i : nat).
Hypothesis Hd : len d < 2 ^ 31.
Hypothesis Ho : HeaderSize <= off.
Hypothesis Hk : off + 4 * k <= len d.
Hypothesis Hi : Z.of_nat i < k.
Let l := mkList (Some (WrapBuffer d)) off k.

Let Hoff : 0 <= loffset l.
Proof. unfold HeaderSize in *; simpl; lia. Qed.
Let Hin : out_of_list l (Z.of_nat i) = false.
Proof. unfold out_of_list; simpl; lia. Qed.

Lemma read_elem v :
  0 <= v < 2 ^ 32 -> sub d (off + Z.of_nat i * 4) 4 = le_bytes 4 v ->
  List_Uint32 l (Z.of_nat i) = Ret v.
Proof.
  intros Hv Hc; apply rd_le_bytes in Hc; [|lia]; change (2 ^ (8 * 4)) with (2 ^ 32) in Hc.
  rewrite Z.mod_small in Hc by done; unfold List_Uint32.
  rewrite (List_UintN_eq l (WrapBuffer d) _ eq_refl Hoff), Hin by lia; cbn -[len].
  guard_false; rewrite Hc; done.
Qed.

Lemma read_ptr o :
  HeaderSize <= o < off ->
  sub d (off + Z.of_nat i * 4) 4 = le_bytes 4 (o - (off + Z.of_nat i * 4)) ->
  List_ObjectPtr l (Z.of_nat i) = Ret (obj d o).
Proof.
  intros Hv Hc; apply rd_le_bytes in Hc; [|lia]; change (2 ^ (8 * 4)) with (2 ^ 32) in Hc.
  rewrite (List_ObjectPtr_eq l (WrapBuffer d) _ eq_refl Hoff), Hin; cbv zeta.
  cbn [data WrapBuffer loffset l lmsg]; rewrite Hc.
  fold (u32 (o - (off + Z.of_nat i * 4))); unfold HeaderSize in *; rewrite s32_u32 by lia.
  rewrite Zplus_minus, !if_orb; repeat guard_false; done.
Qed.
End elements.

Lemma cell_reads d s f (x : field tree) :
  len d < 2 ^ 31 -> HeaderSize <= s -> 0 <= f -> s + f + width x <= len d ->
  field_wf tree_wf x ->
  field_all (fun t => forall off, tree_wf t -> stored d off t -> decodes d off t) x ->
  cell stored d s f x -> reads_field decodes d s f x.
Proof.
  intros Hd Hs Hf Hw Hwf Hall; destruct x as [n v|v|v|t|vs|ts]; simpl in *.
  - destruct Hwf; intros; apply read_uint_cell; done.
  - intros Hc; assert (0 <= offset (obj d s) + f) by (unfold HeaderSize in *; simpl; lia).
    rewrite (Object_BytesFixedSlice_eq (obj d s) (WrapBuffer d) f eq_refl) by done.
    cbn [data WrapBuffer offset obj]; rewrite if_orb; do 2 guard_false; rewrite Hc; done.
  - intros (at_ & ? & ? & ? & ?); eapply read_bytes_cell; eauto.
  - intros (off & ? & ? & ?); exists off; split; [apply read_object_cell; done|auto].
  - intros (off & Ho & Hl & Hc & Hv); destruct vs as [|w vs].
    { exists List_zero; split; [eapply read_empty_list_cell; eauto|done]. }
    set (k := len (w :: vs)) in *; assert (0 < k) by (subst k; rewrite len_cons; pose proof (len_nonneg vs); lia).
    exists (mkList (Some (WrapBuffer d)) off k); split; [apply read_list_cell; done|].
    split; [done|]; intros i v Hi; pose proof (lookup_lt_Some _ _ _ Hi).
    apply read_elem; [done|lia|unfold k, len; lia|exact (all_lookup _ _ _ _ Hwf Hi)|].
    eapply sub_uint32s; [unfold HeaderSize in *; lia|exact Hv|exact Hi].
  - intros (off & offs & Ho & Hl & Hc & Hn & Hr & Hv & Hst); destruct ts as [|t ts].
    { exists List_zero; split; [eapply read_empty_list_cell; eauto|split; [done|]].
      exists []; done. }
    set (k := len (t :: ts)) in *; assert (0 < k) by (subst k; rewrite len_cons; pose proof (len_nonneg ts); lia).
    exists (mkList (Some (WrapBuffer d)) off k); split; [apply read_list_cell; done|].
    split; [done|]; exists offs; split.
    + intros i o Hi; pose proof (lookup_lt_Some _ _ _ Hi); pose proof (all_lookup _ _ _ _ Hr Hi).
      unfold HeaderSize in *; apply read_ptr; [done|unfold HeaderSize; lia|lia|unfold len in *; lia|done|].
      eapply sub_pointers; [lia|exact Hv|done|lia].
    + clearbody k; clear -Hall Hst Hwf; revert Hall Hst Hwf; generalize (t :: ts); clear t ts.
      induction offs as [|o offs IH]; intros [|t ts]; simpl; try done.
      intros [? ?] [? ?] [? ?]; auto.
Qed.

Lemma stored_decodes t : forall d off,
  len d < 2 ^ 31 -> tree_wf t -> stored d off t -> decodes d off t.
Proof.
  intros d off Hd; revert off; induction t as [size fs IH] using tree_rect_all.
  intros off (Hsz & _ & Hwf) (Hs & Hend & Hall); cbn [decodes]; split_and!; [done|done|].
  eapply all_mono; [|exact (all_and _ _ _ IH (all_and _ _ _ Hwf Hall))].
  intros [f x]; simpl; intros (Hx & Hw & ? & ? & Hc).
  apply cell_reads; try done; lia.
Qed.

(** ** The message as a whole *)

Lemma write_message_holds b a t :
  holds b a -> HeaderSize <= len (bytes a) -> tree_wf t ->
  exists off b' a', write_message b t = Ret (bytes (a_finish (mkDoc (bytes a') off)), b')
    /\ keeps (bytes a) (bytes a') /\ HeaderSize <= off < len (bytes a')
    /\ stored (bytes a') off t.
Proof.
  destruct t as [size fs]; intros H Hl (Hsz & Hlay & Hwf); cbn [write_message].
  destruct (resolve_each_holds fs b a) as (rs & b1 & a1 & -> & Hg & Hall); try done.
  { eapply all_mono; [|exact Hwf]; intros [f x] _; simpl.
    destruct x as [| | |t| |ts]; simpl; try done; [apply emit_holds|].
    clear; induction ts; simpl; [done|split; [apply emit_holds|done]]. }
  pose proof Hg as (H1 & _ & Hk); unfold mbind, outcome_bind; cbn [fst snd].
  destruct (object_holds size fs rs b1 a1 H1) as (ob & b2 & b3 & a3 & -> & Hset & Hg' & Ho & Hst);
    [destruct Hk; lia|done|done|done|].
  unfold mbind, outcome_bind; cbn [fst snd]; rewrite Hset; unfold FinishAsRoot, ObjectBuilder_Finish; cbn [fst snd].
  pose proof Hg' as (H3 & _ & Hk').
  destruct (Finish_holds (mkBuilder (buf b3) (pos b3) (startPos ob)) (mkDoc (bytes a3) (startPos ob)))
    as (b' & -> & _); [destruct H3 as (? & ? & _); split; [done|split; done]|simpl; lia|].
  exists (startPos ob), b', a3; split; [done|split; [etrans; eauto|done]].
Qed.

Lemma finish_parses a v :
  HeaderSize <= len (bytes a) < 2 ^ 31 -> 0 <= root a < 2 ^ 32 ->
  sub (bytes a) 0 6 = sub (bytes (fresh_doc v)) 0 6 -> v = Version1 \/ v = Version2 ->
  let out := bytes (a_finish a) in
  Parse out = Ret (Ok (WrapBuffer out)) /\ Message_Root (WrapBuffer out) = Ret (obj out (root a)).
Proof.
  intros Hl Hr Hh Hv out; pose proof (len_finish a ltac:(lia)) as Hlen; fold out in Hlen.
  unfold HeaderSize in *.
  assert (Hcell : forall p, p = 8 \/ p = 12 ->
    sub out p 4 = le_bytes 4 (if p =? 8 then root a else len (bytes a))).
  { intros p Hp; unfold out; cbn [a_finish a_patch bytes].
    destruct Hp as [-> | ->]; [rewrite sub_put_other by (rewrite ?len_put, ?len_le_bytes by (rewrite ?len_le_bytes; lia); lia)|];
      [set (w := le_bytes 4 (root a))|set (w := le_bytes 4 (len (bytes a)))];
      assert (Hw : len w = 4) by (apply len_le_bytes; lia); simpl Z.eqb; cbv iota; fold w;
      rewrite <- Hw at 1; apply sub_put_same; rewrite ?len_put; rewrite ?len_le_bytes; lia. }
  assert (Hr8 : rd 4 out 8 = root a)
    by (rewrite (rd_le_bytes _ _ 4 _ ltac:(lia) (Hcell 8 ltac:(lia))); apply Z.mod_small; simpl; lia).
  assert (Hr12 : rd 4 out 12 = len (bytes a))
    by (rewrite (rd_le_bytes _ _ 4 _ ltac:(lia) (Hcell 12 ltac:(lia))); apply Z.mod_small; simpl; lia).
  assert (H6 : sub out 0 6 = sub (bytes (fresh_doc v)) 0 6).
  { rewrite <- Hh; unfold out; apply (sub_prefix_eq _ _ 8); [|lia|lia].
    apply finish_header; unfold HeaderSize; lia. }
  assert (Hv2 : rd 2 out 4 = v).
  { unfold rd; rewrite (sub_prefix_eq _ _ 6 4 2 H6) by lia; destruct Hv as [-> | ->]; done. }
  split.
  - rewrite Parse_Ok_intro; rewrite ?Hr12, ?Hv2; unfold HeaderSize; try lia; try done.
    + rewrite sub_all by lia; done.
    + rewrite (sub_prefix_eq _ _ 6 0 4 H6) by lia; destruct Hv as [-> | ->]; done.
  - unfold Message_Root; cbn [data WrapBuffer]; unfold rd in Hr8; go_eval; rewrite Hr8; done.
Qed.

(** ** Properties *)

(** C2: what a client writes with the builder, the reader reads. For every
    well-formed tree of objects (integers, inline bytes, byte strings, nested
    objects, lists of integers and of object pointers, at disjoint offsets), a
    builder of any capacity and either wire version writes it without panic;
    when the message is shorter than 2 GiB, [Parse] accepts it, [Root] finds
    the root and the accessors give every field of every nested object back. *)
Theorem message_roundtrip capacity version t :
  version = Version1 \/ version = Version2 -> tree_wf t ->
  exists b out b', newBuilder capacity version = Ret b /\ write_message b t = Ret (out, b')
    /\ (len out < 2 ^ 31 ->
        exists off, Parse out = Ret (Ok (WrapBuffer out))
          /\ Message_Root (WrapBuffer out) = Ret (obj out off) /\ decodes out off t).
Proof.
  intros Hv Hwf; destruct (newBuilder_holds capacity version) as (b & Hb & H).
  pose proof (len_fresh version) as Hl.
  destruct (write_message_holds b _ t H ltac:(lia) Hwf) as (off & b' & a' & Hw & Hk & Ho & Hst).
  pose proof Hk as [Hle Hsame]; set (a2 := mkDoc (bytes a') off) in *.
  assert (Hl2 : HeaderSize <= len (bytes a2)) by (simpl; lia).
  exists b, (bytes (a_finish a2)), b'; split_and!; try done; intros Hlen.
  pose proof (len_finish a2 Hl2) as Hlf; rewrite Hlf in Hlen.
  exists off; unfold HeaderSize in *.
  destruct (finish_parses a2 version) as [Hp Hroot]; try done; try (simpl in *; lia).
  { apply Hsame; lia. }
  split_and!; try done; apply stored_decodes; [lia|done|].
  eapply stored_keeps; [apply keeps_finish; unfold HeaderSize; lia|exact Hst].
Qed.

(** ** Witness *)

Definition sample_leaf : tree := Node 12 [(0, TUint 4 7); (4, TBytes [Byte.x61; Byte.x62])].
Definition sample_tree : tree :=
  Node 40 [(0, TUint 8 (2 ^ 63)); (8, TFixed [Byte.x01; Byte.x02]); (12, TObject sample_leaf);
           (16, TUint32List [1; 2; 3]); (24, TObjectList [sample_leaf; sample_leaf]);
           (32, TBytes [])].

Lemma message_roundtrip_witness :
  exists b out b', NewBuilder 0 = Ret b /\ write_message b sample_tree = Ret (out, b')
    /\ len out = 128 /\ exists off, decodes out off sample_tree.
Proof.
  destruct (message_roundtrip 0 Version2 sample_tree ltac:(right; reflexivity))
    as (b & out & b' & Hb & Hw & Hr); [simpl; unfold len; simpl; lia|].
  exists b, out, b'; split; [exact Hb|split; [exact Hw|]].
  assert (Hc : (b ← NewBuilder 0; r ← write_message b sample_tree; Ret (len r.1)) = Ret 128)
    by (vm_compute; reflexivity).
  unfold NewBuilder in Hc; rewrite Hb in Hc; unfold mbind, outcome_bind in Hc.
  rewrite Hw in Hc; assert (Hlen : len out = 128) by (injection Hc; done).
  split; [exact Hlen|]; destruct Hr as (off & _ & _ & Hd); [rewrite Hlen; reflexivity|].
  exists off; exact Hd.
Defined.
