(* ===== verification/Envelope.v ===== *)
(** * Envelope: flat messages

    The typed envelopes of [dexsession] and of the other clients of the library
    are all built the same way: a builder of some capacity, one object of fixed
    size whose setters are called one after the other, [FinishAsRoot],
    [FinishWithFlags] and [Parse]; and read the same way, field by field off
    the root. This file proves once what holds for all of them. *)

From S2P Require Import Prelude Wire Builder BuilderSpec Roundtrip.

(** ** Building *)

(** One setter call [ob.SetX(field, v)]. *)
Definition fUint8 (f v : Z) : Z * resolved := (f, RUint 1 v).
Definition fUint16 (f v : Z) : Z * resolved := (f, RUint 2 v).
Definition fUint32 (f v : Z) : Z * resolved := (f, RUint 4 v).
Definition fUint64 (f v : Z) : Z * resolved := (f, RUint 8 v).
Definition fBool (f : Z) (v : bool) : Z * resolved := (f, RUint 1 (Z.b2z v)).
Definition fFixed (f : Z) (v : list byte) : Z * resolved := (f, RFixed v).
Definition fBytes (f : Z) (v : list byte) : Z * resolved := (f, RBytes v).
Definition fText (f : Z) (v : list byte) : Z * resolved := (f, RBytes v).

(** [NewBuilder(capacity)], [StartObject(size)], the setters, [FinishAsRoot],
    [FinishWithFlags(flags)]. *)
Definition finish_flat (capacity size flags : Z) (calls : list (Z * resolved))
  : outcome (list byte) :=
  b ← NewBuilder capacity;
  s ← StartObject b size;
  b ← set_fields s.1 s.2 calls;
  x ← FinishWithFlags (FinishAsRoot s.1 b).2 flags;
  Ret x.1.

(** The same, with [Parse] of the finished bytes. *)
Definition build_flat (capacity size flags : Z) (calls : list (Z * resolved))
  : outcome (result Message zap_error) :=
  d ← finish_flat capacity size flags calls; Parse d.

(** The flags word of a message type: [t << 8], on [uint16]. *)
Definition tag (t : Z) : Z := u16 (Z.shiftl t 8).

Lemma tag_range t : 0 <= tag t < 2 ^ 16.
Proof. apply Z.mod_pos_bound; lia. Qed.

(** A boolean setter is the byte setter at 1 or 0. *)
Lemma fBool_SetBool ob b f v : set_resolved ob b f (fBool f v).2 = SetBool ob b f v.
Proof. destruct v; done. Qed.

(** ** Reading *)

(** [copy(a[:], r.BytesFixedSlice(f, n))] into a fresh [[n]byte]. *)
Definition copyFixed (r : Object) (f n : Z) : outcome (list byte) :=
  s ← Object_BytesFixedSlice r f n; Ret (to_array n (default [] s)).

(** [append([]byte(nil), r.Bytes(f)...)] *)
Definition copyBytes (r : Object) (f : Z) : outcome (list byte) :=
  s ← Object_Bytes r f; Ret (default [] s).

(** ** The setters of a flat object *)

(** A resolved field that refers to nothing, as a field of a tree. *)
Definition lift (r : resolved) : field tree :=
  match r with
  | RUint n v => TUint n v
  | RFixed v => TFixed v
  | RBytes v => TBytes v
  | RObject _ | RList _ _ => TBytes []
  end.
Definition flat (r : resolved) : Prop :=
  match r with RObject _ | RList _ _ => False | _ => True end.
Definition lift_all (calls : list (Z * resolved)) : list (Z * field tree) :=
  map (fun c => (c.1, lift c.2)) calls.

(** The bytes the calls append behind the object. *)
Definition tails (calls : list (Z * resolved)) : Z :=
  list_sum_Z (map (fun c => len (tail c.2)) calls).

Lemma tails_nonneg calls : 0 <= tails calls.
Proof.
  unfold tails; induction calls as [|c calls IH]; simpl; [lia|].
  pose proof (len_nonneg (tail c.2)); lia.
Qed.

Lemma lift_transfers d r :
  flat r -> field_wf tree_wf (lift r) -> transfers d r (lift r).
Proof.
  intros Hf Hwf; destruct r as [n v|v|v|off|off k]; simpl in *; try done.
  - split; [done|split; [simpl; lia|]]; intros d' s lim f _ _ _ _ (? & Hc & _); exact Hc.
  - split; [done|split; [done|]]; intros d' s lim f _ _ _ _ (? & Hc & _); exact Hc.
  - split; [done|split; [done|]]; simpl.
    intros d' s lim f _ _ _ ? (n & Hc & ? & ? & ?); exists n; split_and!; try done; lia.
Qed.

Lemma lift_all_transfers d calls :
  all (fun c => flat c.2) calls ->
  all (fun p => field_wf tree_wf p.2) (lift_all calls) ->
  all2 (fun q p => q.1 = p.1 /\ transfers d q.2 p.2) calls (lift_all calls).
Proof.
  induction calls as [|[f r] calls IH]; simpl; [done|].
  intros [? ?] [? ?]; split; [split; [done|apply lift_transfers; done]|auto].
Qed.

(** The setters append the tails and nothing else. *)
Lemma set_fields_length ob size calls : forall b a b',
  holds b a -> HeaderSize <= startPos ob -> rlayout size calls ->
  startPos ob + size <= len (bytes a) ->
  set_fields ob b calls = Ret b' -> pos b' = len (bytes a) + tails calls.
Proof.
  induction calls as [|[f r] calls IH]; intros b a b' H Hs Hlay Hlen Hset; simpl in Hset.
  { injection Hset as <-; unfold tails; simpl; rewrite (holds_pos _ _ H); lia. }
  destruct Hlay as (Hf & Hw & Hwf & _ & Hrest).
  destruct (set_resolved_holds b a ob f r H Hs Hf Hwf ltac:(lia)) as (b1 & Hset1 & H1).
  rewrite Hset1 in Hset; cbn [mbind outcome_bind] in Hset.
  pose proof (len_code (len (bytes a)) (startPos ob + f) r Hwf) as Hc.
  pose proof (len_nonneg (tail r)) as Ht; unfold HeaderSize in *.
  assert (Hl1 : len (put (bytes a ++ tail r) (startPos ob + f)
      (code (len (bytes a)) (startPos ob + f) r)) = len (bytes a) + len (tail r))
    by (rewrite len_put; rewrite ?len_app; lia).
  rewrite (IH b1 _ b' H1 Hs Hrest) by (cbn [bytes]; lia || done).
  cbn [bytes]; rewrite Hl1; unfold tails; simpl; lia.
Qed.

(** ** What a flat message is *)

(** Writing the flags and finishing keeps the stored object. *)
Lemma flat_finished a size fs flags n :
  tree_wf (Node size fs) -> stored (bytes a) 16 (Node size fs) ->
  len (bytes a) = n -> 16 <= n < 2 ^ 31 -> 0 <= flags < 2 ^ 16 ->
  sub (bytes a) 0 6 = sub (bytes (fresh_doc Version2)) 0 6 ->
  exists d, Ret (bytes (a_finish (a_patch (mkDoc (bytes a) 16) 6 (le_bytes 2 flags)))) = Ret d
    /\ Parse d = Ret (Ok (WrapBuffer d)) /\ len d = n
    /\ Message_Flags (WrapBuffer d) = Ret flags
    /\ Message_Root (WrapBuffer d) = Ret (obj d 16)
    /\ all (fun p => reads_field decodes d 16 p.1 p.2) fs.
Proof.
  intros Hwf Hst Hn Hb Hfl Hh; set (a1 := a_patch _ _ _).
  assert (Hw : len (le_bytes 2 flags) = 2) by (apply len_le_bytes; lia).
  assert (Hl1 : len (bytes a1) = n) by (unfold a1; cbn [bytes a_patch]; rewrite len_put; lia).
  assert (Hh1 : HeaderSize <= len (bytes a1)) by (unfold HeaderSize; lia).
  pose proof (len_finish a1 Hh1) as Hld; pose proof (keeps_finish a1 Hh1) as Hk.
  set (d := bytes (a_finish a1)) in *; exists d; split; [done|].
  assert (Hk1 : forall lo k, 8 <= lo -> sub (bytes a1) lo k = sub (bytes a) lo k)
    by (intros; unfold a1; cbn [bytes a_patch]; apply sub_put_other; lia).
  destruct (finish_parses a1 Version2) as [Hp Hr]; [unfold HeaderSize; lia|simpl; lia| |auto|].
  { rewrite <- Hh; unfold a1; cbn [bytes a_patch]; apply sub_put_other; lia. }
  fold d in Hp, Hr; split; [done|split; [lia|split; [|split; [done|]]]].
  - unfold Message_Flags; cbn [data WrapBuffer]; go_eval.
    change (8 - 6) with 2; unfold d; rewrite (sub_prefix_eq _ _ 8 6 2 (finish_header a1 Hh1)) by lia.
    unfold a1; cbn [bytes a_patch].
    pose proof (sub_put_same (bytes a) 6 (le_bytes 2 flags)) as Hs; rewrite Hw in Hs; rewrite Hs by lia.
    rewrite le_combine_le_bytes, Z.mod_small by (simpl; lia); done.
  - assert (Hs1 : stored d 16 (Node size fs)).
    { eapply stored_keeps; [|exact Hst]; split; [lia|]; intros lo k Hlo Hk'.
      destruct Hk as [_ Hk]; unfold HeaderSize in *; rewrite Hk by lia.
      unfold a1; cbn [bytes a_patch]; apply sub_put_other; lia. }
    destruct (stored_decodes (Node size fs) d 16 ltac:(lia) Hwf Hs1) as (_ & _ & Hall); done.
Qed.

(** Everything a reader needs: the message parses to itself, carries the flags
    and its root reads every field back. *)
Lemma flat_message capacity size flags calls :
  all (fun c => flat c.2) calls -> tree_wf (Node size (lift_all calls)) ->
  0 <= flags < 2 ^ 16 -> 16 + size + tails calls < 2 ^ 31 ->
  exists d, finish_flat capacity size flags calls = Ret d
    /\ Parse d = Ret (Ok (WrapBuffer d)) /\ len d = 16 + size + tails calls
    /\ Message_Flags (WrapBuffer d) = Ret flags
    /\ Message_Root (WrapBuffer d) = Ret (obj d 16)
    /\ all (fun p => reads_field decodes d 16 p.1 p.2) (lift_all calls).
Proof.
  intros Hflat Hwf Hfl Hlen; pose proof Hwf as (Hsz & Hlay & Hfs).
  unfold finish_flat, NewBuilder.
  destruct (newBuilder_holds capacity Version2) as (b0 & -> & H0); cbn [mbind outcome_bind].
  pose proof (lift_all_transfers (bytes (fresh_doc Version2)) calls Hflat Hfs) as Htr.
  pose proof (rlayout_of _ _ _ _ Htr Hlay) as Hrl.
  destruct (object_holds size (lift_all calls) calls b0 _ H0)
    as (ob & b1 & b2 & a2 & Hst & Hset & Hg & Ho & Hstored); [rewrite len_fresh; lia|done|done|done|].
  destruct (StartObject_holds b0 (fresh_doc Version2) size H0) as (b1' & Hst' & H1).
  rewrite Hst in Hst'; injection Hst' as Hob <-.
  assert (Hob' : ob = mkObjectBuilder 16 size) by exact Hob; clear Hob; subst ob.
  rewrite Hst; cbn [mbind outcome_bind fst snd]; rewrite Hset; cbn [mbind outcome_bind].
  assert (Hpos : pos b2 = 16 + size + tails calls).
  { rewrite (set_fields_length (mkObjectBuilder 16 size) size calls b1 _ b2 H1); try done;
      cbn [bytes a_append startPos]; rewrite len_app, len_zeros_max, len_align;
      change (len (bytes (fresh_doc Version2)) + _) with 16; lia. }
  destruct Hg as (H2 & Hr2 & Hk2); pose proof (holds_pos _ _ H2) as Hp2.
  pose proof (tails_nonneg calls) as Htl.
  unfold FinishAsRoot, ObjectBuilder_Finish; cbn [fst snd startPos].
  destruct (FinishWithFlags_holds (mkBuilder (buf b2) (pos b2) 16) (mkDoc (bytes a2) 16) flags)
    as (b3 & -> & _);
    [destruct H2 as (? & ? & _); split; [done|split; done]|cbn [bytes]; unfold HeaderSize; lia|].
  cbn [mbind outcome_bind fst].
  apply (flat_finished a2 size (lift_all calls) flags (16 + size + tails calls));
    try done; try lia.
  destruct Hk2 as [_ Hk2]; apply Hk2; [lia|rewrite len_fresh; unfold HeaderSize; lia].
Qed.

(** ** Readers of any message *)

(** [x] returns a value that satisfies [P]. *)
Definition gives {A} (x : outcome A) (P : A -> Prop) : Prop := exists a, x = Ret a /\ P a.

Lemma gives_ret {A} (a : A) (P : A -> Prop) : P a -> gives (Ret a) P.
Proof. intros; exists a; done. Qed.

Lemma gives_bind {A B} (x : outcome A) (k : A -> outcome B) (P : A -> Prop) (Q : B -> Prop) :
  gives x P -> (forall a, P a -> gives (k a) Q) -> gives (x ≫= k) Q.
Proof. intros (a & -> & Ha) Hk; apply Hk; done. Qed.

(** An object view that a message backs. *)
Definition view (o : Object) : Prop := (exists m, msg o = Some m) /\ 0 <= offset o.

Lemma root_gives d m : Parse d = Ret (Ok m) -> gives (Message_Root m) view.
Proof.
  intros Hp; pose proof (Parse_Ok_data _ _ Hp) as Hl; unfold HeaderSize in Hl.
  unfold Message_Root; rewrite slice_ok by lia; cbn [mbind outcome_bind].
  rewrite le_uint_sub by lia; apply gives_ret; split; [eauto|apply le_combine_range].
Qed.

Lemma rd_gives (c : bool) n d p : 0 <= n -> 0 <= (if c then 0 else rd n d p) < 2 ^ (8 * n).
Proof. intros; destruct c; [split; [lia|apply Z.pow_pos_nonneg; lia]|apply rd_range; lia]. Qed.

Section accessors_give.
Context (o : Object) (f : Z).
Hypothesis Ho : view o.
Hypothesis Hf : 0 <= f.

Lemma Uint8_gives : gives (Object_Uint8 o f) (fun v => 0 <= v < 2 ^ 8).
Proof.
  destruct Ho as [[m Hm] ?]; eexists; split; [apply (Object_Uint8_eq o m f Hm); lia|].
  apply (rd_gives _ 1); lia.
Qed.

Lemma UintN_gives n : 0 <= n -> gives (Object_UintN n o f) (fun v => 0 <= v < 2 ^ (8 * n)).
Proof.
  intros; destruct Ho as [[m Hm] ?]; eexists; split; [apply (Object_UintN_eq o m f Hm); lia|].
  apply rd_gives; lia.
Qed.

Lemma Uint16_gives : gives (Object_Uint16 o f) (fun v => 0 <= v < 2 ^ 16).
Proof. apply (UintN_gives 2); lia. Qed.
Lemma Uint32_gives : gives (Object_Uint32 o f) (fun v => 0 <= v < 2 ^ 32).
Proof. apply (UintN_gives 4); lia. Qed.
Lemma Uint64_gives : gives (Object_Uint64 o f) (fun v => 0 <= v < 2 ^ 64).
Proof. apply (UintN_gives 8); lia. Qed.

Lemma Bool_gives : gives (Object_Bool o f) (fun _ => True).
Proof. eapply gives_bind; [apply Uint8_gives|]; intros; apply gives_ret; done. Qed.

Lemma copyFixed_gives n : 0 <= n -> gives (copyFixed o f n) (fun v => len v = n).
Proof.
  intros; destruct Ho as [[m Hm] ?]; unfold copyFixed.
  rewrite (Object_BytesFixedSlice_eq o m f Hm) by lia; apply gives_ret, len_to_array; done.
Qed.

Lemma copyBytes_gives : gives (copyBytes o f) (fun _ => True).
Proof.
  destruct Ho as [[m Hm] ?]; unfold copyBytes.
  rewrite (Object_Bytes_eq o m f Hm) by lia; apply gives_ret; done.
Qed.

Lemma Text_gives : gives (Object_Text o f) (fun _ => True).
Proof. apply copyBytes_gives. Qed.
End accessors_give.

Create HintDb wire discriminated.
#[export] Hint Resolve Uint8_gives Uint16_gives Uint32_gives Uint64_gives Bool_gives
  copyFixed_gives copyBytes_gives Text_gives : wire.
#[export] Hint Extern 1 (_ <= _) => autounfold with wire; lia : wire.

Lemma copyFixed_read o f n v :
  len v = n -> Object_BytesFixedSlice o f (len v) = Ret (Some v) -> copyFixed o f n = Ret v.
Proof.
  intros <- Hr; unfold copyFixed; rewrite Hr; cbn [mbind outcome_bind default].
  rewrite to_array_id; done.
Qed.

Lemma Bool_read o f v : Object_Uint8 o f = Ret (Z.b2z v) -> Object_Bool o f = Ret v.
Proof. intros Hr; unfold Object_Bool; rewrite Hr; destruct v; done. Qed.

(** ** Envelopes *)

(** A message type of a protocol: its values, how they are built and read, the
    flags its messages carry and the bytes a message takes. *)
Record Envelope (T : Type) : Type := mkEnvelope {
  typed : T -> Prop;
  build : T -> outcome (result Message zap_error);
  read : Message -> outcome T;
  norm : T -> T;       (** what a reader makes of a value's derived fields *)
  env_flags : Z;
  env_size : T -> Z
}.
Arguments mkEnvelope {T}.
Arguments typed {T}.
Arguments build {T}.
Arguments read {T}.
Arguments norm {T}.
Arguments env_flags {T}.
Arguments env_size {T}.

(** What an envelope promises its users. *)
Class EnvelopeLaws {T} (e : Envelope T) : Prop := {
  env_roundtrip x :
    typed e x -> env_size e x < 2 ^ 31 ->
    exists d, build e x = Ret (Ok (WrapBuffer d)) /\ Parse d = Ret (Ok (WrapBuffer d))
      /\ len d = env_size e x /\ Message_Flags (WrapBuffer d) = Ret (env_flags e)
      /\ read e (WrapBuffer d) = Ret (norm e x);
  env_total d m :
    Parse d = Ret (Ok m) -> gives (read e m) (fun x => typed e x /\ norm e x = x)
}.

(** ** Proving the laws of a flat envelope *)

(** Reading the field a call has set. *)
Definition field_read (o : Object) (c : Z * resolved) : Prop :=
  match c.2 with
  | RUint n v => read_uint n o c.1 = Ret v
  | RFixed v => Object_BytesFixedSlice o c.1 (len v) = Ret (Some v)
  | RBytes v => Object_Text o c.1 = Ret v
  | _ => True
  end.

Lemma flat_roundtrip {T} (body : Object -> outcome T) capacity size flags calls n x :
  all (fun c => flat c.2) calls -> tree_wf (Node size (lift_all calls)) ->
  0 <= flags < 2 ^ 16 -> 16 + size + tails calls = n -> n < 2 ^ 31 ->
  (forall o, all (field_read o) calls -> body o = Ret x) ->
  exists d, build_flat capacity size flags calls = Ret (Ok (WrapBuffer d))
    /\ Parse d = Ret (Ok (WrapBuffer d)) /\ len d = n
    /\ Message_Flags (WrapBuffer d) = Ret flags
    /\ (r ← Message_Root (WrapBuffer d); body r) = Ret x.
Proof.
  intros Hflat Hwf Hfl Hn Hlt Hbody.
  destruct (flat_message capacity size flags calls) as (d & Hd & Hp & Hl & Hf & Hr & Hall);
    [done|done|done|lia|].
  exists d; unfold build_flat; rewrite Hd, Hr; cbn [mbind outcome_bind].
  split; [done|split; [done|split; [lia|split; [done|]]]].
  apply Hbody; clear -Hflat Hall; induction calls as [|[f r] calls IH]; [done|].
  destruct Hflat as [Hr Hflat], Hall as [H Hall]; split; [|auto].
  destruct r; simpl in *; done.
Qed.

(** The side conditions of a concrete layout; the widths of the fields are in
    the context. *)
Ltac layout :=
  unfold tails, list_sum_Z, fUint8, fUint16, fUint32, fUint64, fBool, fFixed, fBytes, fText;
  cbn [lift_all map all layout_ok tree_wf field_wf lift flat width fst snd tail foldr];
  autounfold with wire in *; rewrite ?(len_nil (A := byte));
  repeat match goal with
    | |- context [Z.b2z ?b] => destruct b; cbn [Z.b2z]
    | |- _ /\ _ => split
    end; try exact I; try lia.

(** One read of a body whose fields are known. *)
Ltac read_known :=
  match goal with
  | H : Object_BytesFixedSlice ?o ?f (len ?v) = _ |- context [copyFixed ?o ?f ?n] =>
      rewrite (copyFixed_read o f n v ltac:(autounfold with wire in *; lia) H)
  | H : Object_Text ?o ?f = Ret ?v |- context [Object_Text ?o ?f] => rewrite H
  | H : Object_Text ?o ?f = Ret ?v |- context [copyBytes ?o ?f] =>
      rewrite (H : copyBytes o f = Ret v)
  | H : read_uint 1 ?o ?f = Ret (Z.b2z ?v) |- context [Object_Bool ?o ?f] =>
      rewrite (Bool_read o f v H)
  | H : read_uint 1 ?o ?f = Ret ?v |- context [Object_Uint8 ?o ?f] =>
      rewrite (H : Object_Uint8 o f = Ret v)
  | H : read_uint 2 ?o ?f = Ret ?v |- context [Object_Uint16 ?o ?f] =>
      rewrite (H : Object_Uint16 o f = Ret v)
  | H : read_uint 4 ?o ?f = Ret ?v |- context [Object_Uint32 ?o ?f] =>
      rewrite (H : Object_Uint32 o f = Ret v)
  | H : read_uint 8 ?o ?f = Ret ?v |- context [Object_Uint64 ?o ?f] =>
      rewrite (H : Object_Uint64 o f = Ret v)
  end; cbn [mbind outcome_bind].

Ltac read_all_known :=
  let o := fresh "o" in let Hall := fresh in
  intros o Hall; cbn [all field_read fst snd fUint8 fUint16 fUint32 fUint64 fBool fFixed fBytes fText] in Hall;
  destruct_and?; repeat read_known.

(** The two laws, from the typing facts of a destructed value. *)
Ltac env_roundtrip_tac :=
  apply flat_roundtrip; [layout|layout|apply tag_range|layout|layout|read_all_known].

Ltac env_total_tac d m Hp :=
  eapply gives_bind; [exact (root_gives d m Hp)|intros];
  repeat lazymatch goal with
    | |- gives (_ ≫= _) _ => eapply gives_bind; [solve [eauto 4 with wire]|cbv beta; intros]
    end; try apply gives_ret.

(** The definitions of an envelope are unfolded by name. *)
Create HintDb envelope discriminated.
Ltac open_envelope := autounfold with envelope in *; cbn [typed build read norm env_flags env_size] in *.

Ltac envelope :=
  split;
  [ let x := fresh "x" in let Ht := fresh in let Hsz := fresh in
    intros x Ht Hsz; open_envelope; destruct_and? Ht; env_roundtrip_tac; try (destruct x; done)
  | let d := fresh "d" in let m := fresh "m" in let Hp := fresh in
    intros d m Hp; open_envelope; env_total_tac d m Hp;
    try (cbn; split; [split_and?; first [assumption|lia]|done]) ].
