(* ===== verification/Sha256.v ===== *)
(** * Sha256: the hash of Go's [crypto/sha256]

    The sources hash with [sha256.Sum256] and with a digest that is written to
    piece by piece; both give the hash of the concatenation. The standard
    library's function is FIPS 180-4 SHA-256, modelled here on words below 2^32
    so that identifiers can be computed. *)

From S2P Require Import Prelude.

(** ** Words *)

Definition add32 (x y : Z) : Z := u32 (x + y).
Definition rotr (n x : Z) : Z := Z.lor (Z.shiftr x n) (u32 (Z.shiftl x (32 - n))).
Definition not32 (x : Z) : Z := Z.lxor x 4294967295.

Definition Ch (x y z : Z) : Z := Z.lxor (Z.land x y) (Z.land (not32 x) z).
Definition Maj (x y z : Z) : Z := Z.lxor (Z.lxor (Z.land x y) (Z.land x z)) (Z.land y z).
Definition Sigma0 (x : Z) : Z := Z.lxor (Z.lxor (rotr 2 x) (rotr 13 x)) (rotr 22 x).
Definition Sigma1 (x : Z) : Z := Z.lxor (Z.lxor (rotr 6 x) (rotr 11 x)) (rotr 25 x).
Definition sigma0 (x : Z) : Z := Z.lxor (Z.lxor (rotr 7 x) (rotr 18 x)) (Z.shiftr x 3).
Definition sigma1 (x : Z) : Z := Z.lxor (Z.lxor (rotr 17 x) (rotr 19 x)) (Z.shiftr x 10).

(** The round constants and the initial hash value, computed the way the
    standard defines them: the first 32 bits of the fractional parts of the
    cube roots of the first 64 primes, and of the square roots of the first
    eight. *)
Definition prime (p : Z) : bool :=
  forallb (fun d => negb (p mod d =? 0)) (seqZ 2 (p - 2)).
Definition primes : list Z := filter prime (seqZ 2 310).

(** The integer [k]-th root of [x] that has [bits] bits at most. *)
Fixpoint root (bits : nat) (k x acc : Z) : Z :=
  match bits with
  | O => acc
  | S i => let c := acc + 2 ^ Z.of_nat i in root i k x (if c ^ k <=? x then c else acc)
  end.
Definition fraction (k p : Z) : Z := u32 (root 38 k (p * 2 ^ (32 * k)) 0).

Definition K256 : list Z := Eval vm_compute in fraction 3 <$> take 64 primes.
Definition H256 : list Z := Eval vm_compute in fraction 2 <$> take 8 primes.

(** ** Blocks *)

Definition pad (m : list byte) : list byte :=
  m ++ [Byte.x80] ++ zeros ((55 - len m) mod 64) ++ be_bytes 8 (len m * 8).

Fixpoint be_words (n : nat) (l : list byte) : list Z :=
  match n with
  | O => []
  | S n => le_combine (rev (take 4 l)) :: be_words n (drop 4 l)
  end.

(** The message schedule, newest word first. *)
Fixpoint schedule (n : nat) (w : list Z) : list Z :=
  match n with
  | O => w
  | S n =>
      schedule n (add32 (add32 (sigma1 (nth 1 w 0)) (nth 6 w 0))
                        (add32 (sigma0 (nth 14 w 0)) (nth 15 w 0)) :: w)
  end.

Definition round (h : list Z) (kw : Z * Z) : list Z :=
  match h with
  | [a; b; c; d; e; f; g; hh] =>
      let t1 := add32 (add32 (add32 hh (Sigma1 e)) (add32 (Ch e f g) kw.1)) kw.2 in
      let t2 := add32 (Sigma0 a) (Maj a b c) in
      [add32 t1 t2; a; b; c; add32 d t1; e; f; g]
  | _ => h
  end.

Definition compress (h : list Z) (block : list byte) : list Z :=
  let w := rev (schedule 48 (rev (be_words 16 block))) in
  zip_with add32 h (foldl round h (zip K256 w)).

Fixpoint hash_blocks (n : nat) (h : list Z) (l : list byte) : list Z :=
  match n with
  | O => h
  | S n => hash_blocks n (compress h (take 64 l)) (drop 64 l)
  end.

Definition sha256 (m : list byte) : list byte :=
  let p := pad m in
  concat (map (be_bytes 4) (hash_blocks (length p / 64) H256 p)).

Lemma length_round h kw : length (round h kw) = length h.
Proof. destruct h as [|? [|? [|? [|? [|? [|? [|? [|? [|]]]]]]]]]; done. Qed.

Lemma length_compress h block : length (compress h block) = length h.
Proof.
  unfold compress; rewrite length_zip_with.
  set (kws := zip K256 _); clearbody kws.
  assert (H : forall h', length (foldl round h' kws) = length h').
  { induction kws as [|kw kws IH]; intros h'; simpl; [done|rewrite IH, length_round; done]. }
  rewrite H; lia.
Qed.

Lemma len_sha256 m : len (sha256 m) = 32.
Proof.
  unfold sha256, len; generalize (pad m) as p; intros p.
  assert (H : forall n h l, length (hash_blocks n h l) = length h).
  { induction n as [|n IH]; intros h l; simpl; [done|rewrite IH, length_compress; done]. }
  set (ws := hash_blocks _ _ _); assert (Hw : length ws = 8%nat) by (apply (H _ H256)).
  clearbody ws; destruct ws as [|? [|? [|? [|? [|? [|? [|? [|? [|]]]]]]]]]; try done.
Qed.

(** ** Known answers *)

(** The two examples of FIPS 180-4 and the empty string. *)
Lemma sha256_abc :
  le_combine (rev (sha256 [Byte.x61; Byte.x62; Byte.x63]))
  = 0xba7816bf8f01cfea414140de5dae2223b00361a396177a9cb410ff61f20015ad.
Proof. vm_compute; reflexivity. Qed.

Lemma sha256_empty :
  le_combine (rev (sha256 []))
  = 0xe3b0c44298fc1c149afbf4c8996fb92427ae41e4649b934ca495991b7852b855.
Proof. vm_compute; reflexivity. Qed.
