(* ===== verification/HsLabels.v ===== *)
(** * HsLabels: constants, labels and errors of the handshake

    Models [handshake/labels.go] and [handshake/errors.go]: the sizes and caps
    of SPEC-ZAP-PQ-v1, the wire labels, the small enumerations and the mapping
    between ALERT codes and sentinel errors. One-byte enumerations are bytes;
    an error is its sentinel (what [errors.Is] sees), without its text. *)

From S2P Require Import Prelude.
From Stdlib Require Import String.
Import String.StringSyntax.
Local Open Scope string_scope.
Local Open Scope Z_scope.

(** ** Sizes and caps *)

Definition MagicLen : Z := 4.
Definition ClientRandLen : Z := 16.
Definition IDLen : Z := 32.
Definition TimestampLen : Z := 8.
Definition PSKIDLen : Z := 16.
Definition PSKKeyLen : Z := 32.
Definition X25519PubLen : Z := 32.
Definition X25519SharedLen : Z := 32.
Definition MLKEM768PubLen : Z := 1184.
Definition MLKEM768CTLen : Z := 1088.
Definition MLKEM768SharedLen : Z := 32.
Definition MLDSA65PubLen : Z := 1952.
Definition MLDSA65SigLen : Z := 3309.
Definition AEADKeyLen : Z := 32.
Definition AEADNonceLen : Z := 12.
Definition AEADTagLen : Z := 16.
Definition NonceSaltLen : Z := 4.
Definition NonceCtrLen : Z := 8.
Definition TranscriptLen : Z := 32.
Definition MaxFrameBody : Z := 2 ^ 24.
Definition ReplayWindowNS : Z := 30 * 1000000000.
Definition ReplayCacheTTLSec : Z := 60.
Definition PSKLifetimeSec : Z := 3600.
Definition RekeyTimeSec : Z := 3600.
Definition RekeyFrameCap : Z := 2 ^ 31.
Definition RekeyBytesCap : Z := 100 * 2 ^ 30.

(** The prefix "ZPQ1". *)
Definition hs_Magic : list byte := ascii "ZPQ1".

(** ** Enumerations *)

Definition SuiteX25519MLKEM : byte := Byte.x01.
Definition SuiteID_IsValid (s : byte) : bool := bool_decide (s = SuiteX25519MLKEM).

Definition PQModeClassicalPermitted : byte := Byte.x00.
Definition PQModePQRequired : byte := Byte.x01.
Definition PQModePQOnly : byte := Byte.x02.

Definition ProfileStrictPQ : byte := Byte.x01.
Definition ProfilePermissive : byte := Byte.x02.
Definition ProfileFIPS : byte := Byte.x03.

Definition FrameHello : byte := Byte.x01.
Definition FrameKEMInit : byte := Byte.x02.
Definition FrameKEMReply : byte := Byte.x03.
Definition FrameAuth : byte := Byte.x04.
Definition FrameData : byte := Byte.x05.
Definition FrameRekey : byte := Byte.x06.
Definition FrameAlert : byte := Byte.x07.
Definition FrameHelloPSK : byte := Byte.x08.

Definition RoleInitiator : byte := Byte.x49.
Definition RoleResponder : byte := Byte.x52.

(** ** Labels *)

Definition LblProtocol : list byte := ascii "ZAP-PQ-v1".
Definition LblX25519 : list byte := ascii "X25519".
Definition LblMLKEM : list byte := ascii "ML-KEM-768".
Definition LblSessionI2R : list byte := ascii "ZAP-PQ-v1 i->r".
Definition LblSessionR2I : list byte := ascii "ZAP-PQ-v1 r->i".
Definition LblSaltI2R : list byte := ascii "ZAP-PQ-v1 nonce-salt i->r".
Definition LblSaltR2I : list byte := ascii "ZAP-PQ-v1 nonce-salt r->i".
Definition LblResumption : list byte := ascii "ZAP-PQ-v1 resumption".
Definition LblRekey : list byte := ascii "ZAP-PQ-v1 rekey".
Definition LblAuthI : list byte := ascii "ZAP-PQ-v1 auth initiator".
Definition LblAuthR : list byte := ascii "ZAP-PQ-v1 auth responder".
Definition SignCtx : list byte := ascii "lux-zap-pq-v1".

(** [nil] for a byte that is no role. *)
Definition AuthRole_Label (r : byte) : list byte :=
  if bool_decide (r = RoleInitiator) then LblAuthI else
  if bool_decide (r = RoleResponder) then LblAuthR else [].

(** ** Errors and ALERT codes *)

Inductive hs_error : Type :=
| ErrDecodeError
| ErrUnsupportedSuite
| ErrAuthFailed
| ErrReplayDetected
| ErrDowngradeRefused
| ErrHandshakeTimeout
| ErrNonceViolation
| ErrPSKUnknown
| ErrVMIdentityMismatch
| ErrAuthoritySigFailed
| ErrPolicyRefused
| ErrMagicMismatch
| ErrSessionClosed
| ErrEpochExhausted
| ErrIO            (** what the connection's [Read] or [Write] returned *)
| ErrOther.        (** an error of a library call or of [fmt.Errorf] without sentinel *)

#[export] Instance hs_error_eq_dec : EqDecision hs_error.
Proof. solve_decision. Defined.

Definition AlertNone : byte := Byte.x00.
Definition AlertDecodeError : byte := Byte.x01.
Definition AlertUnsupportedSuite : byte := Byte.x02.
Definition AlertAuthFailed : byte := Byte.x03.
Definition AlertReplayDetected : byte := Byte.x04.
Definition AlertDowngradeRefused : byte := Byte.x05.
Definition AlertHandshakeTimeout : byte := Byte.x06.
Definition AlertNonceViolation : byte := Byte.x07.
Definition AlertPSKUnknown : byte := Byte.x08.
Definition AlertVMIdentityMismatch : byte := Byte.x09.
Definition AlertAuthoritySigFailed : byte := Byte.x0a.
Definition AlertPolicyRefused : byte := Byte.x0b.

Definition hex_digit (n : Z) : byte :=
  byte.of_Z (if n <? 10 then 48 + n else 87 + n).

Definition AlertCode_String (c : byte) : list byte :=
  match c with
  | Byte.x00 => ascii "none"
  | Byte.x01 => ascii "decode_error"
  | Byte.x02 => ascii "unsupported_ciphersuite"
  | Byte.x03 => ascii "auth_failed"
  | Byte.x04 => ascii "replay_detected"
  | Byte.x05 => ascii "downgrade_refused"
  | Byte.x06 => ascii "handshake_timeout"
  | Byte.x07 => ascii "nonce_violation"
  | Byte.x08 => ascii "psk_unknown"
  | Byte.x09 => ascii "vm_identity_mismatch"
  | Byte.x0a => ascii "authority_sig_failed"
  | Byte.x0b => ascii "policy_refused"
  | _ => ascii "alert(0x" ++ [hex_digit (byte.unsigned c / 16); hex_digit (byte.unsigned c mod 16)]
         ++ ascii ")"
  end%list.

Definition errorForAlert (c : byte) : hs_error :=
  match c with
  | Byte.x01 => ErrDecodeError
  | Byte.x02 => ErrUnsupportedSuite
  | Byte.x03 => ErrAuthFailed
  | Byte.x04 => ErrReplayDetected
  | Byte.x05 => ErrDowngradeRefused
  | Byte.x06 => ErrHandshakeTimeout
  | Byte.x07 => ErrNonceViolation
  | Byte.x08 => ErrPSKUnknown
  | Byte.x09 => ErrVMIdentityMismatch
  | Byte.x0a => ErrAuthoritySigFailed
  | Byte.x0b => ErrPolicyRefused
  | _ => ErrDecodeError
  end.

Definition alertForError (e : hs_error) : byte :=
  match e with
  | ErrAuthFailed => AlertAuthFailed
  | ErrReplayDetected => AlertReplayDetected
  | ErrDowngradeRefused => AlertDowngradeRefused
  | ErrHandshakeTimeout => AlertHandshakeTimeout
  | ErrNonceViolation => AlertNonceViolation
  | ErrPSKUnknown => AlertPSKUnknown
  | ErrUnsupportedSuite => AlertUnsupportedSuite
  | ErrVMIdentityMismatch => AlertVMIdentityMismatch
  | ErrAuthoritySigFailed => AlertAuthoritySigFailed
  | ErrPolicyRefused => AlertPolicyRefused
  | _ => AlertDecodeError
  end.

(** The errors that have an ALERT code of their own; every other error travels
    as [decode_error]. *)
Definition wire_error (e : hs_error) : hs_error := errorForAlert (alertForError e).

Lemma wire_error_idem e : wire_error (wire_error e) = wire_error e.
Proof. destruct e; done. Qed.
