(* ===== verification/HsFrames.v ===== *)
(** * HsFrames: the frame codecs of the handshake

    Models [handshake/frames.go]: the eight frame bodies with [Encode] and
    [Decode], the envelope ([writeFrame], [readFrame], [expectFrame]) with the
    pool of assembly buffers, and the ALERT helpers. An array field [[N]byte]
    is a byte string whose length the well-formedness predicate states. A
    reader is the bytes still to come, a writer the list of [Write] calls made
    on it, or a broken connection. *)

From S2P Require Import Prelude HsLabels.

(** Results of the package's fallible functions. *)
Abbreviation hs A := (outcome (result A hs_error)).

Definition fail {A} (e : hs_error) : hs A := Ret (Err e).

(** ** HELLO *)

Record HelloFrame : Type := mkHello {
  h_Suite : byte;
  h_PQMode : byte;
  h_ClientRandom : list byte;
  h_TimestampNS : Z;
  h_ClientID : list byte;
  h_OfferedSchemes : list byte;
  h_StaticPKInitiator : list byte
}.

Definition HelloFrame_Encode (h : HelloFrame) : result (list byte) hs_error :=
  if negb (len (h_StaticPKInitiator h) =? MLDSA65PubLen) then Err ErrDecodeError else
  if len (h_OfferedSchemes h) =? 0 then Err ErrDecodeError else
  Ok ([h_Suite h] ++ [h_PQMode h] ++ h_ClientRandom h ++ be_bytes 8 (h_TimestampNS h)
      ++ h_ClientID h ++ be_bytes 4 (u32 (len (h_OfferedSchemes h)))
      ++ h_OfferedSchemes h ++ h_StaticPKInitiator h).

(** The loop that copies [n] one-byte suite ids from [off]. *)
Fixpoint copy_ids (n : nat) (body : list byte) (off : Z) : outcome (list byte) :=
  match n with
  | O => Ret []
  | S n => b ← index body off; bs ← copy_ids n body (off + 1); Ret (b :: bs)
  end.

Definition DecodeHello (body : list byte) : hs HelloFrame :=
  let fixedLen := 1 + 1 + ClientRandLen + TimestampLen + IDLen + 4 in
  if len body <? fixedLen + MLDSA65PubLen then fail ErrDecodeError else
  suite ← index body 0;
  mode ← index body 1;
  let off := 2 in
  rand ← slice body off (off + ClientRandLen);
  let off := off + ClientRandLen in
  ts ← slice body off (off + TimestampLen); timestamp ← be_uint 8 ts;
  let off := off + TimestampLen in
  id ← slice body off (off + IDLen);
  let off := off + IDLen in
  sl ← slice body off (off + 4); schemesLen ← be_uint 4 sl;
  let off := off + 4 in
  if (MaxFrameBody <? schemesLen) || (len body - off - MLDSA65PubLen <? schemesLen)
  then fail ErrDecodeError else
  if schemesLen =? 0 then fail ErrDecodeError else
  schemes ← copy_ids (Z.to_nat schemesLen) body off;
  let off := off + schemesLen in
  if negb (len body - off =? MLDSA65PubLen) then fail ErrDecodeError else
  pk ← slice body off (off + MLDSA65PubLen);
  if negb (bool_decide (suite ∈ schemes)) then fail ErrDecodeError else
  Ret (Ok (mkHello suite mode rand timestamp id schemes pk)).

(** ** KEM_INIT and KEM_REPLY *)

Record KEMInitFrame : Type := mkKEMInit {
  ki_X25519EphPub : list byte;
  ki_MLKEMEphPub : list byte
}.

Definition KEMInitFrame_Encode (k : KEMInitFrame) : list byte :=
  ki_X25519EphPub k ++ ki_MLKEMEphPub k.

Definition DecodeKEMInit (body : list byte) : hs KEMInitFrame :=
  if negb (len body =? X25519PubLen + MLKEM768PubLen) then fail ErrDecodeError else
  x ← slice body 0 X25519PubLen;
  m ← slice_from body X25519PubLen;
  Ret (Ok (mkKEMInit x m)).

Record KEMReplyFrame : Type := mkKEMReply {
  kr_X25519EphPub : list byte;
  kr_MLKEMCiphertext : list byte;
  kr_StaticPKResponder : list byte
}.

Definition KEMReplyFrame_Encode (k : KEMReplyFrame) : result (list byte) hs_error :=
  if negb (len (kr_StaticPKResponder k) =? MLDSA65PubLen) then Err ErrDecodeError else
  Ok (kr_X25519EphPub k ++ kr_MLKEMCiphertext k ++ kr_StaticPKResponder k).

Definition DecodeKEMReply (body : list byte) : hs KEMReplyFrame :=
  if negb (len body =? X25519PubLen + MLKEM768CTLen + MLDSA65PubLen)
  then fail ErrDecodeError else
  x ← slice body 0 (0 + X25519PubLen);
  let off := 0 + X25519PubLen in
  ct ← slice body off (off + MLKEM768CTLen);
  let off := off + MLKEM768CTLen in
  pk ← slice body off (off + MLDSA65PubLen);
  Ret (Ok (mkKEMReply x ct pk)).

(** ** AUTH *)

Record AuthFrame : Type := mkAuth { a_Role : byte; a_Signature : list byte }.

Definition valid_role (r : byte) : bool :=
  bool_decide (r = RoleInitiator) || bool_decide (r = RoleResponder).

Definition AuthFrame_Encode (a : AuthFrame) : result (list byte) hs_error :=
  if negb (len (a_Signature a) =? MLDSA65SigLen) then Err ErrDecodeError else
  if negb (valid_role (a_Role a)) then Err ErrDecodeError else
  Ok ([a_Role a] ++ a_Signature a).

Definition DecodeAuth (body : list byte) : hs AuthFrame :=
  if negb (len body =? 1 + MLDSA65SigLen) then fail ErrDecodeError else
  role ← index body 0;
  if negb (valid_role role) then fail ErrDecodeError else
  sig ← slice_from body 1;
  Ret (Ok (mkAuth role sig)).

(** ** DATA, REKEY, ALERT *)

Record DataFrame : Type := mkData { d_NonceCounter : Z; d_Ciphertext : list byte }.

Definition DataFrame_Encode (d : DataFrame) : list byte :=
  be_bytes 8 (d_NonceCounter d) ++ be_bytes 4 (u32 (len (d_Ciphertext d))) ++ d_Ciphertext d.

Definition DecodeData (body : list byte) : hs DataFrame :=
  if len body <? NonceCtrLen + 4 then fail ErrDecodeError else
  nc ← slice body 0 NonceCtrLen; counter ← be_uint 8 nc;
  lp ← slice body NonceCtrLen (NonceCtrLen + 4); ctLen ← be_uint 4 lp;
  if negb (ctLen =? len body - NonceCtrLen - 4) then fail ErrDecodeError else
  ct ← slice_from body (NonceCtrLen + 4);
  Ret (Ok (mkData counter ct)).

Record RekeyFrame : Type := mkRekey { r_Reason : byte }.

Definition RekeyReasonCounterLimit : byte := Byte.x01.
Definition RekeyReasonTimeLimit : byte := Byte.x02.
Definition RekeyReasonBytesLimit : byte := Byte.x03.
Definition RekeyReasonExplicit : byte := Byte.x04.

Definition RekeyFrame_Encode (r : RekeyFrame) : list byte := [r_Reason r].

Definition DecodeRekey (body : list byte) : hs RekeyFrame :=
  if negb (len body =? 1) then fail ErrDecodeError else
  r ← index body 0; Ret (Ok (mkRekey r)).

Record AlertFrame : Type := mkAlert { al_Code : byte; al_Detail : list byte }.

Definition AlertFrame_Encode (a : AlertFrame) : list byte :=
  [al_Code a] ++ be_bytes 4 (u32 (len (al_Detail a))) ++ al_Detail a.

Definition DecodeAlert (body : list byte) : hs AlertFrame :=
  if len body <? 1 + 4 then fail ErrDecodeError else
  code ← index body 0;
  lp ← slice body 1 5; detailLen ← be_uint 4 lp;
  if negb (detailLen =? len body - 5) then fail ErrDecodeError else
  detail ← slice_from body 5;
  Ret (Ok (mkAlert code detail)).

(** ** HELLO_PSK *)

Record HelloPSKFrame : Type := mkHelloPSK {
  hp_Suite : byte;
  hp_PQMode : byte;
  hp_ClientRandom : list byte;
  hp_TimestampNS : Z;
  hp_PSKID : list byte;
  hp_X25519EphPub : list byte
}.

Definition HelloPSKFrame_Encode (h : HelloPSKFrame) : list byte :=
  [hp_Suite h] ++ [hp_PQMode h] ++ hp_ClientRandom h ++ be_bytes 8 (hp_TimestampNS h)
  ++ hp_PSKID h ++ hp_X25519EphPub h.

Definition DecodeHelloPSK (body : list byte) : hs HelloPSKFrame :=
  let want := 1 + 1 + ClientRandLen + TimestampLen + PSKIDLen + X25519PubLen in
  if negb (len body =? want) then fail ErrDecodeError else
  suite ← index body 0;
  mode ← index body 1;
  let off := 2 in
  rand ← slice body off (off + ClientRandLen);
  let off := off + ClientRandLen in
  ts ← slice body off (off + TimestampLen); timestamp ← be_uint 8 ts;
  let off := off + TimestampLen in
  pid ← slice body off (off + PSKIDLen);
  let off := off + PSKIDLen in
  x ← slice body off (off + X25519PubLen);
  Ret (Ok (mkHelloPSK suite mode rand timestamp pid x)).

(** ** The envelope *)

(** A connection's write side: the [Write] calls made so far, or broken. *)
Record Writer : Type := mkWriter { calls : list (list byte); broken : bool }.

Definition Write (w : Writer) (b : list byte) : result unit hs_error * Writer :=
  if broken w then (Err ErrIO, w) else (Ok tt, mkWriter (calls w ++ [b]) false).

(** The assembly buffers: for each bucket the recycled buffers. *)
Definition frameBufPools_len : nat := 24.

Fixpoint bucket_from (i n : nat) (total : Z) : Z :=
  match n with
  | O => -1
  | S n => if total <=? Z.shiftl 1 (Z.of_nat i + 5) then Z.of_nat i
           else bucket_from (S i) n total
  end.
Definition frameBufBucket (total : Z) : Z := bucket_from 0 frameBufPools_len total.

Definition getFrameBuf (pools : list (list (list byte))) (total : Z)
  : outcome (list byte * list (list (list byte))) :=
  let b := frameBufBucket total in
  if b <? 0 then Ret (zeros total, pools) else
  stack ← index pools b;
  match stack with
  | [] => Ret (zeros (Z.shiftl 1 (b + 5)), pools)
  | buf :: rest => Ret (buf, <[Z.to_nat b := rest]> pools)
  end.

Definition putFrameBuf (pools : list (list (list byte))) (buf : list byte) (total : Z)
  : outcome (list (list (list byte))) :=
  let b := frameBufBucket total in
  if b <? 0 then Ret pools else
  stack ← index pools b; Ret (<[Z.to_nat b := buf :: stack]> pools).

Definition writeFrame (pools : list (list (list byte))) (w : Writer) (t : byte) (body : list byte)
  : outcome (result unit hs_error * Writer * list (list (list byte))) :=
  if MaxFrameBody <? len body then Ret (Err ErrDecodeError, w, pools) else
  let total := 5 + len body in
  g ← getFrameBuf pools total;
  let '(whole, pools) := g in
  buf ← slice whole 0 total;
  buf ← store buf 0 [t];
  buf ← store buf 1 (be_bytes 4 (u32 (len body)));
  buf ← store buf 5 body;
  let '(err, w) := Write w buf in
  pools ← putFrameBuf pools (put whole 0 buf) total;
  Ret (err, w, pools).

(** [io.ReadFull] of [n] bytes: the bytes, or an error with the stream drained. *)
Definition ReadFull (r : list byte) (n : Z) : result (list byte) hs_error * list byte :=
  if len r <? n then (Err ErrIO, []) else (Ok (sub r 0 n), drop (Z.to_nat n) r).

Definition readFrame (r : list byte) : outcome (result (byte * list byte) hs_error * list byte) :=
  match ReadFull r 5 with
  | (Err e, r) => Ret (Err e, r)
  | (Ok hdr, r) =>
      t ← index hdr 0;
      s ← slice_from hdr 1; length ← be_uint 4 s;
      if MaxFrameBody <? length then Ret (Err ErrDecodeError, r) else
      if 0 <? length then
        match ReadFull r length with
        | (Err e, r) => Ret (Err e, r)
        | (Ok body, r) => Ret (Ok (t, body), r)
        end
      else Ret (Ok (t, zeros length), r)
  end.

Definition expectFrame (r : list byte) (want : byte)
  : outcome (result (list byte) hs_error * list byte) :=
  f ← readFrame r;
  match f with
  | (Err e, r) => Ret (Err e, r)
  | (Ok (t, body), r) =>
      if bool_decide (t = FrameAlert) then
        a ← DecodeAlert body;
        match a with
        | Err e => Ret (Err e, r)
        | Ok a => Ret (Err (errorForAlert (al_Code a)), r)
        end
      else if negb (bool_decide (t = want)) then Ret (Err ErrDecodeError, r)
      else Ret (Ok body, r)
  end.

(** The text of an ALERT is for humans; it is an argument here. *)
Definition writeAlert (pools : list (list (list byte))) (w : Writer) (code : byte)
  (detail : list byte) : outcome (hs_error * Writer * list (list (list byte))) :=
  r ← writeFrame pools w FrameAlert (AlertFrame_Encode (mkAlert code detail));
  Ret (errorForAlert code, r.1.2, r.2).

Definition writeAlertFor (pools : list (list (list byte))) (w : Writer) (e : option hs_error)
  (text : list byte) : outcome (option hs_error * Writer * list (list (list byte))) :=
  match e with
  | None => Ret (None, w, pools)
  | Some e =>
      let code := alertForError e in
      r ← writeFrame pools w FrameAlert (AlertFrame_Encode (mkAlert code text));
      Ret (Some e, r.1.2, r.2)
  end.

(** ** The decoders as equations *)

#[local] Ltac hs_consts :=
  unfold ClientRandLen, TimestampLen, IDLen, PSKIDLen, X25519PubLen, MLKEM768PubLen,
    MLKEM768CTLen, MLDSA65PubLen, MLDSA65SigLen, NonceCtrLen, fail in *.
#[local] Ltac const_add :=
  match goal with
  | |- context [Zpos ?a + Zpos ?b] =>
      let r := eval vm_compute in (Zpos a + Zpos b) in change (Zpos a + Zpos b) with r
  end.
#[local] Ltac hs_step :=
  first [ const_add | rewrite index_byte_at by lia | rewrite be_uint_sub by lia | go_step ].
#[local] Ltac hs_eval := hs_consts; cbv zeta; rewrite ?Z.add_0_l; repeat hs_step; try done; try lia.

Lemma copy_ids_eq n : forall body off,
  0 <= off -> off + Z.of_nat n <= len body -> copy_ids n body off = Ret (sub body off (Z.of_nat n)).
Proof.
  induction n as [|n IH]; intros body off Ho Hn; cbn [copy_ids]; [done|].
  rewrite index_byte_at by lia; unfold mbind, outcome_bind; rewrite IH by lia.
  replace (Z.of_nat (S n)) with (1 + Z.of_nat n) by lia.
  rewrite sub_split, sub_byte_at by lia; done.
Qed.

Definition hello_of (body : list byte) : HelloFrame :=
  mkHello (byte_at body 0) (byte_at body 1) (sub body 2 16) (be_rd 8 body 18) (sub body 26 32)
    (sub body 62 (be_rd 4 body 58)) (sub body (62 + be_rd 4 body 58) 1952).

Lemma DecodeHello_eq body :
  DecodeHello body = Ret (
    let n := be_rd 4 body 58 in
    if (len body <? 2014) || (2 ^ 24 <? n) || (n =? 0) || negb (len body =? 2014 + n)
       || negb (bool_decide (byte_at body 0 ∈ sub body 62 n))
    then Err ErrDecodeError else Ok (hello_of body)).
Proof.
  unfold DecodeHello, hello_of; pose proof (be_rd_range 4 body 58 ltac:(lia)).
  hs_consts; unfold MaxFrameBody; cbv zeta.
  repeat first [rewrite copy_ids_eq by lia; rewrite Z2Nat.id by lia | hs_step]; try done; try lia.
  rewrite Z.add_simpl_l; done.
Qed.

Lemma DecodeKEMInit_eq body :
  DecodeKEMInit body = Ret (
    if negb (len body =? 1216) then Err ErrDecodeError
    else Ok (mkKEMInit (sub body 0 32) (sub body 32 1184))).
Proof.
  unfold DecodeKEMInit; hs_eval.
  replace (len body - 32) with 1184 by lia; done.
Qed.

Lemma DecodeKEMReply_eq body :
  DecodeKEMReply body = Ret (
    if negb (len body =? 3072) then Err ErrDecodeError
    else Ok (mkKEMReply (sub body 0 32) (sub body 32 1088) (sub body 1120 1952))).
Proof. unfold DecodeKEMReply; hs_eval. Qed.

Lemma DecodeAuth_eq body :
  DecodeAuth body = Ret (
    if negb (len body =? 3310) || negb (valid_role (byte_at body 0)) then Err ErrDecodeError
    else Ok (mkAuth (byte_at body 0) (sub body 1 3309))).
Proof.
  unfold DecodeAuth; hs_eval. replace (len body - 1) with 3309 by lia; done.
Qed.

Lemma DecodeData_eq body :
  DecodeData body = Ret (
    if (len body <? 12) || negb (be_rd 4 body 8 =? len body - 12) then Err ErrDecodeError
    else Ok (mkData (be_rd 8 body 0) (sub body 12 (len body - 12)))).
Proof. unfold DecodeData; hs_eval. Qed.

Lemma DecodeRekey_eq body :
  DecodeRekey body = Ret (
    if negb (len body =? 1) then Err ErrDecodeError else Ok (mkRekey (byte_at body 0))).
Proof. unfold DecodeRekey; hs_eval. Qed.

Lemma DecodeAlert_eq body :
  DecodeAlert body = Ret (
    if (len body <? 5) || negb (be_rd 4 body 1 =? len body - 5) then Err ErrDecodeError
    else Ok (mkAlert (byte_at body 0) (sub body 5 (len body - 5)))).
Proof. unfold DecodeAlert; hs_eval. Qed.

Lemma DecodeHelloPSK_eq body :
  DecodeHelloPSK body = Ret (
    if negb (len body =? 74) then Err ErrDecodeError
    else Ok (mkHelloPSK (byte_at body 0) (byte_at body 1) (sub body 2 16) (be_rd 8 body 18)
               (sub body 26 16) (sub body 42 32))).
Proof. unfold DecodeHelloPSK; hs_eval. Qed.

(** ** The interface of a frame codec *)

(** What the envelope and the state machines rely on: a decoder that never
    panics, that reads every well-formed frame back, and that accepts only the
    encoding of the frame it returns. *)
Class Codec (F : Type) : Type := {
  enc : F -> result (list byte) hs_error;
  dec : list byte -> hs F;
  cwf : F -> Prop
}.
Class CodecLaws (F : Type) `{Codec F} : Prop := {
  dec_total : forall body, is_ret (dec body);
  dec_enc : forall f, cwf f -> exists body, enc f = Ok body /\ dec body = Ret (Ok f);
  enc_dec : forall body f, dec body = Ret (Ok f) -> cwf f /\ enc f = Ok body
}.

#[export] Instance HelloFrame_codec : Codec HelloFrame := {
  enc := HelloFrame_Encode;
  dec := DecodeHello;
  cwf h := len (h_ClientRandom h) = 16 /\ 0 <= h_TimestampNS h < 2 ^ 64
           /\ len (h_ClientID h) = 32 /\ len (h_StaticPKInitiator h) = 1952
           /\ 0 < len (h_OfferedSchemes h) <= MaxFrameBody
           /\ h_Suite h ∈ h_OfferedSchemes h
}.
#[export] Instance KEMInitFrame_codec : Codec KEMInitFrame := {
  enc k := Ok (KEMInitFrame_Encode k);
  dec := DecodeKEMInit;
  cwf k := len (ki_X25519EphPub k) = 32 /\ len (ki_MLKEMEphPub k) = 1184
}.
#[export] Instance KEMReplyFrame_codec : Codec KEMReplyFrame := {
  enc := KEMReplyFrame_Encode;
  dec := DecodeKEMReply;
  cwf k := len (kr_X25519EphPub k) = 32 /\ len (kr_MLKEMCiphertext k) = 1088
           /\ len (kr_StaticPKResponder k) = 1952
}.
#[export] Instance AuthFrame_codec : Codec AuthFrame := {
  enc := AuthFrame_Encode;
  dec := DecodeAuth;
  cwf a := len (a_Signature a) = 3309 /\ valid_role (a_Role a) = true
}.
#[export] Instance DataFrame_codec : Codec DataFrame := {
  enc d := Ok (DataFrame_Encode d);
  dec := DecodeData;
  cwf d := 0 <= d_NonceCounter d < 2 ^ 64 /\ len (d_Ciphertext d) < 2 ^ 32
}.
#[export] Instance RekeyFrame_codec : Codec RekeyFrame := {
  enc r := Ok (RekeyFrame_Encode r);
  dec := DecodeRekey;
  cwf r := True
}.
#[export] Instance AlertFrame_codec : Codec AlertFrame := {
  enc a := Ok (AlertFrame_Encode a);
  dec := DecodeAlert;
  cwf a := len (al_Detail a) < 2 ^ 32
}.
#[export] Instance HelloPSKFrame_codec : Codec HelloPSKFrame := {
  enc h := Ok (HelloPSKFrame_Encode h);
  dec := DecodeHelloPSK;
  cwf h := len (hp_ClientRandom h) = 16 /\ 0 <= hp_TimestampNS h < 2 ^ 64
           /\ len (hp_PSKID h) = 16 /\ len (hp_X25519EphPub h) = 32
}.

(** Take the field at a literal offset out of a concatenation of fields whose
    lengths the context knows. *)
#[local] Ltac lens :=
  repeat first [rewrite len_app | rewrite len_be_bytes by lia | rewrite len_single
               | match goal with H : len ?l = _ |- context [len ?l] => rewrite H end].
#[local] Ltac peel :=
  repeat match goal with
  | |- context [sub (?l ++ ?k) ?a ?n] =>
      first [rewrite (sub_app_hd l k n) by (lens; lia)
            |rewrite (sub_app_r l k a n) by (lens; lia); lens; repeat const_sub]
  end.
#[local] Ltac split_fields :=
  repeat first [rewrite sub_join by lia | rewrite be_bytes_be_rd by lia
               | rewrite <- sub_byte_at by lia].

Lemma be_field n d pos v :
  0 <= n -> 0 <= v < 2 ^ (8 * n) -> sub d pos n = be_bytes n v -> be_rd n d pos = v.
Proof. intros Hn Hv H; rewrite (be_rd_be_bytes n d pos v Hn H); apply Z.mod_small; done. Qed.

#[export] Instance KEMInitFrame_laws : CodecLaws KEMInitFrame.
Proof.
  split; cbn [enc dec cwf KEMInitFrame_codec]; unfold KEMInitFrame_Encode.
  - intros; rewrite DecodeKEMInit_eq; eauto with zap.
  - intros [x m] [Hx Hm]; simpl in *; eexists; split; [reflexivity|].
    rewrite DecodeKEMInit_eq; lens; simpl; peel.
    rewrite sub_all by lia; done.
  - intros body f; rewrite DecodeKEMInit_eq; case_if; intros; simplify_eq; simpl.
    rewrite !len_sub by lia; split; [done|]; rewrite sub_join, sub_all by lia; done.
Qed.

#[export] Instance KEMReplyFrame_laws : CodecLaws KEMReplyFrame.
Proof.
  split; cbn [enc dec cwf KEMReplyFrame_codec]; unfold KEMReplyFrame_Encode, MLDSA65PubLen.
  - intros; rewrite DecodeKEMReply_eq; eauto with zap.
  - intros [x m pk] (Hx & Hm & Hp); simpl in *; rewrite Hp; simpl; eexists; split; [reflexivity|].
    rewrite DecodeKEMReply_eq; lens; simpl; peel.
    rewrite sub_all by lia; done.
  - intros body f; rewrite DecodeKEMReply_eq; case_if; intros; simplify_eq; simpl.
    rewrite !len_sub by lia; simpl; split; [done|].
    rewrite !sub_join, sub_all by lia; done.
Qed.

#[export] Instance AuthFrame_laws : CodecLaws AuthFrame.
Proof.
  split; cbn [enc dec cwf AuthFrame_codec]; unfold AuthFrame_Encode, MLDSA65SigLen.
  - intros; rewrite DecodeAuth_eq; eauto with zap.
  - intros [r sig] (Hs & Hr); simpl in Hs, Hr; cbn [a_Signature a_Role]; rewrite Hs, Hr; simpl negb.
    eexists; split; [reflexivity|]; rewrite DecodeAuth_eq; lens.
    change (byte_at ([r] ++ sig) 0) with r; rewrite Hr; simpl orb; peel.
    rewrite sub_all by lia; done.
  - intros body f; rewrite DecodeAuth_eq; case_if; intros; simplify_eq; simpl.
    rewrite len_sub by lia; split; [done|]; change (3309 =? 3309) with true.
    replace (valid_role (byte_at body 0)) with true by done; simpl.
    change (byte_at body 0 :: ?l) with ([byte_at body 0] ++ l).
    rewrite <- sub_byte_at, sub_join, sub_all by lia; done.
Qed.

#[export] Instance DataFrame_laws : CodecLaws DataFrame.
Proof.
  split; cbn [enc dec cwf DataFrame_codec]; unfold DataFrame_Encode.
  - intros; rewrite DecodeData_eq; eauto with zap.
  - intros [c ct] (Hc & Hct); cbn [d_NonceCounter d_Ciphertext] in *; eexists; split; [reflexivity|].
    pose proof (len_nonneg ct); set (body := _ ++ _ ++ ct).
    assert (Hl : len body = 12 + len ct) by (unfold body; lens; lia).
    rewrite DecodeData_eq, (be_field 4 body 8 (len ct)), (be_field 8 body 0 c), Hl, if_orb; try lia.
    + do 2 guard_false; unfold body; peel; rewrite sub_all by lia; done.
    + unfold body; peel; done.
    + unfold body; peel; unfold u32; rewrite Z.mod_small by lia; done.
  - intros body f; rewrite DecodeData_eq; case_if; intros; simplify_eq; cbn [d_NonceCounter d_Ciphertext].
    pose proof (be_rd_range 4 body 8 ltac:(lia)); pose proof (be_rd_range 8 body 0 ltac:(lia)).
    rewrite len_sub by lia; split; [split; [done|lia]|f_equal].
    replace (u32 (len body - 12)) with (be_rd 4 body 8)
      by (unfold u32; rewrite Z.mod_small by lia; done).
    rewrite !be_bytes_be_rd, !sub_join, sub_all by lia; done.
Qed.

#[export] Instance RekeyFrame_laws : CodecLaws RekeyFrame.
Proof.
  split; cbn [enc dec cwf RekeyFrame_codec]; unfold RekeyFrame_Encode.
  - intros; rewrite DecodeRekey_eq; eauto with zap.
  - intros [r] _; eexists; split; reflexivity.
  - intros body f; rewrite DecodeRekey_eq; case_if; intros; simplify_eq; simpl.
    rewrite <- sub_byte_at, sub_all by lia; done.
Qed.

#[export] Instance AlertFrame_laws : CodecLaws AlertFrame.
Proof.
  split; cbn [enc dec cwf AlertFrame_codec]; unfold AlertFrame_Encode.
  - intros; rewrite DecodeAlert_eq; eauto with zap.
  - intros [c dt] Hct; cbn [al_Code al_Detail] in *; eexists; split; [reflexivity|].
    pose proof (len_nonneg dt); set (body := _ ++ _ ++ dt).
    assert (Hl : len body = 5 + len dt) by (unfold body; lens; lia).
    rewrite DecodeAlert_eq, (be_field 4 body 1 (len dt)), Hl, if_orb; try lia.
    + do 2 guard_false; unfold body; peel; rewrite sub_all by lia; done.
    + unfold body; peel; unfold u32; rewrite Z.mod_small by lia; done.
  - intros body f; rewrite DecodeAlert_eq; case_if; intros; simplify_eq; cbn [al_Code al_Detail].
    pose proof (be_rd_range 4 body 1 ltac:(lia)).
    rewrite len_sub by lia; split; [lia|f_equal].
    replace (u32 (len body - 5)) with (be_rd 4 body 1)
      by (unfold u32; rewrite Z.mod_small by lia; done).
    rewrite <- sub_byte_at, be_bytes_be_rd, !sub_join, sub_all by lia; done.
Qed.

#[export] Instance HelloPSKFrame_laws : CodecLaws HelloPSKFrame.
Proof.
  split; cbn [enc dec cwf HelloPSKFrame_codec]; unfold HelloPSKFrame_Encode.
  - intros; rewrite DecodeHelloPSK_eq; eauto with zap.
  - intros [s m r ts id x] (Hr & Hts & Hid & Hx).
    cbn [hp_Suite hp_PQMode hp_ClientRandom hp_TimestampNS hp_PSKID hp_X25519EphPub] in *.
    eexists; split; [reflexivity|]; set (body := _ ++ _ ++ _ ++ _ ++ _ ++ x).
    assert (Hl : len body = 74) by (unfold body; lens; lia).
    rewrite DecodeHelloPSK_eq, Hl, (be_field 8 body 18 ts); [|lia|lia|unfold body; peel; done].
    change (byte_at body 0) with s; change (byte_at body 1) with m; simpl negb.
    unfold body; peel; rewrite sub_all by lia; done.
  - intros body f; rewrite DecodeHelloPSK_eq; case_if; intros; simplify_eq.
    cbn [hp_Suite hp_PQMode hp_ClientRandom hp_TimestampNS hp_PSKID hp_X25519EphPub].
    pose proof (be_rd_range 8 body 18 ltac:(lia)).
    rewrite !len_sub by lia; split; [done|f_equal].
    rewrite <- !sub_byte_at, be_bytes_be_rd, !sub_join, sub_all by lia; done.
Qed.

#[export] Instance HelloFrame_laws : CodecLaws HelloFrame.
Proof.
  split; cbn [enc dec cwf HelloFrame_codec]; unfold HelloFrame_Encode, MLDSA65PubLen, MaxFrameBody.
  - intros; rewrite DecodeHello_eq; eauto with zap.
  - intros [s m r ts id os pk] (Hr & Hts & Hid & Hpk & Hos & Hin).
    cbn [h_Suite h_PQMode h_ClientRandom h_TimestampNS h_ClientID h_OfferedSchemes
         h_StaticPKInitiator] in *.
    rewrite Hpk; replace (len os =? 0) with false by lia; simpl negb; cbv iota.
    eexists; split; [reflexivity|]; set (body := _ ++ _ ++ _ ++ _ ++ _ ++ _ ++ _ ++ pk).
    assert (Hl : len body = 2014 + len os) by (unfold body; lens; lia).
    assert (Hn : be_rd 4 body 58 = len os)
      by (apply be_field; [lia|lia|unfold body; peel; unfold u32; rewrite Z.mod_small by lia; done]).
    assert (Hsch : sub body 62 (len os) = os) by (unfold body; peel; done).
    rewrite DecodeHello_eq; unfold hello_of; rewrite Hn, Hl, Hsch, !if_orb; cbv zeta.
    change (byte_at body 0) with s; rewrite bool_decide_eq_true_2 by done.
    rewrite (be_field 8 body 18 ts); [|lia|lia|unfold body; peel; done].
    do 4 guard_false; simpl negb; cbv iota; change (byte_at body 1) with m.
    assert (Hpk' : sub body (62 + len os) 1952 = pk).
    { unfold body; peel; replace (62 + len os - 1 - 1 - 16 - 8 - 32 - 4 - len os) with 0 by lia.
      apply sub_all; lia. }
    rewrite Hpk'; unfold body; peel; done.
  - intros body f; rewrite DecodeHello_eq; cbv zeta; case_if; intros; simplify_eq.
    rewrite bool_decide_eq_true in *; unfold hello_of; cbn [h_Suite h_PQMode h_ClientRandom h_TimestampNS
      h_ClientID h_OfferedSchemes h_StaticPKInitiator].
    pose proof (be_rd_range 8 body 18 ltac:(lia)); rewrite !len_sub by lia.
    split; [split_and!; try done; lia|]; replace (be_rd 4 body 58 =? 0) with false by lia.
    simpl negb; cbv iota; unfold u32; rewrite Z.mod_small by lia; f_equal.
    rewrite <- !sub_byte_at, !be_bytes_be_rd, !sub_join, sub_all by lia; done.
Qed.

(** ** The assembly buffers *)

(** Bucket [i] holds buffers of 2^(i+5) bytes. *)
Definition pools_ok (pools : list (list (list byte))) : Prop :=
  length pools = frameBufPools_len /\
  forall (i : nat) stack buf, pools !! i = Some stack -> buf ∈ stack ->
    len buf = 2 ^ (Z.of_nat i + 5).

Lemma bucket_from_spec n : forall i total,
  let b := bucket_from i n total in
  (b = -1 /\ forall j, (i <= j < i + n)%nat -> 2 ^ (Z.of_nat j + 5) < total)
  \/ (Z.of_nat i <= b < Z.of_nat i + Z.of_nat n /\ total <= 2 ^ (b + 5)).
Proof.
  induction n as [|n IH]; intros i total; cbn [bucket_from]; [left; split; [done|lia]|].
  rewrite Z.shiftl_1_l; destruct (total <=? 2 ^ (Z.of_nat i + 5)) eqn:E; bool_to_prop.
  - right; split; [lia|done].
  - destruct (IH (S i) total) as [[-> H]|[H1 H2]]; [left|right]; split; try done; [|lia].
    intros j Hj; destruct (decide (j = i)) as [->|]; [done|apply H; lia].
Qed.

(** Every frame the envelope writes has a bucket that is large enough. *)
Lemma frameBufBucket_ok total :
  total <= 2 ^ 28 -> 0 <= frameBufBucket total < 24 /\ total <= 2 ^ (frameBufBucket total + 5).
Proof.
  intros Ht; destruct (bucket_from_spec frameBufPools_len 0 total) as [[_ H]|[H1 H2]].
  - specialize (H 23%nat ltac:(unfold frameBufPools_len; lia)).
    change (2 ^ (Z.of_nat 23 + 5)) with (2 ^ 28) in H; lia.
  - unfold frameBufBucket; unfold frameBufPools_len in *; split; [lia|done].
Qed.

Lemma getFrameBuf_ok pools total :
  pools_ok pools -> 0 <= total <= 2 ^ 28 ->
  exists buf pools', getFrameBuf pools total = Ret (buf, pools') /\ pools_ok pools'
    /\ len buf = 2 ^ (frameBufBucket total + 5).
Proof.
  intros [Hl Hp] Ht; destruct (frameBufBucket_ok total ltac:(lia)) as [Hb Hf].
  unfold getFrameBuf; set (b := frameBufBucket total) in *; guard_false.
  destruct (index_ok pools b) as (stack & -> & Hs);
    [unfold len; rewrite Hl; unfold frameBufPools_len; lia|].
  simpl; destruct stack as [|buf rest].
  - eexists _, _; split; [reflexivity|]; rewrite Z.shiftl_1_l, len_zeros by lia; done.
  - eexists _, _; split; [reflexivity|]; split.
    + split; [rewrite length_insert; done|]; intros i stack' buf' Hi Hin.
      destruct (decide (i = Z.to_nat b)) as [->|Hne].
      * rewrite list_lookup_insert_eq in Hi by (apply lookup_lt_Some in Hs; done); simplify_eq.
        apply (Hp _ _ _ Hs), elem_of_cons; right; done.
      * rewrite list_lookup_insert_ne in Hi by done; eauto.
    + rewrite (Hp _ _ buf Hs) by (apply elem_of_cons; left; done); f_equal; lia.
Qed.

Lemma putFrameBuf_ok pools buf total :
  pools_ok pools -> total <= 2 ^ 28 -> len buf = 2 ^ (frameBufBucket total + 5) ->
  exists pools', putFrameBuf pools buf total = Ret pools' /\ pools_ok pools'.
Proof.
  intros [Hl Hp] Ht Hbuf; destruct (frameBufBucket_ok total Ht) as [Hb Hf].
  unfold putFrameBuf; set (b := frameBufBucket total) in *; guard_false.
  destruct (index_ok pools b) as (stack & -> & Hs);
    [unfold len; rewrite Hl; unfold frameBufPools_len; lia|].
  simpl; eexists; split; [reflexivity|]; split; [rewrite length_insert; done|].
  intros i stack' buf' Hi Hin; destruct (decide (i = Z.to_nat b)) as [->|Hne].
  - rewrite list_lookup_insert_eq in Hi by (apply lookup_lt_Some in Hs; done); simplify_eq.
    apply elem_of_cons in Hin as [->|Hin]; [rewrite Hbuf; f_equal; lia|eauto].
  - rewrite list_lookup_insert_ne in Hi by done; eauto.
Qed.

(** ** The envelope, as an equation *)

(** The bytes of a frame on the wire. *)
Definition frame_bytes (t : byte) (body : list byte) : list byte :=
  [t] ++ be_bytes 4 (len body) ++ body.

Lemma fill_frame (buf : list byte) t x body :
  len x = 4 -> len buf = 5 + len body ->
  put (put (put buf 0 [t]) 1 x) 5 body = [t] ++ x ++ body.
Proof.
  intros Hx Hb; rewrite (put_0 buf); simpl length.
  rewrite (put_skip [t] (drop 1 buf) x 1 eq_refl), put_0, app_assoc.
  rewrite (put_skip ([t] ++ x) _ body 5) by (rewrite len_app, Hx; done).
  rewrite put_0, !drop_drop, drop_ge, app_nil_r, <- app_assoc by (unfold len in *; lia); done.
Qed.

Lemma writeFrame_eq pools w t body :
  pools_ok pools -> len body <= MaxFrameBody ->
  exists pools', pools_ok pools' /\
    writeFrame pools w t body
    = Ret ((Write w (frame_bytes t body)).1, (Write w (frame_bytes t body)).2, pools').
Proof.
  intros Hp Hl; pose proof (len_nonneg body); unfold writeFrame, MaxFrameBody in *; guard_false.
  set (total := 5 + len body).
  destruct (getFrameBuf_ok pools total Hp ltac:(lia)) as (whole & p1 & -> & Hp1 & Hw); simpl.
  destruct (frameBufBucket_ok total ltac:(lia)) as [Hb Ht].
  assert (Hsub : len (sub whole 0 total) = total) by (apply len_sub; lia).
  assert (Hx : len (be_bytes 4 (u32 (len body))) = 4) by (apply len_be_bytes; lia).
  rewrite slice_ok, Z.sub_0_r by lia; unfold mbind, outcome_bind.
  rewrite !store_ok; rewrite ?len_put; rewrite ?Hx, ?Hsub, ?len_single; try lia.
  2: rewrite len_put; rewrite ?Hsub, ?len_single; lia.
  rewrite fill_frame by (rewrite ?Hsub; done).
  assert (Hu : u32 (len body) = len body) by (unfold u32; apply Z.mod_small; lia); rewrite Hu.
  fold (frame_bytes t body); destruct (Write w (frame_bytes t body)) as [err w'].
  destruct (putFrameBuf_ok p1 (put whole 0 (frame_bytes t body)) total Hp1) as (p2 & -> & Hp2);
    [lia|rewrite len_put; [done|lia|]|exists p2; done].
  unfold frame_bytes; rewrite !len_app, len_single, <- Hu, Hx; lia.
Qed.

Lemma drop_sub_rest (r : list byte) a n :
  0 <= a -> sub (drop (Z.to_nat a) r) 0 n = sub r a n.
Proof. intros; unfold sub; simpl; rewrite drop_0; done. Qed.

Lemma readFrame_eq r :
  readFrame r = Ret (
    let n := be_rd 4 r 1 in
    if len r <? 5 then (Err ErrIO, []) else
    if MaxFrameBody <? n then (Err ErrDecodeError, drop 5 r) else
    if len r <? 5 + n then (Err ErrIO, []) else
    (Ok (byte_at r 0, sub r 5 n), drop (Z.to_nat (5 + n)) r)).
Proof.
  unfold readFrame, ReadFull; destruct (len r <? 5) eqn:E; [done|]; bool_to_prop.
  pose proof (be_rd_range 4 r 1 ltac:(lia)) as Hn; set (r' := drop (Z.to_nat 5) r).
  assert (Hlr : len (sub r 0 5) = 5) by (apply len_sub; lia).
  assert (Hr' : len r' = len r - 5) by (unfold r', len in *; rewrite length_drop; lia).
  rewrite index_byte_at, slice_from_ok by lia; unfold mbind, outcome_bind; rewrite Hlr.
  change (5 - 1) with 4; rewrite sub_sub, be_uint_sub by lia; change (0 + 1) with 1.
  replace (byte_at (sub r 0 5) 0) with (byte_at r 0)
    by (unfold byte_at; rewrite lookup_sub by lia; done).
  cbv zeta; rewrite Hr'; case_if; [done|]; replace (len r - 5 <? be_rd 4 r 1) with (len r <? 5 + be_rd 4 r 1)
    by (apply eq_true_iff_eq; rewrite !Z.ltb_lt; lia).
  destruct (0 <? be_rd 4 r 1) eqn:E0; bool_to_prop.
  - case_if; [done|]; unfold r'; rewrite drop_sub_rest, drop_drop by lia; do 3 f_equal; lia.
  - replace (be_rd 4 r 1) with 0 by lia; guard_false; done.
Qed.

(** A frame and whatever follows it in the stream. *)
Lemma readFrame_frame t body rest :
  len body <= MaxFrameBody ->
  readFrame (frame_bytes t body ++ rest) = Ret (Ok (t, body), rest).
Proof.
  intros Hl; pose proof (len_nonneg body); pose proof (len_nonneg rest).
  unfold MaxFrameBody in *; rewrite readFrame_eq; set (r := frame_bytes t body ++ rest).
  assert (Hr : r = [t] ++ be_bytes 4 (len body) ++ body ++ rest)
    by (unfold r, frame_bytes; rewrite <- !app_assoc; done).
  assert (Hlen : len r = 5 + len body + len rest)
    by (rewrite Hr, !len_app, len_single, len_be_bytes by lia; lia).
  assert (Hn : be_rd 4 r 1 = len body)
    by (apply be_field; [lia|lia|rewrite Hr; peel; done]).
  cbv zeta; rewrite Hn, Hlen; unfold MaxFrameBody; do 3 guard_false.
  assert (Hb : sub r 5 (len body) = body) by (rewrite Hr; peel; done).
  rewrite Hb; replace (byte_at r 0) with t by (rewrite Hr; done); do 2 f_equal.
  unfold r; rewrite drop_app_ge by (unfold frame_bytes, len in *; rewrite !length_app;
    pose proof (len_be_bytes 4 (Z.of_nat (length body)) ltac:(lia)); unfold len in *; simpl length; lia).
  replace (_ - _)%nat with 0%nat; [done|].
  unfold frame_bytes; rewrite !length_app; pose proof (len_be_bytes 4 (len body) ltac:(lia)).
  unfold len in *; simpl length; lia.
Qed.

(** Where a frame was read, it is in the stream. *)
Lemma readFrame_inv l t body r :
  readFrame l = Ret (Ok (t, body), r) -> l = frame_bytes t body ++ r /\ len body <= MaxFrameBody.
Proof.
  rewrite readFrame_eq; cbv zeta; repeat case_if; intros; simplify_eq.
  pose proof (be_rd_range 4 l 1 ltac:(lia)); split; [|rewrite len_sub; lia].
  unfold frame_bytes; rewrite len_sub, be_bytes_be_rd, <- sub_byte_at by lia.
  rewrite <- !app_assoc, (app_assoc (sub l 1 4)), (sub_join l 1 4 5) by lia.
  rewrite app_assoc, sub_join by lia; unfold sub; simpl; rewrite drop_0.
  rewrite (Z.add_assoc 1 4), take_drop; done.
Qed.

(** ** All frames *)

Inductive frame : Type :=
| FHello (f : HelloFrame)
| FKEMInit (f : KEMInitFrame)
| FKEMReply (f : KEMReplyFrame)
| FAuth (f : AuthFrame)
| FData (f : DataFrame)
| FRekey (f : RekeyFrame)
| FAlert (f : AlertFrame)
| FHelloPSK (f : HelloPSKFrame).

Definition frame_type (f : frame) : byte :=
  match f with
  | FHello _ => FrameHello | FKEMInit _ => FrameKEMInit | FKEMReply _ => FrameKEMReply
  | FAuth _ => FrameAuth | FData _ => FrameData | FRekey _ => FrameRekey
  | FAlert _ => FrameAlert | FHelloPSK _ => FrameHelloPSK
  end.
Definition encode_frame (f : frame) : result (list byte) hs_error :=
  match f with
  | FHello f => enc f | FKEMInit f => enc f | FKEMReply f => enc f | FAuth f => enc f
  | FData f => enc f | FRekey f => enc f | FAlert f => enc f | FHelloPSK f => enc f
  end.
Definition frame_wf (f : frame) : Prop :=
  match f with
  | FHello f => cwf f | FKEMInit f => cwf f | FKEMReply f => cwf f | FAuth f => cwf f
  | FData f => cwf f | FRekey f => cwf f | FAlert f => cwf f | FHelloPSK f => cwf f
  end.

(** Decode a body by its frame type. *)
Definition as_frame {F} `{Codec F} (c : F -> frame) (body : list byte) : hs frame :=
  r ← dec body;
  Ret (match r with Ok f => Ok (c f) | Err e => Err e end).
Definition decode_frame (t : byte) (body : list byte) : hs frame :=
  match t with
  | Byte.x01 => as_frame FHello body
  | Byte.x02 => as_frame FKEMInit body
  | Byte.x03 => as_frame FKEMReply body
  | Byte.x04 => as_frame FAuth body
  | Byte.x05 => as_frame FData body
  | Byte.x06 => as_frame FRekey body
  | Byte.x07 => as_frame FAlert body
  | Byte.x08 => as_frame FHelloPSK body
  | _ => fail ErrDecodeError
  end.

Section codec_laws.
Context {F : Type} `{CodecLaws F} (c : F -> frame).

Lemma as_frame_total body : is_ret (as_frame c body).
Proof. unfold as_frame; destruct (dec_total body) as [a ->]; simpl; eauto with zap. Qed.

Lemma as_frame_enc f :
  cwf f -> exists body, enc f = Ok body /\ as_frame c body = Ret (Ok (c f)).
Proof.
  intros (body & He & Hd)%dec_enc; exists body; unfold as_frame; rewrite Hd; done.
Qed.

Lemma as_frame_inv body x :
  as_frame c body = Ret (Ok x) -> exists f, x = c f /\ cwf f /\ enc f = Ok body.
Proof.
  unfold as_frame; destruct (dec body) as [[f|e]|] eqn:E; simpl; intros; simplify_eq.
  apply enc_dec in E as [? ?]; eauto.
Qed.
End codec_laws.

Lemma decode_encode_frame f :
  frame_wf f ->
  exists body, encode_frame f = Ok body /\ decode_frame (frame_type f) body = Ret (Ok f).
Proof. destruct f; exact (as_frame_enc _ _). Qed.

(** ** Properties *)

(** No bytes from the peer make a decoder panic, and decoding is
    canonical: whatever is accepted as a frame of type [t] is well formed and
    re-encodes to exactly the bytes received, so a transcript over re-encoded
    frames is a transcript over the wire. *)
Theorem hs_decode_canonical t body :
  is_ret (decode_frame t body)
  /\ forall f, decode_frame t body = Ret (Ok f) ->
       frame_type f = t /\ frame_wf f /\ encode_frame f = Ok body.
Proof.
  split.
  - destruct t; first [exact (as_frame_total _ _) | eauto with zap].
  - intros f; destruct t; try done; cbn [decode_frame];
      intros (x & -> & Hwf & He)%as_frame_inv; split_and!; done.
Qed.

(** A frame sent is the frame received. Every well-formed frame within
    the body cap encodes; whatever the recycled assembly buffer held,
    [writeFrame] puts it on the wire in one [Write] call; and whatever follows
    in the stream, [readFrame] and the decoder give the frame back and leave
    the rest. *)
Theorem hs_frame_roundtrip f pools w :
  pools_ok pools -> broken w = false -> frame_wf f ->
  exists body, encode_frame f = Ok body /\
    (len body <= MaxFrameBody ->
     exists chunk pools', pools_ok pools'
       /\ writeFrame pools w (frame_type f) body
          = Ret (Ok tt, mkWriter (calls w ++ [chunk]) false, pools')
       /\ forall rest, readFrame (chunk ++ rest) = Ret (Ok (frame_type f, body), rest)
       /\ decode_frame (frame_type f) body = Ret (Ok f)).
Proof.
  intros Hp Hw Hf; destruct (decode_encode_frame f Hf) as (body & He & Hd).
  exists body; split; [done|]; intros Hl.
  destruct (writeFrame_eq pools w (frame_type f) body Hp Hl) as (pools' & Hp' & Heq).
  exists (frame_bytes (frame_type f) body), pools'; split; [done|].
  rewrite Heq; unfold Write; rewrite Hw; split; [done|].
  intros rest; split; [apply readFrame_frame; done|done].
Qed.

(** [readFrame] never panics, and a frame cut short is never taken for
    one: on every proper prefix of a frame it reports an I/O error. *)
Theorem hs_truncation_detected :
  (forall r, is_ret (readFrame r))
  /\ forall t body k, 0 <= k < len (frame_bytes t body) -> len body <= MaxFrameBody ->
       readFrame (sub (frame_bytes t body) 0 k) = Ret (Err ErrIO, []).
Proof.
  split; [intros; rewrite readFrame_eq; eauto with zap|].
  intros t body k Hk Hl; pose proof (len_nonneg body); unfold MaxFrameBody in *.
  assert (Hlen : len (frame_bytes t body) = 5 + len body)
    by (unfold frame_bytes; rewrite !len_app, len_single, len_be_bytes by lia; lia).
  rewrite readFrame_eq, len_sub by lia; cbv zeta.
  destruct (k <? 5) eqn:E; [done|]; bool_to_prop.
  assert (Hn : be_rd 4 (sub (frame_bytes t body) 0 k) 1 = len body).
  { apply be_field; [lia|lia|]; rewrite sub_sub by lia; unfold frame_bytes; peel; done. }
  rewrite Hn; unfold MaxFrameBody; guard_false; guard_true; done.
Qed.

(** Errors cross the wire faithfully. What [writeAlertFor] emits for an
    error, the peer's [expectFrame], whatever frame it wants, turns back into
    the same sentinel where the error has an ALERT code of its own and into
    [decode_error] where it has none; and no ALERT is ever taken for data. *)
Theorem hs_alert_faithful e text want pools rest :
  pools_ok pools -> len text + 5 <= MaxFrameBody ->
  exists chunk pools', writeAlertFor pools (mkWriter [] false) (Some e) text
                       = Ret (Some e, mkWriter [chunk] false, pools')
    /\ expectFrame (chunk ++ rest) want = Ret (Err (wire_error e), rest)
    /\ (wire_error e = e \/
        wire_error e = ErrDecodeError
        /\ e ∈ [ErrMagicMismatch; ErrSessionClosed; ErrEpochExhausted; ErrIO; ErrOther]).
Proof.
  intros Hp Hl; unfold writeAlertFor.
  set (a := mkAlert (alertForError e) text).
  assert (Hla : len (AlertFrame_Encode a) = 5 + len text)
    by (unfold AlertFrame_Encode; rewrite !len_app, len_single, len_be_bytes by lia; simpl; lia).
  destruct (writeFrame_eq pools (mkWriter [] false) FrameAlert (AlertFrame_Encode a) Hp
    ltac:(lia)) as (pools' & Hp' & ->).
  destruct (dec_enc (F := AlertFrame) a) as (body & He & Hd).
  { simpl; unfold MaxFrameBody in *; lia. }
  simpl in He, Hd; simplify_eq.
  eexists _, pools'; split; [reflexivity|split].
  - unfold expectFrame; rewrite readFrame_frame by lia; simpl; rewrite Hd; done.
  - destruct e; first [left; reflexivity | right; split; [reflexivity|]]; set_solver.
Qed.

(** ** Witnesses *)

Lemma pools_ok_empty : pools_ok (replicate 24 []).
Proof.
  split; [done|]; intros i stack buf Hi; apply lookup_replicate in Hi as [-> _].
  intros Hin; apply not_elem_of_nil in Hin; done.
Qed.

Lemma hs_decode_canonical_witness :
  encode_frame (FRekey (mkRekey Byte.x04)) = Ok [Byte.x04].
Proof.
  exact (proj2 (proj2 (proj2 (hs_decode_canonical Byte.x06 [Byte.x04]) _ eq_refl))).
Defined.

Lemma hs_frame_roundtrip_witness :
  exists chunk pools', writeFrame (replicate 24 []) (mkWriter [] false) FrameData
      (DataFrame_Encode (mkData 7 [Byte.xaa; Byte.xbb]))
    = Ret (Ok tt, mkWriter [chunk] false, pools')
    /\ readFrame (chunk ++ [Byte.x01])
       = Ret (Ok (FrameData, DataFrame_Encode (mkData 7 [Byte.xaa; Byte.xbb])), [Byte.x01]).
Proof.
  destruct (hs_frame_roundtrip (FData (mkData 7 [Byte.xaa; Byte.xbb])) (replicate 24 [])
    (mkWriter [] false) pools_ok_empty eq_refl ltac:(vm_compute; intuition discriminate))
    as (body & He & Hr).
  injection He as <-; destruct Hr as (chunk & pools' & _ & Hw & Hrest); [vm_compute; discriminate|].
  exists chunk, pools'; split; [exact Hw|exact (proj1 (Hrest [Byte.x01]))].
Defined.

Lemma hs_truncation_detected_witness :
  readFrame (sub (frame_bytes FrameRekey [Byte.x04]) 0 5) = Ret (Err ErrIO, []).
Proof.
  apply (proj2 hs_truncation_detected FrameRekey [Byte.x04] 5);
    vm_compute; intuition discriminate.
Defined.
