(* ===== verification/HsReplay.v ===== *)
(** * HsReplay: the anti-replay cache of the handshake

    Models [handshake/replay.go]: two generations of (client id, client random)
    pairs that rotate after a time-to-live, a per-generation cap that fails
    closed, and the timestamp gate. Times are nanoseconds; each operation takes
    the reading of the clock it makes. The mutex makes operations atomic, so a
    run is a sequence of them. *)

From S2P Require Import Prelude HsLabels.
From stdpp Require Import gmap sets.
Local Open Scope Z_scope.

(** ** State *)

Definition replayKey : Type := list byte * list byte.

Record ReplayCache : Type := mkReplayCache {
  active : gset replayKey;
  frozen : gset replayKey;
  frozenAt : Z;
  ttl : Z;
  maxLen : Z
}.

Definition second : Z := 1000000000.

Definition NewReplayCache (now : Z) : ReplayCache :=
  mkReplayCache ∅ ∅ now (ReplayCacheTTLSec * second) (2 ^ 20).

(** ** Operations *)

(** The generation flip [SeenOrAdd] and [Sweep] start with. *)
Definition flip (c : ReplayCache) (now : Z) : ReplayCache :=
  if ttl c <=? now - frozenAt c
  then mkReplayCache ∅ (active c) now (ttl c) (maxLen c)
  else c.

Definition SeenOrAdd (c : ReplayCache) (now : Z) (clientID clientRandom : list byte)
  : bool * ReplayCache :=
  let key := (clientID, clientRandom) in
  let c := flip c now in
  if bool_decide (key ∈ frozen c) then (true, c) else
  if bool_decide (key ∈ active c) then (true, c) else
  if maxLen c <=? Z.of_nat (size (active c)) then (true, c) else
  (false, mkReplayCache ({[ key ]} ∪ active c) (frozen c) (frozenAt c) (ttl c) (maxLen c)).

Definition Sweep (c : ReplayCache) (now : Z) : ReplayCache := flip c now.

Definition ReplayCache_Len (c : ReplayCache) : Z :=
  Z.of_nat (size (active c)) + Z.of_nat (size (frozen c)).

(** [now] is the clock's [UnixNano]; the subtraction and the negation are
    those of [int64]. *)
Definition CheckTimestamp (now timestampNS : Z) : option hs_error :=
  if now <? 0 then Some ErrReplayDetected else
  let skew := s64 (s64 timestampNS - now) in
  let skew := if skew <? 0 then s64 (- skew) else skew in
  if ReplayWindowNS <? skew then Some ErrReplayDetected else None.

(** ** Runs *)

Inductive replay_op : Type :=
| OpSeen (now : Z) (clientID clientRandom : list byte)
| OpSweep (now : Z).

Definition op_time (o : replay_op) : Z :=
  match o with OpSeen now _ _ => now | OpSweep now => now end.

Definition replay_step (c : ReplayCache) (o : replay_op) : ReplayCache :=
  match o with
  | OpSeen now id rand => (SeenOrAdd c now id rand).2
  | OpSweep now => Sweep c now
  end.

Definition replay_run (c : ReplayCache) (os : list replay_op) : ReplayCache :=
  foldl replay_step c os.

(** The clock does not go back: the operations happen at non-decreasing times
    from [t0] and none after [t1]. *)
Fixpoint in_order (t0 : Z) (os : list replay_op) (t1 : Z) : Prop :=
  match os with
  | [] => t0 <= t1
  | o :: os => t0 <= op_time o /\ in_order (op_time o) os t1
  end.

Lemma in_order_le os : forall t0 t1, in_order t0 os t1 -> t0 <= t1.
Proof.
  induction os as [|o os IH]; intros t0 t1; simpl; [done|].
  intros [? H%IH]; lia.
Qed.

(** ** What the cache remembers *)

(** [key], added at [t], is in the active generation, whose flip is still to
    come, or in the frozen one, frozen after [t]. *)
Definition remembers (key : replayKey) (t : Z) (c : ReplayCache) : Prop :=
  0 < ttl c /\
  (key ∈ active c /\ t < frozenAt c + ttl c \/ key ∈ frozen c /\ t < frozenAt c).

Lemma flip_remembers key t c now :
  remembers key t c -> t <= now <= t + ttl c -> remembers key t (flip c now).
Proof.
  unfold remembers, flip; intros [Ht H] Hnow; case_if; simpl; [|done].
  destruct H as [[Ha Hlt]|[Hf Hlt]]; [|lia].
  split; [done|]; right; split; [done|lia].
Qed.

Lemma flip_ttl c now : ttl (flip c now) = ttl c.
Proof. unfold flip; case_if; done. Qed.

Lemma step_ttl c o : ttl (replay_step c o) = ttl c.
Proof.
  destruct o as [now id rand|now]; simpl; [|apply flip_ttl].
  unfold SeenOrAdd; rewrite <- (flip_ttl c now); repeat case_if; done.
Qed.

Lemma step_remembers key t c o :
  remembers key t c -> t <= op_time o <= t + ttl c -> remembers key t (replay_step c o).
Proof.
  intros H Ho; pose proof (flip_remembers key t c (op_time o) H Ho) as Hf.
  destruct o as [now id rand|now]; simpl in *; [|done].
  unfold SeenOrAdd; repeat case_if; try done; simpl.
  destruct Hf as [? [[? ?]|?]]; split; try done; simpl; [left; split; [apply elem_of_union; right; done|done]|right; done].
Qed.

Lemma run_remembers key t os : forall c t0 t1,
  remembers key t c -> t <= t0 -> in_order t0 os t1 -> t1 <= t + ttl c ->
  remembers key t (replay_run c os) /\ ttl (replay_run c os) = ttl c.
Proof.
  induction os as [|o os IH]; intros c t0 t1 H Ht Ho Ht1; [done|].
  destruct Ho as [Hle Ho]; pose proof (in_order_le _ _ _ Ho).
  change (replay_run c (o :: os)) with (replay_run (replay_step c o) os).
  destruct (IH (replay_step c o) (op_time o) t1) as [Hr Hl]; [apply step_remembers; [done|lia]|lia|done| |].
  - rewrite step_ttl; done.
  - split; [done|rewrite Hl; apply step_ttl].
Qed.

Lemma seen_remembers c t id rand c' :
  0 < ttl c -> SeenOrAdd c t id rand = (false, c') ->
  remembers (id, rand) t c' /\ ttl c' = ttl c.
Proof.
  unfold SeenOrAdd; intros Ht; rewrite <- (flip_ttl c t) in *.
  repeat case_if; intros; simplify_eq; simpl; split; [|done]; split; [done|]; simpl.
  left; split; [apply elem_of_union; left; apply elem_of_singleton; done|]; unfold flip in *; case_if; simpl in *; lia.
Qed.

Lemma remembers_seen c t now id rand :
  remembers (id, rand) t c -> t <= now <= t + ttl c -> (SeenOrAdd c now id rand).1 = true.
Proof.
  intros H Hn; pose proof (flip_remembers _ _ _ _ H Hn) as [_ Hf]; unfold SeenOrAdd.
  destruct Hf as [[Ha _]|[Hf _]]; repeat case_if; try done; rewrite bool_decide_eq_false in *; done.
Qed.

(** ** The timestamp gate *)

Lemma s64_id z : - 2 ^ 63 <= z < 2 ^ 63 -> s64 z = z.
Proof. intros; unfold s64, swrap; rewrite Z.mod_small; lia. Qed.

Lemma s64_high z : 2 ^ 63 <= z < 2 ^ 64 -> s64 z = z - 2 ^ 64.
Proof.
  intros; unfold s64, swrap; rewrite <- (Z.mod_unique_pos _ _ 1 (z - 2 ^ 63)); lia.
Qed.

Lemma CheckTimestamp_window now ts :
  0 <= now < 2 ^ 63 -> 0 <= ts < 2 ^ 63 ->
  CheckTimestamp now ts = None <-> Z.abs (ts - now) <= ReplayWindowNS.
Proof.
  intros Hn Ht; unfold CheckTimestamp, ReplayWindowNS; guard_false.
  rewrite (s64_id ts), (s64_id (ts - now)) by lia; cbv zeta.
  destruct (ts - now <? 0) eqn:E; bool_to_prop; [rewrite s64_id by lia|];
    case_if; split; try done; lia.
Qed.

(** ** Properties *)

(** The cache remembers. Once a (client id, client random) pair was
    admitted at time [t], every lookup of it up to and including one
    time-to-live later reports it as seen, whatever lookups, insertions and
    sweeps happen in between. *)
Theorem replay_remembered c t id rand c' os now :
  0 < ttl c -> SeenOrAdd c t id rand = (false, c') ->
  in_order t os now -> now <= t + ttl c ->
  (SeenOrAdd (replay_run c' os) now id rand).1 = true.
Proof.
  intros Ht Hs Ho Hn; apply seen_remembers in Hs as [Hr Hl]; [|done].
  pose proof (in_order_le _ _ _ Ho).
  destruct (run_remembers (id, rand) t os c' t now Hr) as [Hr' Hl']; [lia|done|lia|].
  apply (remembers_seen _ t); [done|lia].
Qed.

(** No HELLO is admitted twice. A HELLO that passed the timestamp gate at
    [c1] and the cache at [s1], and passes the timestamp gate again at [c2], is
    refused by the cache at [s2], provided the second handshake takes no longer
    between its two clock readings than the first did. *)
Theorem hello_admitted_once c id rand ts c1 s1 c2 s2 c' os :
  ttl c = ReplayCacheTTLSec * second -> 0 <= c1 -> s2 < 2 ^ 63 -> 0 <= ts < 2 ^ 63 ->
  c1 <= s1 -> s1 <= c2 <= s2 -> s2 - c2 <= s1 - c1 ->
  CheckTimestamp c1 ts = None -> SeenOrAdd c s1 id rand = (false, c') ->
  in_order s1 os s2 -> CheckTimestamp c2 ts = None ->
  (SeenOrAdd (replay_run c' os) s2 id rand).1 = true.
Proof.
  intros Httl H1 H2 Hts Hcs Hcs' Hd Hg1 Hs Ho Hg2.
  apply CheckTimestamp_window in Hg1; [|lia|done]; apply CheckTimestamp_window in Hg2; [|lia|done].
  unfold ReplayCacheTTLSec, second, ReplayWindowNS in *.
  apply seen_remembers in Hs as [Hr Hl]; [|lia].
  destruct (run_remembers (id, rand) s1 os c' s1 s2 Hr) as [Hr' Hl']; [lia|done|lia|].
  apply (remembers_seen _ s1); [done|lia].
Qed.

(** The proviso is needed. The gates read the clock separately, and a
    HELLO sent 30 s early passes both gates twice when its second handshake is
    held up by 60 s between them. *)
Theorem hello_admitted_twice_when_delayed :
  exists id rand ts c1 s1 c2 s2 os,
    c1 <= s1 <= c2 /\ c2 <= s2 /\ in_order s1 os s2
    /\ CheckTimestamp c1 ts = None /\ CheckTimestamp c2 ts = None
    /\ let c := NewReplayCache s1 in
       (SeenOrAdd c s1 id rand).1 = false
       /\ (SeenOrAdd (replay_run (SeenOrAdd c s1 id rand).2 os) s2 id rand).1 = false.
Proof.
  exists [], [], (100 * second), (70 * second), (70 * second), (130 * second), (190 * second),
    [OpSweep (130 * second)].
  split_and!; try (vm_compute; intuition discriminate); vm_compute; reflexivity.
Qed.

(** The timestamp gate admits exactly the timestamps within the 30 s
    window around the clock, and one more: the timestamp 2^63 ns ahead of the
    clock, whose skew [int64] cannot negate. *)
Theorem CheckTimestamp_exact now ts :
  ReplayWindowNS <= now < 2 ^ 63 -> 0 <= ts < 2 ^ 64 ->
  CheckTimestamp now ts = None <-> Z.abs (ts - now) <= ReplayWindowNS \/ ts = now + 2 ^ 63.
Proof.
  intros Hn Ht; destruct (Z_lt_le_dec ts (2 ^ 63)) as [Hlt|Hge].
  { unfold ReplayWindowNS in *; rewrite CheckTimestamp_window by lia.
    unfold ReplayWindowNS; lia. }
  unfold CheckTimestamp, ReplayWindowNS in *; guard_false; rewrite (s64_high ts) by lia.
  set (d := ts - 2 ^ 64 - now).
  destruct (Z_lt_le_dec d (- 2 ^ 63)) as [Hd|Hd].
  - replace (s64 d) with (d + 2 ^ 64)
      by (unfold s64, swrap; rewrite <- (Z.mod_unique_pos _ _ (-1) (d + 2 ^ 64 + 2 ^ 63)); lia).
    cbv zeta; unfold d in *; guard_false; case_if; split; try done; lia.
  - rewrite (s64_id d) by lia; cbv zeta; unfold d in *.
    destruct (ts - 2 ^ 64 - now <? 0) eqn:E; bool_to_prop; [|lia].
    destruct (decide (ts = now + 2 ^ 63)) as [->|Hne].
    + replace (- _) with (2 ^ 63) by lia; change (s64 (2 ^ 63)) with (- 2 ^ 63).
      split; [auto|done].
    + rewrite s64_id by lia; case_if; split; try done; lia.
Qed.

(** ** Witnesses *)

Definition sample_cache : ReplayCache := NewReplayCache 0.

Lemma replay_remembered_witness :
  (SeenOrAdd (replay_run (SeenOrAdd sample_cache 5 [] []).2
     [OpSweep (60 * second); OpSeen (60 * second) [Byte.x01] []]) (60 * second + 5) [] []).1 = true.
Proof.
  apply (replay_remembered sample_cache 5 [] []); vm_compute; intuition discriminate.
Defined.

Lemma hello_admitted_once_witness :
  (SeenOrAdd (replay_run (SeenOrAdd sample_cache (71 * second) [] []).2 []) (131 * second) [] []).1 = true.
Proof.
  apply (hello_admitted_once sample_cache [] [] (100 * second) (70 * second) (71 * second)
    (130 * second) (131 * second)); vm_compute; intuition discriminate.
Defined.

Lemma CheckTimestamp_exact_witness :
  CheckTimestamp (100 * second) (100 * second + 2 ^ 63) = None.
Proof.
  apply (CheckTimestamp_exact (100 * second) (100 * second + 2 ^ 63)).
  - vm_compute; intuition discriminate.
  - vm_compute; intuition discriminate.
  - right; reflexivity.
Defined.
