(* ===== verification/HsPSK.v ===== *)
(** * HsPSK: single-use resumption keys

    Models [handshake/psk.go]: the responder's store of resumption keys and the
    key a client keeps. Keys are looked up by [PSKID], the truncated hash of the
    key, which is a parameter here. The mutex makes operations atomic; each
    takes the reading of the clock it makes. *)

From S2P Require Import Prelude HsLabels HsReplay.
From stdpp Require Import gmap.
Local Open Scope Z_scope.

(** ** State *)

Record pskEntry : Type := mkEntry {
  e_psk : list byte;
  e_clientID : list byte;
  e_expires : Z;
  e_redeemed : bool
}.

Record PSKStore : Type := mkPSKStore {
  entries : gmap (list byte) pskEntry;
  p_ttl : Z
}.

Definition NewPSKStore : PSKStore := mkPSKStore ∅ (PSKLifetimeSec * second).

Record ClientPSK : Type := mkClientPSK {
  c_ID : list byte;
  c_PSK : list byte;
  c_PeerID : list byte;
  c_Until : Z
}.

Section store.
Context (PSKID : list byte -> list byte).

(** ** Operations *)

Definition Issue (s : PSKStore) (now : Z) (psk clientID : list byte) : list byte * PSKStore :=
  let id := PSKID psk in
  (id, mkPSKStore (<[id := mkEntry psk clientID (now + p_ttl s) false]> (entries s)) (p_ttl s)).

(** The key and the client it was issued to; the store sets [redeemed] on the
    entry before it drops it. *)
Definition Redeem (s : PSKStore) (now : Z) (id : list byte)
  : option (list byte * list byte) * PSKStore :=
  match entries s !! id with
  | None => (None, s)
  | Some e =>
      if e_redeemed e || (e_expires e <? now)
      then (None, mkPSKStore (delete id (entries s)) (p_ttl s))
      else (Some (e_psk e, e_clientID e), mkPSKStore (delete id (entries s)) (p_ttl s))
  end.

Definition PSKStore_Sweep (s : PSKStore) (now : Z) : PSKStore :=
  mkPSKStore (filter (fun p => now <= e_expires p.2) (entries s)) (p_ttl s).

Definition PSKStore_Len (s : PSKStore) : Z := Z.of_nat (size (entries s)).

Definition MakeClientPSK (psk peerID : list byte) (now : Z) : ClientPSK :=
  mkClientPSK (PSKID psk) psk peerID (now + PSKLifetimeSec * second).

(** ** Runs *)

Inductive psk_op : Type :=
| PIssue (now : Z) (psk clientID : list byte)
| PRedeem (now : Z) (id : list byte)
| PSweep (now : Z).

Definition psk_step (s : PSKStore) (o : psk_op) : PSKStore :=
  match o with
  | PIssue now psk cid => (Issue s now psk cid).2
  | PRedeem now id => (Redeem s now id).2
  | PSweep now => PSKStore_Sweep s now
  end.
Definition psk_run (s : PSKStore) (os : list psk_op) : PSKStore := foldl psk_step s os.

(** The operation issues or redeems [id]. *)
Definition touches_id (id : list byte) (o : psk_op) : bool :=
  match o with
  | PIssue _ psk _ => bool_decide (PSKID psk = id)
  | PRedeem _ id' => bool_decide (id' = id)
  | PSweep _ => false
  end.

(** The time of the operation. *)
Definition psk_time (o : psk_op) : Z :=
  match o with PIssue now _ _ => now | PRedeem now _ => now | PSweep now => now end.

(** ** Lemmas *)

Lemma psk_run_app s os os' : psk_run s (os ++ os') = psk_run (psk_run s os) os'.
Proof. unfold psk_run; apply foldl_app. Qed.

Lemma Redeem_entries s now id : entries (Redeem s now id).2 = delete id (entries s).
Proof.
  unfold Redeem; destruct (entries s !! id) as [e|] eqn:E; [case_if; done|].
  simpl; rewrite delete_id by done; done.
Qed.

(** Whatever came of a redemption, the id is spent. *)
Lemma Redeem_spent s now id now' : (Redeem (Redeem s now id).2 now' id).1 = None.
Proof. unfold Redeem at 1; rewrite Redeem_entries, lookup_delete_eq; done. Qed.

Lemma psk_step_ttl s o : p_ttl (psk_step s o) = p_ttl s.
Proof.
  destruct o as [| now id|]; try done; simpl; unfold Redeem.
  destruct (entries s !! id); [case_if|]; done.
Qed.

Lemma psk_run_ttl os : forall s, p_ttl (psk_run s os) = p_ttl s.
Proof.
  induction os as [|o os IH]; intros s; [done|].
  change (psk_run s (o :: os)) with (psk_run (psk_step s o) os); rewrite IH; apply psk_step_ttl.
Qed.

(** An entry of the store was put there by an operation of the run, and nothing
    touched it since. *)
Lemma entry_issued os : forall s id e,
  entries s = ∅ -> entries (psk_run s os) !! id = Some e ->
  exists l k now, os = l ++ PIssue now (e_psk e) (e_clientID e) :: k
    /\ PSKID (e_psk e) = id /\ e_expires e = now + p_ttl s /\ e_redeemed e = false
    /\ forallb (fun o => negb (touches_id id o)) k = true.
Proof.
  induction os as [|o os IH] using rev_ind; intros s id e Hs; [simpl; rewrite Hs; done|].
  rewrite psk_run_app; set (s' := psk_run s os); intros He.
  assert (Hold : entries s' !! id = Some e -> touches_id id o = false ->
    exists l k now, os ++ [o] = l ++ PIssue now (e_psk e) (e_clientID e) :: k
    /\ PSKID (e_psk e) = id /\ e_expires e = now + p_ttl s /\ e_redeemed e = false
    /\ forallb (fun o => negb (touches_id id o)) k = true).
  { intros Hin Ht; destruct (IH s id e Hs Hin) as (l & k & now & -> & ? & ? & ? & Hk).
    exists l, (k ++ [o]), now; rewrite <- app_assoc, forallb_app, Hk; simpl; rewrite Ht; done. }
  destruct o as [now psk cid|now id'|now]; simpl in He.
  - destruct (decide (PSKID psk = id)) as [<-|Hne].
    + rewrite lookup_insert_eq in He; simplify_eq; simpl.
      exists os, [], now; unfold s'; rewrite psk_run_ttl; split_and!; done.
    + rewrite lookup_insert_ne in He by done; apply Hold; [done|].
      simpl; apply bool_decide_eq_false; done.
  - rewrite Redeem_entries in He; apply lookup_delete_Some in He as [Hne He].
    apply Hold; [done|]; simpl; apply bool_decide_eq_false; congruence.
  - apply map_lookup_filter_Some in He as [He _]; apply Hold; done.
Qed.

(** An entry stays while nothing touches it and it has not expired. *)
Lemma entry_stays os : forall s id e,
  entries s !! id = Some e -> forallb (fun o => negb (touches_id id o)) os = true ->
  Forall (fun o => psk_time o <= e_expires e) os ->
  entries (psk_run s os) !! id = Some e.
Proof.
  induction os as [|o os IH]; intros s id e He Ht Hx; [done|]; simpl in Ht.
  apply andb_true_iff in Ht as [Ho Ht]; apply negb_true_iff in Ho.
  apply Forall_cons_1 in Hx as [Hxo Hx].
  change (psk_run s (o :: os)) with (psk_run (psk_step s o) os); apply IH; try done.
  destruct o as [now psk cid|now id'|now]; simpl in *.
  - apply bool_decide_eq_false in Ho; rewrite lookup_insert_ne; done.
  - apply bool_decide_eq_false in Ho; rewrite Redeem_entries, lookup_delete_ne; done.
  - apply map_lookup_filter_Some; split; done.
Qed.

(** ** Properties *)

(** Resumption keys are single use and expire. From an empty store, a
    redemption that succeeds at [now] returns a key and client that were issued
    together at most one lifetime earlier under that id, and between that
    issue and this redemption no other redemption of the id was attempted. *)
Theorem psk_single_use os now id psk cid :
  (Redeem (psk_run NewPSKStore os) now id).1 = Some (psk, cid) ->
  exists l k t, os = l ++ PIssue t psk cid :: k /\ PSKID psk = id
    /\ now <= t + PSKLifetimeSec * second
    /\ forall t', PRedeem t' id ∉ k.
Proof.
  unfold Redeem; destruct (entries (psk_run NewPSKStore os) !! id) as [e|] eqn:E; [|done].
  destruct (entry_issued os NewPSKStore id e eq_refl E) as (l & k & t & -> & Hid & Hexp & Hr & Hk).
  rewrite Hr; simpl; case_if; simpl; intros; simplify_eq.
  exists l, k, t; split_and!; try done; [rewrite Hexp in *; simpl in *; lia|].
  intros t' Hin; apply forallb_forall with (x := PRedeem t' (PSKID (e_psk e))) in Hk;
    [|apply list_elem_of_In; done].
  simpl in Hk; rewrite bool_decide_eq_true_2 in Hk; done.
Qed.

(** A key issued is redeemable. As long as its id is neither issued again
    nor redeemed and the lifetime has not passed, redeeming it returns the key
    and the client it was issued to, and a second redemption fails. *)
Theorem psk_redeemable s t psk cid os now :
  forallb (fun o => negb (touches_id (PSKID psk) o)) os = true ->
  Forall (fun o => psk_time o <= t + p_ttl s) os -> now <= t + p_ttl s ->
  let '(id, s1) := Issue s t psk cid in
  let '(r, s2) := Redeem (psk_run s1 os) now id in
  r = Some (psk, cid) /\ forall now', (Redeem s2 now' id).1 = None.
Proof.
  intros Ht Hx Hn; unfold Issue; set (s1 := mkPSKStore _ _).
  assert (He : entries (psk_run s1 os) !! PSKID psk = Some (mkEntry psk cid (t + p_ttl s) false))
    by (apply entry_stays; try done; apply lookup_insert_eq).
  destruct (Redeem (psk_run s1 os) now (PSKID psk)) as [r s2] eqn:E.
  pose proof (Redeem_spent (psk_run s1 os) now (PSKID psk)) as Hs2; rewrite E in Hs2; split.
  - unfold Redeem in E; rewrite He in E; simpl in E.
    replace (t + p_ttl s <? now) with false in E by lia; simplify_eq; done.
  - exact Hs2.
Qed.
End store.

(** ** Witnesses *)

Lemma psk_single_use_witness :
  exists l k t, [PIssue 10 [Byte.x01] [Byte.x02]; PSweep 11] = l ++ PIssue t [Byte.x01] [Byte.x02] :: k
    /\ 12 <= t + PSKLifetimeSec * second.
Proof.
  destruct (psk_single_use (take 16) [PIssue 10 [Byte.x01] [Byte.x02]; PSweep 11] 12 [Byte.x01]
    [Byte.x01] [Byte.x02] ltac:(vm_compute; reflexivity)) as (l & k & t & Hos & _ & Ht & _).
  exists l, k, t; split; [exact Hos|exact Ht].
Defined.

Lemma psk_redeemable_witness :
  (Redeem (psk_run (take 16) (Issue (take 16) NewPSKStore 10 [Byte.x01] [Byte.x02]).2 [PSweep 11])
     12 [Byte.x01]).1 = Some ([Byte.x01], [Byte.x02]).
Proof.
  exact (proj1 (psk_redeemable (take 16) NewPSKStore 10 [Byte.x01] [Byte.x02] [PSweep 11] 12
    eq_refl ltac:(repeat constructor; vm_compute; discriminate) ltac:(vm_compute; discriminate))).
Defined.
