(* ===== verification/HsKdf.v ===== *)
(** * HsKdf: transcript, key derivation and identities

    Models [handshake/transcript.go], [handshake/kdf.go] and
    [handshake/identity.go]. The primitives live outside the repository or in
    cryptographic packages; they are the operations of the class [Crypto], and
    [CryptoLaws] states the documented behaviour the handshake relies on. *)

From S2P Require Import Prelude HsLabels.

(** ** Primitives *)

(** SHA3-256, HKDF over it, X25519, ML-KEM-768, ML-DSA-65 and AES-256-GCM.
    Operations that draw randomness take the entropy source and return what is
    left of it; [None] is the primitive's error. *)
Class Crypto : Type := {
  entropy : Type;
  rand_read : entropy -> Z -> option (list byte) * entropy;
  sha3_256 : list byte -> list byte;
  hkdf_extract : list byte -> list byte -> list byte;
  hkdf_expand : list byte -> list byte -> Z -> list byte;
  x_sk : Type;
  x_generate : entropy -> option x_sk * entropy;
  x_public : x_sk -> list byte;
  x_valid_public : list byte -> bool;
  x_ecdh : x_sk -> list byte -> option (list byte);
  k_pk : Type;
  k_sk : Type;
  k_generate : entropy -> option (k_pk * k_sk) * entropy;
  k_bytes : k_pk -> list byte;
  k_parse : list byte -> option k_pk;
  k_encapsulate : k_pk -> entropy -> option (list byte * list byte) * entropy;
  k_decapsulate : k_sk -> list byte -> option (list byte);
  s_pk : Type;
  s_sk : Type;
  s_public : s_sk -> s_pk;
  s_bytes : s_pk -> list byte;
  s_parse : list byte -> option s_pk;
  s_generate : entropy -> option s_sk * entropy;
  s_sign : s_sk -> entropy -> list byte -> list byte -> option (list byte) * entropy;
  s_sign_det : s_sk -> list byte -> list byte -> option (list byte);
  s_verify : s_pk -> list byte -> list byte -> list byte -> bool;
  aead_seal : list byte -> list byte -> list byte -> list byte -> list byte;
  aead_open : list byte -> list byte -> list byte -> list byte -> option (list byte)
}.

(** Correctness and sizes of the primitives. *)
Class CryptoLaws `{Crypto} : Prop := {
  sha3_len x : len (sha3_256 x) = 32;
  expand_len prk info n : 0 <= n -> len (hkdf_expand prk info n) = n;
  x_public_len sk : len (x_public sk) = 32;
  x_public_valid sk : x_valid_public (x_public sk) = true;
  x_agree a b : x_ecdh a (x_public b) = x_ecdh b (x_public a);
  x_honest a b : exists ss, x_ecdh a (x_public b) = Some ss /\ len ss = 32;
  k_bytes_len pk : len (k_bytes pk) = 1184;
  k_parse_bytes pk : k_parse (k_bytes pk) = Some pk;
  k_ct_len pk e ct ss e' : k_encapsulate pk e = (Some (ct, ss), e') -> len ct = 1088 /\ len ss = 32;
  k_correct e pk sk e' f ct ss f' :
    k_generate e = (Some (pk, sk), e') -> k_encapsulate pk f = (Some (ct, ss), f') ->
    k_decapsulate sk ct = Some ss;
  s_bytes_len pk : len (s_bytes pk) = 1952;
  s_parse_bytes pk : s_parse (s_bytes pk) = Some pk;
  s_bytes_parse b pk : s_parse b = Some pk -> s_bytes pk = b;
  s_sig_len sk e m ctx sig e' : s_sign sk e m ctx = (Some sig, e') -> len sig = 3309;
  s_correct sk e m ctx sig e' :
    s_sign sk e m ctx = (Some sig, e') -> s_verify (s_public sk) m sig ctx = true;
  aead_seal_len k n p a : len (aead_seal k n p a) = len p + 16;
  aead_correct k n p a : aead_open k n (aead_seal k n p a) a = Some p
}.

Section kdf.
Context `{Crypto}.

(** ** Transcript *)

Inductive transcriptStage : Type := stageNew | stageH0 | stageH1 | stageH2.

Record Transcript : Type := mkTranscript {
  t_state : list byte;
  t_suite : byte;
  t_stage : transcriptStage
}.

Definition NewTranscript (suite : byte) : Transcript :=
  mkTranscript (zeros 32) suite stageNew.

Definition AbsorbHello (t : Transcript) (hello : list byte) : Transcript :=
  mkTranscript (sha3_256 (LblProtocol ++ [Byte.x00] ++ [t_suite t] ++ hello)) (t_suite t) stageH0.

Definition AbsorbKEM (t : Transcript) (init reply : list byte) : Transcript :=
  mkTranscript (sha3_256 (t_state t ++ init ++ reply)) (t_suite t) stageH1.

Definition FinishFull (t : Transcript) (pkI pkR schemes : list byte) : list byte * Transcript :=
  let h := sha3_256 (t_state t ++ pkI ++ pkR ++ be_bytes 4 (u32 (len schemes)) ++ schemes) in
  (h, mkTranscript h (t_suite t) stageH2).

Definition FinishPSK (t : Transcript) (serverEphX25519Pub : list byte) : list byte * Transcript :=
  let h := sha3_256 (t_state t ++ serverEphX25519Pub) in
  (h, mkTranscript h (t_suite t) stageH2).

Definition Transcript_H0 (t : Transcript) : list byte :=
  match t_stage t with stageH0 => t_state t | _ => zeros 32 end.
Definition Transcript_H1 (t : Transcript) : list byte :=
  match t_stage t with stageH1 => t_state t | _ => zeros 32 end.
Definition Transcript_H2 (t : Transcript) : list byte :=
  match t_stage t with stageH2 => t_state t | _ => zeros 32 end.

(** The transcript hashes of the two handshakes, composed as the state machines
    compose them. *)
Definition full_h2 (suite : byte) (hello init reply pkI pkR schemes : list byte) : list byte :=
  (FinishFull (AbsorbKEM (AbsorbHello (NewTranscript suite) hello) init reply) pkI pkR schemes).1.
Definition psk_h2 (suite : byte) (hello eph : list byte) : list byte :=
  (FinishPSK (AbsorbHello (NewTranscript suite) hello) eph).1.

(** ** Key derivation *)

Record SessionKeys : Type := mkSessionKeys {
  KInitToResp : list byte;
  KRespToInit : list byte;
  SaltInitToResp : list byte;
  SaltRespToInit : list byte;
  ResumptionPSK : list byte
}.

Definition Zeroize (k : SessionKeys) : SessionKeys :=
  let z l := zeros (len l) in
  mkSessionKeys (z (KInitToResp k)) (z (KRespToInit k)) (z (SaltInitToResp k))
    (z (SaltRespToInit k)) (z (ResumptionPSK k)).

(** [expand] fills its output array. *)
Definition expand (prk info : list byte) (n : Z) : list byte := hkdf_expand prk info n.

Definition buildIKM (x25519Shared mlkemShared : list byte) : list byte :=
  [byte.of_Z (len LblX25519)] ++ LblX25519 ++ [byte.of_Z X25519SharedLen] ++ x25519Shared
  ++ [byte.of_Z (len LblMLKEM)] ++ LblMLKEM ++ [byte.of_Z MLKEM768SharedLen] ++ mlkemShared.

(** The five expansions both derivations end with. *)
Definition expand_keys (prk : list byte) : SessionKeys :=
  mkSessionKeys (expand prk LblSessionI2R AEADKeyLen) (expand prk LblSessionR2I AEADKeyLen)
    (expand prk LblSaltI2R NonceSaltLen) (expand prk LblSaltR2I NonceSaltLen)
    (expand prk LblResumption PSKKeyLen).

Definition DeriveSession (h2 x25519Shared mlkemShared : list byte) : SessionKeys :=
  expand_keys (hkdf_extract (buildIKM x25519Shared mlkemShared) h2).

(** The input key material of a resumed session. *)
Definition resumed_ikm (x25519Shared resumptionPSK : list byte) : list byte :=
  [byte.of_Z (len LblX25519)] ++ LblX25519 ++ [byte.of_Z X25519SharedLen] ++ x25519Shared
  ++ [byte.of_Z (len LblResumption)] ++ LblResumption ++ [byte.of_Z PSKKeyLen] ++ resumptionPSK.

Definition DeriveResumed (h2psk x25519Shared resumptionPSK : list byte) : SessionKeys :=
  expand_keys (hkdf_extract (resumed_ikm x25519Shared resumptionPSK) h2psk).

Definition ratchet_info (epoch : Z) (last : byte) : list byte :=
  LblRekey ++ [Byte.x00; byte.of_Z epoch; last].

Definition Ratchet (kPrev : list byte) (epoch : Z) : list byte * list byte :=
  (expand kPrev (ratchet_info epoch Byte.x00) AEADKeyLen,
   expand kPrev (ratchet_info epoch Byte.x01) NonceSaltLen).

Definition PSKID (psk : list byte) : list byte := sub (sha3_256 psk) 0 PSKIDLen.

(** ** Identities *)

Record Identity : Type := mkIdentity {
  PublicKey : option s_pk;
  PrivateKey : option s_sk
}.

(** The methods accept a nil receiver, [None] here. *)
Definition Identity_ID (id : option Identity) : list byte :=
  match id with
  | Some (mkIdentity (Some pk) _) => sha3_256 (s_bytes pk)
  | _ => zeros 32
  end.

Definition PublicBytes (id : option Identity) : list byte :=
  match id with
  | Some (mkIdentity (Some pk) _) => s_bytes pk
  | _ => []
  end.

Definition GenerateIdentityFrom (r : entropy) : result Identity hs_error * entropy :=
  let '(sk, r) := s_generate r in
  match sk with
  | None => (Err ErrOther, r)
  | Some sk => (Ok (mkIdentity (Some (s_public sk)) (Some sk)), r)
  end.

Definition IdentityFromPrivate (priv : option s_sk) : result Identity hs_error :=
  match priv with
  | None => Err ErrOther
  | Some sk => Ok (mkIdentity (Some (s_public sk)) (Some sk))
  end.

Definition IdentityFromPublicBytes (pub : list byte) : result Identity hs_error :=
  match s_parse pub with
  | None => Err ErrOther
  | Some pk => Ok (mkIdentity (Some pk) None)
  end.

Definition signInput (h2 : list byte) (role suite : byte) : list byte :=
  LblProtocol ++ [Byte.x00] ++ [suite] ++ [Byte.x00] ++ h2 ++ AuthRole_Label role.

Definition Sign (id : option Identity) (r : entropy) (h2 : list byte) (role suite : byte)
  : result (list byte) hs_error * entropy :=
  match id with
  | Some (mkIdentity _ (Some sk)) =>
      let '(sig, r) := s_sign sk r (signInput h2 role suite) SignCtx in
      match sig with
      | None => (Err ErrOther, r)
      | Some sig =>
          if negb (len sig =? MLDSA65SigLen) then (Err ErrOther, r) else (Ok sig, r)
      end
  | _ => (Err ErrOther, r)
  end.

Definition SignDeterministic (id : option Identity) (h2 : list byte) (role suite : byte)
  : result (list byte) hs_error :=
  match id with
  | Some (mkIdentity _ (Some sk)) =>
      match s_sign_det sk (signInput h2 role suite) SignCtx with
      | None => Err ErrOther
      | Some sig => if negb (len sig =? MLDSA65SigLen) then Err ErrOther else Ok sig
      end
  | _ => Err ErrOther
  end.

Definition VerifyAuth (id : option Identity) (h2 : list byte) (role suite : byte) (sig : list byte)
  : option hs_error :=
  match id with
  | Some (mkIdentity (Some pk) _) =>
      if negb (len sig =? MLDSA65SigLen) then Some ErrAuthFailed else
      if negb (s_verify pk (signInput h2 role suite) sig SignCtx) then Some ErrAuthFailed
      else None
  | _ => Some ErrAuthFailed
  end.
End kdf.

(** ** What the hashes bind *)

Section binding.
Context `{CryptoLaws}.

(** The inputs of the three hashes of a full handshake, and of the last one of a
    resumed handshake. *)
Definition hello_input (suite : byte) (hello : list byte) : list byte :=
  LblProtocol ++ [Byte.x00] ++ [suite] ++ hello.
Definition kem_input (suite : byte) (hello init reply : list byte) : list byte :=
  sha3_256 (hello_input suite hello) ++ init ++ reply.
Definition full_input (suite : byte) (hello init reply pkI pkR schemes : list byte) : list byte :=
  sha3_256 (kem_input suite hello init reply) ++ pkI ++ pkR ++ be_bytes 4 (u32 (len schemes)) ++ schemes.
Definition psk_input (suite : byte) (hello eph : list byte) : list byte :=
  sha3_256 (hello_input suite hello) ++ eph.

(** What [buildIKM] and [resumed_ikm] share, taken apart. *)
Lemma ikm_split (x x' : list byte) (l l' : list byte) :
  len x = 32 -> len x' = 32 ->
  [byte.of_Z (len LblX25519)] ++ LblX25519 ++ [byte.of_Z X25519SharedLen] ++ x ++ l
  = [byte.of_Z (len LblX25519)] ++ LblX25519 ++ [byte.of_Z X25519SharedLen] ++ x' ++ l' ->
  x = x' /\ l = l'.
Proof.
  intros Hx Hx' He; do 3 apply app_inv_head in He; apply app_eq_len in He; [done|congruence].
Qed.

(** ** Properties *)

(** The transcript binds the handshake. If the transcript hashes of two
    full handshakes agree, then suite, HELLO, both KEM frames, both static keys
    and the offered schemes agree, or the inputs of one of the three hashes are a
    SHA3-256 collision. If a full and a resumed transcript hash agree, their last
    inputs are one. *)
Theorem transcript_binds suite hello init reply pkI pkR schemes
  suite' hello' init' reply' pkI' pkR' schemes' eph :
  len init = 1216 -> len init' = 1216 -> len pkI = 1952 -> len pkI' = 1952 ->
  len pkR = 1952 -> len pkR' = 1952 -> len eph = 32 ->
  (full_h2 suite hello init reply pkI pkR schemes
   = full_h2 suite' hello' init' reply' pkI' pkR' schemes' ->
   (suite = suite' /\ hello = hello' /\ init = init' /\ reply = reply' /\ pkI = pkI'
    /\ pkR = pkR' /\ schemes = schemes')
   \/ collides sha3_256 (hello_input suite hello) (hello_input suite' hello')
   \/ collides sha3_256 (kem_input suite hello init reply) (kem_input suite' hello' init' reply')
   \/ collides sha3_256 (full_input suite hello init reply pkI pkR schemes)
       (full_input suite' hello' init' reply' pkI' pkR' schemes'))
  /\ (full_h2 suite hello init reply pkI pkR schemes = psk_h2 suite' hello' eph ->
      collides sha3_256 (full_input suite hello init reply pkI pkR schemes) (psk_input suite' hello' eph)).
Proof.
  intros Hi Hi' HpI HpI' HpR HpR' He; split.
  - intros Hh; apply (hash_eq sha3_256 (full_input suite hello init reply pkI pkR schemes)
      (full_input suite' hello' init' reply' pkI' pkR' schemes')) in Hh as [Heq|?]; [|auto].
    apply app_eq_len in Heq as [Hs1 Heq]; [|rewrite !sha3_len; done].
    apply app_eq_len in Heq as [-> Heq]; [|congruence].
    apply app_eq_len in Heq as [-> Heq]; [|congruence].
    apply app_eq_len in Heq as [_ ->]; [|rewrite !len_be_bytes by lia; done].
    apply hash_eq in Hs1 as [Hs1|?]; [|auto].
    apply app_eq_len in Hs1 as [Hs0 Hs1]; [|rewrite !sha3_len; done].
    apply app_eq_len in Hs1 as [-> ->]; [|congruence].
    apply hash_eq in Hs0 as [Hs0|?]; [left|auto].
    apply app_inv_head in Hs0; simplify_eq; done.
  - intros Heq; split; [|exact Heq]; intros Hl; apply (f_equal len) in Hl.
    unfold full_input, psk_input in Hl; rewrite !len_app, !sha3_len, HpI, HpR, He in Hl.
    pose proof (len_nonneg schemes); rewrite len_be_bytes in Hl; lia.
Qed.

(** The inputs of the key schedule are separated: secrets of a full
    handshake and of a resumption never give the same input key material, equal
    material comes from equal secrets, the five labels expanded from one key
    differ, and so do the ratchet's key and salt inputs, from each other and
    from epoch to epoch. *)
Theorem kdf_inputs_separated :
  (forall x m x' m', len x = 32 -> len x' = 32 ->
     buildIKM x m = buildIKM x' m' -> x = x' /\ m = m')
  /\ (forall x p x' p', len x = 32 -> len x' = 32 ->
        resumed_ikm x p = resumed_ikm x' p' -> x = x' /\ p = p')
  /\ (forall x m x' p, len x = 32 -> len x' = 32 -> buildIKM x m <> resumed_ikm x' p)
  /\ NoDup [LblSessionI2R; LblSessionR2I; LblSaltI2R; LblSaltR2I; LblResumption]
  /\ forall e e' l l', 0 <= e < 256 -> 0 <= e' < 256 ->
       ratchet_info e l = ratchet_info e' l' -> e = e' /\ l = l'.
Proof.
  split_and!.
  - unfold buildIKM; intros x m x' m' Hx Hx' [-> He]%ikm_split; try done.
    do 3 apply app_inv_head in He; done.
  - unfold resumed_ikm; intros x m x' m' Hx Hx' [-> He]%ikm_split; try done.
    do 3 apply app_inv_head in He; done.
  - unfold buildIKM, resumed_ikm; intros x m x' m' Hx Hx' [_ He]%ikm_split; done.
  - apply (bool_decide_unpack (NoDup _)); vm_compute; done.
  - unfold ratchet_info; intros e e' l l' He He' Heq; apply app_inv_head in Heq.
    injection Heq as Hb ->; split; [|done].
    apply (f_equal byte.unsigned) in Hb; rewrite !byte.unsigned_of_Z in Hb.
    unfold byte.wrap in Hb; rewrite !Z.mod_small in Hb; done.
Qed.

(** An AUTH signature is good for one transcript, one role and one suite:
    equal signing inputs have equal hash, role and suite, so neither side's
    signature can be reflected as the other's. *)
Theorem sign_input_injective h2 h2' role role' suite suite' :
  len h2 = 32 -> len h2' = 32 ->
  role ∈ [RoleInitiator; RoleResponder] -> role' ∈ [RoleInitiator; RoleResponder] ->
  signInput h2 role suite = signInput h2' role' suite' ->
  h2 = h2' /\ role = role' /\ suite = suite'.
Proof.
  unfold signInput; intros Hh Hh' Hr Hr' He; apply app_inv_head in He.
  injection He as -> He; apply app_eq_len in He as [-> He]; [|congruence].
  split_and!; try done; rewrite !elem_of_cons, elem_of_nil in Hr, Hr'.
  destruct Hr as [->|[->|[]]], Hr' as [->|[->|[]]]; done.
Qed.
End binding.

(** ** A concrete instance of the primitives

    Not secure, but it satisfies [CryptoLaws]: keys are single bytes, public
    keys and ciphertexts repeat them, a signature is the key and the message, a
    tag is the key. *)

Definition unrep (n : nat) (l : list byte) : option byte :=
  match l with
  | b :: _ => if decide (l = rep n b) then Some b else None
  | [] => None
  end.

Lemma unrep_rep n b : unrep (S n) (rep (S n) b) = Some b.
Proof. unfold unrep, rep; simpl; rewrite decide_True; done. Qed.

Lemma rep_unrep n l b : unrep n l = Some b -> rep n b = l.
Proof. unfold unrep; destruct l as [|c l]; [done|]; case_decide; intros; simplify_eq; done. Qed.

Definition toy_crypto : Crypto := {|
  entropy := unit;
  rand_read e n := (Some (zeros n), e);
  sha3_256 := to_array 32;
  hkdf_extract ikm salt := salt ++ ikm;
  hkdf_expand prk info n := to_array n (rev info ++ prk);
  x_sk := byte;
  x_generate e := (Some Byte.x05, e);
  x_public := rep 32;
  x_valid_public l := len l =? 32;
  x_ecdh a pk := b ← head pk; Some (rep 32 (byte.of_Z (byte.unsigned a + byte.unsigned b)));
  k_pk := byte;
  k_sk := byte;
  k_generate e := (Some (Byte.x03, Byte.x03), e);
  k_bytes := rep 1184;
  k_parse := unrep 1184;
  k_encapsulate pk e := (Some (rep 1088 pk, rep 32 pk), e);
  k_decapsulate sk ct := Some (rep 32 sk);
  s_pk := byte;
  s_sk := byte;
  s_public b := b;
  s_bytes := rep 1952;
  s_parse := unrep 1952;
  s_generate e := (Some Byte.x07, e);
  s_sign sk e m ctx := (Some (to_array 3309 (sk :: m)), e);
  s_sign_det sk m ctx := Some (to_array 3309 (sk :: m));
  s_verify pk m sig ctx := bool_decide (sig = to_array 3309 (pk :: m));
  aead_seal k n p a := p ++ to_array 16 k;
  aead_open k n ct a :=
    if bool_decide (sub ct (len ct - 16) 16 = to_array 16 k)
    then Some (sub ct 0 (len ct - 16)) else None
|}.

Lemma toy_laws : @CryptoLaws toy_crypto.
Proof.
  split; cbn -[to_array rep unrep Z.of_nat byte.of_Z byte.unsigned sub zeros]; intros.
  - apply len_to_array; lia.
  - apply len_to_array; done.
  - apply len_rep.
  - rewrite len_rep; done.
  - change (head (rep 32 ?b)) with (Some b); simpl; rewrite Z.add_comm; done.
  - change (head (rep 32 b)) with (Some b); eexists; split; [reflexivity|apply len_rep].
  - apply len_rep.
  - apply unrep_rep.
  - simplify_eq; rewrite !len_rep; done.
  - simplify_eq; done.
  - apply len_rep.
  - apply unrep_rep.
  - apply rep_unrep; done.
  - simplify_eq; apply len_to_array; lia.
  - simplify_eq; apply bool_decide_eq_true_2; done.
  - rewrite len_app, len_to_array by lia; done.
  - assert (Ht : len (to_array 16 k) = 16) by (apply len_to_array; lia).
    rewrite len_app, Ht, Z.add_simpl_r; pose proof (len_nonneg p).
    rewrite sub_app_r, Z.sub_diag by lia; rewrite (sub_all (to_array 16 k)) by lia.
    rewrite bool_decide_eq_true_2 by done; rewrite sub_app_hd; done.
Qed.

(** ** Witnesses *)

Lemma transcript_binds_witness :
  let z n := rep n Byte.x00 in
  @full_h2 toy_crypto Byte.x01 [] (z 1216%nat) [] (z 1952%nat) (z 1952%nat) [Byte.x01]
  = @psk_h2 toy_crypto Byte.x01 [] (z 32%nat)
  /\ @full_input toy_crypto Byte.x01 [] (z 1216%nat) [] (z 1952%nat) (z 1952%nat) [Byte.x01]
     <> @psk_input toy_crypto Byte.x01 [] (z 32%nat).
Proof.
  intros z.
  assert (He : @full_h2 toy_crypto Byte.x01 [] (z 1216%nat) [] (z 1952%nat) (z 1952%nat) [Byte.x01]
               = @psk_h2 toy_crypto Byte.x01 [] (z 32%nat)) by (vm_compute; reflexivity).
  split; [exact He|].
  refine (proj1 (proj2 (@transcript_binds toy_crypto toy_laws Byte.x01 [] (z 1216%nat) [] (z 1952%nat)
    (z 1952%nat) [Byte.x01] Byte.x01 [] (z 1216%nat) [] (z 1952%nat) (z 1952%nat) [Byte.x01]
    (z 32%nat) _ _ _ _ _ _ _) He)); apply len_rep.
Defined.

Lemma kdf_inputs_separated_witness :
  buildIKM (rep 32 Byte.x01) [] <> resumed_ikm (rep 32 Byte.x01) [].
Proof.
  apply (proj1 (proj2 (proj2 kdf_inputs_separated))); apply len_rep.
Defined.
