(* ===== verification/HsSession.v ===== *)
(** * HsSession: the encrypted stream after the handshake

    Models [handshake/session.go]: [Send] with automatic rekeying, [Recv] with
    its loop over REKEY frames, explicit [Rekey] and [Close]. The mutexes make
    each direction's operations atomic. The connection is the bytes still to
    come, the writer and the pool of assembly buffers; the clock reading of an
    operation is an argument, and so is the text an error renders to. *)

From S2P Require Import Prelude HsLabels HsFrames HsReplay HsPSK HsKdf.
Local Open Scope Z_scope.

Record Conn : Type := mkConn {
  rx : list byte;
  tx : Writer;
  bufs : list (list (list byte))
}.

Record Session : Type := mkSession {
  role : byte;
  peerID : list byte;
  suite : byte;
  sendKey : list byte;
  sendSalt : list byte;
  sendCounter : Z;
  sendEpoch : Z;
  sendBytes : Z;
  sendBase : Z;
  sendBytesCap : Z;
  sendFrameCap : Z;
  sendTimeCap : Z;
  sendDir : byte;
  sendAEAD : option (list byte);
  recvKey : list byte;
  recvSalt : list byte;
  recvCounter : Z;
  recvHave : bool;
  recvEpoch : Z;
  recvDir : byte;
  recvAEAD : option (list byte);
  closed : bool;
  clientPSK : option ClientPSK
}.

(** The assignments of the methods to one direction's fields. *)
Definition set_send (s : Session) (key salt : list byte) (counter epoch bytes base : Z)
  (aead : option (list byte)) : Session :=
  mkSession (role s) (peerID s) (suite s) key salt counter epoch bytes base
    (sendBytesCap s) (sendFrameCap s) (sendTimeCap s) (sendDir s) aead
    (recvKey s) (recvSalt s) (recvCounter s) (recvHave s) (recvEpoch s) (recvDir s) (recvAEAD s)
    (closed s) (clientPSK s).
Definition set_recv (s : Session) (key salt : list byte) (counter : Z) (have : bool) (epoch : Z)
  (aead : option (list byte)) : Session :=
  mkSession (role s) (peerID s) (suite s) (sendKey s) (sendSalt s) (sendCounter s) (sendEpoch s)
    (sendBytes s) (sendBase s) (sendBytesCap s) (sendFrameCap s) (sendTimeCap s) (sendDir s)
    (sendAEAD s) key salt counter have epoch (recvDir s) aead (closed s) (clientPSK s).
Definition set_closed (s : Session) : Session :=
  mkSession (role s) (peerID s) (suite s) (sendKey s) (sendSalt s) (sendCounter s) (sendEpoch s)
    (sendBytes s) (sendBase s) (sendBytesCap s) (sendFrameCap s) (sendTimeCap s) (sendDir s)
    (sendAEAD s) (recvKey s) (recvSalt s) (recvCounter s) (recvHave s) (recvEpoch s) (recvDir s)
    (recvAEAD s) true (clientPSK s).

Section session.
Context {C : Crypto}.
(** [err.Error()] *)
Context (text : hs_error -> list byte).

(** ** Helpers *)

(** The AEAD is its key; [aes.NewCipher] accepts 32 bytes. *)
Definition newAEAD (key : list byte) : result (list byte) hs_error :=
  if len key =? AEADKeyLen then Ok key else Err ErrOther.

Definition buildNonce (salt : list byte) (counter : Z) : list byte := salt ++ be_bytes 8 counter.

Definition buildAAD (t : byte) (length : Z) (dir : byte) (epoch : Z) : list byte :=
  [t] ++ be_bytes 4 length ++ [dir] ++ [byte.of_Z epoch].

Definition zeroBytes (b : list byte) : list byte := zeros (len b).

Definition conn_write (c : Conn) (t : byte) (body : list byte)
  : outcome (result unit hs_error * Conn) :=
  r ← writeFrame (bufs c) (tx c) t body;
  Ret (r.1.1, mkConn (rx c) r.1.2 r.2).

Definition conn_alert (c : Conn) (e : hs_error) : outcome Conn :=
  r ← writeAlertFor (bufs c) (tx c) (Some e) (text e);
  Ret (mkConn (rx c) r.1.2 r.2).

(** ** Construction *)

Definition newSession (r : byte) (peer : list byte) (su : byte) (keys : SessionKeys) (now : Z)
  : result Session hs_error :=
  let fresh sk ss sd rk rs rd aS aR psk :=
    mkSession r peer su sk ss 0 0 0 now RekeyBytesCap RekeyFrameCap (RekeyTimeSec * second)
      sd aS rk rs 0 false 0 rd aR false psk in
  let build sk ss sd rk rs rd psk :=
    match newAEAD sk with
    | Err e => Err e
    | Ok aS => match newAEAD rk with
               | Err e => Err e
               | Ok aR => Ok (fresh sk ss sd rk rs rd (Some aS) (Some aR) psk)
               end
    end in
  if bool_decide (r = RoleInitiator) then
    build (KInitToResp keys) (SaltInitToResp keys) RoleInitiator
      (KRespToInit keys) (SaltRespToInit keys) RoleResponder
      (Some (MakeClientPSK PSKID (ResumptionPSK keys) peer now))
  else if bool_decide (r = RoleResponder) then
    build (KRespToInit keys) (SaltRespToInit keys) RoleResponder
      (KInitToResp keys) (SaltInitToResp keys) RoleInitiator None
  else Err ErrOther.

(** ** Sending *)

Definition needsRekeyLocked (s : Session) (now addBytes : Z) : bool :=
  (sendFrameCap s <=? u64 (sendCounter s + 1))
  || (sendBytesCap s <=? u64 (sendBytes s + addBytes))
  || (sendTimeCap s <=? now - sendBase s).

Definition rekeyLocalLocked (s : Session) (c : Conn) (now : Z)
  : outcome (result unit hs_error * Session * Conn) :=
  if sendEpoch s =? 255 then Ret (Err ErrEpochExhausted, s, c) else
  w ← conn_write c FrameRekey (RekeyFrame_Encode (mkRekey RekeyReasonExplicit));
  match w with
  | (Err e, c) => Ret (Err e, s, c)
  | (Ok _, c) =>
      let '(newKey, newSalt) := Ratchet (sendKey s) (sendEpoch s) in
      let epoch := u8 (sendEpoch s + 1) in
      match newAEAD newKey with
      | Err e => Ret (Err e, set_send s newKey newSalt 0 epoch 0 now (sendAEAD s), c)
      | Ok a => Ret (Ok tt, set_send s newKey newSalt 0 epoch 0 now (Some a), c)
      end
  end.

(** [Send] up to the point where the payload is sealed: the closed check and the
    automatic rekey. *)
Definition Send_prepare (s : Session) (c : Conn) (now : Z) (payload : list byte)
  : outcome (result unit hs_error * Session * Conn) :=
  if closed s then Ret (Err ErrSessionClosed, s, c) else
  if needsRekeyLocked s now (u64 (len payload)) then rekeyLocalLocked s c now
  else Ret (Ok tt, s, c).

(** [Send] from there on. *)
Definition Send_seal (s : Session) (c : Conn) (payload : list byte)
  : outcome (result unit hs_error * Session * Conn) :=
  let ctLen := u32 (len payload + AEADTagLen) in
  let outerLen := u32 (NonceCtrLen + 4 + ctLen) in
  if MaxFrameBody <? outerLen then Ret (Err ErrDecodeError, s, c) else
  let nonce := buildNonce (sendSalt s) (sendCounter s) in
  let aad := buildAAD FrameData outerLen (sendDir s) (sendEpoch s) in
  key ← deref (sendAEAD s);
  let ct := aead_seal key nonce payload aad in
  if negb (len ct =? ctLen) then Ret (Err ErrOther, s, c) else
  w ← conn_write c FrameData (DataFrame_Encode (mkData (sendCounter s) ct));
  match w with
  | (Err e, c) => Ret (Err e, s, c)
  | (Ok _, c) =>
      Ret (Ok tt, set_send s (sendKey s) (sendSalt s) (u64 (sendCounter s + 1)) (sendEpoch s)
                    (u64 (sendBytes s + u64 (len payload))) (sendBase s) (sendAEAD s), c)
  end.

Definition Send (s : Session) (c : Conn) (now : Z) (payload : list byte)
  : outcome (result unit hs_error * Session * Conn) :=
  p ← Send_prepare s c now payload;
  match p with
  | (Err e, s, c) => Ret (Err e, s, c)
  | (Ok _, s, c) => Send_seal s c payload
  end.

Definition Rekey (s : Session) (c : Conn) (now : Z)
  : outcome (result unit hs_error * Session * Conn) :=
  if closed s then Ret (Err ErrSessionClosed, s, c) else rekeyLocalLocked s c now.

(** ** Receiving *)

Definition rekeyRemoteLocked (s : Session) : result unit hs_error * Session :=
  if recvEpoch s =? 255 then (Err ErrEpochExhausted, s) else
  let '(newKey, newSalt) := Ratchet (recvKey s) (recvEpoch s) in
  let epoch := u8 (recvEpoch s + 1) in
  match newAEAD newKey with
  | Err e => (Err e, set_recv s newKey newSalt 0 false epoch (recvAEAD s))
  | Ok a => (Ok tt, set_recv s newKey newSalt 0 false epoch (Some a))
  end.

Definition handleDataLocked (s : Session) (c : Conn) (body : list byte)
  : outcome (result (list byte) hs_error * Session * Conn) :=
  let refuse e := c ← conn_alert c e; Ret (Err e, s, c) in
  d ← DecodeData body;
  match d with
  | Err e => refuse e
  | Ok d =>
      if recvHave s && (d_NonceCounter d <=? recvCounter s) then refuse ErrNonceViolation else
      if RekeyFrameCap <=? d_NonceCounter d then refuse ErrNonceViolation else
      let outerLen := u32 (NonceCtrLen + 4 + len (d_Ciphertext d)) in
      let aad := buildAAD FrameData outerLen (recvDir s) (recvEpoch s) in
      let nonce := buildNonce (recvSalt s) (d_NonceCounter d) in
      key ← deref (recvAEAD s);
      match aead_open key nonce (d_Ciphertext d) aad with
      | None => refuse ErrAuthFailed
      | Some plain =>
          Ret (Ok plain, set_recv s (recvKey s) (recvSalt s) (d_NonceCounter d) true (recvEpoch s)
                           (recvAEAD s), c)
      end
  end.

(** The loop over frames; [fuel] bounds the REKEY frames absorbed. *)
Fixpoint Recv_loop (fuel : nat) (s : Session) (c : Conn)
  : outcome (result (list byte) hs_error * Session * Conn) :=
  match fuel with
  | O => Panic
  | S fuel =>
      let refuse s c e := c ← conn_alert c e; Ret (Err e, s, c) in
      f ← readFrame (rx c);
      match f with
      | (Err e, r) => Ret (Err e, s, mkConn r (tx c) (bufs c))
      | (Ok (t, body), r) =>
          let c := mkConn r (tx c) (bufs c) in
          if bool_decide (t = FrameData) then handleDataLocked s c body else
          if bool_decide (t = FrameRekey) then
            rk ← DecodeRekey body;
            match rk with
            | Err e => refuse s c e
            | Ok _ =>
                match rekeyRemoteLocked s with
                | (Err e, s) => refuse s c e
                | (Ok _, s) => Recv_loop fuel s c
                end
            end
          else if bool_decide (t = FrameAlert) then
            a ← DecodeAlert body;
            match a with
            | Err e => Ret (Err e, s, c)
            | Ok a => Ret (Err (errorForAlert (al_Code a)), s, c)
            end
          else refuse s c ErrDecodeError
      end
  end.

(** Every frame takes five bytes or more off the stream. *)
Definition Recv (s : Session) (c : Conn)
  : outcome (result (list byte) hs_error * Session * Conn) :=
  if closed s then Ret (Err ErrSessionClosed, s, c)
  else Recv_loop (S (length (rx c))) s c.

(** ** Closing *)

(** The underlying connection is closed: later writes and reads fail. *)
Definition close_conn (c : Conn) : Conn := mkConn [] (mkWriter (calls (tx c)) true) (bufs c).

Definition Close (s : Session) (c : Conn) : Session * Conn :=
  if closed s then (s, c) else
  let s := set_closed s in
  let s := set_send s (zeroBytes (sendKey s)) (zeroBytes (sendSalt s)) (sendCounter s)
             (sendEpoch s) (sendBytes s) (sendBase s) None in
  let s := set_recv s (zeroBytes (recvKey s)) (zeroBytes (recvSalt s)) (recvCounter s)
             (recvHave s) (recvEpoch s) None in
  (s, close_conn c).
End session.

(** ** The connection *)

Definition conn_ok (c : Conn) : Prop := pools_ok (bufs c).

(** A write on a healthy connection appends one chunk and changes nothing else. *)
Definition wrote (c : Conn) (chunk : list byte) (c' : Conn) : Prop :=
  conn_ok c' /\ rx c' = rx c /\ tx c' = mkWriter (calls (tx c) ++ [chunk]) false.

Lemma conn_write_healthy c t body :
  conn_ok c -> broken (tx c) = false -> len body <= MaxFrameBody ->
  exists c', conn_write c t body = Ret (Ok tt, c') /\ wrote c (frame_bytes t body) c'.
Proof.
  intros Hc Hb Hl; destruct (writeFrame_eq (bufs c) (tx c) t body Hc Hl) as (p & Hp & Heq).
  unfold conn_write; rewrite Heq; unfold Write; rewrite Hb; eexists; split; [reflexivity|].
  split_and!; done.
Qed.

Lemma conn_write_broken c t body :
  conn_ok c -> broken (tx c) = true -> len body <= MaxFrameBody ->
  exists c', conn_write c t body = Ret (Err ErrIO, c') /\ conn_ok c' /\ rx c' = rx c /\ tx c' = tx c.
Proof.
  intros Hc Hb Hl; destruct (writeFrame_eq (bufs c) (tx c) t body Hc Hl) as (p & Hp & Heq).
  unfold conn_write; rewrite Heq; unfold Write; rewrite Hb; eexists; split; [reflexivity|done].
Qed.

Lemma conn_alert_ok text c e :
  conn_ok c -> exists c', conn_alert text c e = Ret c' /\ conn_ok c' /\ rx c' = rx c.
Proof.
  intros Hc; unfold conn_alert, writeAlertFor; set (body := AlertFrame_Encode _).
  destruct (Z_le_gt_dec (len body) MaxFrameBody) as [Hl|Hl].
  - destruct (writeFrame_eq (bufs c) (tx c) FrameAlert body Hc Hl) as (p & Hp & ->).
    eexists; split; [reflexivity|done].
  - unfold writeFrame; guard_true; eexists; split; [reflexivity|done].
Qed.

(** ** Sessions in use *)

Section proofs.
Context {C : Crypto} {CL : CryptoLaws}.
Context (text : hs_error -> list byte).

(** An open session: keys of the right sizes, the AEADs built from them, the
    caps as [newSession] sets them, the counter below its cap. *)
Definition session_ok (s : Session) : Prop :=
  closed s = false
  /\ len (sendKey s) = 32 /\ len (sendSalt s) = 4 /\ sendAEAD s = Some (sendKey s)
  /\ len (recvKey s) = 32 /\ len (recvSalt s) = 4 /\ recvAEAD s = Some (recvKey s)
  /\ 0 <= sendCounter s < RekeyFrameCap /\ 0 <= sendEpoch s <= 255 /\ 0 <= recvEpoch s <= 255
  /\ 0 <= sendBytes s < RekeyBytesCap
  /\ sendFrameCap s = RekeyFrameCap /\ sendBytesCap s = RekeyBytesCap.

Definition ratcheted (s : Session) (now : Z) : Session :=
  let k := Ratchet (sendKey s) (sendEpoch s) in
  set_send s k.1 k.2 0 (sendEpoch s + 1) 0 now (Some k.1).
Definition rratcheted (s : Session) : Session :=
  let k := Ratchet (recvKey s) (recvEpoch s) in
  set_recv s k.1 k.2 0 false (recvEpoch s + 1) (Some k.1).
Definition advanced (s : Session) (payload : list byte) : Session :=
  set_send s (sendKey s) (sendSalt s) (sendCounter s + 1) (sendEpoch s)
    (sendBytes s + len payload) (sendBase s) (sendAEAD s).

Lemma Ratchet_len k e : len (Ratchet k e).1 = 32 /\ len (Ratchet k e).2 = 4.
Proof. split; apply expand_len; unfold AEADKeyLen, NonceSaltLen; lia. Qed.

Lemma newAEAD_ok k : len k = 32 -> newAEAD k = Ok k.
Proof. intros Hk; unfold newAEAD; rewrite Hk; done. Qed.

Lemma ratcheted_ok s now : session_ok s -> sendEpoch s < 255 -> session_ok (ratcheted s now).
Proof.
  unfold session_ok, RekeyFrameCap, RekeyBytesCap; intros; destruct (Ratchet_len (sendKey s) (sendEpoch s)).
  cbn -[Ratchet len]; intuition (done || lia).
Qed.

Definition rekey_frame : list byte := frame_bytes FrameRekey [RekeyReasonExplicit].

Lemma rekeyLocal_ok s c now :
  session_ok s -> conn_ok c -> broken (tx c) = false -> sendEpoch s < 255 ->
  exists c', rekeyLocalLocked s c now = Ret (Ok tt, ratcheted s now, c') /\ wrote c rekey_frame c'.
Proof.
  intros (_ & _ & _ & _ & _ & _ & _ & _ & He & _) Hc Hb He'; unfold rekeyLocalLocked; guard_false.
  destruct (conn_write_healthy c FrameRekey [RekeyReasonExplicit] Hc Hb ltac:(vm_compute; done))
    as (c' & Hw & Hwr).
  change (RekeyFrame_Encode (mkRekey RekeyReasonExplicit)) with [RekeyReasonExplicit].
  rewrite Hw; unfold mbind, outcome_bind.
  destruct (Ratchet_len (sendKey s) (sendEpoch s)) as [Hk Hs].
  destruct (Ratchet (sendKey s) (sendEpoch s)) as [nk ns] eqn:E; simpl in Hk, Hs.
  rewrite newAEAD_ok by done; exists c'; split; [|done].
  unfold ratcheted; rewrite E; simpl; unfold u8; rewrite Z.mod_small by lia; done.
Qed.

(** The DATA frame [Send] emits for a payload. *)
Definition data_ct (s : Session) (payload : list byte) : list byte :=
  aead_seal (sendKey s) (buildNonce (sendSalt s) (sendCounter s)) payload
    (buildAAD FrameData (len payload + 28) (sendDir s) (sendEpoch s)).
Definition data_frame (s : Session) (payload : list byte) : list byte :=
  frame_bytes FrameData (DataFrame_Encode (mkData (sendCounter s) (data_ct s payload))).

Lemma data_body_len s payload :
  len (DataFrame_Encode (mkData (sendCounter s) (data_ct s payload))) = len payload + 28.
Proof.
  unfold DataFrame_Encode, data_ct; simpl d_Ciphertext; simpl d_NonceCounter.
  rewrite !len_app, !len_be_bytes, aead_seal_len by lia; lia.
Qed.

Lemma Send_seal_ok s c payload :
  session_ok s -> sendBytes s + len payload < RekeyBytesCap ->
  conn_ok c -> broken (tx c) = false -> len payload + 28 <= MaxFrameBody ->
  exists c', Send_seal s c payload = Ret (Ok tt, advanced s payload, c')
    /\ wrote c (data_frame s payload) c'.
Proof.
  intros (_ & _ & _ & Ha & _ & _ & _ & Hctr & _ & _ & Hby & _) Hb' Hc Hb Hl.
  pose proof (len_nonneg payload); unfold RekeyFrameCap, RekeyBytesCap, MaxFrameBody in *.
  unfold Send_seal, AEADTagLen, NonceCtrLen, MaxFrameBody, u32.
  rewrite (Z.mod_small (len payload + 16)) by lia; rewrite Z.mod_small by lia; guard_false.
  rewrite Ha; simpl deref; unfold mbind, outcome_bind; rewrite aead_seal_len, Z.eqb_refl; simpl negb.
  cbv iota; replace (8 + 4 + (len payload + 16)) with (len payload + 28) by lia.
  fold (data_ct s payload).
  destruct (conn_write_healthy c FrameData (DataFrame_Encode (mkData (sendCounter s) (data_ct s payload)))
    Hc Hb ltac:(rewrite data_body_len; done)) as (c' & -> & Hw).
  exists c'; split; [|done]; unfold advanced, u64.
  rewrite (Z.mod_small (len payload)), !Z.mod_small, Ha by lia; done.
Qed.

Lemma advanced_ok s payload :
  session_ok s -> sendCounter s + 1 < RekeyFrameCap -> sendBytes s + len payload < RekeyBytesCap ->
  session_ok (advanced s payload).
Proof.
  unfold session_ok; intros; pose proof (len_nonneg payload); cbn -[len]; intuition (done || lia).
Qed.

(** What [Send] does before it seals: nothing, a rekey, or a refusal because the
    epochs are used up. *)
Lemma Send_prepare_ok s c now payload :
  session_ok s -> conn_ok c -> broken (tx c) = false -> len payload < 2 ^ 32 ->
  exists r s1 c1, Send_prepare s c now payload = Ret (r, s1, c1)
    /\ session_ok s1 /\ conn_ok c1 /\ broken (tx c1) = false
    /\ ((r = Err ErrEpochExhausted /\ s1 = s /\ c1 = c /\ sendEpoch s = 255)
        \/ (r = Ok tt /\ sendCounter s1 + 1 < RekeyFrameCap
            /\ sendBytes s1 + len payload < RekeyBytesCap
            /\ (s1 = s /\ c1 = c
                \/ s1 = ratcheted s now /\ wrote c rekey_frame c1 /\ sendEpoch s < 255))).
Proof.
  intros Hs Hc Hb Hl; pose proof (len_nonneg payload).
  assert (Hep : 0 <= sendEpoch s <= 255) by (unfold session_ok in Hs; tauto).
  unfold Send_prepare; rewrite (proj1 Hs).
  destruct (needsRekeyLocked s now (u64 (len payload))) eqn:E.
  - destruct (Z.eq_dec (sendEpoch s) 255) as [E'|E'].
    { unfold rekeyLocalLocked; rewrite E'; exists (Err ErrEpochExhausted), s, c; split_and!; auto. }
    destruct (rekeyLocal_ok s c now Hs Hc Hb ltac:(lia)) as (c1 & -> & Hw).
    pose proof Hw as (Hc1 & _ & Ht1).
    exists (Ok tt), (ratcheted s now), c1; split; [done|]; split; [apply ratcheted_ok; [done|lia]|].
    rewrite Ht1; unfold RekeyBytesCap, RekeyFrameCap; split; [done|split; [done|right]].
    split; [done|split; [simpl; lia|split; [simpl; lia|right; split_and!; try done; lia]]].
  - exists (Ok tt), s, c; split_and!; try done; right.
    destruct Hs as (_ & _ & _ & _ & _ & _ & _ & Hctr & _ & _ & Hby & Hfc & Hbc).
    unfold needsRekeyLocked, u64, RekeyFrameCap, RekeyBytesCap in *.
    rewrite Hfc, Hbc, (Z.mod_small (len payload)), !Z.mod_small in E by lia.
    bool_to_prop; split_and!; auto; lia.
Qed.

(** The outcome of [Send] on a healthy connection. *)
Lemma Send_ok s c now payload :
  session_ok s -> conn_ok c -> broken (tx c) = false ->
  len payload + 28 <= MaxFrameBody -> sendEpoch s < 255 ->
  exists s1 c1 c', session_ok s1 /\ session_ok (advanced s1 payload)
    /\ (s1 = s /\ c1 = c \/ s1 = ratcheted s now /\ wrote c rekey_frame c1)
    /\ Send s c now payload = Ret (Ok tt, advanced s1 payload, c')
    /\ wrote c1 (data_frame s1 payload) c'.
Proof.
  intros Hs Hc Hb Hl He; unfold Send, MaxFrameBody in *.
  destruct (Send_prepare_ok s c now payload Hs Hc Hb ltac:(lia))
    as (r & s1 & c1 & -> & Hs1 & Hc1 & Hb1 & [(-> & _ & _ & ?)|(-> & Hctr & Hby & Hcase)]); [lia|].
  cbn [mbind outcome_bind].
  destruct (Send_seal_ok s1 c1 payload Hs1 Hby Hc1 Hb1 Hl) as (c' & -> & Hw).
  exists s1, c1, c'; split; [done|split; [apply advanced_ok; done|split; [|done]]].
  destruct Hcase as [[-> ->]|(-> & ? & _)]; auto.
Qed.

(** ** The receiver *)

(** The receiver [r] expects what the sender [s] sends next. *)
Definition synced (s r : Session) : Prop :=
  session_ok s /\ session_ok r
  /\ recvKey r = sendKey s /\ recvSalt r = sendSalt s /\ recvEpoch r = sendEpoch s
  /\ recvDir r = sendDir s
  /\ (recvHave r = true -> recvCounter r < sendCounter s).

(** After the frames [ks] the receiver [r] goes on as [r']. *)
Definition absorbs (r : Session) (ks : list (list byte)) (r' : Session) : Prop :=
  forall fuel c rest, rx c = concat ks ++ rest ->
    Recv_loop text (length ks + fuel) r c
    = Recv_loop text fuel r' (mkConn rest (tx c) (bufs c)).

Lemma absorbs_nil r : absorbs r [] r.
Proof. intros fuel c rest Hr; simpl in *; rewrite <- Hr; destruct c; done. Qed.

Lemma absorbs_app r1 ks1 r2 ks2 r3 :
  absorbs r1 ks1 r2 -> absorbs r2 ks2 r3 -> absorbs r1 (ks1 ++ ks2) r3.
Proof.
  intros H1 H2 fuel c rest Hr; rewrite concat_app, <- app_assoc in Hr.
  rewrite length_app, <- Nat.add_assoc, (H1 _ _ _ Hr), (H2 fuel _ rest) by done; done.
Qed.

Lemma rratcheted_synced s r now :
  synced s r -> sendEpoch s < 255 -> synced (ratcheted s now) (rratcheted r).
Proof.
  intros (Hs & Hr & Hk & Hsa & He & Hd & _) Hlt; split; [apply ratcheted_ok; done|].
  destruct (Ratchet_len (recvKey r) (recvEpoch r)).
  unfold session_ok in Hr; split; [unfold session_ok; cbn -[Ratchet len]; intuition (done || lia)|].
  unfold ratcheted, rratcheted; cbn -[Ratchet]; rewrite Hk, He; split_and!; done.
Qed.

Lemma absorbs_rekey s r :
  synced s r -> sendEpoch s < 255 -> absorbs r [rekey_frame] (rratcheted r).
Proof.
  intros (Hs & _ & Hk & _ & He & _) Hlt fuel c rest Hr.
  assert (Hep : 0 <= sendEpoch s <= 255) by (unfold session_ok in Hs; tauto).
  cbn [length Nat.add Recv_loop]; change (concat [rekey_frame]) with (rekey_frame ++ []) in Hr.
  rewrite app_nil_r in Hr; rewrite Hr.
  unfold rekey_frame; rewrite readFrame_frame by (vm_compute; done); cbn [mbind outcome_bind].
  rewrite (bool_decide_eq_false_2 (FrameRekey = FrameData)), bool_decide_eq_true_2 by done.
  change (DecodeRekey [RekeyReasonExplicit])
    with (@Ret (result RekeyFrame hs_error) (Ok (mkRekey RekeyReasonExplicit))); cbn iota beta.
  unfold rekeyRemoteLocked; replace (recvEpoch r =? 255) with false by lia.
  destruct (Ratchet_len (recvKey r) (recvEpoch r)) as [Hl _]; unfold rratcheted.
  destruct (Ratchet (recvKey r) (recvEpoch r)) as [nk ns]; simpl in Hl |- *.
  rewrite newAEAD_ok by done; unfold u8; rewrite Z.mod_small by lia; done.
Qed.

Definition received (r : Session) (counter : Z) : Session :=
  set_recv r (recvKey r) (recvSalt r) counter true (recvEpoch r) (recvAEAD r).

Lemma recv_data s r payload fuel c rest :
  synced s r -> sendCounter s + 1 < RekeyFrameCap -> len payload + 28 <= MaxFrameBody ->
  rx c = data_frame s payload ++ rest ->
  Recv_loop text (S fuel) r c
  = Ret (Ok payload, received r (sendCounter s), mkConn rest (tx c) (bufs c)).
Proof.
  intros (Hs & Hr & Hk & Hsa & He & Hd & Hlast) Hc Hl Hrx.
  pose proof (len_nonneg payload); assert (Hctr : 0 <= sendCounter s) by (unfold session_ok in Hs; lia).
  assert (Haead : recvAEAD r = Some (recvKey r)) by (unfold session_ok in Hr; tauto).
  unfold MaxFrameBody, RekeyFrameCap in *; cbn [Recv_loop]; rewrite Hrx.
  unfold data_frame; rewrite readFrame_frame
    by (rewrite data_body_len; unfold MaxFrameBody; done).
  cbn [mbind outcome_bind]; rewrite bool_decide_eq_true_2 by done; unfold handleDataLocked.
  destruct (dec_enc (F := DataFrame) (mkData (sendCounter s) (data_ct s payload))) as (body & Hb & Hdec).
  { simpl; unfold data_ct; rewrite aead_seal_len; lia. }
  simpl in Hb, Hdec; injection Hb as <-; rewrite Hdec; cbn [mbind outcome_bind d_NonceCounter d_Ciphertext].
  replace (recvHave r && (sendCounter s <=? recvCounter r)) with false
    by (destruct (recvHave r); [specialize (Hlast eq_refl)|]; simpl; lia).
  unfold RekeyFrameCap; guard_false; rewrite Haead; simpl deref; cbn [mbind outcome_bind].
  replace (u32 _) with (len payload + 28)
    by (unfold u32, data_ct, NonceCtrLen; rewrite aead_seal_len, Z.mod_small; lia).
  unfold data_ct; rewrite Hk, Hsa, He, Hd, aead_correct; unfold received; rewrite Hk, Hsa, He, Haead, Hk.
  done.
Qed.

Lemma synced_advanced s r payload :
  synced s r -> session_ok (advanced s payload) ->
  synced (advanced s payload) (received r (sendCounter s)).
Proof.
  intros (Hs & Hr & Hk & Hsa & He & Hd & _) Ha; split; [done|].
  unfold session_ok in Hr; split; [unfold session_ok; cbn -[len]; intuition (done || lia)|].
  cbn; rewrite Hk, Hsa, He, Hd; split_and!; try done; lia.
Qed.

(** ** Fuel *)

Lemma frame_bytes_len t body : 5 <= len (frame_bytes t body).
Proof.
  unfold frame_bytes; rewrite !len_app, len_single, len_be_bytes by lia.
  pose proof (len_nonneg body); lia.
Qed.

(** Reading a frame takes bytes off the stream. *)
Lemma readFrame_shorter r f r' :
  readFrame r = Ret (Ok f, r') -> (length r' < length r)%nat.
Proof.
  rewrite readFrame_eq; cbv zeta; repeat case_if; intros; simplify_eq.
  rewrite length_drop; pose proof (be_rd_range 4 r 1 ltac:(lia)); unfold len in *; lia.
Qed.

(** A result does not depend on how much fuel is left. *)
Lemma Recv_loop_mono fuel : forall s c x k,
  Recv_loop text fuel s c = Ret x -> Recv_loop text (fuel + k) s c = Ret x.
Proof.
  induction fuel as [|fuel IH]; intros s c x k; [done|]; cbn [Recv_loop Nat.add].
  destruct (readFrame (rx c)) as [[[[t body]|e] r]|]; cbn [mbind outcome_bind]; try done.
  repeat case_if; try done; destruct (DecodeRekey body) as [[rk|e]|]; cbn [mbind outcome_bind]; try done.
  destruct (rekeyRemoteLocked s) as [[[]|e] s1]; [apply IH|done].
Qed.

(** With one unit of fuel per byte, and one more, the loop ends by itself. *)
Lemma Recv_loop_total fuel : forall s c,
  conn_ok c -> recvAEAD s <> None -> (length (rx c) < fuel)%nat ->
  exists r s' c', Recv_loop text fuel s c = Ret (r, s', c') /\ conn_ok c' /\ recvAEAD s' <> None.
Proof.
  induction fuel as [|fuel IH]; intros s c Hc Ha Hf; [lia|]; cbn [Recv_loop Nat.add].
  assert (Hrefuse : forall (A : Type) s c e, conn_ok c -> recvAEAD s <> None -> exists r s' c',
    (c ← conn_alert text c e; Ret (@Err A _ e, s, c)) = Ret (r, s', c') /\ conn_ok c'
    /\ recvAEAD s' <> None).
  { intros A s0 c0 e Hc0 Ha0; destruct (conn_alert_ok text c0 e Hc0) as (c1 & -> & ? & _).
    eexists _, _, _; split; [reflexivity|done]. }
  destruct (readFrame (rx c)) as [[[[t body]|e] r]|] eqn:Er;
    [|eexists _, _, _; split; [reflexivity|done]|rewrite readFrame_eq in Er; done].
  cbn [mbind outcome_bind]; apply readFrame_shorter in Er; set (c1 := mkConn r (tx c) (bufs c)).
  assert (Hc1 : conn_ok c1) by done.
  case_if; [|case_if; [|case_if]].
  - unfold handleDataLocked; rewrite DecodeData_eq; cbn [mbind outcome_bind].
    destruct (_ || _); [apply Hrefuse; done|]; case_if; [apply Hrefuse; done|].
    case_if; [apply Hrefuse; done|]; destruct (recvAEAD s) as [key|] eqn:Ek; [|done].
    simpl deref; cbn [mbind outcome_bind]; destruct (aead_open _ _ _ _) as [plain|];
      [eexists _, _, _; split; [reflexivity|]; rewrite ?Ek; split_and!; done|].
    rewrite <- Ek in Ha; apply Hrefuse; done.
  - rewrite DecodeRekey_eq; cbn [mbind outcome_bind]; destruct (negb _); [apply Hrefuse; done|].
    destruct (rekeyRemoteLocked s) as [[[]|e] s1] eqn:Ek.
    + apply IH; [done| |simpl; lia]; unfold rekeyRemoteLocked in Ek; revert Ek.
      case_if; [done|]; destruct (Ratchet _ _); destruct (newAEAD _); intros; simplify_eq; done.
    + apply Hrefuse; [done|]; unfold rekeyRemoteLocked in Ek; revert Ek.
      case_if; [intros; simplify_eq; done|].
      destruct (Ratchet _ _); destruct (newAEAD _); intros; simplify_eq; done.
  - rewrite DecodeAlert_eq; cbn [mbind outcome_bind]; destruct (_ || _);
      eexists _, _, _; (split; [reflexivity|done]).
  - apply Hrefuse; done.
Qed.

(** ** Runs *)

(** What a client does with the sending side: explicit rekeys at the given
    times, then a payload sent at [at_]. *)
Record act : Type := mkAct { rekeys : list Z; at_ : Z; payload : list byte }.

Fixpoint rekey_all (s : Session) (c : Conn) (ts : list Z)
  : outcome (result unit hs_error * Session * Conn) :=
  match ts with
  | [] => Ret (Ok tt, s, c)
  | t :: ts =>
      r ← Rekey s c t;
      match r with
      | (Err e, s, c) => Ret (Err e, s, c)
      | (Ok _, s, c) => rekey_all s c ts
      end
  end.

Fixpoint send_acts (s : Session) (c : Conn) (acts : list act)
  : outcome (result unit hs_error * Session * Conn) :=
  match acts with
  | [] => Ret (Ok tt, s, c)
  | a :: acts =>
      r ← rekey_all s c (rekeys a);
      match r with
      | (Err e, s, c) => Ret (Err e, s, c)
      | (Ok _, s, c) =>
          r ← Send s c (at_ a) (payload a);
          match r with
          | (Err e, s, c) => Ret (Err e, s, c)
          | (Ok _, s, c) => send_acts s c acts
          end
      end
  end.

(** [n] calls of [Recv], stopping at the first error. *)
Fixpoint recv_n (r : Session) (c : Conn) (n : nat)
  : outcome (result (list (list byte)) hs_error * Session * Conn) :=
  match n with
  | O => Ret (Ok [], r, c)
  | S n =>
      x ← Recv text r c;
      match x with
      | (Err e, r, c) => Ret (Err e, r, c)
      | (Ok p, r, c) =>
          y ← recv_n r c n;
          match y with
          | (Err e, r, c) => Ret (Err e, r, c)
          | (Ok ps, r, c) => Ret (Ok (p :: ps), r, c)
          end
      end
  end.

(** Healthy connection that has written the chunks [ks] since [c]. *)
Definition sent (c : Conn) (ks : list (list byte)) (c' : Conn) : Prop :=
  conn_ok c' /\ tx c' = mkWriter (calls (tx c) ++ ks) false.

Lemma sent_app c1 ks c2 ks' c3 : sent c1 ks c2 -> sent c2 ks' c3 -> sent c1 (ks ++ ks') c3.
Proof. intros [? H1] [? H2]; split; [done|]; rewrite H2, H1; simpl; rewrite <- app_assoc; done. Qed.

Lemma wrote_sent c k c' : wrote c k c' -> sent c [k] c'.
Proof. intros (? & ? & ?); split; done. Qed.

Lemma sent_nil c : conn_ok c -> broken (tx c) = false -> sent c [] c.
Proof.
  intros; split; [done|]; rewrite app_nil_r; destruct (tx c); simpl in *; subst; done.
Qed.

(** Client operations keep the receiver in step; a failing one is an exhausted
    epoch or an oversized payload. *)
Lemma rekey_all_synced ts : forall s c r,
  synced s r -> conn_ok c -> broken (tx c) = false ->
  Z.of_nat (length ts) + sendEpoch s <= 255 ->
  exists s' c' ks r', rekey_all s c ts = Ret (Ok tt, s', c') /\ sent c ks c' /\ absorbs r ks r'
    /\ synced s' r' /\ sendEpoch s' = sendEpoch s + Z.of_nat (length ts).
Proof.
  induction ts as [|t ts IH]; intros s c r Hsy Hc Hb He; cbn [rekey_all length] in *.
  { exists s, c, [], r; split; [done|split; [apply sent_nil; done|]].
    split; [apply absorbs_nil|split; [done|lia]]. }
  pose proof Hsy as (Hs & _); unfold Rekey; rewrite (proj1 Hs).
  destruct (rekeyLocal_ok s c t Hs Hc Hb ltac:(lia)) as (c1 & -> & Hw); cbn [mbind outcome_bind].
  pose proof Hw as (Hc1 & _ & Ht1).
  destruct (IH (ratcheted s t) c1 (rratcheted r)) as (s' & c' & ks & r' & -> & Hse & Hab & Hsy' & He');
    [apply rratcheted_synced; [done|lia]|done|rewrite Ht1; done|simpl; lia|].
  exists s', c', ([rekey_frame] ++ ks), r'; split; [done|split].
  - eapply sent_app; [apply wrote_sent, Hw|done].
  - split; [eapply absorbs_app; [apply (absorbs_rekey s); [done|lia]|done]|].
    split; [done|rewrite He'; simpl; lia].
Qed.

Lemma act_delivers a s c r :
  synced s r -> conn_ok c -> broken (tx c) = false ->
  len (payload a) + 28 <= MaxFrameBody ->
  Z.of_nat (length (rekeys a)) + sendEpoch s < 255 ->
  exists s' c' ks r', send_acts s c [a] = Ret (Ok tt, s', c') /\ sent c ks c' /\ synced s' r'
    /\ sendEpoch s' <= sendEpoch s + Z.of_nat (length (rekeys a)) + 1
    /\ forall cr rest, conn_ok cr -> rx cr = concat ks ++ rest ->
         Recv text r cr = Ret (Ok (payload a), r', mkConn rest (tx cr) (bufs cr)).
Proof.
  intros Hsy Hc Hb Hl He; cbn [send_acts].
  destruct (rekey_all_synced (rekeys a) s c r Hsy Hc Hb ltac:(lia))
    as (s1 & c1 & ks1 & r1 & -> & [Hc1 Ht1] & Hab1 & Hsy1 & He1); cbn [mbind outcome_bind].
  pose proof Hsy1 as (Hs1 & _).
  destruct (Send_ok s1 c1 (at_ a) (payload a) Hs1 Hc1 ltac:(rewrite Ht1; done) Hl ltac:(lia))
    as (s2 & c2 & c' & Hs2 & Hadv & Hcase & -> & Hw); cbn [mbind outcome_bind].
  assert (Hmid : exists ks2 r2, sent c1 ks2 c2 /\ absorbs r1 ks2 r2 /\ synced s2 r2
    /\ sendEpoch s2 <= sendEpoch s1 + 1).
  { destruct Hcase as [[-> ->]|[-> Hw2]].
    - exists [], r1; split; [apply sent_nil; [done|rewrite Ht1; done]|].
      split; [apply absorbs_nil|split; [done|lia]].
    - exists [rekey_frame], (rratcheted r1); split; [apply wrote_sent, Hw2|].
      split; [apply (absorbs_rekey s1); [done|lia]|].
      split; [apply rratcheted_synced; [done|lia]|simpl; lia]. }
  destruct Hmid as (ks2 & r2 & Hse2 & Hab2 & Hsy2 & He2).
  pose proof (absorbs_app _ _ _ _ _ Hab1 Hab2) as Hab.
  exists (advanced s2 (payload a)), c', ((ks1 ++ ks2) ++ [data_frame s2 (payload a)]),
    (received r2 (sendCounter s2)); split; [done|split].
  { eapply sent_app; [eapply sent_app; [split; [done|exact Ht1]|exact Hse2]|apply wrote_sent, Hw]. }
  split; [apply synced_advanced; done|split; [simpl; lia|]]; intros cr rest Hcr Hrx.
  pose proof Hsy as (_ & Hr & _); unfold Recv; rewrite (proj1 Hr).
  assert (Hctr : sendCounter s2 + 1 < RekeyFrameCap)
    by (unfold session_ok in Hadv; simpl in Hadv; lia).
  rewrite concat_app, <- app_assoc in Hrx; change (concat [?x]) with (x ++ []) in Hrx.
  rewrite app_nil_r in Hrx.
  pose proof (Hab 1%nat cr _ Hrx) as Hrun.
  rewrite (recv_data s2 r2 (payload a) 0 _ rest) in Hrun by done.
  destruct (Recv_loop_total (S (length (rx cr))) r cr Hcr) as (x & r' & cr' & Heq & _);
    [unfold session_ok in Hr; intuition congruence|lia|].
  rewrite Heq; apply (Recv_loop_mono _ _ _ _ (length (ks1 ++ ks2) + 1)) in Heq.
  apply (Recv_loop_mono _ _ _ _ (S (length (rx cr)))) in Hrun.
  rewrite Nat.add_comm, Hrun in Heq; simplify_eq; done.
Qed.


(** ** Both ends of a handshake *)

(** Keys as the key schedule makes them. *)
Definition keys_ok (k : SessionKeys) : Prop :=
  len (KInitToResp k) = 32 /\ len (KRespToInit k) = 32
  /\ len (SaltInitToResp k) = 4 /\ len (SaltRespToInit k) = 4 /\ len (ResumptionPSK k) = 32.

Lemma expand_keys_ok prk : keys_ok (expand_keys prk).
Proof. split_and!; apply expand_len; unfold AEADKeyLen, NonceSaltLen, PSKKeyLen; lia. Qed.

(** Initiator and responder sessions over the same keys expect each other. *)
Lemma newSession_synced keys peerI peerR su nowI nowR :
  keys_ok keys ->
  exists sI sR, newSession RoleInitiator peerI su keys nowI = Ok sI
    /\ newSession RoleResponder peerR su keys nowR = Ok sR
    /\ peerID sI = peerI /\ peerID sR = peerR /\ synced sI sR /\ synced sR sI
    /\ clientPSK sI = Some (MakeClientPSK PSKID (ResumptionPSK keys) peerI nowI)
    /\ sendEpoch sI = 0 /\ sendEpoch sR = 0.
Proof.
  intros (H1 & H2 & H3 & H4 & H5); unfold newSession.
  rewrite !newAEAD_ok by done; eexists _, _; split; [reflexivity|split; [reflexivity|]].
  unfold synced, session_ok, RekeyFrameCap, RekeyBytesCap; cbn -[len]; intuition (done || lia).
Qed.

(** ** Nonces *)

Inductive op : Type := OSend (now : Z) (p : list byte) | ORekey (now : Z).

Definition op_step (s : Session) (c : Conn) (o : op)
  : outcome (result unit hs_error * Session * Conn) :=
  match o with OSend now p => Send s c now p | ORekey now => Rekey s c now end.

(** The epoch and counter under which the operation seals, if it seals. *)
Definition sealed (s : Session) (c : Conn) (o : op) : list (Z * Z) :=
  match o with
  | ORekey _ => []
  | OSend now p =>
      match Send_prepare s c now p with
      | Ret (Ok _, s, _) =>
          if MaxFrameBody <? u32 (NonceCtrLen + 4 + u32 (len p + AEADTagLen)) then []
          else [(sendEpoch s, sendCounter s)]
      | _ => []
      end
  end.

Fixpoint nonces (s : Session) (c : Conn) (os : list op) : list (Z * Z) :=
  match os with
  | [] => []
  | o :: os =>
      sealed s c o ++
      match op_step s c o with
      | Ret (_, s, c) => nonces s c os
      | Panic => []
      end
  end.

(** Nonces in the order of their use. *)
Definition nonce_lt (a b : Z * Z) : Prop := a.1 < b.1 \/ a.1 = b.1 /\ a.2 < b.2.
Definition at_least (s : Session) (n : Z * Z) : Prop :=
  sendEpoch s < n.1 \/ sendEpoch s = n.1 /\ sendCounter s <= n.2.

Lemma oversize_eq (p : list byte) : 0 <= len p -> len p + 28 < 2 ^ 32 ->
  u32 (NonceCtrLen + 4 + u32 (len p + AEADTagLen)) = len p + 28.
Proof.
  intros; unfold u32, NonceCtrLen, AEADTagLen; rewrite (Z.mod_small (len p + 16)), Z.mod_small; lia.
Qed.

(** One operation: what it seals is not below the session's position, and the
    session ends behind it. *)
Lemma op_nonces s c o :
  session_ok s -> conn_ok c -> broken (tx c) = false ->
  match o with OSend _ p => len p + 28 < 2 ^ 32 | _ => True end ->
  exists r s' c', op_step s c o = Ret (r, s', c') /\ session_ok s' /\ conn_ok c'
    /\ broken (tx c') = false
    /\ (sendEpoch s < sendEpoch s' \/ sendEpoch s = sendEpoch s' /\ sendCounter s <= sendCounter s')
    /\ (sealed s c o = [] \/ exists n, sealed s c o = [n] /\ at_least s n
          /\ nonce_lt n (sendEpoch s', sendCounter s')).
Proof.
  intros Hs Hc Hb Hp; assert (Hep : 0 <= sendEpoch s <= 255) by (unfold session_ok in Hs; tauto).
  destruct o as [now p|now]; cbn [op_step sealed].
  - unfold Send; destruct (Send_prepare_ok s c now p Hs Hc Hb ltac:(lia))
      as (r & s1 & c1 & -> & Hs1 & Hc1 & Hb1 & [(-> & -> & -> & _)|(-> & Hctr & Hby & Hcase)]);
      cbn [mbind outcome_bind].
    { exists (Err ErrEpochExhausted), s, c; split_and!; auto; right; lia. }
    assert (Hpos : at_least s (sendEpoch s1, sendCounter s1)).
    { unfold at_least; destruct Hcase as [[-> _]|(-> & _ & _)]; simpl; lia. }
    destruct (Z_le_gt_dec (len p + 28) MaxFrameBody) as [Hl|Hl].
    + destruct (Send_seal_ok s1 c1 p Hs1 Hby Hc1 Hb1 Hl) as (c' & -> & Hc' & _ & Ht).
      exists (Ok tt), (advanced s1 p), c'; rewrite Ht; split_and!; try done; [apply advanced_ok; done| |].
      * unfold at_least in Hpos; simpl in *; lia.
      * rewrite oversize_eq by (auto with zap; lia); guard_false; right; eexists; split_and!; [reflexivity|done|].
        unfold nonce_lt; simpl; lia.
    + unfold Send_seal; cbv zeta; rewrite oversize_eq by (auto with zap; lia); guard_true.
      exists (Err ErrDecodeError), s1, c1; split_and!; auto.
  - unfold Rekey; rewrite (proj1 Hs); destruct (Z.eq_dec (sendEpoch s) 255) as [E|E].
    + unfold rekeyLocalLocked; rewrite E; exists (Err ErrEpochExhausted), s, c; split_and!; auto; right; lia.
    + destruct (rekeyLocal_ok s c now Hs Hc Hb ltac:(lia)) as (c' & -> & Hc' & _ & Ht).
      exists (Ok tt), (ratcheted s now), c'; rewrite Ht; split_and!; auto;
        [apply ratcheted_ok; [done|lia]|simpl; lia].
Qed.

Lemma nonces_above os : forall s c,
  session_ok s -> conn_ok c -> broken (tx c) = false ->
  Forall (fun o => match o with OSend _ p => len p + 28 < 2 ^ 32 | _ => True end) os ->
  Forall (at_least s) (nonces s c os) /\ NoDup (nonces s c os).
Proof.
  induction os as [|o os IH]; intros s c Hs Hc Hb Hos; cbn [nonces]; [split; constructor|].
  apply Forall_cons_1 in Hos as [Ho Hos].
  destruct (op_nonces s c o Hs Hc Hb Ho) as (r & s' & c' & -> & Hs' & Hc' & Hb' & Hmove & Hsealed).
  destruct (IH s' c' Hs' Hc' Hb' Hos) as [Habove Hnd].
  assert (Hlater : Forall (at_least s) (nonces s' c' os))
    by (eapply Forall_impl; [exact Habove|]; unfold at_least; intros; lia).
  destruct Hsealed as [->|(n & -> & Hn & Hlt)]; [done|]; simpl; split; [by constructor|].
  constructor; [|done]; intros Hin; rewrite Forall_forall in Habove; specialize (Habove n Hin).
  unfold at_least, nonce_lt in *; simpl in *; lia.
Qed.

(** ** What a receiver accepts *)

(** The last accepted position, before any frame of an epoch: minus one. *)
Definition accepted (s : Session) : Z * Z :=
  (recvEpoch s, if recvHave s then recvCounter s else -1).

Lemma rekeyRemote_epoch s s' :
  0 <= recvEpoch s <= 255 -> rekeyRemoteLocked s = (Ok tt, s') ->
  recvEpoch s' = recvEpoch s + 1 /\ recvEpoch s' <= 255 /\ recvHave s' = false.
Proof.
  intros He; unfold rekeyRemoteLocked; case_if; [done|].
  destruct (Ratchet _ _); destruct (newAEAD _); intros; simplify_eq; simpl.
  unfold u8; rewrite Z.mod_small by lia; split_and!; lia || done.
Qed.

Lemma Recv_loop_accepts fuel : forall s c p s' c',
  0 <= recvEpoch s <= 255 -> Recv_loop text fuel s c = Ret (Ok p, s', c') ->
  nonce_lt (accepted s) (accepted s') /\ recvHave s' = true /\ 0 <= recvEpoch s' <= 255
  /\ 0 <= recvCounter s' < RekeyFrameCap.
Proof.
  induction fuel as [|fuel IH]; intros s c p s' c' He; [done|]; cbn [Recv_loop].
  assert (Hrefuse : forall s c e, (c ← conn_alert text c e; Ret (@Err (list byte) _ e, s, c))
    = Ret (Ok p, s', c') -> False).
  { intros s0 c0 e; destruct (conn_alert text c0 e); simpl; congruence. }
  destruct (readFrame (rx c)) as [[[[t body]|e] r]|]; cbn [mbind outcome_bind]; try done.
  case_if; [|case_if; [|case_if]].
  - unfold handleDataLocked; destruct (DecodeData body) as [[d|e]|] eqn:Ed; cbn [mbind outcome_bind];
      [|intros []%Hrefuse|done].
    destruct (@enc_dec DataFrame DataFrame_codec DataFrame_laws body d Ed) as [[Hd _] _].
    case_if; [intros []%Hrefuse|]; case_if; [intros []%Hrefuse|].
    destruct (recvAEAD s); simpl deref; cbn [mbind outcome_bind]; [|done].
    destruct (aead_open _ _ _ _); [|intros []%Hrefuse]; intros; simplify_eq.
    unfold nonce_lt, accepted; simpl; destruct (recvHave s); simpl in *; split_and!; lia || done.
  - destruct (DecodeRekey body) as [[rk|e]|]; cbn [mbind outcome_bind]; [|intros []%Hrefuse|done].
    destruct (rekeyRemoteLocked s) as [[[]|e] s1] eqn:Er; [|intros []%Hrefuse].
    apply rekeyRemote_epoch in Er as (E1 & E2 & E3); [|done].
    intros (Hlt & Hh & Hr & Hc)%IH; [|lia]; split_and!; try done; try lia.
    unfold nonce_lt, accepted in *; simpl in *; lia.
  - destruct (DecodeAlert body) as [[a|e]|]; simpl; congruence.
  - intros []%Hrefuse.
Qed.

(** ** Properties *)


(** No nonce is used twice. On a connection whose writes succeed, however
    sends and rekeys alternate, the (epoch, counter) pairs under which [Send]
    seals are all different. *)
Theorem nonces_unique s c os :
  session_ok s -> conn_ok c -> broken (tx c) = false ->
  Forall (fun o => match o with OSend _ p => len p + 28 < 2 ^ 32 | _ => True end) os ->
  NoDup (nonces s c os).
Proof. intros; apply nonces_above; done. Qed.


(** C10: the receiver accepts strictly increasing positions only. Whatever
    bytes an attacker puts on the wire, [Recv] returns (it neither panics nor
    loops), and each payload it delivers has a (epoch, counter) above the last
    one delivered, with the counter below its cap: a replayed or reordered
    DATA frame is never delivered. *)
Theorem recv_strictly_increasing s c :
  session_ok s -> conn_ok c ->
  exists r s' c', Recv text s c = Ret (r, s', c') /\ conn_ok c'
    /\ forall p, r = Ok p ->
         nonce_lt (accepted s) (accepted s') /\ 0 <= recvCounter s' < RekeyFrameCap.
Proof.
  intros Hs Hc; unfold Recv; rewrite (proj1 Hs).
  destruct (Recv_loop_total (S (length (rx c))) s c Hc) as (r & s' & c' & Heq & Hc' & _);
    [unfold session_ok in Hs; intuition congruence|lia|].
  exists r, s', c'; split_and!; [done|done|]; intros p ->.
  apply Recv_loop_accepts in Heq as (? & _ & _ & ?); [done|unfold session_ok in Hs; tauto].
Qed.

(** [Close] is final and scrubs the keys: afterwards sending, receiving
    and rekeying are refused, every key and salt byte of the session is zero,
    no AEAD is left and the connection is down; closing again changes nothing. *)
Theorem close_is_final s c now p :
  closed s = false ->
  let '(s', c') := Close s c in
  Send s' c' now p = Ret (Err ErrSessionClosed, s', c')
  /\ Recv text s' c' = Ret (Err ErrSessionClosed, s', c')
  /\ Rekey s' c' now = Ret (Err ErrSessionClosed, s', c')
  /\ sendKey s' = zeros (len (sendKey s)) /\ recvKey s' = zeros (len (recvKey s))
  /\ sendSalt s' = zeros (len (sendSalt s)) /\ recvSalt s' = zeros (len (recvSalt s))
  /\ sendAEAD s' = None /\ recvAEAD s' = None /\ broken (tx c') = true
  /\ Close s' c' = (s', c').
Proof. intros Hc; unfold Close; rewrite Hc; split_and!; done. Qed.
End proofs.

(** ** Witnesses *)

Definition sample_keys : SessionKeys := @expand_keys toy_crypto [Byte.x01].
Definition sample_conn : Conn := mkConn [] (mkWriter [] false) (replicate 24 []).
Definition no_text (_ : hs_error) : list byte := [].

Lemma sample_sessions :
  exists sI sR, @newSession toy_crypto RoleInitiator [] Byte.x01 sample_keys 0 = Ok sI
    /\ @newSession toy_crypto RoleResponder [] Byte.x01 sample_keys 0 = Ok sR
    /\ synced sI sR /\ session_ok sI /\ sendEpoch sI = 0.
Proof.
  destruct (@newSession_synced toy_crypto sample_keys [] [] Byte.x01 0 0
    (@expand_keys_ok toy_crypto toy_laws [Byte.x01])) as (sI & sR & HI & HR & _ & _ & Hs & _ & _ & He & _).
  exists sI, sR; split_and!; try done; apply Hs.
Qed.


Lemma nonces_unique_witness :
  exists sI, @newSession toy_crypto RoleInitiator [] Byte.x01 sample_keys 0 = Ok sI
    /\ NoDup (@nonces toy_crypto sI sample_conn [OSend 0 [Byte.x61]; ORekey 1; OSend 2 []]).
Proof.
  destruct sample_sessions as (sI & sR & HI & _ & _ & Hok & _).
  exists sI; split; [exact HI|].
  apply (@nonces_unique toy_crypto toy_laws sI sample_conn); [exact Hok|exact pools_ok_empty|reflexivity|].
  repeat constructor; vm_compute; reflexivity.
Defined.


Lemma recv_strictly_increasing_witness :
  exists sI r s' c', @newSession toy_crypto RoleInitiator [] Byte.x01 sample_keys 0 = Ok sI
    /\ @Recv toy_crypto no_text sI (mkConn [Byte.x05; Byte.x00] (mkWriter [] false) (replicate 24 []))
       = Ret (r, s', c').
Proof.
  destruct sample_sessions as (sI & sR & HI & _ & _ & Hok & _).
  destruct (@recv_strictly_increasing toy_crypto no_text sI
    (mkConn [Byte.x05; Byte.x00] (mkWriter [] false) (replicate 24 [])) Hok pools_ok_empty)
    as (r & s' & c' & Hr & _ & _).
  exists sI, r, s', c'; split; assumption.
Defined.

Lemma close_is_final_witness :
  exists sI, @newSession toy_crypto RoleInitiator [] Byte.x01 sample_keys 0 = Ok sI
    /\ @Send toy_crypto (Close sI sample_conn).1 (Close sI sample_conn).2 9 []
       = Ret (Err ErrSessionClosed, (Close sI sample_conn).1, (Close sI sample_conn).2).
Proof.
  destruct sample_sessions as (sI & sR & HI & _ & _ & Hok & _); exists sI; split; [exact HI|].
  pose proof (@close_is_final toy_crypto no_text sI sample_conn 9 [] (proj1 Hok)) as Hc.
  destruct (Close sI sample_conn) as [s' c']; exact (proj1 Hc).
Defined.
