(* ===== verification/HsRun.v ===== *)
(** * HsRun: the two state machines of the handshake

    Models [handshake/initiator.go] and [handshake/responder.go]. The code
    threads a connection, an entropy source, a clock and the responder's stores
    through many fallible calls: a state and error monad whose early returns are
    the code's. A run is a function of the bytes the peer will have sent. Read
    deadlines are not modelled. *)

From S2P Require Import Prelude HsLabels HsFrames HsReplay HsPSK HsKdf HsSession.
Local Open Scope Z_scope.

Section run.
Context {C : Crypto}.
Context (text : hs_error -> list byte).

(** ** The monad *)

(** Connection, entropy, clock (its readings and how many were taken) and the
    responder's stores, [None] where the field is nil. *)
Record St : Type := mkSt {
  conn : Conn;
  ent : entropy;
  clock : nat -> Z;
  ticks : nat;
  cache : option ReplayCache;
  store : option PSKStore
}.

Definition M (A : Type) : Type := St -> outcome (result A hs_error * St).

#[export] Instance M_ret : MRet M := fun A a st => Ret (Ok a, st).
#[export] Instance M_bind : MBind M := fun A B k m st =>
  match m st with
  | Ret (Ok a, st) => k a st
  | Ret (Err e, st) => Ret (Err e, st)
  | Panic => Panic
  end.

Definition set_conn (st : St) (c : Conn) : St :=
  mkSt c (ent st) (clock st) (ticks st) (cache st) (store st).
Definition set_ent (st : St) (e : entropy) : St :=
  mkSt (conn st) e (clock st) (ticks st) (cache st) (store st).
Definition set_cache (st : St) (c : ReplayCache) : St :=
  mkSt (conn st) (ent st) (clock st) (ticks st) (Some c) (store st).
Definition set_store (st : St) (s : PSKStore) : St :=
  mkSt (conn st) (ent st) (clock st) (ticks st) (cache st) (Some s).

(** [return nil, err] *)
Definition throw {A} (e : hs_error) : M A := fun st => Ret (Err e, st).

(** [return nil, writeAlertFor(conn, err)] *)
Definition alert {A} (e : hs_error) : M A := fun st =>
  match conn_alert text (conn st) e with
  | Ret c => Ret (Err e, set_conn st c)
  | Panic => Panic
  end.

(** A decoder whose error is alerted. *)
Definition decoded {A} (d : outcome (result A hs_error)) : M A := fun st =>
  match d with
  | Ret (Ok a) => Ret (Ok a, st)
  | Ret (Err e) => alert e st
  | Panic => Panic
  end.
Definition checked {A} (r : result A hs_error) : M A := decoded (Ret r).
Definition returned {A} (r : result A hs_error) : M A := fun st => Ret (r, st).

(** A library call that may fail; its error is alerted as [e]. *)
Definition expect_some {A} (o : option A) (e : hs_error) : M A :=
  match o with Some a => mret a | None => alert e end.

(** ** Effects *)

Definition now : M Z := fun st =>
  Ret (Ok (clock st (ticks st)),
       mkSt (conn st) (ent st) (clock st) (S (ticks st)) (cache st) (store st)).

Definition raw_write (b : list byte) : M unit := fun st =>
  let '(r, w) := Write (tx (conn st)) b in
  Ret (r, set_conn st (mkConn (rx (conn st)) w (bufs (conn st)))).

Definition send_frame (t : byte) (body : list byte) : M unit := fun st =>
  match conn_write (conn st) t body with
  | Ret (r, c) => Ret (r, set_conn st c)
  | Panic => Panic
  end.

(** What remains to be read is [r]. *)
Definition set_rx (st : St) (r : list byte) : St :=
  set_conn st (mkConn r (tx (conn st)) (bufs (conn st))).

Definition read_bytes (n : Z) : M (list byte) := fun st =>
  let '(b, r) := ReadFull (rx (conn st)) n in Ret (b, set_rx st r).

Definition read_frame : M (byte * list byte) := fun st =>
  match readFrame (rx (conn st)) with
  | Ret (f, r) => Ret (f, set_rx st r)
  | Panic => Panic
  end.

Definition expect (want : byte) : M (list byte) := fun st =>
  match expectFrame (rx (conn st)) want with
  | Ret (b, r) => Ret (b, set_rx st r)
  | Panic => Panic
  end.

(** A call that draws randomness; its failure is returned as it is. *)
Definition draw {A} (f : entropy -> option A * entropy) : M A := fun st =>
  let '(a, e) := f (ent st) in
  Ret (match a with Some a => Ok a | None => Err ErrOther end, set_ent st e).
(** The same, its failure alerted as [err]. *)
Definition draw_or {A} (f : entropy -> option A * entropy) (err : hs_error) : M A := fun st =>
  let '(a, e) := f (ent st) in
  match a with Some a => Ret (Ok a, set_ent st e) | None => alert err (set_ent st e) end.

Definition sign (id : option Identity) (h2 : list byte) (r su : byte) : M (list byte) := fun st =>
  let '(sig, e) := Sign id (ent st) h2 r su in
  match sig with
  | Ok s => Ret (Ok s, set_ent st e)
  | Err _ => alert ErrAuthFailed (set_ent st e)
  end.

Definition verify (id : Identity) (h2 : list byte) (r su : byte) (sig : list byte) : M unit :=
  match VerifyAuth (Some id) h2 r su sig with
  | Some e => alert e
  | None => mret tt
  end.

(** ** Initiator *)

Record Initiator : Type := mkInitiator {
  i_Local : option Identity;
  i_Expected : option Identity;
  i_Profile : byte;
  i_PQMode : byte;
  i_Suite : byte;
  i_OfferedSchemes : list byte;
  i_Resume : option ClientPSK
}.

Definition strict (p : byte) : bool :=
  bool_decide (p = ProfileStrictPQ) || bool_decide (p = ProfileFIPS).

Definition has_private (id : option Identity) : bool :=
  match id with Some (mkIdentity _ (Some _)) => true | _ => false end.

Definition Initiator_runFull (i : Initiator) (su pqMode : byte) (schemes : list byte) (t0 : Z)
  : M Session :=
  clientRand ← draw (fun e => rand_read e ClientRandLen);
  let hello := mkHello su pqMode clientRand (u64 t0) (Identity_ID (i_Local i)) schemes
                 (PublicBytes (i_Local i)) in
  helloBody ← returned (HelloFrame_Encode hello);
  send_frame FrameHello helloBody;;
  xEphSK ← draw x_generate;
  let xEphPKArr := to_array X25519PubLen (x_public xEphSK) in
  kem ← draw k_generate;
  let '(mlkemPub, mlkemPriv) := kem in
  let mlkemPubArr := to_array MLKEM768PubLen (k_bytes mlkemPub) in
  let kemInitBody := KEMInitFrame_Encode (mkKEMInit xEphPKArr mlkemPubArr) in
  send_frame FrameKEMInit kemInitBody;;
  replyBody ← expect FrameKEMReply;
  reply ← decoded (DecodeKEMReply replyBody);
  (if negb (x_valid_public (kr_X25519EphPub reply)) then alert ErrDecodeError else mret tt);;
  xSharedBytes ← expect_some (x_ecdh xEphSK (kr_X25519EphPub reply)) ErrAuthFailed;
  let xShared := to_array X25519SharedLen xSharedBytes in
  mlkemSharedBytes ← expect_some (k_decapsulate mlkemPriv (kr_MLKEMCiphertext reply)) ErrAuthFailed;
  let mlkemShared := to_array MLKEM768SharedLen mlkemSharedBytes in
  respIdentity ← (match IdentityFromPublicBytes (kr_StaticPKResponder reply) with
                  | Ok id => mret id | Err _ => alert ErrDecodeError end);
  (match i_Expected i with
   | Some _ =>
       if negb (bytes_eqb (Identity_ID (i_Expected i)) (sha3_256 (kr_StaticPKResponder reply)))
       then alert ErrVMIdentityMismatch else mret tt
   | None => mret tt
   end);;
  let h2 := full_h2 su helloBody kemInitBody replyBody (PublicBytes (i_Local i))
              (kr_StaticPKResponder reply) schemes in
  authRBody ← expect FrameAuth;
  authR ← decoded (DecodeAuth authRBody);
  (if negb (bool_decide (a_Role authR = RoleResponder)) then alert ErrAuthFailed else mret tt);;
  verify respIdentity h2 RoleResponder su (a_Signature authR);;
  mySig ← sign (i_Local i) h2 RoleInitiator su;
  myAuthBody ← checked (AuthFrame_Encode (mkAuth RoleInitiator mySig));
  send_frame FrameAuth myAuthBody;;
  let keys := DeriveSession h2 xShared mlkemShared in
  t ← now;
  returned (newSession RoleInitiator (Identity_ID (Some respIdentity)) su keys t).

Definition Initiator_runResume (i : Initiator) (resume : ClientPSK) (su pqMode : byte) (t0 : Z)
  : M Session :=
  xEphSK ← draw x_generate;
  let xEphPKArr := to_array X25519PubLen (x_public xEphSK) in
  clientRand ← draw (fun e => rand_read e ClientRandLen);
  let helloBody := HelloPSKFrame_Encode
    (mkHelloPSK su pqMode clientRand (u64 t0) (c_ID resume) xEphPKArr) in
  send_frame FrameHelloPSK helloBody;;
  f ← read_frame;
  let '(t, body) := f in
  if bool_decide (t = FrameAlert) then
    a ← (fun st => match DecodeAlert body with Ret r => Ret (r, st) | Panic => Panic end);
    throw (errorForAlert (al_Code a))
  else if negb (bool_decide (t = FrameKEMReply)) || negb (len body =? X25519PubLen)
  then alert ErrDecodeError else
  let respEph := to_array X25519PubLen body in
  (if negb (x_valid_public respEph) then alert ErrDecodeError else mret tt);;
  xSharedBytes ← expect_some (x_ecdh xEphSK respEph) ErrAuthFailed;
  let xShared := to_array X25519SharedLen xSharedBytes in
  let h2psk := psk_h2 su helloBody respEph in
  let keys := DeriveResumed h2psk xShared (c_PSK resume) in
  t ← now;
  returned (newSession RoleInitiator (c_PeerID resume) su keys t).

(** The defaults [Run] fills in. *)
Definition eff_suite (i : Initiator) : byte :=
  if bool_decide (i_Suite i = Byte.x00) then SuiteX25519MLKEM else i_Suite i.
Definition eff_schemes (i : Initiator) : list byte :=
  if len (i_OfferedSchemes i) =? 0 then [eff_suite i] else i_OfferedSchemes i.
Definition eff_pqMode (i : Initiator) : byte :=
  if bool_decide (i_PQMode i = Byte.x00) && strict (i_Profile i) then PQModePQOnly else i_PQMode i.

Definition Initiator_Run (i : Initiator) : M Session :=
  if negb (has_private (i_Local i)) then throw ErrOther else
  if negb (SuiteID_IsValid (eff_suite i)) then throw ErrUnsupportedSuite else
  t0 ← now;
  raw_write hs_Magic;;
  match i_Resume i with
  | Some resume =>
      if t0 <? c_Until resume
      then Initiator_runResume i resume (eff_suite i) (eff_pqMode i) t0
      else Initiator_runFull i (eff_suite i) (eff_pqMode i) (eff_schemes i) t0
  | None => Initiator_runFull i (eff_suite i) (eff_pqMode i) (eff_schemes i) t0
  end.

(** ** Responder *)

Record Responder : Type := mkResponder {
  r_Local : option Identity;
  r_Profile : byte;
  r_AcceptedSuites : list byte
}.

Definition acceptsSuite (rs : Responder) (s : byte) : bool :=
  if negb (SuiteID_IsValid s) then false else
  if len (r_AcceptedSuites rs) =? 0 then bool_decide (s = SuiteX25519MLKEM)
  else bool_decide (s ∈ r_AcceptedSuites rs).

(** [rs.ReplayCache.CheckTimestamp] and then [SeenOrAdd], where there is a
    cache; each reads the clock. *)
Definition replay_gate (timestampNS : Z) (id rand : list byte) : M unit := fun st =>
  match cache st with
  | None => Ret (Ok tt, st)
  | Some c =>
      (t ← now;
       match CheckTimestamp t timestampNS with
       | Some e => alert e
       | None =>
           t ← now;
           (fun st =>
             let '(seen, c) := SeenOrAdd c t id rand in
             if (seen : bool) then alert ErrReplayDetected (set_cache st c)
             else Ret (Ok tt, set_cache st c)) : M unit
       end : M unit) st
  end.

(** [rs.PSKStore.Issue], where there is a store. *)
Definition issue (psk clientID : list byte) : M unit := fun st =>
  match store st with
  | None => Ret (Ok tt, st)
  | Some s => (t ← now; (fun st => Ret (Ok tt, set_store st (Issue PSKID s t psk clientID).2)) : M unit) st
  end.

(** [rs.PSKStore.Redeem]; a nil store and an unknown id are alerted alike. *)
Definition redeem (id : list byte) : M (list byte * list byte) := fun st =>
  match store st with
  | None => alert ErrPSKUnknown st
  | Some s =>
      (t ← now;
       (fun st =>
         let '(r, s) := Redeem s t id in
         match r with
         | None => alert ErrPSKUnknown (set_store st s)
         | Some x => Ret (Ok x, set_store st s)
         end) : M (list byte * list byte)) st
  end.

Definition Responder_runFull (rs : Responder) (helloBody : list byte) : M Session :=
  hello ← decoded (DecodeHello helloBody);
  (if negb (acceptsSuite rs (h_Suite hello)) then alert ErrUnsupportedSuite else mret tt);;
  (if strict (r_Profile rs) && bool_decide (h_PQMode hello = PQModeClassicalPermitted)
   then alert ErrDowngradeRefused else mret tt);;
  (if strict (r_Profile rs) && negb (forallb SuiteID_IsValid (h_OfferedSchemes hello))
   then alert ErrDowngradeRefused else mret tt);;
  replay_gate (h_TimestampNS hello) (h_ClientID hello) (h_ClientRandom hello);;
  (if negb (bytes_eqb (sha3_256 (h_StaticPKInitiator hello)) (h_ClientID hello))
   then alert ErrAuthFailed else mret tt);;
  initIdentity ← (match IdentityFromPublicBytes (h_StaticPKInitiator hello) with
                  | Ok id => mret id | Err _ => alert ErrDecodeError end);
  kemInitBody ← expect FrameKEMInit;
  kemInit ← decoded (DecodeKEMInit kemInitBody);
  xEphSK ← draw x_generate;
  let xEphPKArr := to_array X25519PubLen (x_public xEphSK) in
  (if negb (x_valid_public (ki_X25519EphPub kemInit)) then alert ErrDecodeError else mret tt);;
  xSharedBytes ← expect_some (x_ecdh xEphSK (ki_X25519EphPub kemInit)) ErrAuthFailed;
  let xShared := to_array X25519SharedLen xSharedBytes in
  mlkemPub ← expect_some (k_parse (ki_MLKEMEphPub kemInit)) ErrDecodeError;
  enc ← draw_or (k_encapsulate mlkemPub) ErrAuthFailed;
  let '(mlkemCT, mlkemSharedBytes) := enc in
  (if negb (len mlkemCT =? MLKEM768CTLen) then alert ErrAuthFailed else mret tt);;
  let mlkemCTArr := to_array MLKEM768CTLen mlkemCT in
  let mlkemShared := to_array MLKEM768SharedLen mlkemSharedBytes in
  replyBody ← checked (KEMReplyFrame_Encode
                         (mkKEMReply xEphPKArr mlkemCTArr (PublicBytes (r_Local rs))));
  send_frame FrameKEMReply replyBody;;
  let h2 := full_h2 (h_Suite hello) helloBody kemInitBody replyBody (h_StaticPKInitiator hello)
              (PublicBytes (r_Local rs)) (h_OfferedSchemes hello) in
  mySig ← sign (r_Local rs) h2 RoleResponder (h_Suite hello);
  myAuthBody ← checked (AuthFrame_Encode (mkAuth RoleResponder mySig));
  send_frame FrameAuth myAuthBody;;
  authIBody ← expect FrameAuth;
  authI ← decoded (DecodeAuth authIBody);
  (if negb (bool_decide (a_Role authI = RoleInitiator)) then alert ErrAuthFailed else mret tt);;
  verify initIdentity h2 RoleInitiator (h_Suite hello) (a_Signature authI);;
  let keys := DeriveSession h2 xShared mlkemShared in
  issue (ResumptionPSK keys) (Identity_ID (Some initIdentity));;
  t ← now;
  returned (newSession RoleResponder (Identity_ID (Some initIdentity)) (h_Suite hello) keys t).

Definition Responder_runResume (rs : Responder) (helloBody : list byte) : M Session :=
  hello ← decoded (DecodeHelloPSK helloBody);
  (if negb (acceptsSuite rs (hp_Suite hello)) then alert ErrUnsupportedSuite else mret tt);;
  (if strict (r_Profile rs) && bool_decide (hp_PQMode hello = PQModeClassicalPermitted)
   then alert ErrDowngradeRefused else mret tt);;
  replay_gate (hp_TimestampNS hello) (to_array IDLen (sha3_256 (hp_PSKID hello)))
    (hp_ClientRandom hello);;
  rd ← redeem (hp_PSKID hello);
  let '(psk, clientID) := rd in
  xEphSK ← draw x_generate;
  let xEphPKArr := to_array X25519PubLen (x_public xEphSK) in
  (if negb (x_valid_public (hp_X25519EphPub hello)) then alert ErrDecodeError else mret tt);;
  xSharedBytes ← expect_some (x_ecdh xEphSK (hp_X25519EphPub hello)) ErrAuthFailed;
  let xShared := to_array X25519SharedLen xSharedBytes in
  send_frame FrameKEMReply xEphPKArr;;
  let h2psk := psk_h2 (hp_Suite hello) helloBody xEphPKArr in
  let keys := DeriveResumed h2psk xShared psk in
  issue (ResumptionPSK keys) clientID;;
  t ← now;
  returned (newSession RoleResponder clientID (hp_Suite hello) keys t).

Definition Responder_Run (rs : Responder) : M Session := fun st =>
  if negb (has_private (r_Local rs)) then throw ErrOther st else
  if strict (r_Profile rs) && negb (bool_decide (is_Some (cache st))) then throw ErrOther st else
  ((magic ← read_bytes MagicLen;
   if negb (bytes_eqb magic hs_Magic) then throw ErrMagicMismatch else
   f ← read_frame;
   let '(t, body) := f in
   if bool_decide (t = FrameHello) then Responder_runFull rs body else
   if bool_decide (t = FrameHelloPSK) then Responder_runResume rs body else
   if bool_decide (t = FrameAlert) then
     a ← ((fun st => match DecodeAlert body with Ret r => Ret (r, st) | Panic => Panic end) : M AlertFrame);
     throw (errorForAlert (al_Code a))
   else alert ErrDecodeError) : M Session) st.
End run.

(** ** Taking successful runs apart *)

Section inversion.
Context {C : Crypto}.
Context (text : hs_error -> list byte).

(** On its way from [st] to [st'] the run wrote the chunks [ks] and read [rd]. *)
Definition io (st : St) (ks : list (list byte)) (rd : list byte) (st' : St) : Prop :=
  rx (conn st) = rd ++ rx (conn st')
  /\ (conn_ok (conn st) ->
      conn_ok (conn st') /\ calls (tx (conn st')) = calls (tx (conn st)) ++ ks).

Lemma io_nil st st' :
  rx (conn st') = rx (conn st) -> tx (conn st') = tx (conn st) -> bufs (conn st') = bufs (conn st) ->
  io st [] [] st'.
Proof. unfold io, conn_ok; intros -> -> ->; rewrite app_nil_r; done. Qed.

Lemma io_app st1 ks rd st2 ks' rd' st3 :
  io st1 ks rd st2 -> io st2 ks' rd' st3 -> io st1 (ks ++ ks') (rd ++ rd') st3.
Proof.
  intros [R1 H1] [R2 H2]; split; [rewrite R1, R2, app_assoc; done|intros Hc].
  destruct (H1 Hc) as [Hc2 E2], (H2 Hc2) as [Hc3 E3].
  split; [done|rewrite E3, E2, app_assoc; done].
Qed.

Lemma bind_inv {A B} (m : M A) (k : A -> M B) st b st' :
  (m ≫= k) st = Ret (Ok b, st') ->
  exists a st1, m st = Ret (Ok a, st1) /\ k a st1 = Ret (Ok b, st').
Proof.
  unfold mbind, M_bind; destruct (m st) as [[[a|e] st1]|]; try done; eauto.
Qed.

Lemma alert_inv {A} e st (a : A) st' : alert text e st = Ret (Ok a, st') -> False.
Proof. unfold alert; destruct (conn_alert text (conn st) e); congruence. Qed.

Lemma guard_inv (b : bool) e st u st' :
  (if b then alert text e else mret tt) st = Ret (Ok u, st') -> b = false /\ st' = st.
Proof. destruct b; [intros []%alert_inv|]; unfold mret, M_ret; intros; simplify_eq; done. Qed.

Lemma decoded_inv {A} (d : outcome (result A hs_error)) st a st' :
  decoded text d st = Ret (Ok a, st') -> d = Ret (Ok a) /\ st' = st.
Proof.
  unfold decoded; destruct d as [[x|e]|]; [|intros []%alert_inv|done]; intros; simplify_eq; done.
Qed.

Lemma expect_some_inv {A} (o : option A) e st a st' :
  expect_some text o e st = Ret (Ok a, st') -> o = Some a /\ st' = st.
Proof.
  destruct o; [|intros []%alert_inv]; unfold expect_some, mret, M_ret; intros; simplify_eq; done.
Qed.

Lemma returned_inv {A} (r : result A hs_error) st a st' :
  returned r st = Ret (Ok a, st') -> r = Ok a /\ st' = st.
Proof. unfold returned; intros; simplify_eq; done. Qed.

Lemma draw_inv {A} (f : entropy -> option A * entropy) st a st' :
  draw f st = Ret (Ok a, st') -> io st [] [] st' /\ cache st' = cache st /\ store st' = store st
    /\ (f (ent st)).1 = Some a.
Proof.
  unfold draw; destruct (f (ent st)) as [[x|] e]; intros; simplify_eq; simpl.
  split; [apply io_nil; done|done].
Qed.

Lemma draw_or_inv {A} (f : entropy -> option A * entropy) e st a st' :
  draw_or text f e st = Ret (Ok a, st') -> io st [] [] st' /\ cache st' = cache st
    /\ store st' = store st /\ (f (ent st)).1 = Some a.
Proof.
  unfold draw_or; destruct (f (ent st)) as [[x|] e']; [|intros []%alert_inv]; intros; simplify_eq; simpl.
  split; [apply io_nil; done|done].
Qed.

Lemma now_inv st t st' : now st = Ret (Ok t, st') -> io st [] [] st' /\ cache st' = cache st /\ store st' = store st.
Proof. unfold now; intros; simplify_eq; split; [apply io_nil; done|done]. Qed.

Lemma send_frame_inv t body st u st' :
  send_frame t body st = Ret (Ok u, st') ->
  io st [frame_bytes t body] [] st' /\ cache st' = cache st /\ store st' = store st.
Proof.
  unfold send_frame; destruct (conn_write (conn st) t body) as [[[[]|e] c]|] eqn:E;
    intros; simplify_eq; split; [|done].
  split; [unfold conn_write in E; destruct (writeFrame _ _ _ _) as [[[? ?] ?]|]; [injection E as _ <-|]; done|].
  intros Hc; simpl.
  destruct (Z_le_gt_dec (len body) MaxFrameBody) as [Hl|Hl].
  - destruct (broken (tx (conn st))) eqn:Hb.
    + destruct (conn_write_broken _ t body Hc Hb Hl) as (c' & Hw & _); congruence.
    + destruct (conn_write_healthy _ t body Hc Hb Hl) as (c' & Hw & Hc' & _ & Ht).
      rewrite E in Hw; simplify_eq; rewrite Ht; done.
  - unfold conn_write, writeFrame in E; replace (MaxFrameBody <? len body) with true in E by lia.
    simplify_eq.
Qed.

Lemma expect_inv want st body st' :
  expect want st = Ret (Ok body, st') ->
  io st [] (frame_bytes want body) st' /\ cache st' = cache st /\ store st' = store st.
Proof.
  unfold expect, expectFrame; destruct (readFrame (rx (conn st))) as [[[[t b]|e] r]|] eqn:E; try done.
  cbn [mbind outcome_bind]; case_if.
  - destruct (DecodeAlert b) as [[a|e]|]; simpl; congruence.
  - case_if; [congruence|]; intros; simplify_eq; split; [|done].
    rewrite bool_decide_eq_true in *; subst t; apply readFrame_inv in E as [Hr _].
    split; [done|]; rewrite app_nil_r; done.
Qed.

Lemma sign_inv id h2 r su st sig st' :
  sign text id h2 r su st = Ret (Ok sig, st') -> io st [] [] st' /\ cache st' = cache st /\ store st' = store st.
Proof.
  unfold sign; destruct (Sign id (ent st) h2 r su) as [[s|e] e']; [|intros []%alert_inv].
  intros; simplify_eq; split; [apply io_nil; done|done].
Qed.

Lemma verify_inv id h2 r su sig st u st' :
  verify text id h2 r su sig st = Ret (Ok u, st') -> VerifyAuth (Some id) h2 r su sig = None /\ st' = st.
Proof.
  unfold verify; destruct (VerifyAuth _ _ _ _ _); [intros []%alert_inv|].
  unfold mret, M_ret; intros; simplify_eq; done.
Qed.

Lemma identity_inv pub st id st' :
  (match IdentityFromPublicBytes pub with Ok id => mret id | Err _ => alert text ErrDecodeError end) st
  = Ret (Ok id, st') ->
  exists pk, s_parse pub = Some pk /\ id = mkIdentity (Some pk) None /\ st' = st.
Proof.
  unfold IdentityFromPublicBytes; destruct (s_parse pub) as [pk|]; [|intros []%alert_inv].
  unfold mret, M_ret; intros; simplify_eq; eauto.
Qed.

(** The two gates, each with its own reading of the clock. *)
Lemma replay_gate_inv ts id rand st u st' :
  replay_gate text ts id rand st = Ret (Ok u, st') ->
  io st [] [] st' /\ store st' = store st /\ clock st' = clock st /\
  match cache st with
  | None => cache st' = None
  | Some c => exists c', CheckTimestamp (clock st (ticks st)) ts = None
      /\ SeenOrAdd c (clock st (S (ticks st))) id rand = (false, c') /\ cache st' = Some c'
  end.
Proof.
  unfold replay_gate; destruct (cache st) as [c|] eqn:Ec;
    [|intros; simplify_eq; rewrite Ec; split; [apply io_nil; done|done]].
  unfold mbind, M_bind, now; simpl; destruct (CheckTimestamp _ ts) eqn:Et; [intros []%alert_inv|].
  simpl; destruct (SeenOrAdd c _ id rand) as [[] c'] eqn:Es; [intros []%alert_inv|].
  intros; simplify_eq; split; [apply io_nil; done|split; [done|split; [done|]]]; exists c'; done.
Qed.

Lemma issue_inv psk cid st u st' :
  issue psk cid st = Ret (Ok u, st') ->
  io st [] [] st' /\ cache st' = cache st
  /\ store st' = (fun p => (Issue PSKID p (clock st (ticks st)) psk cid).2) <$> store st.
Proof.
  unfold issue; destruct (store st) as [s|] eqn:E; unfold mbind, M_bind, now; simpl;
    intros; simplify_eq; split; try done; apply io_nil; done.
Qed.

Lemma redeem_inv id st x st' :
  redeem text id st = Ret (Ok x, st') ->
  io st [] [] st' /\ cache st' = cache st /\
  exists p p', store st = Some p /\ Redeem p (clock st (ticks st)) id = (Some x, p')
    /\ store st' = Some p'.
Proof.
  unfold redeem; destruct (store st) as [p|]; [|intros []%alert_inv].
  unfold mbind, M_bind, now; simpl; destruct (Redeem p _ id) as [[r|] p'] eqn:Er; [|intros []%alert_inv].
  intros; simplify_eq; split; [apply io_nil; done|split; [done|]]; exists p, p'; done.
Qed.

(** A session over given keys. *)
Lemma newSession_inv r peer su keys t s :
  newSession r peer su keys t = Ok s ->
  peerID s = peer /\ suite s = su /\ role s = r /\ closed s = false
  /\ (r = RoleInitiator -> sendKey s = KInitToResp keys /\ recvKey s = KRespToInit keys)
  /\ (r = RoleResponder -> sendKey s = KRespToInit keys /\ recvKey s = KInitToResp keys).
Proof.
  unfold newSession; repeat case_if; try done; rewrite ?bool_decide_eq_true, ?bool_decide_eq_false in *;
    unfold newAEAD; repeat case_if; intros; simplify_eq; split_and!; try done.
Qed.
End inversion.

(** ** Properties of the initiator and the responder *)

Section properties.
Context {C : Crypto} {CL : CryptoLaws}.
Context (text : hs_error -> list byte).

(** Take the head of a successful run off. *)
#[local] Ltac step H a st :=
  let Hm := fresh "Hm" in
  apply bind_inv in H; destruct H as (a & st & Hm & H).

(** The shared secrets [x] and [m] come from key pairs of the initiator's own,
    whose public halves are in its KEM_INIT [init], and from the reply. *)
Definition initiator_secrets (init : list byte) (reply : KEMReplyFrame) (x m : list byte) : Prop :=
  exists xsk kpk ksk xs ms e, (k_generate e).1 = Some (kpk, ksk)
    /\ init = KEMInitFrame_Encode (mkKEMInit (to_array X25519PubLen (x_public xsk))
                                            (to_array MLKEM768PubLen (k_bytes kpk)))
    /\ x_ecdh xsk (kr_X25519EphPub reply) = Some xs /\ x = to_array X25519SharedLen xs
    /\ k_decapsulate ksk (kr_MLKEMCiphertext reply) = Some ms /\ m = to_array MLKEM768SharedLen ms.

(** C4: the initiator authenticates the responder. Whatever the peer sends, a
    full handshake returns a session only after it has written HELLO, KEM_INIT
    and its AUTH, has read exactly a KEM_REPLY and an AUTH, and the signature in
    that AUTH, over this connection's own transcript (the frames written and
    read, both static keys, the schemes offered), verified under the reply's key
    in the responder's role. The session's peer is the hash of that key, and the
    pinned identity where one was given; its keys are derived from that
    transcript and from secrets agreed with key pairs of the initiator's own. *)
Theorem initiator_authenticates i su pqMode schemes t0 st s st' :
  conn_ok (conn st) -> Initiator_runFull text i su pqMode schemes t0 st = Ret (Ok s, st') ->
  exists hello init replyBody reply authR sig pk auth x m,
    calls (tx (conn st')) = calls (tx (conn st))
      ++ [frame_bytes FrameHello hello; frame_bytes FrameKEMInit init; frame_bytes FrameAuth auth]
    /\ rx (conn st) = frame_bytes FrameKEMReply replyBody ++ frame_bytes FrameAuth authR ++ rx (conn st')
    /\ DecodeKEMReply replyBody = Ret (Ok reply) /\ kr_StaticPKResponder reply = s_bytes pk
    /\ DecodeAuth authR = Ret (Ok (mkAuth RoleResponder sig)) /\ initiator_secrets init reply x m
    /\ let h2 := full_h2 su hello init replyBody (PublicBytes (i_Local i)) (s_bytes pk) schemes in
       s_verify pk (signInput h2 RoleResponder su) sig SignCtx = true
       /\ peerID s = sha3_256 (s_bytes pk)
       /\ (forall id, i_Expected i = Some id -> peerID s = Identity_ID (Some id))
       /\ sendKey s = KInitToResp (DeriveSession h2 x m)
       /\ recvKey s = KRespToInit (DeriveSession h2 x m).
Proof.
  intros Hc H; unfold Initiator_runFull in H.
  step H rnd q1; apply draw_inv in Hm as (I1 & _).
  step H hello q2; apply returned_inv in Hm as [_ ->].
  step H v1 q3; apply send_frame_inv in Hm as (I2 & _).
  step H xsk q4; apply draw_inv in Hm as (I3 & _).
  step H kem q5; apply draw_inv in Hm as (I4 & _ & _ & Hgen); destruct kem as [kpub kpriv].
  step H v2 q6; apply send_frame_inv in Hm as (I5 & _); remember (KEMInitFrame_Encode _) as init eqn:Einit in H, I5.
  step H replyBody q7; apply expect_inv in Hm as (I6 & _).
  step H reply q8; apply decoded_inv in Hm as [Hreply ->].
  step H v3 q9; apply guard_inv in Hm as [_ ->].
  step H xs q10; apply expect_some_inv in Hm as [Hxs ->].
  step H ms q11; apply expect_some_inv in Hm as [Hms ->].
  step H rid q12; apply identity_inv in Hm as (pk & Hpk & -> & ->).
  assert (Hbytes : kr_StaticPKResponder reply = s_bytes pk) by (symmetry; apply s_bytes_parse; done).
  rewrite Hbytes in H.
  step H v4 q13; assert (Hexp : q13 = q7 /\ forall id, i_Expected i = Some id ->
    sha3_256 (s_bytes pk) = Identity_ID (Some id)).
  { destruct (i_Expected i) as [id|]; [|unfold mret, M_ret in Hm; simplify_eq; done].
    apply guard_inv in Hm as [Hb ->]; split; [done|]; intros id' [= <-].
    apply negb_false_iff, bool_decide_eq_true in Hb; done. }
  destruct Hexp as [-> Hexp]; clear Hm.
  step H authBody q14; apply expect_inv in Hm as (I7 & _).
  step H auth q15; apply decoded_inv in Hm as [Hauth ->]; destruct auth as [ar sig].
  step H v5 q16; apply guard_inv in Hm as [Har ->]; apply negb_false_iff, bool_decide_eq_true in Har.
  simpl in Har; subst ar.
  step H v6 q17; apply verify_inv in Hm as [Hver ->].
  step H mySig q18; apply sign_inv in Hm as (I8 & _).
  step H myAuth q19; unfold checked in Hm; apply decoded_inv in Hm as [_ ->].
  step H v7 q20; apply send_frame_inv in Hm as (I9 & _).
  step H t q21; apply now_inv in Hm as (I10 & _); apply returned_inv in H as [H ->].
  apply newSession_inv in H as (Hpeer & _ & _ & _ & Hkeys & _).
  destruct (Hkeys eq_refl) as [Hk1 Hk2].
  destruct (io_app _ _ _ _ _ _ _ I1 (io_app _ _ _ _ _ _ _ I2 (io_app _ _ _ _ _ _ _ I3
    (io_app _ _ _ _ _ _ _ I4 (io_app _ _ _ _ _ _ _ I5 (io_app _ _ _ _ _ _ _ I6 (io_app _ _ _ _ _ _ _ I7
    (io_app _ _ _ _ _ _ _ I8 (io_app _ _ _ _ _ _ _ I9 I10))))))))) as [Hrd Hwr].
  eexists hello, init, replyBody, reply, authBody, sig, pk, myAuth, _, _.
  split; [exact (proj2 (Hwr Hc))|split; [rewrite Hrd; simpl; rewrite !app_nil_r, <- app_assoc; done|]].
  split; [done|split; [done|split; [done|split; [exists xsk, kpub, kpriv, xs, ms; eauto 9|]]]]; cbv zeta.
  unfold VerifyAuth in Hver; repeat case_if; try done.
  split; [done|split; [done|split; [intros id Hid; rewrite Hpeer; apply Hexp; done|]]].
  split; [exact Hk1|exact Hk2].
Qed.

(** The shared secrets [x] and [m] of the responder come from the initiator's
    KEM_INIT and from a key pair and an encapsulation of the responder's own,
    whose public halves are in its reply. *)
Definition responder_secrets (rs : Responder) (init : list byte) (replyBody x m : list byte) : Prop :=
  exists ki xsk kpk ct xs ms e, DecodeKEMInit init = Ret (Ok ki)
    /\ KEMReplyFrame_Encode (mkKEMReply (to_array X25519PubLen (x_public xsk)) (to_array MLKEM768CTLen ct)
                               (PublicBytes (r_Local rs))) = Ok replyBody
    /\ x_ecdh xsk (ki_X25519EphPub ki) = Some xs /\ x = to_array X25519SharedLen xs
    /\ k_parse (ki_MLKEMEphPub ki) = Some kpk /\ (k_encapsulate kpk e).1 = Some (ct, ms)
    /\ m = to_array MLKEM768SharedLen ms.

(** Everything a successful full run of the responder has established. *)
Lemma runFull_inv rs helloBody st s st' :
  Responder_runFull text rs helloBody st = Ret (Ok s, st') ->
  exists hello init replyBody authI sig pk auth x m,
    DecodeHello helloBody = Ret (Ok hello) /\ acceptsSuite rs (h_Suite hello) = true
    /\ (strict (r_Profile rs) && bool_decide (h_PQMode hello = PQModeClassicalPermitted)) = false
    /\ (strict (r_Profile rs) && negb (forallb SuiteID_IsValid (h_OfferedSchemes hello))) = false
    /\ io st [frame_bytes FrameKEMReply replyBody; frame_bytes FrameAuth auth]
         (frame_bytes FrameKEMInit init ++ frame_bytes FrameAuth authI) st'
    /\ DecodeAuth authI = Ret (Ok (mkAuth RoleInitiator sig)) /\ responder_secrets rs init replyBody x m
    /\ h_StaticPKInitiator hello = s_bytes pk /\ sha3_256 (s_bytes pk) = h_ClientID hello
    /\ (let h2 := full_h2 (h_Suite hello) helloBody init replyBody (s_bytes pk)
                    (PublicBytes (r_Local rs)) (h_OfferedSchemes hello) in
        s_verify pk (signInput h2 RoleInitiator (h_Suite hello)) sig SignCtx = true
        /\ peerID s = sha3_256 (s_bytes pk) /\ suite s = h_Suite hello
        /\ sendKey s = KRespToInit (DeriveSession h2 x m)
        /\ recvKey s = KInitToResp (DeriveSession h2 x m))
    /\ forall c, cache st = Some c -> exists c',
         CheckTimestamp (clock st (ticks st)) (h_TimestampNS hello) = None
         /\ SeenOrAdd c (clock st (S (ticks st))) (h_ClientID hello) (h_ClientRandom hello) = (false, c')
         /\ cache st' = Some c'.
Proof.
  intros H; unfold Responder_runFull in H.
  step H hello q1; apply decoded_inv in Hm as [Hhello ->].
  step H v1 q2; apply guard_inv in Hm as [Hsu ->]; apply negb_false_iff in Hsu.
  step H v2 q3; apply guard_inv in Hm as [Hmode ->].
  step H v3 q4; apply guard_inv in Hm as [Hsch ->].
  step H v4 q5; apply replay_gate_inv in Hm as (I1 & _ & _ & Hg).
  step H v5 q6; apply guard_inv in Hm as [Hid ->].
  step H iid q7; apply identity_inv in Hm as (pk & Hpk & -> & ->).
  assert (Hbytes : h_StaticPKInitiator hello = s_bytes pk) by (symmetry; apply s_bytes_parse; done).
  apply negb_false_iff, bool_decide_eq_true in Hid; rewrite Hbytes in H, Hid.
  step H init q8; apply expect_inv in Hm as (I2 & C1 & _).
  step H kemInit q9; apply decoded_inv in Hm as [Hki ->].
  step H xsk q10; apply draw_inv in Hm as (I3 & C2 & _).
  step H v6 q11; apply guard_inv in Hm as [_ ->].
  step H xs q12; apply expect_some_inv in Hm as [Hxs ->].
  step H kpub q13; apply expect_some_inv in Hm as [Hkp ->].
  step H encr q14; apply draw_or_inv in Hm as (I4 & C3 & _ & Henc); destruct encr as [ct ss].
  step H v7 q15; apply guard_inv in Hm as [_ ->].
  step H replyBody q16; unfold checked in Hm; apply decoded_inv in Hm as [[= Hrep] ->].
  step H v8 q17; apply send_frame_inv in Hm as (I5 & C4 & _).
  step H mySig q18; apply sign_inv in Hm as (I6 & C5 & _).
  step H myAuth q19; unfold checked in Hm; apply decoded_inv in Hm as [_ ->].
  step H v9 q20; apply send_frame_inv in Hm as (I7 & C6 & _).
  step H authBody q21; apply expect_inv in Hm as (I8 & C7 & _).
  step H auth q22; apply decoded_inv in Hm as [Hauth ->]; destruct auth as [ar sig].
  step H v10 q23; apply guard_inv in Hm as [Har ->]; apply negb_false_iff, bool_decide_eq_true in Har.
  simpl in Har; subst ar.
  step H v11 q24; apply verify_inv in Hm as [Hver ->].
  step H v12 q25; apply issue_inv in Hm as (I9 & C8 & _).
  step H t q26; apply now_inv in Hm as (I10 & C9 & _); apply returned_inv in H as [H ->].
  apply newSession_inv in H as (Hpeer & Hsuite & _ & _ & _ & Hkeys); destruct (Hkeys eq_refl) as [Hk1 Hk2].
  pose proof (io_app _ _ _ _ _ _ _ I1 (io_app _ _ _ _ _ _ _ I2 (io_app _ _ _ _ _ _ _ I3
    (io_app _ _ _ _ _ _ _ I4 (io_app _ _ _ _ _ _ _ I5 (io_app _ _ _ _ _ _ _ I6 (io_app _ _ _ _ _ _ _ I7
    (io_app _ _ _ _ _ _ _ I8 (io_app _ _ _ _ _ _ _ I9 I10))))))))) as Hio.
  eexists hello, init, replyBody, authBody, sig, pk, myAuth, _, _.
  do 4 (split; [done|]); split; [simpl in Hio; rewrite !app_nil_r in Hio; exact Hio|split; [done|]].
  split; [exists kemInit, xsk, kpub, ct, xs, ss; eauto 12|split; [done|split; [done|split]]].
  - cbv zeta; unfold VerifyAuth in Hver; repeat case_if; done.
  - intros c Hc; rewrite Hc in Hg; destruct Hg as (c' & ? & ? & ?).
    exists c'; split; [done|split; [done|congruence]].
Qed.

(** C5: the responder authenticates the initiator. A full handshake returns a
    session only after it has written KEM_REPLY and its AUTH and has read, behind
    the HELLO, exactly a KEM_INIT and an AUTH; the HELLO's client id is the hash
    of the key it carries, and the signature in that AUTH, over this connection's
    own transcript (the frames read and written, both static keys, the schemes
    offered), verified under that key in the initiator's role. The session's peer
    is that id; its keys are derived from that transcript and from secrets agreed
    with the responder's own key pair and encapsulation. *)
Theorem responder_authenticates rs helloBody st s st' :
  conn_ok (conn st) -> Responder_runFull text rs helloBody st = Ret (Ok s, st') ->
  exists hello init replyBody authI sig pk auth x m,
    DecodeHello helloBody = Ret (Ok hello)
    /\ calls (tx (conn st')) = calls (tx (conn st))
         ++ [frame_bytes FrameKEMReply replyBody; frame_bytes FrameAuth auth]
    /\ rx (conn st) = (frame_bytes FrameKEMInit init ++ frame_bytes FrameAuth authI) ++ rx (conn st')
    /\ h_StaticPKInitiator hello = s_bytes pk /\ h_ClientID hello = sha3_256 (s_bytes pk)
    /\ DecodeAuth authI = Ret (Ok (mkAuth RoleInitiator sig)) /\ responder_secrets rs init replyBody x m
    /\ let h2 := full_h2 (h_Suite hello) helloBody init replyBody (s_bytes pk)
                   (PublicBytes (r_Local rs)) (h_OfferedSchemes hello) in
       s_verify pk (signInput h2 RoleInitiator (h_Suite hello)) sig SignCtx = true
       /\ peerID s = h_ClientID hello
       /\ sendKey s = KRespToInit (DeriveSession h2 x m)
       /\ recvKey s = KInitToResp (DeriveSession h2 x m).
Proof.
  intros Hc H; apply runFull_inv in H as (hello & init & replyBody & authI & sig & pk & auth & x & m & Hd
    & _ & _ & _ & [Hrd Hwr] & Hau & Hsec & Hpk & Hid & (Hver & Hpeer & _ & Hk1 & Hk2) & _).
  exists hello, init, replyBody, authI, sig, pk, auth, x, m; cbv zeta; rewrite Hpeer.
  split_and!; try done; apply (Hwr Hc).
Qed.

(** What a strict responder has checked about the first frame [t], [body], by
    the clock readings [t1] and [t2] and its replay cache [c]. *)
Definition strict_checks (t : byte) (body : list byte) (c : ReplayCache) (t1 t2 : Z)
  (c' : ReplayCache) (su : byte) : Prop :=
  SuiteID_IsValid su = true /\
  ((t = FrameHello /\ exists h, DecodeHello body = Ret (Ok h) /\ h_Suite h = su
      /\ h_PQMode h <> PQModeClassicalPermitted
      /\ forallb SuiteID_IsValid (h_OfferedSchemes h) = true
      /\ CheckTimestamp t1 (h_TimestampNS h) = None
      /\ SeenOrAdd c t2 (h_ClientID h) (h_ClientRandom h) = (false, c'))
   \/ (t = FrameHelloPSK /\ exists h, DecodeHelloPSK body = Ret (Ok h) /\ hp_Suite h = su
      /\ hp_PQMode h <> PQModeClassicalPermitted
      /\ CheckTimestamp t1 (hp_TimestampNS h) = None
      /\ SeenOrAdd c t2 (to_array IDLen (sha3_256 (hp_PSKID h))) (hp_ClientRandom h) = (false, c'))).

Lemma acceptsSuite_valid rs su : acceptsSuite rs su = true -> SuiteID_IsValid su = true.
Proof. unfold acceptsSuite; case_if; done. Qed.

Lemma strict_guard (p : byte) (x : bool) : strict p = true -> strict p && x = false -> x = false.
Proof. intros ->; done. Qed.

Lemma runFull_strict rs body c st s st' :
  strict (r_Profile rs) = true -> cache st = Some c ->
  Responder_runFull text rs body st = Ret (Ok s, st') ->
  exists c', strict_checks FrameHello body c (clock st (ticks st)) (clock st (S (ticks st))) c' (suite s)
    /\ cache st' = Some c'.
Proof.
  intros Hst Hca H; apply runFull_inv in H as (hello & init & replyBody & authI & sig & pk & auth & x & m & Hd
    & Hsu & Hmode & Hsch & _ & _ & _ & _ & _ & (_ & _ & Hsuite & _) & Hg).
  destruct (Hg c Hca) as (c' & Hts & Hseen & Hc'); exists c'; split; [|done].
  apply strict_guard in Hmode, Hsch; try done; rewrite bool_decide_eq_false in Hmode.
  apply negb_false_iff in Hsch; split; [rewrite Hsuite; eapply acceptsSuite_valid; eauto|].
  left; split; [done|]; exists hello; split_and!; done.
Qed.

(** What a resumed run has done: it redeemed the id presented by a reading of
    its clock, answered with an ephemeral key of its own, derived the keys from
    the redeemed secret, the shared secret and the transcript of the two frames,
    and issued the next secret to the same client. *)
Definition resumes (body : list byte) (h : HelloPSKFrame) (st st' : St) (s : Session) : Prop :=
  exists p p' psk cid xsk xs n t,
    let eph := to_array X25519PubLen (x_public xsk) in
    let keys := DeriveResumed (psk_h2 (hp_Suite h) body eph) (to_array X25519SharedLen xs) psk in
    store st = Some p /\ Redeem p (clock st n) (hp_PSKID h) = (Some (psk, cid), p')
    /\ x_ecdh xsk (hp_X25519EphPub h) = Some xs /\ io st [frame_bytes FrameKEMReply eph] [] st'
    /\ peerID s = cid /\ recvKey s = KInitToResp keys /\ sendKey s = KRespToInit keys
    /\ store st' = Some (Issue PSKID p' t (ResumptionPSK keys) cid).2.

Lemma runResume_inv rs body st s st' :
  Responder_runResume text rs body st = Ret (Ok s, st') ->
  exists h, DecodeHelloPSK body = Ret (Ok h) /\ suite s = hp_Suite h
    /\ acceptsSuite rs (hp_Suite h) = true
    /\ (strict (r_Profile rs) && bool_decide (hp_PQMode h = PQModeClassicalPermitted)) = false
    /\ resumes body h st st' s
    /\ forall c, cache st = Some c -> exists c', CheckTimestamp (clock st (ticks st)) (hp_TimestampNS h) = None
       /\ SeenOrAdd c (clock st (S (ticks st))) (to_array IDLen (sha3_256 (hp_PSKID h))) (hp_ClientRandom h)
          = (false, c') /\ cache st' = Some c'.
Proof.
  intros H; unfold Responder_runResume in H.
  step H hello q1; apply decoded_inv in Hm as [Hhello ->].
  step H v1 q2; apply guard_inv in Hm as [Hsu ->]; apply negb_false_iff in Hsu.
  step H v2 q3; apply guard_inv in Hm as [Hmode ->].
  step H v3 q4; apply replay_gate_inv in Hm as (I1 & Hst4 & Hck & Hg).
  step H rdm q5; apply redeem_inv in Hm as (I2 & C1 & p & p' & Hp & Hred & Hp'); destruct rdm as [psk cid].
  step H xsk q6; apply draw_inv in Hm as (I3 & C2 & S1 & _).
  step H v4 q7; apply guard_inv in Hm as [_ ->].
  step H xs q8; apply expect_some_inv in Hm as [Hxs ->].
  step H v5 q9; apply send_frame_inv in Hm as (I4 & C3 & S2).
  step H v6 q10; apply issue_inv in Hm as (I5 & C4 & S3).
  step H t q11; apply now_inv in Hm as (I6 & C5 & S4); apply returned_inv in H as [H ->].
  apply newSession_inv in H as (Hpeer & Hsuite & _ & _ & _ & Hk); destruct (Hk eq_refl) as [Hk1 Hk2].
  exists hello; do 4 (split; [done|]); split.
  - rewrite Hck in Hred; rewrite S2, S1, Hp' in S3.
    eexists p, p', psk, cid, xsk, xs, _, _; cbv zeta; split; [congruence|].
    split; [exact Hred|split; [done|split; [|split; [done|split; [done|split; [done|rewrite S4; exact S3]]]]]].
    exact (io_app _ _ _ _ _ _ _ I1 (io_app _ _ _ _ _ _ _ I2 (io_app _ _ _ _ _ _ _ I3
      (io_app _ _ _ _ _ _ _ I4 (io_app _ _ _ _ _ _ _ I5 I6))))).
  - intros c Hc; rewrite Hc in Hg; destruct Hg as (c' & ? & ? & Hc'); exists c'; split_and!; congruence.
Qed.

(** C31: a strict responder is strict. Under the StrictPQ and FIPS profiles,
    whatever the peer sends, [Run] returns a session only if there is a replay
    cache, the stream starts with the magic prefix and a HELLO or HELLO_PSK that
    does not permit classical cryptography (and offers only post-quantum suites),
    the suite is a post-quantum one, and both replay gates admitted the frame. *)
Theorem strict_responder_policy rs st s st' :
  strict (r_Profile rs) = true -> Responder_Run text rs st = Ret (Ok s, st') ->
  exists c c' t body r, cache st = Some c /\ cache st' = Some c'
    /\ rx (conn st) = hs_Magic ++ frame_bytes t body ++ r
    /\ strict_checks t body c (clock st (ticks st)) (clock st (S (ticks st))) c' (suite s).
Proof.
  intros Hst; unfold Responder_Run; case_if; [done|]; rewrite Hst; simpl andb.
  destruct (cache st) as [c|] eqn:Ec; [|done]; rewrite bool_decide_eq_true_2 by eauto; simpl negb.
  cbv iota; intros H; step H magic q1; unfold read_bytes, ReadFull in Hm.
  destruct (len (rx (conn st)) <? MagicLen); [done|]; injection Hm as <- <-.
  destruct (negb (bytes_eqb (sub (rx (conn st)) 0 MagicLen) hs_Magic)) eqn:Emagic; [done|].
  apply negb_false_iff, bool_decide_eq_true in Emagic.
  step H f q2; destruct f as [t body]; unfold read_frame in Hm; cbn [conn rx set_rx set_conn] in Hm.
  destruct (readFrame _) as [[[[t' b']|e] r]|] eqn:Er; try done; injection Hm as -> -> <-.
  apply readFrame_inv in Er as [Hr Hmax].
  assert (Hrx : rx (conn st) = hs_Magic ++ frame_bytes t body ++ r).
  { rewrite <- Hr, <- Emagic; unfold sub; rewrite drop_0, take_drop; done. }
  exists c; destruct (bool_decide (t = FrameHello)) eqn:E1;
    [|destruct (bool_decide (t = FrameHelloPSK)) eqn:E2; [|destruct (bool_decide (t = FrameAlert))]];
    rewrite ?bool_decide_eq_true in *.
  - subst t; apply (runFull_strict rs body c) in H as (c' & Hs & Hc'); [|done|done].
    exists c', FrameHello, body, r; split_and!; done.
  - subst t; apply runResume_inv in H as (h & Hd & Hsu & Hacc & Hmode & _ & Hg).
    destruct (Hg c Ec) as (c' & Hts & Hseen & Hc'); apply strict_guard in Hmode; [|done].
    rewrite bool_decide_eq_false in Hmode; exists c', FrameHelloPSK, body, r.
    split; [done|split; [done|split; [done|split]]]; [rewrite Hsu; eapply acceptsSuite_valid; eauto|].
    right; split; [done|]; exists h; split_and!; done.
  - step H a q3; done.
  - apply alert_inv in H as [].
Qed.

(** C32: a resumed session comes from a key of the store. A responder returns a
    resumed session only after redeeming, by a reading of its clock, the
    presented id, which cannot be redeemed from that store again; the session's
    peer is the client the key was issued to, its keys are derived from that key,
    the shared secret and the transcript of the HELLO_PSK and the one reply it
    wrote, and the secret for the next resumption is issued to the same client. *)
Theorem resumption_needs_redeemed_psk rs body st s st' :
  Responder_runResume text rs body st = Ret (Ok s, st') ->
  exists h p p' psk cid xsk xs n t,
    let eph := to_array X25519PubLen (x_public xsk) in
    let keys := DeriveResumed (psk_h2 (hp_Suite h) body eph) (to_array X25519SharedLen xs) psk in
    DecodeHelloPSK body = Ret (Ok h) /\ store st = Some p
    /\ Redeem p (clock st n) (hp_PSKID h) = (Some (psk, cid), p')
    /\ (forall t', (Redeem p' t' (hp_PSKID h)).1 = None)
    /\ x_ecdh xsk (hp_X25519EphPub h) = Some xs /\ io st [frame_bytes FrameKEMReply eph] [] st'
    /\ peerID s = cid /\ recvKey s = KInitToResp keys /\ sendKey s = KRespToInit keys
    /\ store st' = Some (Issue PSKID p' t (ResumptionPSK keys) cid).2.
Proof.
  intros (h & Hd & _ & _ & _ & (p & p' & psk & cid & xsk & xs & n & t & Hp & Hr & Hrest) & _)%runResume_inv.
  exists h, p, p', psk, cid, xsk, xs, n, t; cbv zeta; do 3 (split; [done|]); split; [|done].
  intros t'; pose proof (Redeem_spent p (clock st n) (hp_PSKID h) t') as He; rewrite Hr in He; done.
Qed.
End properties.
