(* ===== verification/HsHonest.v ===== *)
(** * HsHonest: two honest parties complete the handshake

    A small program logic over the monad of [HsRun]: [runs m v a v'] says that
    from any state that looks like [v] the step returns [a] and the state then
    looks like [v']. With it both state machines are executed against each
    other's output. *)

From S2P Require Import Prelude HsLabels HsFrames HsReplay HsPSK HsKdf HsSession HsRun.
Local Open Scope Z_scope.

(** Entropy does not run out, and signing and encapsulation succeed. *)
Class EntropyLaws {C : Crypto} : Prop := {
  rand_total e n : 0 <= n -> exists b e', rand_read e n = (Some b, e') /\ len b = n;
  x_generate_total e : exists sk e', x_generate e = (Some sk, e');
  k_generate_total e : exists p e', k_generate e = (Some p, e');
  k_encapsulate_total pk e : exists p e', k_encapsulate pk e = (Some p, e');
  s_sign_total sk e m ctx : exists sig e', s_sign sk e m ctx = (Some sig, e')
}.

Section logic.
Context {C : Crypto}.
Context (text : hs_error -> list byte).

(** What a step of a run can depend on: the bytes to come, the chunks written,
    entropy, clock and stores. *)
Record view : Type := mkView {
  v_rx : list byte;
  v_calls : list (list byte);
  v_ent : entropy;
  v_clock : nat -> Z;
  v_ticks : nat;
  v_cache : option ReplayCache;
  v_store : option PSKStore
}.

Definition looks (st : St) (v : view) : Prop :=
  conn_ok (conn st) /\ rx (conn st) = v_rx v /\ tx (conn st) = mkWriter (v_calls v) false
  /\ ent st = v_ent v /\ clock st = v_clock v /\ ticks st = v_ticks v
  /\ cache st = v_cache v /\ store st = v_store v.

Definition runs {A} (m : M A) (v : view) (a : A) (v' : view) : Prop :=
  forall st, looks st v -> exists st', m st = Ret (Ok a, st') /\ looks st' v'.

(** Updates of a view. *)
Definition with_rx (v : view) (r : list byte) : view :=
  mkView r (v_calls v) (v_ent v) (v_clock v) (v_ticks v) (v_cache v) (v_store v).
Definition with_call (v : view) (k : list byte) : view :=
  mkView (v_rx v) (v_calls v ++ [k]) (v_ent v) (v_clock v) (v_ticks v) (v_cache v) (v_store v).
Definition with_ent (v : view) (e : entropy) : view :=
  mkView (v_rx v) (v_calls v) e (v_clock v) (v_ticks v) (v_cache v) (v_store v).
Definition ticked (v : view) : view :=
  mkView (v_rx v) (v_calls v) (v_ent v) (v_clock v) (S (v_ticks v)) (v_cache v) (v_store v).
Definition with_cache (v : view) (c : option ReplayCache) : view :=
  mkView (v_rx v) (v_calls v) (v_ent v) (v_clock v) (v_ticks v) c (v_store v).
Definition with_store (v : view) (s : option PSKStore) : view :=
  mkView (v_rx v) (v_calls v) (v_ent v) (v_clock v) (v_ticks v) (v_cache v) s.

#[local] Ltac unfold_looks :=
  intros st (Hc & Hrx & Htx & He & Hcl & Hti & Hca & Hst).
#[local] Ltac done_looks :=
  eexists; split; [reflexivity|]; unfold looks; cbn; split_and!; congruence || done.

Lemma hs_runs_bind {A B} (m : M A) (k : A -> M B) v a v1 b v2 :
  runs m v a v1 -> runs (k a) v1 b v2 -> runs (m ≫= k) v b v2.
Proof.
  intros Hm Hk st Hl; destruct (Hm st Hl) as (st1 & E1 & Hl1), (Hk st1 Hl1) as (st2 & E2 & Hl2).
  exists st2; split; [|done]; unfold mbind, M_bind; rewrite E1; done.
Qed.

Lemma hs_runs_ret {A} (a : A) v : runs (mret a) v a v.
Proof. intros st Hl; exists st; done. Qed.

Lemma runs_guard (b : bool) e v :
  b = false -> runs (if b then alert text e else mret tt) v tt v.
Proof. intros ->; apply hs_runs_ret. Qed.

Lemma runs_decoded {A} (d : outcome (result A hs_error)) (a : A) v :
  d = Ret (Ok a) -> runs (decoded text d) v a v.
Proof. intros -> st Hl; exists st; done. Qed.

Lemma runs_returned {A} (r : result A hs_error) (a : A) v : r = Ok a -> runs (returned r) v a v.
Proof. intros -> st Hl; exists st; done. Qed.

Lemma runs_expect_some {A} (o : option A) (a : A) e v :
  o = Some a -> runs (expect_some text o e) v a v.
Proof. intros ->; apply hs_runs_ret. Qed.

Lemma runs_now v : runs now v (v_clock v (v_ticks v)) (ticked v).
Proof.
  unfold_looks; unfold now; rewrite Hcl, Hti; done_looks.
Qed.

Lemma runs_draw {A} (f : entropy -> option A * entropy) (a : A) e v :
  f (v_ent v) = (Some a, e) -> runs (draw f) v a (with_ent v e).
Proof.
  intros Hf; unfold_looks; unfold draw; rewrite He, Hf; done_looks.
Qed.

Lemma runs_draw_or {A} (f : entropy -> option A * entropy) (a : A) e err v :
  f (v_ent v) = (Some a, e) -> runs (draw_or text f err) v a (with_ent v e).
Proof.
  intros Hf; unfold_looks; unfold draw_or; rewrite He, Hf; done_looks.
Qed.

Lemma runs_raw_write b v : runs (raw_write b) v tt (with_call v b).
Proof.
  unfold_looks; unfold raw_write, Write; rewrite Htx; done_looks.
Qed.

Lemma runs_send_frame t body v :
  len body <= MaxFrameBody -> runs (send_frame t body) v tt (with_call v (frame_bytes t body)).
Proof.
  intros Hl; unfold_looks; unfold send_frame.
  destruct (conn_write_healthy (conn st) t body Hc ltac:(rewrite Htx; done) Hl)
    as (c' & -> & Hc' & Hrx' & Htx').
  eexists; split; [reflexivity|]; unfold looks; cbn; rewrite Htx', Hrx', Htx; split_and!; done.
Qed.

Lemma runs_read_bytes n v b r :
  v_rx v = b ++ r -> len b = n -> runs (read_bytes n) v b (with_rx v r).
Proof.
  intros Hv Hn; unfold_looks; unfold read_bytes, ReadFull; rewrite Hrx, Hv, len_app.
  pose proof (len_nonneg r); guard_false; rewrite sub_app_hd by done.
  replace (drop (Z.to_nat n) (b ++ r)) with r
    by (rewrite <- Hn; unfold len; rewrite Nat2Z.id, drop_app_length; done).
  eexists; split; [reflexivity|]; unfold looks; cbn; split_and!; done.
Qed.

Lemma runs_read_frame v t body r :
  v_rx v = frame_bytes t body ++ r -> len body <= MaxFrameBody ->
  runs read_frame v (t, body) (with_rx v r).
Proof.
  intros Hv Hl; unfold_looks; unfold read_frame; rewrite Hrx, Hv, readFrame_frame by done.
  eexists; split; [reflexivity|]; unfold looks; cbn; split_and!; done.
Qed.

Lemma runs_expect v want body r :
  v_rx v = frame_bytes want body ++ r -> len body <= MaxFrameBody -> want <> FrameAlert ->
  runs (expect want) v body (with_rx v r).
Proof.
  intros Hv Hl Hw; unfold_looks; unfold expect, expectFrame; rewrite Hrx, Hv, readFrame_frame by done.
  cbn [mbind outcome_bind]; rewrite bool_decide_eq_false_2, bool_decide_eq_true_2 by done.
  eexists; split; [reflexivity|]; unfold looks; cbn; split_and!; done.
Qed.

(** An identity with its private key. *)
Definition owner (sk : s_sk) : Identity := mkIdentity (Some (s_public sk)) (Some sk).

Lemma runs_sign sk h2 r su sig e v :
  s_sign sk (v_ent v) (signInput h2 r su) SignCtx = (Some sig, e) -> len sig = 3309 ->
  runs (sign text (Some (owner sk)) h2 r su) v sig (with_ent v e).
Proof.
  intros Hs Hl; unfold_looks; unfold sign, Sign, owner; rewrite He, Hs.
  unfold MLDSA65SigLen; rewrite Hl; simpl negb; cbv iota; done_looks.
Qed.

Lemma runs_verify pk priv h2 r su sig v :
  s_verify pk (signInput h2 r su) sig SignCtx = true -> len sig = 3309 ->
  runs (verify text (mkIdentity (Some pk) priv) h2 r su sig) v tt v.
Proof.
  intros Hs Hl; unfold verify, VerifyAuth, MLDSA65SigLen; rewrite Hl, Hs; apply hs_runs_ret.
Qed.

Lemma runs_identity pk v :
  s_parse (s_bytes pk) = Some pk ->
  runs (match IdentityFromPublicBytes (s_bytes pk) with
        | Ok id => mret id | Err _ => alert text ErrDecodeError end) v (mkIdentity (Some pk) None) v.
Proof. intros Hp; unfold IdentityFromPublicBytes; rewrite Hp; apply hs_runs_ret. Qed.

(** The replay gate admits the frame, by the clock readings it makes. *)
Definition gate_admits (v : view) (ts : Z) (id rand : list byte) : Prop :=
  match v_cache v with
  | None => True
  | Some c => CheckTimestamp (v_clock v (v_ticks v)) ts = None
              /\ (SeenOrAdd c (v_clock v (S (v_ticks v))) id rand).1 = false
  end.
Definition after_gate (v : view) (id rand : list byte) : view :=
  mkView (v_rx v) (v_calls v) (v_ent v) (v_clock v)
    (match v_cache v with None => v_ticks v | Some _ => S (S (v_ticks v)) end)
    (c ← v_cache v; Some (SeenOrAdd c (v_clock v (S (v_ticks v))) id rand).2) (v_store v).

Lemma hs_runs_gate ts id rand v :
  gate_admits v ts id rand -> runs (replay_gate text ts id rand) v tt (after_gate v id rand).
Proof.
  unfold gate_admits, after_gate; intros Hg; unfold_looks; unfold replay_gate; rewrite Hca.
  destruct (v_cache v) as [c|] eqn:Ec; [|done_looks].
  destruct Hg as [Hts Hseen]; unfold mbind, M_bind, now; cbn [clock ticks conn ent cache store].
  rewrite Hcl, Hti, Hts; cbn [clock ticks conn ent cache store].
  destruct (SeenOrAdd c _ id rand) as [seen c'] eqn:Es; simpl in Hseen; subst seen.
  eexists; split; [reflexivity|]; unfold looks; cbn; rewrite Es; split_and!; congruence || done.
Qed.

Definition after_issue (v : view) (psk cid : list byte) : view :=
  mkView (v_rx v) (v_calls v) (v_ent v) (v_clock v)
    (match v_store v with None => v_ticks v | Some _ => S (v_ticks v) end) (v_cache v)
    (s ← v_store v; Some (Issue PSKID s (v_clock v (v_ticks v)) psk cid).2).

Lemma runs_issue psk cid v : runs (issue psk cid) v tt (after_issue v psk cid).
Proof.
  unfold after_issue; unfold_looks; unfold issue; rewrite Hst.
  destruct (v_store v) as [s|] eqn:Es; [|done_looks].
  unfold mbind, M_bind, now; cbn [clock ticks conn ent cache store]; rewrite Hcl, Hti; done_looks.
Qed.
Definition after_redeem (v : view) (id : list byte) : view :=
  mkView (v_rx v) (v_calls v) (v_ent v) (v_clock v) (S (v_ticks v)) (v_cache v)
    (s ← v_store v; Some (Redeem s (v_clock v (v_ticks v)) id).2).

Lemma runs_redeem id x v :
  (exists s, v_store v = Some s /\ (Redeem s (v_clock v (v_ticks v)) id).1 = Some x) ->
  runs (redeem text id) v x (after_redeem v id).
Proof.
  intros (s & Es & Hr); unfold after_redeem; rewrite Es; unfold_looks; unfold redeem; rewrite Hst, Es.
  unfold mbind, M_bind, now; cbn [clock ticks conn ent cache store]; rewrite Hcl, Hti.
  destruct (Redeem s _ id) as [r s'] eqn:Er; simpl in Hr; subst r.
  eexists; split; [reflexivity|]; unfold looks; cbn; rewrite Er; split_and!; congruence || done.
Qed.
End logic.

(** ** Both sides *)

(** A check that passes changes nothing. *)
Lemma runs_check {C : Crypto} {B} (m : M unit) (k : unit -> M B) v b v2 :
  runs m v tt v -> runs (k tt) v b v2 -> runs (m ≫= k) v b v2.
Proof. apply hs_runs_bind. Qed.

(** The responder's dispatch on the first frame. *)
Lemma responder_first {C : Crypto} text rs skR v t body r m sR v' :
  r_Local rs = Some (owner skR) -> (strict (r_Profile rs) = true -> is_Some (v_cache v)) ->
  v_rx v = hs_Magic ++ frame_bytes t body ++ r -> len body <= MaxFrameBody ->
  t = FrameHello /\ m = Responder_runFull text rs body
  \/ t = FrameHelloPSK /\ m = Responder_runResume text rs body ->
  runs m (with_rx v r) sR v' -> runs (Responder_Run text rs) v sR v'.
Proof.
  intros Hloc Hstr Hrx Hlen Hm Hrun st Hl.
  destruct (runs_read_bytes MagicLen v hs_Magic _ Hrx eq_refl st Hl) as (st1 & E1 & Hl1).
  destruct (runs_read_frame (with_rx v (frame_bytes t body ++ r)) t body r eq_refl Hlen st1 Hl1) as (st2 & E2 & Hl2).
  destruct (Hrun st2 Hl2) as (st' & E3 & Hl'); exists st'; split; [|done].
  unfold Responder_Run; rewrite Hloc; cbn [has_private owner negb].
  replace (strict (r_Profile rs) && negb (bool_decide (is_Some (cache st)))) with false.
  2: { destruct Hl as (_ & _ & _ & _ & _ & _ & -> & _), (strict _); [|done].
       rewrite bool_decide_eq_true_2 by auto; done. }
  unfold mbind, M_bind; rewrite E1; unfold bytes_eqb; rewrite bool_decide_eq_true_2 by done; cbn [negb].
  rewrite E2; destruct Hm as [[-> ->] | [-> ->]]; exact E3.
Qed.

Section honest.
Context {C : Crypto} {CL : CryptoLaws}.
Context (text : hs_error -> list byte).
Context (i : Initiator) (rs : Responder) (skI skR : s_sk).
Context (su pqMode : byte) (schemes : list byte) (t0 : Z).

Let pkI := s_bytes (s_public skI).
Let pkR := s_bytes (s_public skR).

(** The frames of the exchange, from what the parties drew. *)
Context (rnd helloBody : list byte) (xI xR : x_sk) (kpub : k_pk) (kpriv : k_sk).
Context (ct xs ms sigI sigR : list byte).
Let hello := mkHello su pqMode rnd (u64 t0) (sha3_256 pkI) schemes pkI.
Let initBody := x_public xI ++ k_bytes kpub.
Let replyBody := x_public xR ++ ct ++ pkR.
Let h2 := full_h2 su helloBody initBody replyBody pkI pkR schemes.
Let authR := [RoleResponder] ++ sigR.
Let authI := [RoleInitiator] ++ sigI.
Let keys := DeriveSession h2 xs ms.

Hypothesis Hhello : HelloFrame_Encode hello = Ok helloBody.
Hypothesis Hhello_dec : DecodeHello helloBody = Ret (Ok hello).
Hypothesis Hhello_len : len helloBody <= MaxFrameBody.
Hypothesis Hct : len ct = 1088.
Hypothesis Hxs : len xs = 32.
Hypothesis Hms : len ms = 32.
Hypothesis HsigI : len sigI = 3309.
Hypothesis HsigR : len sigR = 3309.

Lemma x_array sk : to_array X25519PubLen (x_public sk) = x_public sk.
Proof. apply to_array_id, x_public_len. Qed.

Lemma init_ok :
  KEMInitFrame_Encode (mkKEMInit (x_public xI) (k_bytes kpub)) = initBody
  /\ DecodeKEMInit initBody = Ret (Ok (mkKEMInit (x_public xI) (k_bytes kpub)))
  /\ len initBody <= MaxFrameBody.
Proof.
  destruct (dec_enc (F := KEMInitFrame) (mkKEMInit (x_public xI) (k_bytes kpub))) as (b & Hb & Hd);
    [split; [apply x_public_len|apply k_bytes_len]|].
  injection Hb as <-; split_and!; [done|done|].
  unfold initBody; rewrite len_app, x_public_len, k_bytes_len; vm_compute; discriminate.
Qed.

Lemma reply_ok :
  KEMReplyFrame_Encode (mkKEMReply (x_public xR) ct pkR) = Ok replyBody
  /\ DecodeKEMReply replyBody = Ret (Ok (mkKEMReply (x_public xR) ct pkR))
  /\ len replyBody <= MaxFrameBody.
Proof.
  destruct (dec_enc (F := KEMReplyFrame) (mkKEMReply (x_public xR) ct pkR)) as (b & Hb & Hd);
    [split_and!; [apply x_public_len|done|apply s_bytes_len]|].
  assert (Hr : KEMReplyFrame_Encode (mkKEMReply (x_public xR) ct pkR) = Ok replyBody)
    by (unfold KEMReplyFrame_Encode, pkR; simpl; rewrite s_bytes_len; done).
  simpl in Hb; rewrite Hr in Hb; injection Hb as <-; split_and!; [done|done|].
  unfold replyBody, pkR; rewrite !len_app, x_public_len, s_bytes_len, Hct; vm_compute; discriminate.
Qed.

Lemma auth_ok r sig :
  r = RoleInitiator \/ r = RoleResponder -> len sig = 3309 ->
  AuthFrame_Encode (mkAuth r sig) = Ok ([r] ++ sig)
  /\ DecodeAuth ([r] ++ sig) = Ret (Ok (mkAuth r sig)) /\ len ([r] ++ sig) <= MaxFrameBody.
Proof.
  intros Hr Hs; assert (Hv : valid_role r = true) by (destruct Hr as [-> | ->]; done).
  destruct (dec_enc (F := AuthFrame) (mkAuth r sig)) as (b & Hb & Hd); [done|].
  assert (He : AuthFrame_Encode (mkAuth r sig) = Ok ([r] ++ sig))
    by (unfold AuthFrame_Encode; simpl; rewrite Hs, Hv; done).
  simpl in Hb; rewrite He in Hb; injection Hb as <-; split_and!; [done|done|].
  rewrite len_app, Hs, len_single; vm_compute; discriminate.
Qed.

(** The initiator, on the responder's frames. *)
Lemma initiator_side v e1 e2 e3 e4 rest sI :
  i_Local i = Some (owner skI) ->
  (forall id, i_Expected i = Some id -> Identity_ID (Some id) = sha3_256 pkR) ->
  rand_read (v_ent v) ClientRandLen = (Some rnd, e1) -> x_generate e1 = (Some xI, e2) ->
  k_generate e2 = (Some (kpub, kpriv), e3) ->
  x_ecdh xI (x_public xR) = Some xs -> k_decapsulate kpriv ct = Some ms ->
  s_verify (s_public skR) (signInput h2 RoleResponder su) sigR SignCtx = true ->
  s_sign skI e3 (signInput h2 RoleInitiator su) SignCtx = (Some sigI, e4) ->
  v_rx v = frame_bytes FrameKEMReply replyBody ++ frame_bytes FrameAuth authR ++ rest ->
  newSession RoleInitiator (sha3_256 pkR) su keys (v_clock v (v_ticks v)) = Ok sI ->
  exists v', runs (Initiator_runFull text i su pqMode schemes t0) v sI v'
    /\ v_rx v' = rest
    /\ v_calls v' = v_calls v ++ [frame_bytes FrameHello helloBody; frame_bytes FrameKEMInit initBody;
                                  frame_bytes FrameAuth authI].
Proof.
  intros Hloc Hpin Hr Hx Hk Hecdh Hdecap Hver Hsig Hrx HsI.
  destruct init_ok as (Hinit & _ & Hinit_len), reply_ok as (_ & Hreply & Hreply_len).
  destruct (auth_ok RoleResponder sigR (or_intror eq_refl) HsigR) as (_ & HauthR & HauthR_len).
  destruct (auth_ok RoleInitiator sigI (or_introl eq_refl) HsigI) as (HauthI & _ & HauthI_len).
  eexists; split; [unfold Initiator_runFull; rewrite Hloc|].
  - eapply hs_runs_bind; [apply runs_draw, Hr|].
    eapply hs_runs_bind; [apply runs_returned, Hhello|].
    eapply hs_runs_bind; [apply runs_send_frame, Hhello_len|].
    eapply hs_runs_bind; [apply runs_draw, Hx|].
    eapply hs_runs_bind; [apply runs_draw, Hk|]; cbv beta iota zeta.
    rewrite x_array, (to_array_id MLKEM768PubLen) by apply k_bytes_len; rewrite Hinit.
    eapply hs_runs_bind; [apply runs_send_frame, Hinit_len|].
    eapply hs_runs_bind; [eapply runs_expect; [exact Hrx|exact Hreply_len|done]|].
    eapply hs_runs_bind; [apply runs_decoded, Hreply|]; cbn [kr_X25519EphPub kr_MLKEMCiphertext kr_StaticPKResponder].
    eapply hs_runs_bind; [apply runs_guard; rewrite x_public_valid; done|].
    eapply hs_runs_bind; [apply runs_expect_some, Hecdh|].
    eapply hs_runs_bind; [apply runs_expect_some, Hdecap|].
    eapply hs_runs_bind; [apply runs_identity, s_parse_bytes|].
    rewrite (to_array_id X25519SharedLen xs), (to_array_id MLKEM768SharedLen ms) by done.
    eapply runs_check.
    { destruct (i_Expected i) as [id|]; [|apply hs_runs_ret]; apply runs_guard.
      rewrite (Hpin id eq_refl); apply negb_false_iff, bool_decide_eq_true; done. }
    fold h2; eapply hs_runs_bind; [eapply runs_expect; [reflexivity|exact HauthR_len|done]|].
    eapply hs_runs_bind; [apply runs_decoded, HauthR|].
    eapply hs_runs_bind; [apply runs_guard; done|].
    eapply hs_runs_bind; [apply runs_verify; done|].
    eapply hs_runs_bind; [apply runs_sign; [exact Hsig|done]|].
    eapply hs_runs_bind; [apply runs_decoded; rewrite HauthI; reflexivity|].
    eapply hs_runs_bind; [apply runs_send_frame, HauthI_len|].
    eapply hs_runs_bind; [apply runs_now|]; apply runs_returned; exact HsI.
  - split; [done|]; cbn; rewrite <- !app_assoc; done.
Qed.

(** The responder, on the initiator's. *)
Lemma responder_side v e1 e2 e3 rest :
  r_Local rs = Some (owner skR) -> acceptsSuite rs su = true ->
  (strict (r_Profile rs) = true ->
   pqMode <> PQModeClassicalPermitted /\ forallb SuiteID_IsValid schemes = true) ->
  gate_admits v (u64 t0) (sha3_256 pkI) rnd ->
  x_generate (v_ent v) = (Some xR, e1) -> k_encapsulate kpub e1 = (Some (ct, ms), e2) ->
  x_ecdh xR (x_public xI) = Some xs ->
  s_sign skR e2 (signInput h2 RoleResponder su) SignCtx = (Some sigR, e3) ->
  s_verify (s_public skI) (signInput h2 RoleInitiator su) sigI SignCtx = true ->
  v_rx v = frame_bytes FrameKEMInit initBody ++ frame_bytes FrameAuth authI ++ rest ->
  exists tR v',
    (forall sR, newSession RoleResponder (sha3_256 pkI) su keys tR = Ok sR ->
                runs (Responder_runFull text rs helloBody) v sR v')
    /\ v_rx v' = rest
    /\ v_calls v' = v_calls v ++ [frame_bytes FrameKEMReply replyBody; frame_bytes FrameAuth authR].
Proof.
  intros Hloc Hsu Hstr Hgate Hx Henc Hecdh Hsig Hver Hrx.
  destruct init_ok as (_ & Hinit & Hinit_len), reply_ok as (Hreply & _ & Hreply_len).
  destruct (auth_ok RoleResponder sigR (or_intror eq_refl) HsigR) as (HauthR & _ & HauthR_len).
  destruct (auth_ok RoleInitiator sigI (or_introl eq_refl) HsigI) as (_ & HauthI & HauthI_len).
  eexists _, _; split; [intros sR HsR; unfold Responder_runFull; rewrite Hloc|].
  - eapply hs_runs_bind; [apply runs_decoded, Hhello_dec|].
    eapply runs_check; [apply runs_guard; cbn; rewrite Hsu; done|].
    eapply runs_check; [apply runs_guard; cbn|].
    { destruct (strict _) eqn:E; [|done]; apply bool_decide_eq_false, (Hstr eq_refl). }
    eapply runs_check; [apply runs_guard; cbn|].
    { destruct (strict _) eqn:E; [|done]; rewrite (proj2 (Hstr eq_refl)); done. }
    eapply hs_runs_bind; [apply hs_runs_gate, Hgate|].
    eapply runs_check; [apply runs_guard, negb_false_iff, bool_decide_eq_true; done|].
    eapply hs_runs_bind; [apply runs_identity, s_parse_bytes|].
    eapply hs_runs_bind; [eapply runs_expect; [exact Hrx|exact Hinit_len|done]|].
    eapply hs_runs_bind; [apply runs_decoded, Hinit|]; cbn [ki_X25519EphPub ki_MLKEMEphPub].
    eapply hs_runs_bind; [apply runs_draw, Hx|].
    eapply runs_check; [apply runs_guard; rewrite x_public_valid; done|].
    eapply hs_runs_bind; [apply runs_expect_some, Hecdh|].
    eapply hs_runs_bind; [apply runs_expect_some, k_parse_bytes|].
    eapply hs_runs_bind; [apply runs_draw_or, Henc|]; cbv beta iota zeta.
    rewrite x_array, (to_array_id MLKEM768CTLen ct), (to_array_id X25519SharedLen xs),
      (to_array_id MLKEM768SharedLen ms) by done.
    eapply runs_check; [apply runs_guard; rewrite Hct; done|].
    eapply hs_runs_bind; [apply runs_decoded; exact (f_equal Ret Hreply)|].
    eapply hs_runs_bind; [apply runs_send_frame, Hreply_len|].
    eapply hs_runs_bind; [apply runs_sign; [exact Hsig|done]|].
    eapply hs_runs_bind; [apply runs_decoded; rewrite HauthR; reflexivity|].
    eapply hs_runs_bind; [apply runs_send_frame, HauthR_len|].
    eapply hs_runs_bind; [eapply runs_expect; [reflexivity|exact HauthI_len|done]|].
    eapply hs_runs_bind; [apply runs_decoded, HauthI|].
    eapply runs_check; [apply runs_guard; done|].
    eapply runs_check; [apply runs_verify; done|].
    eapply hs_runs_bind; [apply runs_issue|].
    eapply hs_runs_bind; [apply runs_now|]; apply runs_returned; exact HsR.
  - split; [done|]; cbn; rewrite <- !app_assoc; done.
Qed.

(** The whole runs, with the magic in front. *)
Lemma initiator_run v e1 e2 e3 e4 sI :
  su = eff_suite i -> pqMode = eff_pqMode i -> schemes = eff_schemes i -> t0 = v_clock v (v_ticks v) ->
  i_Local i = Some (owner skI) -> i_Resume i = None -> SuiteID_IsValid su = true ->
  (forall id, i_Expected i = Some id -> Identity_ID (Some id) = sha3_256 pkR) ->
  rand_read (v_ent v) ClientRandLen = (Some rnd, e1) -> x_generate e1 = (Some xI, e2) ->
  k_generate e2 = (Some (kpub, kpriv), e3) ->
  x_ecdh xI (x_public xR) = Some xs -> k_decapsulate kpriv ct = Some ms ->
  s_verify (s_public skR) (signInput h2 RoleResponder su) sigR SignCtx = true ->
  s_sign skI e3 (signInput h2 RoleInitiator su) SignCtx = (Some sigI, e4) ->
  newSession RoleInitiator (sha3_256 pkR) su keys (v_clock v (S (v_ticks v))) = Ok sI ->
  exists v', runs (Initiator_Run text i)
      (with_rx v (concat [frame_bytes FrameKEMReply replyBody; frame_bytes FrameAuth authR])) sI v'
    /\ v_rx v' = []
    /\ v_calls v' = v_calls v ++ [hs_Magic; frame_bytes FrameHello helloBody;
                                  frame_bytes FrameKEMInit initBody; frame_bytes FrameAuth authI].
Proof.
  intros Esu Epq Esch Et0 Hloc Hres Hsu Hpin Hr Hx Hk Hecdh Hdecap Hver Hsig HsI.
  set (v0 := with_rx v _).
  destruct (initiator_side (with_call (ticked v0) hs_Magic) e1 e2 e3 e4 [] sI)
    as (v' & Hrun & Hrx & Hcalls); [done..|].
  exists v'; split; [|split; [done|rewrite Hcalls; cbn; rewrite <- app_assoc; done]].
  unfold Initiator_Run; rewrite <- Esu, <- Epq, <- Esch, Hloc, Hres, Hsu; cbn [has_private owner negb].
  eapply hs_runs_bind; [apply runs_now|]; eapply hs_runs_bind; [apply runs_raw_write|].
  change (v_clock v0 (v_ticks v0)) with (v_clock v (v_ticks v)); rewrite <- Et0; exact Hrun.
Qed.

Lemma responder_run v e1 e2 e3 :
  r_Local rs = Some (owner skR) -> acceptsSuite rs su = true ->
  (strict (r_Profile rs) = true ->
   pqMode <> PQModeClassicalPermitted /\ forallb SuiteID_IsValid schemes = true /\ is_Some (v_cache v)) ->
  gate_admits v (u64 t0) (sha3_256 pkI) rnd ->
  x_generate (v_ent v) = (Some xR, e1) -> k_encapsulate kpub e1 = (Some (ct, ms), e2) ->
  x_ecdh xR (x_public xI) = Some xs ->
  s_sign skR e2 (signInput h2 RoleResponder su) SignCtx = (Some sigR, e3) ->
  s_verify (s_public skI) (signInput h2 RoleInitiator su) sigI SignCtx = true ->
  exists tR v',
    (forall sR, newSession RoleResponder (sha3_256 pkI) su keys tR = Ok sR ->
       runs (Responder_Run text rs)
         (with_rx v (concat [hs_Magic; frame_bytes FrameHello helloBody;
                             frame_bytes FrameKEMInit initBody; frame_bytes FrameAuth authI])) sR v')
    /\ v_rx v' = []
    /\ v_calls v' = v_calls v ++ [frame_bytes FrameKEMReply replyBody; frame_bytes FrameAuth authR].
Proof.
  intros Hloc Hsu Hstr Hgate Hx Henc Hecdh Hsig Hver; set (v0 := with_rx v _).
  set (v1 := with_rx v (frame_bytes FrameKEMInit initBody ++ frame_bytes FrameAuth authI ++ [])).
  destruct (responder_side v1 e1 e2 e3 []) as (tR & v' & Hrun & Hrx & Hcalls);
    [done|done|intros Hs; destruct (Hstr Hs) as (? & ? & _); done|done..|].
  exists tR, v'; split; [intros sR HsR|done].
  eapply (responder_first text rs skR v0 FrameHello helloBody); try done; [intros Hs|left; done|exact (Hrun sR HsR)].
  destruct (Hstr Hs) as (_ & _ & Hsome); exact Hsome.
Qed.
End honest.

Section theorem.
Context {C : Crypto} {CL : CryptoLaws} {EL : EntropyLaws}.
Context (text : hs_error -> list byte).

(** The hello the initiator sends is well formed. *)
Lemma hello_ok su pqMode rnd t id schemes pk :
  len rnd = 16 -> len id = 32 -> len pk = 1952 -> su ∈ schemes -> 2014 + len schemes <= MaxFrameBody ->
  let hello := mkHello su pqMode rnd (u64 t) id schemes pk in
  exists body, HelloFrame_Encode hello = Ok body /\ DecodeHello body = Ret (Ok hello)
    /\ len body <= MaxFrameBody.
Proof.
  intros Hr Hid Hpk Hsu Hlen hello.
  assert (Hs : 0 < len schemes) by (destruct schemes; [set_solver|unfold len; simpl; lia]).
  destruct (dec_enc (F := HelloFrame) hello) as (b & Hb & Hd); [|].
  { cbn [cwf HelloFrame_codec hello h_ClientRandom h_TimestampNS h_ClientID h_StaticPKInitiator
         h_OfferedSchemes h_Suite].
    pose proof (Z.mod_pos_bound t (2 ^ 64)); unfold u64, MaxFrameBody in *; split_and!; lia || done. }
  exists b; split_and!; [done|done|]; cbn [enc HelloFrame_codec] in Hb.
  unfold HelloFrame_Encode, hello in Hb; cbn [h_StaticPKInitiator h_OfferedSchemes h_Suite h_PQMode
    h_ClientRandom h_TimestampNS h_ClientID] in Hb.
  unfold MLDSA65PubLen in Hb; rewrite Hpk in Hb; replace (len schemes =? 0) with false in Hb by lia.
  rewrite Z.eqb_refl in Hb; cbn [negb] in Hb.
  match type of Hb with Ok ?x = _ => assert (b = x) as -> by congruence end.
  rewrite !len_app, !len_be_bytes, !len_single by lia; lia.
Qed.

(** C3: two honest parties complete the handshake. Where the initiator runs
    with an identity of its own, no resumption secret and a suite the
    responder accepts, its pin (if any) is the responder, the responder's
    profile admits the offer and its replay gate the timestamp, then each run
    on exactly the other's output ends in a session; all bytes are consumed,
    the sessions are in step in both directions, and each names the other's
    identity. *)
Theorem honest_handshake i rs skI skR vI vR :
  i_Local i = Some (owner skI) -> r_Local rs = Some (owner skR) -> i_Resume i = None ->
  (forall id, i_Expected i = Some id -> Identity_ID (Some id) = sha3_256 (s_bytes (s_public skR))) ->
  acceptsSuite rs (eff_suite i) = true -> eff_suite i ∈ eff_schemes i ->
  2014 + len (eff_schemes i) <= MaxFrameBody ->
  (strict (r_Profile rs) = true ->
   eff_pqMode i <> PQModeClassicalPermitted /\ forallb SuiteID_IsValid (eff_schemes i) = true
   /\ is_Some (v_cache vR)) ->
  (forall rnd, (rand_read (v_ent vI) ClientRandLen).1 = Some rnd ->
   gate_admits vR (u64 (v_clock vI (v_ticks vI))) (sha3_256 (s_bytes (s_public skI))) rnd) ->
  v_calls vI = [] -> v_calls vR = [] ->
  exists sI sR vI' vR',
    runs (Initiator_Run text i) (with_rx vI (concat (v_calls vR'))) sI vI'
    /\ runs (Responder_Run text rs) (with_rx vR (concat (v_calls vI'))) sR vR'
    /\ v_rx vI' = [] /\ v_rx vR' = [] /\ synced sI sR /\ synced sR sI
    /\ peerID sI = sha3_256 (s_bytes (s_public skR)) /\ peerID sR = sha3_256 (s_bytes (s_public skI)).
Proof.
  intros HI HR Hres Hpin Hsu Hin Hlen Hstr Hgate HcI HcR.
  assert (Hvalid : SuiteID_IsValid (eff_suite i) = true)
    by (revert Hsu; unfold acceptsSuite; destruct (SuiteID_IsValid (eff_suite i)); done).
  destruct (rand_total (v_ent vI) ClientRandLen ltac:(done)) as (rnd & e1 & Hrnd & Hrnd_len).
  destruct (x_generate_total e1) as (xI & e2 & HxI), (k_generate_total e2) as ([kpub kpriv] & e3 & Hk).
  destruct (x_generate_total (v_ent vR)) as (xR & f1 & HxR).
  destruct (k_encapsulate_total kpub f1) as ([ct ms] & f2 & Henc).
  destruct (k_ct_len _ _ _ _ _ Henc) as [Hct Hms], (x_honest xI xR) as (xs & Hxs & Hxs_len).
  pose proof Hxs as Hxs'; rewrite x_agree in Hxs'; pose proof (k_correct _ _ _ _ _ _ _ _ Hk Henc) as Hdec.
  destruct (hello_ok (eff_suite i) (eff_pqMode i) rnd (v_clock vI (v_ticks vI))
    (sha3_256 (s_bytes (s_public skI))) (eff_schemes i) (s_bytes (s_public skI)))
    as (hello & Hhello & Hhello_dec & Hhello_len); [done|apply sha3_len|apply s_bytes_len|done|done|].
  set (h2 := full_h2 (eff_suite i) hello (x_public xI ++ k_bytes kpub)
     (x_public xR ++ ct ++ s_bytes (s_public skR)) (s_bytes (s_public skI)) (s_bytes (s_public skR))
     (eff_schemes i)).
  destruct (s_sign_total skR f2 (signInput h2 RoleResponder (eff_suite i)) SignCtx) as (sigR & f3 & HsigR).
  destruct (s_sign_total skI e3 (signInput h2 RoleInitiator (eff_suite i)) SignCtx) as (sigI & e4 & HsigI).
  pose proof (s_sig_len _ _ _ _ _ _ HsigR) as HlR; pose proof (s_sig_len _ _ _ _ _ _ HsigI) as HlI.
  apply s_correct in HsigR as HverR; apply s_correct in HsigI as HverI.
  destruct (responder_run text rs skI skR (eff_suite i) (eff_pqMode i) (eff_schemes i) (v_clock vI (v_ticks vI))
    rnd hello xI xR kpub ct xs ms sigI sigR Hhello_dec Hhello_len Hct Hxs_len Hms HlI HlR vR f1 f2 f3)
    as (tR & vR' & HrunR & HrxR & HcallsR); try done; [apply Hgate; rewrite Hrnd; done|].
  destruct (newSession_synced (DeriveSession h2 xs ms) (sha3_256 (s_bytes (s_public skR)))
    (sha3_256 (s_bytes (s_public skI))) (eff_suite i) (v_clock vI (S (v_ticks vI))) tR (expand_keys_ok _))
    as (sI & sR & HsI & HsR & HpI & HpR & Hs1 & Hs2 & _).
  destruct (initiator_run text i skI skR (eff_suite i) (eff_pqMode i) (eff_schemes i)
    (v_clock vI (v_ticks vI)) rnd hello xI xR kpub kpriv ct xs ms sigI sigR
    Hhello Hhello_len Hct Hxs_len Hms HlI HlR vI e1 e2 e3 e4 sI) as (vI' & HrunI & HrxI & HcallsI); try done.
  rewrite HcI in HcallsI; rewrite HcR in HcallsR.
  exists sI, sR, vI', vR'; split_and!; try done; [rewrite HcallsR|rewrite HcallsI]; auto.
Qed.
End theorem.

(** ** Resumption *)

Section resumption.
Context {C : Crypto} {CL : CryptoLaws} {EL : EntropyLaws}.
Context (text : hs_error -> list byte).
Context (i : Initiator) (rs : Responder) (resume : ClientPSK) (cid : list byte).
Context (rnd xs : list byte) (xI xR : x_sk) (t0 : Z).

Let su := eff_suite i.
Let pqMode := eff_pqMode i.
Let hello := mkHelloPSK su pqMode rnd (u64 t0) (c_ID resume) (x_public xI).
Let helloBody := HelloPSKFrame_Encode hello.
Let keys := DeriveResumed (psk_h2 su helloBody (x_public xR)) xs (c_PSK resume).

Hypothesis Hrnd : len rnd = 16.
Hypothesis Hid : len (c_ID resume) = 16.
Hypothesis Hxs_len : len xs = 32.

Lemma helloPSK_ok : DecodeHelloPSK helloBody = Ret (Ok hello) /\ len helloBody <= MaxFrameBody.
Proof.
  destruct (dec_enc (F := HelloPSKFrame) hello) as (b & Hb & Hd).
  { pose proof (Z.mod_pos_bound t0 (2 ^ 64)); cbn [cwf HelloPSKFrame_codec hello hp_ClientRandom
      hp_TimestampNS hp_PSKID hp_X25519EphPub]; unfold u64; split_and!; try lia; apply x_public_len. }
  injection Hb as <-; split; [done|]; unfold helloBody, HelloPSKFrame_Encode, hello.
  cbn [hp_Suite hp_PQMode hp_ClientRandom hp_TimestampNS hp_PSKID hp_X25519EphPub].
  rewrite !len_app, !len_single, len_be_bytes, x_public_len by lia; unfold MaxFrameBody; lia.
Qed.

Lemma initiator_resume_side v e1 e2 sI :
  x_generate (v_ent v) = (Some xI, e1) -> rand_read e1 ClientRandLen = (Some rnd, e2) ->
  x_ecdh xI (x_public xR) = Some xs ->
  v_rx v = frame_bytes FrameKEMReply (x_public xR) ->
  newSession RoleInitiator (c_PeerID resume) su keys (v_clock v (v_ticks v)) = Ok sI ->
  exists v', runs (Initiator_runResume text i resume su pqMode t0) v sI v'
    /\ v_rx v' = [] /\ v_calls v' = v_calls v ++ [frame_bytes FrameHelloPSK helloBody].
Proof.
  intros Hx Hr Hecdh Hrx HsI; pose proof (x_public_len xR) as Hl.
  eexists; split; [unfold Initiator_runResume|].
  - eapply hs_runs_bind; [apply runs_draw, Hx|].
    eapply hs_runs_bind; [apply runs_draw, Hr|].
    rewrite (x_array xI); eapply hs_runs_bind; [apply runs_send_frame, helloPSK_ok|].
    eapply hs_runs_bind; [eapply (runs_read_frame _ FrameKEMReply (x_public xR) []);
      [cbn; rewrite app_nil_r; exact Hrx|rewrite Hl; done]|].
    cbv beta iota zeta; rewrite Hl, (x_array xR); cbn [negb orb].
    change (if bool_decide (FrameKEMReply = FrameAlert) then ?a else ?b) with b; cbv iota.
    change (negb (bool_decide (FrameKEMReply = FrameKEMReply)) || negb (32 =? X25519PubLen)) with false.
    eapply runs_check; [apply runs_guard; rewrite x_public_valid; done|].
    eapply hs_runs_bind; [apply runs_expect_some, Hecdh|].
    rewrite (to_array_id X25519SharedLen xs) by done.
    eapply hs_runs_bind; [apply runs_now|]; apply runs_returned; exact HsI.
  - split; [done|reflexivity].
Qed.

Lemma responder_resume_side v e1 :
  acceptsSuite rs su = true ->
  (strict (r_Profile rs) = true -> pqMode <> PQModeClassicalPermitted) ->
  gate_admits v (u64 t0) (sha3_256 (c_ID resume)) rnd ->
  (let v1 := after_gate v (sha3_256 (c_ID resume)) rnd in
   exists p, v_store v = Some p
     /\ (Redeem p (v_clock v1 (v_ticks v1)) (c_ID resume)).1 = Some (c_PSK resume, cid)) ->
  x_generate (v_ent v) = (Some xR, e1) -> x_ecdh xR (x_public xI) = Some xs ->
  exists tR v',
    (forall sR, newSession RoleResponder cid su keys tR = Ok sR ->
                runs (Responder_runResume text rs helloBody) v sR v')
    /\ v_rx v' = v_rx v /\ v_calls v' = v_calls v ++ [frame_bytes FrameKEMReply (x_public xR)].
Proof.
  intros Hsu Hstr Hgate Hred Hx Hecdh; destruct helloPSK_ok as [Hdec _].
  eexists _, _; split; [intros sR HsR; unfold Responder_runResume|].
  - eapply hs_runs_bind; [apply runs_decoded, Hdec|].
    eapply runs_check; [apply runs_guard; cbn; rewrite Hsu; done|].
    eapply runs_check; [apply runs_guard; cbn|].
    { destruct (strict _) eqn:E; [|done]; apply bool_decide_eq_false, (Hstr eq_refl). }
    rewrite (to_array_id IDLen) by apply sha3_len.
    eapply hs_runs_bind; [apply hs_runs_gate, Hgate|].
    eapply hs_runs_bind; [apply runs_redeem, Hred|]; cbv beta iota zeta.
    eapply hs_runs_bind; [apply runs_draw, Hx|].
    eapply runs_check; [apply runs_guard; cbn; rewrite x_public_valid; done|].
    eapply hs_runs_bind; [apply runs_expect_some, Hecdh|].
    rewrite (x_array xR), (to_array_id X25519SharedLen xs) by done.
    eapply hs_runs_bind; [apply runs_send_frame; rewrite x_public_len; done|].
    eapply hs_runs_bind; [apply runs_issue|].
    eapply hs_runs_bind; [apply runs_now|]; apply runs_returned; exact HsR.
  - split; [done|reflexivity].
Qed.
End resumption.

Section resume_theorem.
Context {C : Crypto} {CL : CryptoLaws} {EL : EntropyLaws}.
Context (text : hs_error -> list byte).

(** C30: an initiator that holds an unexpired resumption secret and a
    responder whose store redeems it complete the one-round resumption: each
    run on exactly the other's output ends in a session, all bytes are
    consumed, the sessions are in step in both directions, and they carry the
    identities the secret was issued for. *)
Theorem honest_resumption i rs skI skR resume cid p vI vR :
  let t0 := v_clock vI (v_ticks vI) in
  let id := sha3_256 (c_ID resume) in
  i_Local i = Some (owner skI) -> r_Local rs = Some (owner skR) ->
  i_Resume i = Some resume -> t0 < c_Until resume -> len (c_ID resume) = 16 ->
  acceptsSuite rs (eff_suite i) = true ->
  (strict (r_Profile rs) = true -> eff_pqMode i <> PQModeClassicalPermitted /\ is_Some (v_cache vR)) ->
  v_store vR = Some p ->
  (forall rnd, let v1 := after_gate vR id rnd in
   gate_admits vR (u64 t0) id rnd
   /\ (Redeem p (v_clock v1 (v_ticks v1)) (c_ID resume)).1 = Some (c_PSK resume, cid)) ->
  v_calls vI = [] -> v_calls vR = [] ->
  exists sI sR vI' vR',
    runs (Initiator_Run text i) (with_rx vI (concat (v_calls vR'))) sI vI'
    /\ runs (Responder_Run text rs) (with_rx vR (concat (v_calls vI'))) sR vR'
    /\ v_rx vI' = [] /\ v_rx vR' = [] /\ synced sI sR /\ synced sR sI
    /\ peerID sI = c_PeerID resume /\ peerID sR = cid.
Proof.
  intros t0 id HI HR Hres Huntil Hid Hsu Hstr Hp Hgate HcI HcR.
  destruct (x_generate_total (v_ent vI)) as (xI & e1 & HxI).
  destruct (rand_total e1 ClientRandLen ltac:(done)) as (rnd & e2 & Hrnd & Hrnd_len).
  destruct (x_generate_total (v_ent vR)) as (xR & f1 & HxR), (x_honest xI xR) as (xs & Hxs & Hxs_len).
  pose proof Hxs as Hxs'; rewrite x_agree in Hxs'; destruct (Hgate rnd) as [Hadm Hred].
  destruct (responder_resume_side text i rs resume cid rnd xs xI xR t0 Hrnd_len Hid Hxs_len
    (with_rx vR []) f1) as (tR & vR' & HrunR & HrxR & HcallsR); try done.
  { intros Hs; destruct (Hstr Hs); done. }
  { exists p; done. }
  set (hello := HelloPSKFrame_Encode _) in *.
  destruct (newSession_synced (DeriveResumed (psk_h2 (eff_suite i) hello (x_public xR)) xs (c_PSK resume))
    (c_PeerID resume) cid (eff_suite i) (v_clock vI (S (v_ticks vI))) tR (expand_keys_ok _))
    as (sI & sR & HsI & HsR & HpI & HpR & Hs1 & Hs2 & _).
  destruct (initiator_resume_side text i resume rnd xs xI xR t0 Hrnd_len Hid Hxs_len
    (with_call (ticked (with_rx vI (frame_bytes FrameKEMReply (x_public xR)))) hs_Magic) e1 e2 sI)
    as (vI' & HrunI & HrxI & HcallsI); try done.
  cbn in HcallsI; rewrite HcI in HcallsI; cbn in HcallsR; rewrite HcR in HcallsR.
  exists sI, sR, vI', vR'; split_and!; try done.
  - rewrite HcallsR; cbn [app concat]; rewrite app_nil_r; unfold Initiator_Run; rewrite HI, Hres.
    assert (SuiteID_IsValid (eff_suite i) = true) as ->
      by (revert Hsu; unfold acceptsSuite; destruct (SuiteID_IsValid (eff_suite i)); done).
    eapply hs_runs_bind; [apply runs_now|]; eapply hs_runs_bind; [apply runs_raw_write|].
    replace (v_clock _ _ <? c_Until resume) with true by (symmetry; apply Z.ltb_lt; exact Huntil); exact HrunI.
  - eapply (responder_first text rs skR _ FrameHelloPSK hello); try done;
      [intros Hs; apply (Hstr Hs)|rewrite HcallsI; reflexivity|apply helloPSK_ok; done|right; done|exact (HrunR sR HsR)].
Qed.
End resume_theorem.

(** ** A concrete run *)

Lemma toy_entropy : @EntropyLaws toy_crypto.
Proof.
  split; simpl; eauto; intros e n Hn; exists (zeros n), e; split; [done|].
  unfold zeros, len; rewrite length_replicate; lia.
Qed.

Definition toy_initiator : @Initiator toy_crypto :=
  mkInitiator (Some (owner (C := toy_crypto) Byte.x21)) None ProfileStrictPQ Byte.x00 Byte.x00 [] None.
Definition toy_responder : @Responder toy_crypto :=
  mkResponder (Some (owner (C := toy_crypto) Byte.x42)) ProfileStrictPQ [].
Definition toy_cache : ReplayCache := NewReplayCache 1000.
Definition toy_st (rx : list byte) : @St toy_crypto :=
  @mkSt toy_crypto (mkConn rx (mkWriter [] false) (bufs sample_conn)) tt (fun _ => 1000) 0 (Some toy_cache) None.

(** Each side is fed what the other has written so far, until both are done. *)
Definition output {A} (o : outcome (A * @St toy_crypto)) : list byte :=
  match o with Ret (_, st) => concat (calls (tx (conn st))) | Panic => [] end.
Definition toy_I (rx : list byte) := @Initiator_Run toy_crypto no_text toy_initiator (toy_st rx).
Definition toy_R (rx : list byte) := @Responder_Run toy_crypto no_text toy_responder (toy_st rx).
Definition toy_rxI : list byte := Eval vm_compute in output (toy_R (output (toy_I []))).
Definition toy_rxR : list byte := Eval vm_compute in output (toy_I toy_rxI).
(** Whether a run ended in a session. *)
Definition is_ok {A B C} (o : outcome (result A B * C)) : bool :=
  match o with Ret (Ok _, _) => true | _ => false end.

Lemma is_ok_inv {A B C} (o : outcome (result A B * C)) : is_ok o = true -> exists a c, o = Ret (Ok a, c).
Proof. destruct o as [[[a|e] c]|]; simpl; intros; try discriminate; eauto. Qed.

Definition toy_view (cache : option ReplayCache) (store : option PSKStore) : @view toy_crypto :=
  @mkView toy_crypto [] [] tt (fun _ => 1000) 0 cache store.

Lemma honest_handshake_witness :
  exists sI sR vI' vR',
    @runs toy_crypto _ (Initiator_Run no_text toy_initiator)
      (with_rx (toy_view None None) (concat (v_calls vR'))) sI vI'
    /\ @runs toy_crypto _ (Responder_Run no_text toy_responder)
      (with_rx (toy_view (Some toy_cache) None) (concat (v_calls vI'))) sR vR'
    /\ v_rx vI' = [] /\ v_rx vR' = [] /\ synced sI sR /\ synced sR sI
    /\ peerID sI = rep 32 Byte.x42 /\ peerID sR = rep 32 Byte.x21.
Proof.
  apply (@honest_handshake toy_crypto toy_laws toy_entropy no_text toy_initiator toy_responder Byte.x21 Byte.x42);
    try reflexivity; [discriminate|left|discriminate| |].
  - intros _; split; [discriminate|split; [reflexivity|eexists; reflexivity]].
  - intros rnd Hr; injection Hr as <-; split; vm_compute; reflexivity.
Defined.

Lemma initiator_authenticates_witness :
  exists s st', @Initiator_runFull toy_crypto no_text toy_initiator SuiteX25519MLKEM PQModePQOnly
      [SuiteX25519MLKEM] 1000 (toy_st toy_rxI) = Ret (Ok s, st')
    /\ exists pk, peerID s = to_array 32 (rep 1952 pk).
Proof.
  destruct (is_ok_inv (@Initiator_runFull toy_crypto no_text toy_initiator SuiteX25519MLKEM PQModePQOnly
      [SuiteX25519MLKEM] 1000 (toy_st toy_rxI))) as (s & st' & Hs); [vm_compute; reflexivity|].
  exists s, st'; split; [exact Hs|].
  destruct (@initiator_authenticates toy_crypto toy_laws no_text toy_initiator SuiteX25519MLKEM PQModePQOnly
    [SuiteX25519MLKEM] 1000 (toy_st toy_rxI) s st' pools_ok_empty Hs)
    as (? & ? & ? & ? & ? & ? & pk & ? & ? & ? & _ & _ & _ & _ & _ & _ & _ & Hp & _); exists pk; exact Hp.
Defined.

(** The hello of that run, and the frames after it. *)
Definition toy_frames : list byte * list byte :=
  match readFrame (drop (length hs_Magic) toy_rxR) with Ret (Ok (_, b), r) => (b, r) | _ => ([], []) end.

Lemma responder_authenticates_witness :
  exists s st', @Responder_runFull toy_crypto no_text toy_responder toy_frames.1 (toy_st toy_frames.2)
      = Ret (Ok s, st')
    /\ exists pk, peerID s = to_array 32 (rep 1952 pk).
Proof.
  destruct (is_ok_inv (@Responder_runFull toy_crypto no_text toy_responder toy_frames.1 (toy_st toy_frames.2)))
    as (s & st' & Hs); [vm_compute; reflexivity|]; exists s, st'; split; [exact Hs|].
  destruct (@responder_authenticates toy_crypto toy_laws no_text toy_responder toy_frames.1
    (toy_st toy_frames.2) s st' pools_ok_empty Hs)
    as (? & ? & ? & ? & ? & pk & ? & ? & ? & _ & _ & _ & _ & Hid & _ & _ & _ & Hp & _).
  exists pk; rewrite Hp; exact Hid.
Defined.

Lemma strict_responder_policy_witness :
  exists s st', toy_R toy_rxR = Ret (Ok s, st') /\ SuiteID_IsValid (suite s) = true.
Proof.
  destruct (is_ok_inv (toy_R toy_rxR)) as (s & st' & Hs); [vm_compute; reflexivity|].
  exists s, st'; split; [exact Hs|].
  destruct (@strict_responder_policy toy_crypto toy_laws no_text toy_responder (toy_st toy_rxR) s st' eq_refl Hs)
    as (? & ? & ? & ? & ? & _ & _ & _ & Hv & _); exact Hv.
Defined.

(** A resumption secret both sides hold. *)
Definition toy_psk : ClientPSK := MakeClientPSK (@PSKID toy_crypto) (rep 32 Byte.x11) (rep 32 Byte.x42) 500.
Definition toy_store : PSKStore := (Issue (@PSKID toy_crypto) NewPSKStore 500 (rep 32 Byte.x11) (rep 32 Byte.x21)).2.
Definition toy_resumer : @Initiator toy_crypto :=
  mkInitiator (Some (owner (C := toy_crypto) Byte.x21)) None ProfileStrictPQ Byte.x00 Byte.x00 [] (Some toy_psk).

Lemma resumption_needs_redeemed_psk_witness :
  let body := HelloPSKFrame_Encode
    (mkHelloPSK SuiteX25519MLKEM PQModePQOnly (rep 16 Byte.x00) 1000 (c_ID toy_psk) (rep 32 Byte.x05)) in
  let st := @mkSt toy_crypto sample_conn tt (fun _ => 1000) 0 (Some toy_cache) (Some toy_store) in
  exists s st', @Responder_runResume toy_crypto no_text toy_responder body st = Ret (Ok s, st')
    /\ exists h p', DecodeHelloPSK body = Ret (Ok h) /\ (Redeem p' 1000 (hp_PSKID h)).1 = None.
Proof.
  intros body st.
  destruct (is_ok_inv (@Responder_runResume toy_crypto no_text toy_responder body st))
    as (s & st' & Hs); [vm_compute; reflexivity|]; exists s, st'; split; [exact Hs|].
  destruct (@resumption_needs_redeemed_psk toy_crypto no_text toy_responder body st s st' Hs)
    as (h & ? & p' & ? & ? & ? & ? & ? & ? & Hd & _ & _ & Hspent & _).
  exists h, p'; split; [exact Hd|apply Hspent].
Defined.

Lemma honest_resumption_witness :
  exists sI sR vI' vR',
    @runs toy_crypto _ (Initiator_Run no_text toy_resumer)
      (with_rx (toy_view None None) (concat (v_calls vR'))) sI vI'
    /\ @runs toy_crypto _ (Responder_Run no_text toy_responder)
      (with_rx (toy_view (Some toy_cache) (Some toy_store)) (concat (v_calls vI'))) sR vR'
    /\ v_rx vI' = [] /\ v_rx vR' = [] /\ synced sI sR /\ synced sR sI
    /\ peerID sI = rep 32 Byte.x42 /\ peerID sR = rep 32 Byte.x21.
Proof.
  apply (@honest_resumption toy_crypto toy_laws toy_entropy no_text toy_resumer toy_responder Byte.x21
    Byte.x42 toy_psk (rep 32 Byte.x21) toy_store); try reflexivity.
  - intros _; split; [discriminate|eexists; reflexivity].
  - intros rnd; split; [split|]; vm_compute; reflexivity.
Defined.
