(* ===== verification/Attest.v ===== *)
(** * Attest: identities bound outside the handshake

    [pq_attestation.go]: the transcript an ML-DSA attestation signs after a TLS
    handshake, with the [left_encode] framing of its fields. [identity_pq.go]:
    the chain authority's registration of a VM key and the registry of them. *)

From S2P Require Import Prelude Sha256 HsLabels HsKdf.
From stdpp Require Import gmap.
From Stdlib Require Import String.
Import String.StringSyntax.
Local Open Scope Z_scope.

(** ** Attestation transcript *)

Record Attestation : Type := mkAttestation {
  at_PubKey : list byte;
  at_Sig : list byte
}.

Definition HasPQEvidence (a : option Attestation) : bool :=
  match a with
  | Some a => (0 <? len (at_PubKey a)) && (0 <? len (at_Sig a))
  | None => false
  end.

Record AttestationContext : Type := mkContext {
  TLSCertFingerprint : list byte;
  ChainID : list byte;
  PeerMLKEMPub : list byte;
  Timestamp : Z;
  Nonce : list byte
}.

(** The loop [for i < 7 && buf[i] == 0 { i++ }], from [i] with [n] steps left. *)
Fixpoint skip_zeros (n : nat) (buf : list byte) (i : Z) : Z :=
  match n with
  | O => i
  | S n => if bool_decide (byte_at buf i = Byte.x00) then skip_zeros n buf (i + 1) else i
  end.

Definition leftEncode (x : Z) : list byte :=
  if x =? 0 then [Byte.x01; Byte.x00] else
  let buf := be_bytes 8 x in
  let i := skip_zeros 7 buf 0 in
  [byte.of_Z (8 - i)] ++ sub buf i (8 - i).

Definition domainTag : list byte := ascii "ZAP-PQ-V1"%string.

(** [leftEncode(uint64(len(f)) * 8)] and the field. *)
Definition framed (f : list byte) : list byte := leftEncode (u64 (len f * 8)) ++ f.

Definition transcript_input (c : AttestationContext) : list byte :=
  framed domainTag ++ framed (TLSCertFingerprint c) ++ framed (ChainID c) ++ framed (PeerMLKEMPub c)
  ++ (leftEncode (8 * 8) ++ be_bytes 8 (Timestamp c)) ++ framed (Nonce c).

Definition TLSCertFingerprintFromBytes (certDER : list byte) : list byte := sha256 certDER.

Section shake.
(** [sha3.NewShake256] over what was written to it, [n] bytes read. *)
Context (shake256 : list byte -> Z -> list byte).

Definition TranscriptHash (c : AttestationContext) : list byte := shake256 (transcript_input c) 48.
End shake.

(** ** Registrations *)

Section registration.
Context {C : Crypto}.

Record VMRegistration : Type := mkRegistration {
  VMID : list byte;
  VMPubKey : list byte;
  AuthoritySig : list byte;
  PrevVMSig : list byte;
  PrevVMPubKey : list byte
}.

(** The errors [VerifyRegistration] wraps, and the key parser's own. *)
Inductive reg_error : Type :=
| ErrRegistrationMalformed
| RegVMIdentityMismatch
| RegAuthoritySigFailed
| RegBadKey.

Definition ModeInitial : Z := 0.
Definition ModeRotation : Z := 1.

Definition registration_payload (r : VMRegistration) : list byte := VMID r ++ VMPubKey r.

(** The [switch mode] of [VerifyRegistration]: [None] goes on. *)
Definition check_mode (r : VMRegistration) (mode : Z) : option reg_error :=
  if mode =? ModeInitial then
    if negb (len (PrevVMSig r) =? 0) || negb (len (PrevVMPubKey r) =? 0)
    then Some ErrRegistrationMalformed else None
  else if mode =? ModeRotation then
    if negb (len (PrevVMPubKey r) =? MLDSA65PubLen) then Some ErrRegistrationMalformed else
    if negb (len (PrevVMSig r) =? MLDSA65SigLen) then Some ErrRegistrationMalformed else
    match s_parse (PrevVMPubKey r) with
    | None => Some ErrRegistrationMalformed
    | Some prev =>
        if negb (s_verify prev (registration_payload r) (PrevVMSig r) SignCtx)
        then Some RegAuthoritySigFailed else None
    end
  else Some ErrRegistrationMalformed.

Definition VerifyRegistration (reg : option VMRegistration) (chainAuthority : option s_pk) (mode : Z)
  : result s_pk reg_error :=
  match reg with
  | None => Err ErrRegistrationMalformed
  | Some r =>
      if negb (len (VMPubKey r) =? MLDSA65PubLen) then Err ErrRegistrationMalformed else
      if negb (len (AuthoritySig r) =? MLDSA65SigLen) then Err ErrRegistrationMalformed else
      match chainAuthority with
      | None => Err ErrRegistrationMalformed
      | Some authority =>
          let wantVMID := sha3_256 (VMPubKey r) in
          if negb (bytes_eqb (VMID r) wantVMID) then Err RegVMIdentityMismatch else
          if negb (s_verify authority (registration_payload r) (AuthoritySig r) SignCtx)
          then Err RegAuthoritySigFailed else
          match check_mode r mode with
          | Some e => Err e
          | None => match s_parse (VMPubKey r) with Some pk => Ok pk | None => Err RegBadKey end
          end
      end
  end.

(** [StaticVMRegistry]: the caller has verified what it adds. *)
Definition StaticVMRegistry : Type := gmap (list byte) VMRegistration.
Definition NewStaticVMRegistry : StaticVMRegistry := ∅.
Definition Registry_Add (m : StaticVMRegistry) (r : VMRegistration) : StaticVMRegistry := <[VMID r := r]> m.
Definition Registry_Lookup (m : StaticVMRegistry) (id : list byte) : option VMRegistration := m !! id.
End registration.

(** ** The framing is unambiguous *)

(** What the loop has skipped is zero, and it stops inside its range. *)
Lemma skip_zeros_spec n buf i :
  0 <= i -> let j := skip_zeros n buf i in
  i <= j <= i + Z.of_nat n /\ forall k, i <= k < j -> byte_at buf k = Byte.x00.
Proof.
  revert i; induction n as [|n IH]; intros i Hi; simpl; [split; [lia|intros; lia]|].
  case_bool_decide as Hb; [|split; [lia|intros; lia]].
  destruct (IH (i + 1) ltac:(lia)) as [Hr Hz]; split; [lia|].
  intros k Hk; destruct (decide (k = i)) as [->|]; [done|apply Hz; lia].
Qed.

(** A buffer is its leading zeros and what follows. *)
Lemma leading_zeros buf j :
  0 <= j <= len buf -> (forall k, 0 <= k < j -> byte_at buf k = Byte.x00) ->
  buf = zeros j ++ sub buf j (len buf - j).
Proof.
  intros Hj Hz; rewrite <- (sub_all buf (len buf)) at 1 by lia.
  replace (len buf) with (j + (len buf - j)) at 1 by lia; rewrite sub_split by lia; f_equal.
  apply list_eq; intros k; rewrite lookup_sub by lia; unfold zeros.
  case_decide as Hk; [|symmetry; apply lookup_ge_None; rewrite length_replicate; lia].
  rewrite lookup_replicate_2 by lia.
  specialize (Hz (Z.of_nat k) ltac:(lia)); unfold byte_at in Hz.
  unfold len in Hj; destruct (lookup_lt_is_Some_2 buf k ltac:(lia)) as [b Hb].
  rewrite Nat2Z.id, Hb in Hz; simpl in Hz; subst b; rewrite <- Hb; f_equal; lia.
Qed.

(** [leftEncode] is its count byte and the significant bytes. *)
Lemma leftEncode_eq x :
  0 <= x < 2 ^ 64 -> exists j, 0 <= j <= 7 /\ leftEncode x = [byte.of_Z (8 - j)] ++ sub (be_bytes 8 x) j (8 - j)
    /\ be_bytes 8 x = zeros j ++ sub (be_bytes 8 x) j (8 - j).
Proof.
  intros Hx; pose proof (len_be_bytes 8 x ltac:(lia)) as Hl; unfold leftEncode.
  destruct (Z.eqb_spec x 0) as [->|_]; [exists 7; split_and!; done || reflexivity|].
  destruct (skip_zeros_spec 7 (be_bytes 8 x) 0 ltac:(lia)) as [Hr Hz].
  exists (skip_zeros 7 (be_bytes 8 x) 0); split_and!; [lia|lia|done|].
  rewrite <- Hl at 2; apply leading_zeros; [lia|done].
Qed.

(** [leftEncode] is prefix-free: what follows it can be told apart. *)
Lemma leftEncode_inj x y r s :
  0 <= x < 2 ^ 64 -> 0 <= y < 2 ^ 64 -> leftEncode x ++ r = leftEncode y ++ s -> x = y /\ r = s.
Proof.
  intros Hx Hy; destruct (leftEncode_eq x Hx) as (j & Hj & -> & Ej), (leftEncode_eq y Hy) as (k & Hk & -> & Ek).
  rewrite <- !app_assoc; intros He; injection He as Hc He.
  assert (j = k) as -> by (apply (f_equal byte.unsigned) in Hc; rewrite !byte.unsigned_of_Z in Hc;
    unfold byte.wrap in Hc; rewrite !Z.mod_small in Hc by lia; lia).
  apply app_eq_len in He as [He ->]; [|rewrite !len_sub by (rewrite ?len_be_bytes by lia; lia); done].
  split; [|done]; rewrite He, <- Ek in Ej; apply (be_bytes_inj 8); [lia..|done].
Qed.

Lemma framed_inj f g r s :
  len f < 2 ^ 61 -> len g < 2 ^ 61 -> framed f ++ r = framed g ++ s -> f = g /\ r = s.
Proof.
  pose proof (len_nonneg f); pose proof (len_nonneg g); intros Hf Hg.
  unfold framed, u64; rewrite !Z.mod_small by lia; rewrite <- !app_assoc; intros He.
  apply leftEncode_inj in He as [Hl He]; [|lia|lia].
  apply app_eq_len in He as [-> ->]; [done|lia].
Qed.

(** A context the code can build: arrays of their size, a [uint64] and a slice. *)
Definition context_ok (c : AttestationContext) : Prop :=
  len (TLSCertFingerprint c) = 32 /\ len (ChainID c) = 32 /\ len (PeerMLKEMPub c) < 2 ^ 61
  /\ 0 <= Timestamp c < 2 ^ 64 /\ len (Nonce c) = 32.

(** An attestation signature binds every field of its context. Two
    contexts with the same [TranscriptHash] are the same context (certificate
    fingerprint, chain, KEM key, timestamp and nonce), or the hash inputs built
    from them are a collision of SHAKE256 at 48 bytes. *)
Theorem attestation_binds shake256 c c' :
  context_ok c -> context_ok c' -> TranscriptHash shake256 c = TranscriptHash shake256 c' ->
  c = c' \/ collides (fun x => shake256 x 48) (transcript_input c) (transcript_input c').
Proof.
  intros (Hf & Hc & Hk & Ht & Hn) (Hf' & Hc' & Hk' & Ht' & Hn') He.
  apply (hash_eq (fun x => shake256 x 48)) in He as [Hi|?]; [left|right; done].
  unfold transcript_input in Hi; apply app_inv_head in Hi.
  apply framed_inj in Hi as [H1 Hi]; [|lia|lia]; apply framed_inj in Hi as [H2 Hi]; [|lia|lia].
  apply framed_inj in Hi as [H3 Hi]; [|lia|lia]; rewrite <- !app_assoc in Hi.
  apply app_inv_head in Hi; apply app_eq_len in Hi as [H4 Hi]; [|rewrite !len_be_bytes by lia; done].
  rewrite <- (app_nil_r (framed (Nonce c))), <- (app_nil_r (framed (Nonce c'))) in Hi.
  apply framed_inj in Hi as [H5 _]; [|lia|lia]; apply (be_bytes_inj 8) in H4; [|lia..].
  destruct c, c'; simpl in *; congruence.
Qed.

(** ** Registries of verified keys *)

Section registry.
Context {C : Crypto} {CL : CryptoLaws}.

Lemma VerifyRegistration_inv r authority mode pk :
  VerifyRegistration (Some r) (Some authority) mode = Ok pk ->
  s_bytes pk = VMPubKey r /\ VMID r = sha3_256 (VMPubKey r)
  /\ s_verify authority (registration_payload r) (AuthoritySig r) SignCtx = true
  /\ check_mode r mode = None.
Proof.
  unfold VerifyRegistration; do 2 (case_if; [done|]).
  destruct (bytes_eqb _ _) eqn:Eid; [|done]; apply bool_decide_eq_true in Eid; simpl negb; cbv iota.
  destruct (s_verify _ _ _ _) eqn:Ev; [|done]; simpl negb; cbv iota.
  destruct (check_mode r mode) eqn:Em; [done|].
  destruct (s_parse (VMPubKey r)) as [pk'|] eqn:Ep; [|done]; intros He; injection He as ->.
  apply s_bytes_parse in Ep; done.
Qed.

(** The registries a loader reaches that adds what it has verified. *)
Inductive loaded (authority : s_pk) : StaticVMRegistry -> Prop :=
| loaded_empty : loaded authority NewStaticVMRegistry
| loaded_add m r mode pk :
    loaded authority m -> VerifyRegistration (Some r) (Some authority) mode = Ok pk ->
    loaded authority (Registry_Add m r).

(** In a registry loaded with verified registrations every entry is under
    the hash of its own ML-DSA key and carries the chain authority's signature
    over the pair; and no verified registration, initial or rotation, puts a
    different key under an id that is taken, unless the two keys are a SHA3-256
    collision. So a rotation never replaces the key of its id. *)
Theorem registry_pins_keys authority m id r :
  loaded authority m -> Registry_Lookup m id = Some r ->
  (id = sha3_256 (VMPubKey r) /\ VMID r = id /\ (exists pk, s_bytes pk = VMPubKey r)
   /\ s_verify authority (id ++ VMPubKey r) (AuthoritySig r) SignCtx = true)
  /\ forall r' mode pk, VerifyRegistration (Some r') (Some authority) mode = Ok pk ->
     VMID r' = id -> VMPubKey r' = VMPubKey r \/ collides sha3_256 (VMPubKey r') (VMPubKey r).
Proof.
  intros Hm Hl.
  assert (Hr : exists pk mode, VMID r = id /\ VerifyRegistration (Some r) (Some authority) mode = Ok pk).
  { induction Hm as [|m r1 mode pk Hm IH Hv]; [done|]; unfold Registry_Lookup, Registry_Add, StaticVMRegistry in *.
    destruct (decide (VMID r1 = id)) as [Hid|Hne].
    - rewrite Hid, lookup_insert_eq in Hl; simplify_eq; eauto.
    - rewrite lookup_insert_ne in Hl by done; auto. }
  destruct Hr as (pk & mode & Hid & (Hpk & Hsha & Hsig & _)%VerifyRegistration_inv); split.
  - split_and!; [congruence|done|eauto|]; rewrite <- Hid; done.
  - intros r' mode' pk' (_ & Hsha' & _)%VerifyRegistration_inv Hid'; apply hash_eq; congruence.
Qed.
End registry.

(** ** Witnesses *)

Lemma attestation_binds_witness :
  let c t := mkContext (zeros 32) (zeros 32) [] t (zeros 32) in
  c 1 <> c 2 /\ transcript_input (c 1) <> transcript_input (c 2).
Proof.
  intros c; assert (c 1 <> c 2) as Hne by (unfold c; congruence); split; [exact Hne|intros He].
  destruct (attestation_binds (fun x _ => x) (c 1) (c 2)) as [Heq|[Hxy Heq]].
  - split_and!; first [reflexivity|vm_compute; reflexivity|vm_compute; congruence].
  - split_and!; first [reflexivity|vm_compute; reflexivity|vm_compute; congruence].
  - exact He.
  - exact (Hne Heq).
  - exact (Hxy Heq).
Defined.

Definition toy_registration (b : byte) : VMRegistration :=
  let pub := rep 1952 b in
  let id := @sha3_256 toy_crypto pub in
  mkRegistration id pub (to_array 3309 (Byte.x42 :: id ++ pub)) [] [].

Lemma registry_pins_keys_witness :
  let r := toy_registration Byte.x21 in
  @VerifyRegistration toy_crypto (Some r) (Some Byte.x42) ModeInitial = Ok Byte.x21
  /\ Registry_Lookup (Registry_Add NewStaticVMRegistry r) (VMID r) = Some r
  /\ VMID r = @sha3_256 toy_crypto (VMPubKey r).
Proof.
  intros r; assert (@VerifyRegistration toy_crypto (Some r) (Some Byte.x42) ModeInitial = Ok Byte.x21) as Hv
    by (vm_compute; reflexivity).
  assert (Registry_Lookup (Registry_Add NewStaticVMRegistry r) (VMID r) = Some r) as Hl
    by (unfold Registry_Lookup, Registry_Add, StaticVMRegistry; apply lookup_insert_eq).
  split; [exact Hv|split; [exact Hl|]].
  exact (proj1 (proj1 (@registry_pins_keys toy_crypto toy_laws Byte.x42 _ _ _
    (@loaded_add toy_crypto Byte.x42 _ r ModeInitial Byte.x21 (@loaded_empty toy_crypto Byte.x42) Hv) Hl))).
Defined.
