(* ===== verification/PqConn.v ===== *)
(** * PqConn: a session as a byte stream

    Models [conn_pq.go]: [Read] and [Write] of the wrapper that turns the record
    layer of [HsSession] into a [net.Conn]. [Write] cuts its argument into
    records, [Read] hands a record out in pieces of the caller's size. The
    session's clock is a function from the number of records sent. Deadlines and
    addresses delegate to the connection below and are not modelled. *)

From S2P Require Import Prelude HsLabels HsFrames HsPSK HsKdf HsSession.
Local Open Scope Z_scope.

Definition MaxPQRecord : Z := 64 * 1024.

Section pqconn.
Context {C : Crypto}.
Context (text : hs_error -> list byte).

(** The session and what is left of the record being read. *)
Record pqConn : Type := mkPq {
  sess : Session;
  readBuf : list byte
}.

Definition WrapPQ (s : Session) : pqConn := mkPq s [].

(** The bytes copied into a slice of length [n]. *)
Definition Read (q : pqConn) (c : Conn) (n : Z)
  : outcome (result (list byte) hs_error * pqConn * Conn) :=
  if n =? 0 then Ret (Ok [], q, c) else
  f ← (if len (readBuf q) =? 0 then
         x ← Recv text (sess q) c;
         match x with
         | (Err e, s, c) => Ret (Err e, mkPq s (readBuf q), c)
         | (Ok plain, s, c) => Ret (Ok tt, mkPq s plain, c)
         end
       else Ret (Ok tt, q, c));
  match f with
  | (Err e, q, c) => Ret (Err e, q, c)
  | (Ok _, q, c) =>
      Ret (Ok (sub (readBuf q) 0 n), mkPq (sess q) (drop (Z.to_nat n) (readBuf q)), c)
  end.

(** The loop of [Write]; [fuel] bounds the records. *)
Fixpoint Write_loop (fuel : nat) (clock : nat -> Z) (k : nat) (s : Session) (c : Conn) (p : list byte)
  (total : Z) : outcome (Z * option hs_error * Session * Conn) :=
  if len p <=? 0 then Ret (total, None, s, c) else
  match fuel with
  | O => Panic
  | S fuel =>
      let chunk := if MaxPQRecord <? len p then sub p 0 MaxPQRecord else p in
      x ← Send s c (clock k) chunk;
      match x with
      | (Err e, s, c) => Ret (total, Some e, s, c)
      | (Ok _, s, c) =>
          Write_loop fuel clock (S k) s c (drop (length chunk) p) (total + len chunk)
      end
  end.

(** Every record takes a byte or more. *)
Definition Write (q : pqConn) (c : Conn) (clock : nat -> Z) (p : list byte)
  : outcome (Z * option hs_error * pqConn * Conn) :=
  x ← Write_loop (length p) clock 0 (sess q) c p 0;
  let '(n, e, s, c) := x in Ret (n, e, mkPq s (readBuf q), c).

Definition pq_Close (q : pqConn) (c : Conn) : pqConn * Conn :=
  let '(s, c) := Close (sess q) c in (mkPq s (readBuf q), c).

Definition PeerID (q : pqConn) : list byte := peerID (sess q).

(** A reader that calls [Read] with the given sizes until it has [want] bytes. *)
Fixpoint read_upto (ns : list Z) (want : Z) (q : pqConn) (c : Conn)
  : outcome (result (list byte) hs_error * pqConn * Conn) :=
  match ns with
  | [] => Ret (Ok [], q, c)
  | n :: ns =>
      if want <=? 0 then Ret (Ok [], q, c) else
      x ← Read q c n;
      match x with
      | (Err e, q, c) => Ret (Err e, q, c)
      | (Ok b, q, c) =>
          y ← read_upto ns (want - len b) q c;
          match y with
          | (Err e, q, c) => Ret (Err e, q, c)
          | (Ok bs, q, c) => Ret (Ok (b ++ bs), q, c)
          end
      end
  end.
End pqconn.

Section proofs.
Context {C : Crypto} {CL : CryptoLaws}.
Context (text : hs_error -> list byte).

(** A send on a healthy connection is received, or the epochs are used up. *)
Lemma Send_delivers s c r now p :
  synced s r -> conn_ok c -> broken (tx c) = false -> len p + 28 <= MaxFrameBody ->
  (Send s c now p = Ret (Err ErrEpochExhausted, s, c) /\ sendEpoch s = 255)
  \/ exists s' c' ks r', Send s c now p = Ret (Ok tt, s', c') /\ sent c ks c' /\ synced s' r'
     /\ forall cr rest, conn_ok cr -> rx cr = concat ks ++ rest ->
          Recv text r cr = Ret (Ok p, r', mkConn rest (tx cr) (bufs cr)).
Proof.
  intros Hsy Hc Hb Hl; pose proof Hsy as (Hs & Hr & _); unfold Send.
  destruct (Send_prepare_ok s c now p Hs Hc Hb) as (x & s1 & c1 & -> & Hs1 & Hc1 & Hb1
    & [(-> & -> & -> & He)|(-> & Hctr & Hby & Hcase)]); [unfold MaxFrameBody in *; lia|left; done|right].
  cbn [mbind outcome_bind].
  destruct (Send_seal_ok s1 c1 p Hs1 Hby Hc1 Hb1 Hl) as (c' & -> & Hw).
  assert (Hmid : exists ks r1, sent c ks c1 /\ absorbs text r ks r1 /\ synced s1 r1).
  { destruct Hcase as [[-> ->]|(-> & Hw2 & He)].
    - exists [], r; split; [apply sent_nil; done|split; [apply absorbs_nil|done]].
    - exists [rekey_frame], (rratcheted r); split; [apply wrote_sent, Hw2|].
      split; [apply (absorbs_rekey text s); [done|lia]|apply rratcheted_synced; [done|lia]]. }
  destruct Hmid as (ks & r1 & Hsent & Hab & Hsy1).
  exists (advanced s1 p), c', (ks ++ [data_frame s1 p]), (received r1 (sendCounter s1)); split; [done|].
  split; [eapply sent_app; [done|apply wrote_sent, Hw]|].
  split; [apply synced_advanced; [done|apply advanced_ok; done]|].
  intros cr rest Hcr Hrx; rewrite concat_app, <- app_assoc in Hrx; change (concat [?x]) with (x ++ []) in Hrx.
  rewrite app_nil_r in Hrx; pose proof (Hab 1%nat cr _ Hrx) as Hrun.
  rewrite (recv_data text s1 r1 p 0 _ rest) in Hrun by done; unfold Recv; rewrite (proj1 Hr).
  destruct (Recv_loop_total text (S (length (rx cr))) r cr Hcr) as (x & r' & cr' & Heq & _);
    [unfold session_ok in Hr; intuition congruence|lia|].
  rewrite Heq; apply (Recv_loop_mono _ _ _ _ _ (length ks + 1)) in Heq.
  apply (Recv_loop_mono _ _ _ _ _ (S (length (rx cr)))) in Hrun.
  rewrite Nat.add_comm, Hrun in Heq; simplify_eq; done.
Qed.

Lemma records_empty (b : list byte) (recs : list (list byte)) :
  Forall (fun p => 0 < len p) recs -> len b + len (concat recs) <= 0 -> b = [] /\ recs = [].
Proof.
  intros Hne Hz; pose proof (len_nonneg b); pose proof (len_nonneg (concat recs)).
  split; [destruct b as [|x b]; [done|rewrite len_cons in *; pose proof (len_nonneg b); lia]|].
  destruct recs as [|p recs]; [done|]; apply Forall_cons_1 in Hne as [Hp _].
  cbn [concat] in *; rewrite len_app in *; pose proof (len_nonneg (concat recs)); lia.
Qed.

(** Reading pieces of any size puts the records back together. *)
Lemma read_upto_records ns : forall b recs r cr r' c',
  recv_n text r cr (length recs) = Ret (Ok recs, r', c') ->
  Forall (fun p => 0 < len p) recs -> Forall (fun n => 0 < n) ns ->
  len b + len (concat recs) <= Z.of_nat (length ns) ->
  read_upto text ns (len b + len (concat recs)) (mkPq r b) cr
  = Ret (Ok (b ++ concat recs), mkPq r' [], c').
Proof.
  induction ns as [|n ns IH]; intros b recs r cr r' c' Hrecv Hne Hns Hlen.
  { destruct (records_empty b recs Hne Hlen) as [-> ->]; simpl in Hrecv; simplify_eq; done. }
  cbn [read_upto]; destruct (Z.leb_spec (len b + len (concat recs)) 0) as [Hz|Hz].
  { destruct (records_empty b recs Hne Hz) as [-> ->]; simpl in Hrecv; simplify_eq; done. }
  apply Forall_cons_1 in Hns as [Hn Hns]; rewrite length_cons in Hlen.
  assert (Hread : exists b1 recs1 r1 c1, 0 < len b1 /\ b ++ concat recs = b1 ++ concat recs1
    /\ Read text (mkPq r b) cr n = Ret (Ok (sub b1 0 n), mkPq r1 (drop (Z.to_nat n) b1), c1)
    /\ recv_n text r1 c1 (length recs1) = Ret (Ok recs1, r', c') /\ Forall (fun p => 0 < len p) recs1).
  { unfold Read; replace (n =? 0) with false by lia; cbn [readBuf sess].
    destruct b as [|x b].
    - destruct recs as [|p recs]; [cbn [concat] in Hz; vm_compute in Hz; discriminate|]; cbn [length recv_n] in Hrecv.
      apply Forall_cons_1 in Hne as [Hp Hne].
      destruct (Recv text r cr) as [[[[p'|e] r1] c1]|]; try done; cbn [mbind outcome_bind] in Hrecv.
      destruct (recv_n text r1 c1 (length recs)) as [[[[ps|e] r2] c2]|] eqn:Er; try done.
      cbn [mbind outcome_bind] in Hrecv; simplify_eq; exists p, recs, r1, c1; split_and!; done.
    - replace (len (x :: b) =? 0) with false by (rewrite len_cons; pose proof (len_nonneg b); lia).
      exists (x :: b), recs, r, cr; rewrite len_cons; pose proof (len_nonneg b); split_and!; done || lia. }
  destruct Hread as (b1 & recs1 & r1 & c1 & Hb1 & Heq & -> & Hrecv1 & Hne1); cbn [mbind outcome_bind].
  assert (Hpos : 0 < len (sub b1 0 n)) by (unfold sub, len in *; rewrite drop_0, length_take; lia).
  assert (Hsplit : len b + len (concat recs) - len (sub b1 0 n)
    = len (drop (Z.to_nat n) b1) + len (concat recs1)).
  { rewrite <- len_app, Heq, len_app; unfold sub, len; rewrite drop_0, length_take, length_drop; lia. }
  rewrite Hsplit, (IH _ recs1 r1 c1 r' c'); [|done|done|done|lia]; cbn [mbind outcome_bind].
  rewrite Heq; unfold sub; rewrite drop_0, app_assoc, take_drop; done.
Qed.

(** What the loop of [Write] has sent comes out as non-empty records. *)
Lemma Write_loop_records fuel : forall clock k s c r p total,
  synced s r -> conn_ok c -> broken (tx c) = false -> len p <= Z.of_nat fuel ->
  exists n e s' c' ks r' recs, Write_loop fuel clock k s c p total = Ret (total + n, e, s', c')
    /\ (e = None /\ n = len p \/ e = Some ErrEpochExhausted /\ sendEpoch s' = 255 /\ 0 <= n < len p)
    /\ sent c ks c' /\ synced s' r' /\ concat recs = sub p 0 n /\ Forall (fun q => 0 < len q) recs
    /\ forall cr rest, conn_ok cr -> rx cr = concat ks ++ rest ->
         recv_n text r cr (length recs) = Ret (Ok recs, r', mkConn rest (tx cr) (bufs cr)).
Proof.
  assert (Hstop : forall c r, conn_ok c -> broken (tx c) = false ->
    sent c [] c /\ forall cr rest, conn_ok cr -> rx cr = concat [] ++ rest ->
      recv_n text r cr (@length (list byte) []) = Ret (Ok [], r, mkConn rest (tx cr) (bufs cr))).
  { intros c r Hc Hb; split; [apply sent_nil; done|]; intros cr rest _ Hrx; simpl in *; rewrite <- Hrx.
    destruct cr; done. }
  induction fuel as [|fuel IH]; intros clock k s c r p total Hsy Hc Hb Hlen; cbn [Write_loop];
    pose proof (len_nonneg p); destruct (Z.leb_spec (len p) 0) as [Hz|Hz]; [|lia| |].
  1,2: destruct (Hstop c r Hc Hb); exists 0, None, s, c, [], r, []; rewrite Z.add_0_r.
  1,2: assert (p = []) as -> by (destruct p; [done|rewrite len_cons in Hz; pose proof (len_nonneg p); lia]).
  1,2: split_and!; try done; left; done.
  set (chunk := if MaxPQRecord <? len p then sub p 0 MaxPQRecord else p).
  assert (Hchunk : 0 < len chunk <= MaxPQRecord /\ len chunk <= len p /\ chunk = sub p 0 (len chunk)).
  { unfold chunk, MaxPQRecord; destruct (Z.ltb_spec (64 * 1024) (len p)).
    - rewrite len_sub by lia; split; [lia|split; [lia|done]].
    - rewrite sub_all by lia; split; [lia|split; [lia|done]]. }
  destruct Hchunk as (Hcl & Hcp & Hce).
  destruct (Send_delivers s c r (clock k) chunk Hsy Hc Hb) as [[-> He]|(s1 & c1 & ks1 & r1 & -> & Hse1 & Hsy1 & Hrecv1)];
    [unfold MaxPQRecord, MaxFrameBody in *; lia| |]; cbn [mbind outcome_bind].
  { destruct (Hstop c r Hc Hb); exists 0, (Some ErrEpochExhausted), s, c, [], r, []; rewrite Z.add_0_r.
    split_and!; try done; right; split_and!; done || lia. }
  pose proof Hse1 as [Hc1 Ht1].
  destruct (IH clock (S k) s1 c1 r1 (drop (length chunk) p) (total + len chunk) Hsy1 Hc1)
    as (n & e & s' & c' & ks & r' & recs & -> & Hres & Hse & Hsy' & Hcat & Hne & Hrecv).
  { rewrite Ht1; done. }
  { unfold len in *; rewrite length_drop; lia. }
  assert (Hd : len (drop (length chunk) p) = len p - len chunk) by (unfold len in *; rewrite length_drop; lia).
  assert (Hn : 0 <= n) by (pose proof (len_nonneg (drop (length chunk) p)); destruct Hres as [[_ ->]|]; lia).
  exists (len chunk + n), e, s', c', (ks1 ++ ks), r', (chunk :: recs).
  rewrite <- Z.add_assoc; split; [done|split; [rewrite Hd in Hres; intuition lia|]].
  split; [eapply sent_app; done|split; [done|split]].
  - cbn [concat]; rewrite Hcat, sub_split by lia; f_equal; [done|].
    unfold sub; rewrite drop_0; f_equal; f_equal; unfold len; lia.
  - split; [constructor; [lia|done]|]; intros cr rest Hcr Hrx; rewrite concat_app, <- app_assoc in Hrx.
    cbn [length recv_n]; rewrite (Hrecv1 cr _ Hcr Hrx); cbn [mbind outcome_bind].
    rewrite (Hrecv _ rest) by done; done.
Qed.

(** The wrapped connection is a byte stream. Whatever the clock, a [Write]
    on a healthy connection returns the number of bytes it has sent: all of
    them, or as many as the key epochs allowed. A peer in step that then calls
    [Read] with any positive sizes reads exactly those bytes, in order, and
    stays in step. *)
Theorem pq_stream_delivers clock p s c r :
  synced s r -> conn_ok c -> broken (tx c) = false ->
  exists n e s' c' ks r', Write (WrapPQ s) c clock p = Ret (n, e, mkPq s' [], c')
    /\ (e = None /\ n = len p \/ e = Some ErrEpochExhausted /\ sendEpoch s' = 255 /\ 0 <= n < len p)
    /\ tx c' = mkWriter (calls (tx c) ++ ks) false /\ synced s' r'
    /\ forall cr rest ns, conn_ok cr -> rx cr = concat ks ++ rest ->
         Forall (fun m => 0 < m) ns -> n <= Z.of_nat (length ns) ->
         read_upto text ns n (WrapPQ r) cr
         = Ret (Ok (sub p 0 n), mkPq r' [], mkConn rest (tx cr) (bufs cr)).
Proof.
  intros Hsy Hc Hb; unfold Write; cbn [sess WrapPQ readBuf].
  destruct (Write_loop_records (length p) clock 0 s c r p 0 Hsy Hc Hb) as
    (n & e & s' & c' & ks & r' & recs & -> & Hres & [_ Ht] & Hsy' & Hcat & Hne & Hrecv); [unfold len; lia|].
  exists n, e, s', c', ks, r'; split_and!; try done; intros cr rest ns Hcr Hrx Hns Hlen.
  assert (Hn : n = len (concat recs)).
  { pose proof (len_nonneg p); rewrite Hcat, len_sub; destruct Hres as [[_ ->]|]; lia. }
  pose proof (read_upto_records ns [] recs r cr r' _ (Hrecv cr rest Hcr Hrx) Hne Hns) as Hread.
  change (len []) with 0 in Hread; rewrite Z.add_0_l, <- Hn, Hcat in Hread; apply Hread; done.
Qed.
End proofs.

Lemma pq_stream_delivers_witness :
  exists sI sR n e s' c' ks, @newSession toy_crypto RoleInitiator [] Byte.x01 sample_keys 0 = Ok sI
    /\ @newSession toy_crypto RoleResponder [] Byte.x01 sample_keys 0 = Ok sR
    /\ @Write toy_crypto (WrapPQ sI) sample_conn (fun _ => 0) [Byte.x61; Byte.x62; Byte.x63]
       = Ret (n, e, mkPq s' [], c')
    /\ tx c' = mkWriter ks false.
Proof.
  destruct sample_sessions as (sI & sR & HI & HR & Hs & Hok & He).
  destruct (@pq_stream_delivers toy_crypto toy_laws no_text (fun _ => 0) [Byte.x61; Byte.x62; Byte.x63]
    sI sample_conn sR Hs pools_ok_empty eq_refl) as (n & e & s' & c' & ks & r' & Hw & _ & Ht & _).
  exists sI, sR, n, e, s', c', ks; split_and!; assumption.
Defined.
