(* ===== verification/BufPool.v ===== *)
(** * BufPool: reference-counted read buffers

    Models [bufpool.go]: slabs in six size classes, the reference-counted
    [bufRef] headers over them, and the pools both return to. A heap holds the
    slabs and the headers under their addresses. A [sync.Pool] hands out an
    element of its choice or makes a new one, and may forget elements at any
    time. *)

From S2P Require Import Prelude Wire.
From stdpp Require Import gmap.
Local Open Scope Z_scope.

Definition bufSizes : list Z := [64; 256; 1024; 4 * 1024; 16 * 1024; 64 * 1024].

(** [bufSizes[i]]. *)
Definition size_of (i : Z) : Z := default 0 (bufSizes !! Z.to_nat i).

Definition pickBufClass (n : Z) : Z :=
  if n <=? size_of 0 then 0 else
  if n <=? size_of 1 then 1 else
  if n <=? size_of 2 then 2 else
  if n <=? size_of 3 then 3 else
  if n <=? size_of 4 then 4 else
  if n <=? size_of 5 then 5 else -1.

Record bufRef : Type := mkRef {
  bufp : option nat;
  fallback : list byte;
  rn : Z;
  class : Z;
  rcount : Z
}.

Record heap : Type := mkHeap {
  slabs : gmap nat (list byte);
  bufPools : list (list nat);
  headers : gmap nat bufRef;
  refPool : list nat;
  fresh : nat
}.

Definition empty_heap : heap := mkHeap ∅ (replicate 6 []) ∅ [] 0.

(** ** The pools *)

(** [refPool.Get()]. *)
Definition get_ref (pick : option nat) (h : heap) : nat * heap :=
  match i ← pick; refPool h !! i with
  | Some r => (r, mkHeap (slabs h) (bufPools h) (headers h)
                    (delete (default O pick) (refPool h)) (fresh h))
  | None => (fresh h, mkHeap (slabs h) (bufPools h)
                        (<[fresh h := mkRef None [] 0 0 0]> (headers h)) (refPool h) (S (fresh h)))
  end.

(** [bufPools[class].Get()]. *)
Definition get_slab (pick : option nat) (c : nat) (h : heap) : nat * heap :=
  let pool := default [] (bufPools h !! c) in
  match i ← pick; pool !! i with
  | Some p => (p, mkHeap (slabs h) (<[c := delete (default O pick) pool]> (bufPools h))
                    (headers h) (refPool h) (fresh h))
  | None => (fresh h, mkHeap (<[fresh h := zeros (size_of (Z.of_nat c))]> (slabs h)) (bufPools h)
                        (headers h) (refPool h) (S (fresh h)))
  end.

Definition set_ref (h : heap) (r : nat) (b : bufRef) : heap :=
  mkHeap (slabs h) (bufPools h) (<[r := b]> (headers h)) (refPool h) (fresh h).

(** ** Operations *)

Definition getBuf (pickr picks : option nat) (n : Z) (h : heap) : nat * heap :=
  let '(r, h) := get_ref pickr h in
  let c := pickBufClass n in
  if c <? 0 then (r, set_ref h r (mkRef None (zeros n) n c 1)) else
  let '(p, h) := get_slab picks (Z.to_nat c) h in
  (r, set_ref h r (mkRef (Some p) [] n c 1)).

Definition rawBuf (h : heap) (r : nat) : outcome (list byte) :=
  b ← deref (headers h !! r);
  match bufp b with
  | Some p => s ← deref (slabs h !! p); slice s 0 (size_of (class b))
  | None => Ret (fallback b)
  end.

Definition Bytes (h : heap) (r : nat) : outcome (list byte) :=
  b ← deref (headers h !! r);
  match bufp b with
  | Some p => s ← deref (slabs h !! p); slice s 0 (rn b)
  | None => slice (fallback b) 0 (rn b)
  end.

(** [copy(r.rawBuf()[:len(bs)], bs)], how a reader fills the buffer. *)
Definition fill (h : heap) (r : nat) (bs : list byte) : outcome heap :=
  b ← deref (headers h !! r);
  match bufp b with
  | Some p => s ← deref (slabs h !! p); s ← store s 0 bs;
              Ret (mkHeap (<[p := s]> (slabs h)) (bufPools h) (headers h) (refPool h) (fresh h))
  | None => s ← store (fallback b) 0 bs;
            Ret (set_ref h r (mkRef None s (rn b) (class b) (rcount b)))
  end.

Definition retain (h : heap) (r : nat) : outcome heap :=
  b ← deref (headers h !! r);
  Ret (set_ref h r (mkRef (bufp b) (fallback b) (rn b) (class b) (s32 (rcount b + 1)))).

Definition release (h : heap) (r : option nat) : outcome heap :=
  match r with
  | None => Ret h
  | Some r =>
      b ← deref (headers h !! r);
      let n := s32 (rcount b - 1) in
      if negb (n =? 0) then Ret (set_ref h r (mkRef (bufp b) (fallback b) (rn b) (class b) n)) else
      h ← (match bufp b with
           | Some p => pool ← index (bufPools h) (class b);
                       Ret (mkHeap (slabs h) (<[Z.to_nat (class b) := p :: pool]> (bufPools h))
                              (headers h) (refPool h) (fresh h))
           | None => Ret h
           end);
      let h := set_ref h r (mkRef None [] 0 0 n) in
      Ret (mkHeap (slabs h) (bufPools h) (headers h) (r :: refPool h) (fresh h))
  end.

(** [zap.go]: a message over a pooled buffer. *)
Definition attachToMessage (m : Message) (r : nat) : Message := mkMessage (data m) (Some r).
Definition Message_Release (h : heap) (m : option Message) : outcome (heap * option Message) :=
  match m with
  | None => Ret (h, None)
  | Some m => h ← release h (refs m); Ret (h, Some (mkMessage [] None))
  end.
Definition Message_Retain (h : heap) (m : option Message) : outcome heap :=
  match m with
  | Some (mkMessage _ (Some r)) => retain h r
  | _ => Ret h
  end.

(** ** Clients *)

(** Heap and the references the clients hold, one entry per reference. A client
    fills a buffer it has just got, retains and releases only what it holds,
    and the pools may drop elements. The holders of [kept] do nothing. *)
Inductive pstep (kept : list nat) : heap * list nat -> heap * list nat -> Prop :=
| step_get h hs pr ps bs r h1 h2 :
    getBuf pr ps (len bs) h = (r, h1) -> fill h1 r bs = Ret h2 ->
    pstep kept (h, hs) (h2, r :: hs)
| step_retain h hs r h' :
    r ∈ hs -> Z.of_nat (count_occ Nat.eq_dec (kept ++ hs) r) < 2 ^ 31 - 1 -> retain h r = Ret h' ->
    pstep kept (h, hs) (h', r :: hs)
| step_release h hs1 r hs2 h' :
    release h (Some r) = Ret h' -> pstep kept (h, hs1 ++ r :: hs2) (h', hs1 ++ hs2)
| step_drop_slab h hs c pool i :
    bufPools h !! c = Some pool ->
    pstep kept (h, hs) (mkHeap (slabs h) (<[c := delete i pool]> (bufPools h)) (headers h)
                          (refPool h) (fresh h), hs)
| step_drop_ref h hs i :
    pstep kept (h, hs) (mkHeap (slabs h) (bufPools h) (headers h) (delete i (refPool h)) (fresh h), hs).

(** The header of a held reference: its count is the number of holders, its
    buffer has the size of its class or of the request. *)
Definition header_ok (h : heap) (hs : list nat) (r : nat) (b : bufRef) : Prop :=
  headers h !! r = Some b /\ rcount b = Z.of_nat (count_occ Nat.eq_dec hs r) /\ 0 <= rn b
  /\ match bufp b with
     | Some p => exists s, slabs h !! p = Some s /\ (0 <= class b < 6) /\ len s = size_of (class b)
                           /\ rn b <= size_of (class b) /\ p ∉ concat (bufPools h)
     | None => len (fallback b) = rn b
     end.

Definition heap_ok (h : heap) (hs : list nat) : Prop :=
  (forall r, r ∈ hs -> exists b, header_ok h hs r b)
  /\ (forall r r' b b' p, r ∈ hs -> r' ∈ hs -> headers h !! r = Some b -> headers h !! r' = Some b' ->
        bufp b = Some p -> bufp b' = Some p -> r = r')
  /\ (forall r, r ∈ hs -> r ∉ refPool h) /\ NoDup (refPool h)
  /\ length (bufPools h) = 6%nat /\ NoDup (concat (bufPools h))
  /\ (forall c pool p, bufPools h !! c = Some pool -> p ∈ pool ->
        exists s, slabs h !! p = Some s /\ len s = size_of (Z.of_nat c))
  /\ (forall p s, slabs h !! p = Some s -> (p < fresh h)%nat)
  /\ (forall r b, headers h !! r = Some b -> (r < fresh h)%nat)
  /\ (forall r, r ∈ refPool h -> (r < fresh h)%nat)
  /\ (forall r, Z.of_nat (count_occ Nat.eq_dec hs r) < 2 ^ 31).

Lemma empty_heap_ok : heap_ok empty_heap [].
Proof.
  split_and!; simpl; intros; rewrite ?lookup_empty in *; try set_solver.
  - constructor.
  - constructor.
  - destruct c as [|[|[|[|[|[|]]]]]]; simpl in *; simplify_eq; set_solver.
Qed.

(** ** The invariant *)

Lemma concat_insert_cons {A} (ls : list (list A)) c l x :
  ls !! c = Some l -> concat (<[c := x :: l]> ls) ≡ₚ x :: concat ls.
Proof.
  revert c; induction ls as [|l' ls IH]; intros [|c] Hc; simplify_eq/=; [done|].
  rewrite IH by done; rewrite Permutation_middle; done.
Qed.

Lemma concat_insert_delete {A} (ls : list (list A)) c l i x :
  ls !! c = Some l -> l !! i = Some x -> concat ls ≡ₚ x :: concat (<[c := delete i l]> ls).
Proof.
  revert c; induction ls as [|l' ls IH]; intros [|c] Hc Hi; simplify_eq/=.
  - rewrite (delete_Permutation l i x) at 1 by done; done.
  - rewrite (IH c) by done; rewrite Permutation_middle; done.
Qed.

Lemma elem_of_count (hs : list nat) r : r ∈ hs <-> (0 < count_occ Nat.eq_dec hs r)%nat.
Proof. rewrite list_elem_of_In, (count_occ_In Nat.eq_dec hs r); lia. Qed.

(** What the invariant says of the clients' view: only membership and counts. *)
Lemma heap_ok_perm h hs hs' : hs ≡ₚ hs' -> heap_ok h hs -> heap_ok h hs'.
Proof.
  intros Hp (H1 & H2 & H3 & H4 & H5 & H6 & H7 & H8 & H9 & H10 & H11).
  assert (Hc : forall r, count_occ Nat.eq_dec hs' r = count_occ Nat.eq_dec hs r)
    by (intros r; symmetry; apply Permutation_count_occ; done).
  split_and!; try done.
  - intros r Hr; rewrite <- Hp in Hr; destruct (H1 r Hr) as (b & Hb); exists b.
    unfold header_ok; rewrite Hc; done.
  - intros r r' b b' p; rewrite <- Hp; eauto.
  - intros r; rewrite <- Hp; auto.
  - intros r; rewrite Hc; auto.
Qed.

(** A header outside the clients' view and a slab nobody else has become a
    reference. *)
Lemma heap_ok_acquire h hs r b :
  heap_ok h hs -> r ∉ hs -> r ∉ refPool h -> (r < fresh h)%nat -> rcount b = 1 -> 0 <= rn b ->
  match bufp b with
  | Some p => (exists s, slabs h !! p = Some s /\ (0 <= class b < 6) /\ len s = size_of (class b)
                 /\ rn b <= size_of (class b) /\ p ∉ concat (bufPools h))
              /\ forall r' b', r' ∈ hs -> headers h !! r' = Some b' -> bufp b' <> Some p
  | None => len (fallback b) = rn b
  end -> heap_ok (set_ref h r b) (r :: hs).
Proof.
  intros (H1 & H2 & H3 & H4 & H5 & H6 & H7 & H8 & H9 & H10 & H11) Hr Hp Hf Hc Hn Hb.
  assert (Hcount : count_occ Nat.eq_dec hs r = 0%nat)
    by (pose proof (elem_of_count hs r); destruct (count_occ _ _ _); [done|exfalso; apply Hr, H; lia]).
  assert (Hother : forall r', r' ∈ hs -> r' <> r) by congruence.
  split_and!; unfold header_ok; cbn [set_ref headers slabs bufPools refPool fresh]; try done.
  - intros r' [->|Hr']%elem_of_cons.
    + exists b; rewrite lookup_insert_eq, Hc; simpl; destruct (Nat.eq_dec r r); [|done]; rewrite Hcount.
      split_and!; try done; destruct (bufp b); [destruct Hb as [? _]|]; done.
    + destruct (H1 r' Hr') as (b' & Hb' & Hc' & Hrest); exists b'.
      rewrite lookup_insert_ne by (pose proof (Hother r' Hr'); congruence).
      simpl; destruct (Nat.eq_dec r r'); [subst; done|]; done.
  - intros r1 r2 b1 b2 p [->|Hr1]%elem_of_cons [->|Hr2]%elem_of_cons; try done.
    + rewrite lookup_insert_eq, lookup_insert_ne by (pose proof (Hother r2 Hr2); congruence).
      intros ? Hb2 Hbp1 Hbp2; simplify_eq; rewrite Hbp1 in Hb; destruct Hb as [_ Hb]; destruct (Hb r2 b2 Hr2 Hb2 Hbp2).
    + rewrite lookup_insert_eq, lookup_insert_ne by (pose proof (Hother r1 Hr1); congruence).
      intros Hb1 ? Hbp1 Hbp2; simplify_eq; rewrite Hbp2 in Hb; destruct Hb as [_ Hb]; destruct (Hb r1 b1 Hr1 Hb1 Hbp1).
    + rewrite !lookup_insert_ne by (pose proof (Hother r1 Hr1); pose proof (Hother r2 Hr2); congruence); eauto.
  - intros r' [->|Hr']%elem_of_cons; auto.
  - intros r' b'; destruct (decide (r = r')) as [->|]; [done|rewrite lookup_insert_ne by done; eauto].
  - intros r'; simpl; destruct (Nat.eq_dec r r') as [<-|]; [rewrite Hcount; lia|auto].
Qed.

Lemma list_delete_id {A} (l : list A) i : l !! i = None -> delete i l = l.
Proof. revert i; induction l as [|x l IH]; intros [|i]; simpl; intros; simplify_eq; f_equal; auto. Qed.

Lemma elem_of_pools (ls : list (list nat)) q :
  q ∈ concat ls <-> exists c l, ls !! c = Some l /\ q ∈ l.
Proof.
  rewrite list_elem_of_In, in_concat; split.
  - intros (l & Hl & Hq); apply list_elem_of_In, list_elem_of_lookup in Hl as [c Hc].
    exists c, l; rewrite list_elem_of_In; done.
  - intros (c & l & Hc & Hq); exists l; rewrite <- !list_elem_of_In; split; [|done].
    eapply list_elem_of_lookup_2; done.
Qed.

(** Smaller pools, more slabs, the same headers for the clients. *)
Lemma heap_ok_weaken h hs h' :
  heap_ok h hs -> (forall r, r ∈ hs -> headers h' !! r = headers h !! r) ->
  (forall q s, slabs h !! q = Some s -> exists s', slabs h' !! q = Some s' /\ len s' = len s) ->
  length (bufPools h') = 6%nat -> NoDup (concat (bufPools h')) ->
  (forall c l' q, bufPools h' !! c = Some l' -> q ∈ l' -> exists l, bufPools h !! c = Some l /\ q ∈ l) ->
  NoDup (refPool h') -> (forall r, r ∈ refPool h' -> r ∈ refPool h) ->
  (forall p s, slabs h' !! p = Some s -> (p < fresh h')%nat) ->
  (forall r b, headers h' !! r = Some b -> (r < fresh h')%nat) -> (fresh h <= fresh h')%nat ->
  heap_ok h' hs.
Proof.
  intros (H1 & H2 & H3 & H4 & H5 & H6 & H7 & H8 & H9 & H10 & H11) Hh Hs Hl6 Hnd Hpool Hnr Hrp Hf1 Hf2 Hf.
  split_and!; try done.
  - intros r Hr; destruct (H1 r Hr) as (b & Hb & Hcnt & Hrn & Hbuf); exists b; unfold header_ok.
    rewrite (Hh r Hr); split_and!; try done; destruct (bufp b) as [q|]; [|done].
    destruct Hbuf as (s & Hq & Hcl & Hlen & Hle & Hnot); destruct (Hs q s Hq) as (s' & Hq' & Hlen').
    exists s'; rewrite Hlen'; split_and!; try done; try lia; intros (c & l' & Hl' & Hin)%elem_of_pools.
    apply Hnot, elem_of_pools; destruct (Hpool c l' q Hl' Hin) as (l & ? & ?); eauto.
  - intros r r' b b' p Hr Hr'; rewrite (Hh r Hr), (Hh r' Hr'); eauto.
  - intros r Hr Hr'; apply (H3 r Hr), Hrp, Hr'.
  - intros c l' q Hl' Hq; destruct (Hpool c l' q Hl' Hq) as (l & Hl & Hin).
    destruct (H7 c l q Hl Hin) as (s & Hqs & Hlen), (Hs q s Hqs) as (s' & ? & Hlen'); exists s'; split; [done|congruence].
  - intros r Hr; pose proof (H10 r (Hrp r Hr)); lia.
Qed.

Lemma get_ref_ok pick h hs r h1 :
  heap_ok h hs -> get_ref pick h = (r, h1) ->
  heap_ok h1 hs /\ (r ∉ hs) /\ (r ∉ refPool h1) /\ (r < fresh h1)%nat
  /\ slabs h1 = slabs h /\ forall r', r' ∈ hs -> headers h1 !! r' = headers h !! r'.
Proof.
  intros Hok Hg; pose proof Hok as (H1 & _ & H3 & H4 & H5 & H6 & _ & H8 & H9 & H10 & _); unfold get_ref in Hg.
  destruct (pick ≫= (fun i => refPool h !! i)) as [r0|] eqn:E.
  - destruct pick as [i|]; simpl in *; [|done]; injection Hg as <- <-.
    pose proof (delete_Permutation _ _ _ E) as Hp; rewrite Hp in H4; apply NoDup_cons in H4 as [Hn H4].
    assert (Hsub : forall r, r ∈ delete i (refPool h) -> r ∈ refPool h)
      by (intros r Hr; rewrite Hp; apply elem_of_cons; auto).
    assert (Hin : r0 ∈ refPool h) by (rewrite Hp; apply elem_of_cons; auto).
    split; [|split; [intros Hr; apply (H3 _ Hr), Hin|split; [done|split; [apply H10, Hin|split; done]]]].
    apply (heap_ok_weaken h); cbn [headers slabs bufPools refPool fresh]; eauto.
  - injection Hg as <- <-.
    assert (Hne : forall r, r ∈ hs -> r <> fresh h)
      by (intros r Hr ->; destruct (H1 _ Hr) as (b & Hb & _); pose proof (H9 _ _ Hb); lia).
    assert (Hl : forall r, r ∈ hs -> <[fresh h := mkRef None [] 0 0 0]> (headers h) !! r = headers h !! r)
      by (intros r Hr; apply lookup_insert_ne; pose proof (Hne r Hr); done).
    split; [|split; [intros Hr; apply (Hne _ Hr eq_refl)|split; [intros Hr; pose proof (H10 _ Hr); lia
      |split; [simpl; lia|split; done]]]].
    apply (heap_ok_weaken h); cbn [headers slabs bufPools refPool fresh]; eauto.
    + intros p s Hs; pose proof (H8 p s Hs); lia.
    + intros r b; destruct (decide (r = fresh h)) as [->|]; [lia|].
      rewrite lookup_insert_ne by done; intros Hb; pose proof (H9 r b Hb); lia.
Qed.

(** A pool without one of its elements. *)
Lemma heap_ok_pool_delete h hs c pool i :
  heap_ok h hs -> bufPools h !! c = Some pool ->
  heap_ok (mkHeap (slabs h) (<[c := delete i pool]> (bufPools h)) (headers h) (refPool h) (fresh h)) hs.
Proof.
  intros Hok Hpool; pose proof Hok as (_ & _ & _ & H4 & H5 & H6 & _ & H8 & H9 & _).
  assert (Hsub : forall q, q ∈ delete i pool -> q ∈ pool).
  { intros q Hq; destruct (pool !! i) as [x|] eqn:E.
    - rewrite (delete_Permutation _ _ _ E); apply elem_of_cons; auto.
    - apply list_delete_id in E; congruence. }
  apply (heap_ok_weaken h); cbn [headers slabs bufPools refPool fresh]; eauto; [rewrite length_insert; done| |].
  - destruct (pool !! i) as [x|] eqn:E.
    + rewrite (concat_insert_delete _ _ _ _ _ Hpool E) in H6; apply NoDup_cons in H6 as [_ ?]; done.
    + rewrite (list_delete_id _ _ E), list_insert_id by done; done.
  - intros c' l' q; destruct (decide (c' = c)) as [->|]; [|rewrite list_lookup_insert_ne by done; eauto].
    rewrite list_lookup_insert_eq by (apply lookup_lt_Some in Hpool; done); intros ? Hq; simplify_eq; eauto.
Qed.

Lemma size_of_nonneg c : 0 <= size_of c.
Proof. unfold size_of, bufSizes; destruct (Z.to_nat c) as [|[|[|[|[|[|]]]]]]; vm_compute; congruence. Qed.

Lemma get_slab_ok pick c h hs p h1 :
  heap_ok h hs -> (c < 6)%nat -> get_slab pick c h = (p, h1) ->
  heap_ok h1 hs /\ headers h1 = headers h /\ refPool h1 = refPool h /\ (fresh h <= fresh h1)%nat
  /\ (exists s, slabs h1 !! p = Some s /\ len s = size_of (Z.of_nat c)) /\ (p ∉ concat (bufPools h1))
  /\ (forall q s, slabs h !! q = Some s -> slabs h1 !! q = Some s)
  /\ forall r b, r ∈ hs -> headers h !! r = Some b -> bufp b <> Some p.
Proof.
  intros Hok Hc Hg; pose proof Hok as (H1 & _ & _ & H4 & H5 & H6 & H7 & H8 & H9 & _); unfold get_slab in Hg.
  destruct (lookup_lt_is_Some_2 (bufPools h) c ltac:(lia)) as [pool Hpool]; rewrite Hpool in Hg.
  change (default [] (Some pool)) with pool in Hg.
  destruct (pick ≫= (fun i => pool !! i)) as [p0|] eqn:E.
  - destruct pick as [i|]; simpl in *; [|done]; injection Hg as <- <-.
    pose proof (concat_insert_delete _ _ _ _ _ Hpool E) as Hp.
    assert (Hin : p0 ∈ concat (bufPools h)) by (rewrite Hp; apply elem_of_cons; auto).
    rewrite Hp in H6; apply NoDup_cons in H6 as [Hn _].
    split; [apply heap_ok_pool_delete; done|]; split_and!; try done.
    + apply (H7 c pool p0 Hpool); eapply list_elem_of_lookup_2; done.
    + intros r b Hr Hb Hbp; destruct (H1 r Hr) as (b' & Hb' & _ & _ & Hbuf); simplify_eq.
      rewrite Hbp in Hbuf; destruct Hbuf as (_ & _ & _ & _ & _ & Hq); done.
  - injection Hg as <- <-.
    assert (Hlt : forall q s, slabs h !! q = Some s -> q <> fresh h) by (intros q s Hq; pose proof (H8 q s Hq); lia).
    cbn [headers slabs bufPools refPool fresh]; split_and!; try done; [|lia| | | |].
    + apply (heap_ok_weaken h); cbn [headers slabs bufPools refPool fresh]; eauto.
      * intros q s Hq; exists s; rewrite lookup_insert_ne by (pose proof (Hlt q s Hq); done); done.
      * intros q s; destruct (decide (q = fresh h)) as [->|]; [lia|].
        rewrite lookup_insert_ne by done; intros Hq; pose proof (H8 q s Hq); lia.
      * intros r b Hb; pose proof (H9 r b Hb); lia.
    + eexists; rewrite lookup_insert_eq, len_zeros by apply size_of_nonneg; done.
    + intros (c' & l & Hl & Hq)%elem_of_pools; destruct (H7 c' l _ Hl Hq) as (s & Hs & _); destruct (Hlt _ s Hs eq_refl).
    + intros q s Hq; rewrite lookup_insert_ne by (pose proof (Hlt q s Hq); done); done.
    + intros r b Hr Hb Hbp; destruct (H1 r Hr) as (b' & Hb' & _ & _ & Hbuf); simplify_eq.
      rewrite Hbp in Hbuf; destruct Hbuf as (s & Hs & _); destruct (Hlt _ s Hs eq_refl).
Qed.

Lemma pickBufClass_spec n :
  (0 <= pickBufClass n < 6 /\ n <= size_of (pickBufClass n)) \/ pickBufClass n = -1.
Proof.
  unfold pickBufClass; repeat match goal with |- context [?a <=? ?b] => destruct (Z.leb_spec a b) end;
    try (left; split; lia); right; done.
Qed.

(** The reference [r] shows the same bytes in both heaps. *)
Definition same_view (h h' : heap) (r : nat) : Prop :=
  exists b b', headers h !! r = Some b /\ headers h' !! r = Some b'
    /\ bufp b' = bufp b /\ fallback b' = fallback b /\ rn b' = rn b
    /\ forall p, bufp b = Some p -> slabs h' !! p = slabs h !! p.

Lemma same_view_Bytes h h' r : same_view h h' r -> Bytes h' r = Bytes h r.
Proof.
  intros (b & b' & Hb & Hb' & E1 & E2 & E3 & Hs); unfold Bytes; rewrite Hb, Hb'; cbn [deref mbind outcome_bind].
  rewrite E1, E2, E3; destruct (bufp b) as [p|]; [rewrite (Hs p eq_refl)|]; done.
Qed.

Lemma same_view_refl h hs r : heap_ok h hs -> r ∈ hs -> same_view h h r.
Proof. intros (H1 & _) Hr; destruct (H1 r Hr) as (b & Hb & _); exists b, b; done. Qed.

Lemma same_view_trans h1 h2 h3 r : same_view h1 h2 r -> same_view h2 h3 r -> same_view h1 h3 r.
Proof.
  intros (b & b2 & Hb & Hb2 & E1 & E2 & E3 & Hs) (b2' & b3 & Hb2' & Hb3 & F1 & F2 & F3 & Hs2); simplify_eq.
  exists b, b3; split_and!; try congruence; intros p Hp; rewrite Hs2, Hs by congruence; done.
Qed.

(** The header of a reference that stays one may change its count and the
    contents of its own buffer. *)
Lemma heap_ok_update h hs hs' r b b' :
  heap_ok h hs -> r ∈ hs -> headers h !! r = Some b -> (forall x, x ∈ hs' <-> x ∈ hs) ->
  (forall x, x <> r -> count_occ Nat.eq_dec hs' x = count_occ Nat.eq_dec hs x) ->
  rcount b' = Z.of_nat (count_occ Nat.eq_dec hs' r) -> rcount b' < 2 ^ 31 ->
  bufp b' = bufp b -> class b' = class b -> rn b' = rn b -> len (fallback b') = len (fallback b) ->
  heap_ok (set_ref h r b') hs'.
Proof.
  intros (H1 & H2 & H3 & H4 & H5 & H6 & H7 & H8 & H9 & H10 & H11) Hr Hb Hin Hcnt Hc Hc' Hbp Hcl Hn Hfb.
  destruct (H1 r Hr) as (b0 & Hb0 & _ & Hn0 & Hbuf); simplify_eq.
  split_and!; unfold header_ok; cbn [set_ref headers slabs bufPools refPool fresh]; try done.
  - intros x Hx; apply Hin in Hx; destruct (decide (x = r)) as [->|Hne].
    + exists b'; rewrite lookup_insert_eq, Hbp, Hcl, Hn, Hfb; split_and!; done.
    + rewrite lookup_insert_ne, Hcnt by done; destruct (H1 x Hx) as (bx & ?); exists bx; done.
  - intros x y bx by_ p Hx%Hin Hy%Hin Hbx Hby Hp1 Hp2.
    assert (Hback : forall z bz, <[r := b']> (headers h) !! z = Some bz ->
      exists bz', headers h !! z = Some bz' /\ bufp bz' = bufp bz).
    { intros z bz; destruct (decide (z = r)) as [->|]; [rewrite lookup_insert_eq; intros; simplify_eq; eauto|].
      rewrite lookup_insert_ne by done; eauto. }
    destruct (Hback x bx Hbx) as (bx' & ? & ?), (Hback y by_ Hby) as (by' & ? & ?).
    apply (H2 x y bx' by' p); congruence.
  - intros x Hx; apply H3, Hin, Hx.
  - intros x bx; destruct (decide (x = r)) as [->|]; [eauto|rewrite lookup_insert_ne by done; eauto].
  - intros x; destruct (decide (x = r)) as [->|]; [lia|rewrite Hcnt by done; auto].
Qed.

(** Filling a buffer writes what it is asked to, and nothing anyone else sees. *)
Lemma fill_ok h hs r b bs :
  heap_ok h hs -> r ∈ hs -> headers h !! r = Some b -> rn b = len bs ->
  exists h', fill h r bs = Ret h' /\ heap_ok h' hs /\ Bytes h' r = Ret bs
    /\ forall r', r' ∈ hs -> r' <> r -> same_view h h' r'.
Proof.
  intros Hok Hr Hb Hn; pose proof Hok as (H1 & H2 & _ & H4 & H5 & H6 & H7 & H8 & H9 & _ & H11).
  destruct (H1 r Hr) as (b0 & Hb0 & Hc & Hn0 & Hbuf); simplify_eq.
  unfold fill; rewrite Hb; cbn [deref mbind outcome_bind]; destruct (bufp b) as [p|] eqn:Ep.
  - destruct Hbuf as (s & Hs & Hcl & Hlen & Hle & Hp); rewrite Hs; cbn [deref mbind outcome_bind].
    rewrite store_ok by lia; cbn [mbind outcome_bind]; eexists; split; [reflexivity|split; [|split]].
    + apply (heap_ok_weaken h); cbn [headers slabs bufPools refPool fresh]; eauto.
      * intros q s' Hq; destruct (decide (q = p)) as [->|]; [|rewrite lookup_insert_ne by done; eauto].
        rewrite lookup_insert_eq; simplify_eq; eexists; split; [reflexivity|apply len_put; lia].
      * intros q s'; destruct (decide (q = p)) as [->|]; [eauto|rewrite lookup_insert_ne by done; eauto].
    + unfold Bytes; cbn [headers slabs]; rewrite Hb; cbn [deref mbind outcome_bind]; rewrite Ep, lookup_insert_eq.
      cbn [deref mbind outcome_bind]; rewrite Hn, slice_ok by (rewrite ?len_put by lia; lia).
      rewrite Z.sub_0_r; f_equal; apply sub_put_same; lia.
    + intros r' Hr' Hne; destruct (H1 r' Hr') as (b' & Hb' & _); exists b', b'; cbn [headers slabs].
      split_and!; try done; intros q Hq; apply lookup_insert_ne; intros ->; apply Hne; eauto.
  - rewrite store_ok by lia; cbn [mbind outcome_bind]; eexists; split; [reflexivity|split; [|split]].
    + eapply heap_ok_update; cbn [rcount bufp class rn fallback]; eauto; [rewrite Hc; apply H11|].
      apply len_put; lia.
    + unfold Bytes; cbn [headers set_ref]; rewrite lookup_insert_eq; cbn [deref mbind outcome_bind bufp fallback rn].
      rewrite Hn, slice_ok by (rewrite ?len_put by lia; lia); rewrite Z.sub_0_r; f_equal; apply sub_put_same; lia.
    + intros r' Hr' Hne; destruct (H1 r' Hr') as (b' & Hb' & _); exists b', b'; cbn [headers slabs set_ref].
      rewrite lookup_insert_ne by done; split_and!; done.
Qed.

(** A buffer got is a reference more, on a slab nobody else sees. *)
Lemma getBuf_got pr ps n h hs :
  heap_ok h hs -> 0 <= n ->
  exists r h1 b, getBuf pr ps n h = (r, h1) /\ heap_ok h1 (r :: hs) /\ (r ∉ hs)
    /\ headers h1 !! r = Some b /\ rn b = n /\ forall r', r' ∈ hs -> same_view h h1 r'.
Proof.
  intros Hok Hl; unfold getBuf; destruct (get_ref pr h) as [r h1] eqn:Er.
  destruct (get_ref_ok pr h hs r h1 Hok Er) as (Hok1 & Hr & Hrp & Hrf & Hsl & Hhd).
  assert (Hgot : exists b h2, rn b = n /\ heap_ok (set_ref h2 r b) (r :: hs) /\ headers h2 = headers h1 /\
    (forall q s, slabs h !! q = Some s -> slabs h2 !! q = Some s) /\
    (if pickBufClass n <? 0 then (r, set_ref h1 r (mkRef None (zeros n) n (pickBufClass n) 1))
     else let '(p, h) := get_slab ps (Z.to_nat (pickBufClass n)) h1 in
          (r, set_ref h r (mkRef (Some p) [] n (pickBufClass n) 1))) = (r, set_ref h2 r b)).
  { destruct (pickBufClass_spec n) as [[Hc Hle]| ->].
    - replace (pickBufClass n <? 0) with false by lia.
      destruct (get_slab ps _ h1) as [p h2] eqn:Es.
      destruct (get_slab_ok ps (Z.to_nat (pickBufClass n)) h1 hs p h2 Hok1 ltac:(lia) Es)
        as (Hok2 & Hh & Hp & Hf & (s & Hs & Hlen) & Hnp & Hext & Hun).
      rewrite Z2Nat.id in Hlen by lia; eexists _, h2; split; [|split; [|split; [|split; [|reflexivity]]]];
        [done| |done|rewrite <- Hsl; done].
      apply heap_ok_acquire; cbn [rcount rn bufp class]; try done; try lia; [rewrite Hp; done|].
      rewrite Hh; split; [exists s; split_and!; try done; lia|done].
    - eexists _, h1; split; [|split; [|split; [|split; [|reflexivity]]]]; [done| |done|rewrite Hsl; done].
      apply heap_ok_acquire; cbn [rcount rn bufp class fallback]; try done; apply len_zeros; done. }
  destruct Hgot as (b & h2 & Hn & Hok2 & Hh2 & Hs2 & ->).
  exists r, (set_ref h2 r b), b; split_and!; try done; [apply lookup_insert_eq|]; intros r' Hr'.
  assert (Hne : r' <> r) by congruence.
  pose proof Hok as (H1 & _); destruct (H1 r' Hr') as (b' & Hb' & _ & _ & Hbuf); exists b', b'; cbn [set_ref headers slabs].
  rewrite lookup_insert_ne, Hh2, Hhd by done; split_and!; try done; intros p Hp; rewrite Hp in Hbuf.
  destruct Hbuf as (s & Hs & _); rewrite Hs; apply Hs2, Hs.
Qed.

(** Filled, it holds what it was filled with. *)
Lemma getBuf_ok pr ps bs h hs :
  heap_ok h hs -> exists r h1 h2, getBuf pr ps (len bs) h = (r, h1) /\ fill h1 r bs = Ret h2
    /\ heap_ok h2 (r :: hs) /\ (r ∉ hs) /\ Bytes h2 r = Ret bs
    /\ forall r', r' ∈ hs -> same_view h h2 r'.
Proof.
  intros Hok; destruct (getBuf_got pr ps (len bs) h hs Hok (len_nonneg bs)) as (r & h1 & b & Hg & Hok1 & Hr & Hb & Hn & Hv).
  destruct (fill_ok _ _ r b bs Hok1) as (h2 & Hfill & Hok2 & Hbytes & Hview); [left|done|done|].
  exists r, h1, h2; split_and!; try done; intros r' Hr'; eapply same_view_trans; [apply Hv, Hr'|].
  apply Hview; [right; done|congruence].
Qed.

Lemma same_view_set_ref h hs r b b' r' :
  heap_ok h hs -> r' ∈ hs -> headers h !! r = Some b ->
  (r' = r -> bufp b' = bufp b /\ fallback b' = fallback b /\ rn b' = rn b) ->
  same_view h (set_ref h r b') r'.
Proof.
  intros (H1 & _) Hr' Hb Hsame; destruct (decide (r' = r)) as [->|Hne].
  - exists b, b'; destruct (Hsame eq_refl) as (? & ? & ?); cbn [set_ref headers slabs].
    rewrite lookup_insert_eq; split_and!; done.
  - destruct (H1 r' Hr') as (b0 & Hb0 & _); exists b0, b0; cbn [set_ref headers slabs].
    rewrite lookup_insert_ne by done; split_and!; done.
Qed.

Lemma retain_ok h hs r :
  heap_ok h hs -> r ∈ hs -> Z.of_nat (count_occ Nat.eq_dec hs r) < 2 ^ 31 - 1 ->
  exists h', retain h r = Ret h' /\ heap_ok h' (r :: hs) /\ forall r', r' ∈ hs -> same_view h h' r'.
Proof.
  intros Hok Hr Hc; pose proof Hok as (H1 & _); destruct (H1 r Hr) as (b & Hb & Hcnt & _).
  unfold retain; rewrite Hb; cbn [deref mbind outcome_bind]; rewrite Hcnt.
  assert (Hs : s32 (Z.of_nat (count_occ Nat.eq_dec hs r) + 1) = Z.of_nat (count_occ Nat.eq_dec (r :: hs) r)).
  { simpl; destruct (Nat.eq_dec r r); [|done]; rewrite Nat2Z.inj_succ; unfold s32, swrap.
    rewrite Z.mod_small; lia. }
  eexists; split; [reflexivity|split].
  - apply (heap_ok_update h hs (r :: hs) r b); cbn [rcount bufp class rn fallback]; try done.
    + intros x; rewrite elem_of_cons; intuition congruence.
    + intros x Hx; simpl; destruct (Nat.eq_dec r x); [congruence|done].
    + rewrite Hs; simpl; destruct (Nat.eq_dec r r); [|done]; lia.
  - intros r' Hr'; apply (same_view_set_ref h hs r b); done.
Qed.

(** The last release puts the slab and the header into their pools. *)
Lemma last_release_ok h hs r b :
  heap_ok h (r :: hs) -> r ∉ hs -> headers h !! r = Some b ->
  exists h', (h ← (match bufp b with
           | Some p => pool ← index (bufPools h) (class b);
                       Ret (mkHeap (slabs h) (<[Z.to_nat (class b) := p :: pool]> (bufPools h))
                              (headers h) (refPool h) (fresh h))
           | None => Ret h
           end);
      let h := set_ref h r (mkRef None [] 0 0 0) in
      Ret (mkHeap (slabs h) (bufPools h) (headers h) (r :: refPool h) (fresh h))) = Ret h'
    /\ heap_ok h' hs /\ forall r', r' ∈ hs -> same_view h h' r'.
Proof.
  intros Hok Hr Hb; pose proof Hok as (H1 & H2 & H3 & H4 & H5 & H6 & H7 & H8 & H9 & H10 & H11).
  destruct (H1 r) as (b0 & Hb0 & _ & _ & Hbuf); [left|]; simplify_eq.
  assert (Hpools : exists ls, (match bufp b with
    | Some p => pool ← index (bufPools h) (class b);
                Ret (mkHeap (slabs h) (<[Z.to_nat (class b) := p :: pool]> (bufPools h)) (headers h) (refPool h) (fresh h))
    | None => Ret h end) = Ret (mkHeap (slabs h) ls (headers h) (refPool h) (fresh h))
    /\ length ls = 6%nat /\ NoDup (concat ls)
    /\ (forall c l q, ls !! c = Some l -> q ∈ l -> exists s, slabs h !! q = Some s /\ len s = size_of (Z.of_nat c))
    /\ forall q, q ∈ concat ls -> q ∈ concat (bufPools h) \/ bufp b = Some q).
  { destruct (bufp b) as [p|]; [|exists (bufPools h); destruct h; split_and!; auto].
    destruct Hbuf as (s & Hs & Hcl & Hlen & _ & Hnp).
    destruct (index_ok (bufPools h) (class b)) as (pool & Hix & Hpool); [unfold len; lia|].
    rewrite Hix; cbn [mbind outcome_bind]; pose proof (concat_insert_cons _ _ _ p Hpool) as Hp.
    eexists; split; [reflexivity|]; rewrite length_insert; split; [done|split; [rewrite Hp; apply NoDup_cons; done|split]].
    - intros c l q; destruct (decide (c = Z.to_nat (class b))) as [->|]; [|rewrite list_lookup_insert_ne by done; eauto].
      rewrite list_lookup_insert_eq by lia; intros Hl Hq; simplify_eq; apply elem_of_cons in Hq as [->|Hq]; [|eauto].
      exists s; rewrite Z2Nat.id by lia; done.
    - intros q; rewrite Hp, elem_of_cons; intros [->|]; auto. }
  destruct Hpools as (ls & -> & Hl6 & Hnd & Hslab & Hsub); cbn [mbind outcome_bind].
  assert (Hhead : forall x, x ∈ hs -> <[r := mkRef None [] 0 0 0]> (headers h) !! x = headers h !! x)
    by (intros x Hx; apply lookup_insert_ne; congruence).
  eexists; split; [reflexivity|]; cbn [set_ref slabs bufPools headers refPool fresh].
  assert (Hcnt : forall x, x ∈ hs -> count_occ Nat.eq_dec (r :: hs) x = count_occ Nat.eq_dec hs x)
    by (intros x Hx; simpl; destruct (Nat.eq_dec r x); congruence).
  assert (Hin : forall x, x ∈ hs -> x ∈ r :: hs) by (intros; right; done).
  split; [split_and!; cbn [slabs bufPools headers refPool fresh]; try done|].
  - intros x Hx; destruct (H1 x (Hin x Hx)) as (bx & Hbx & Hc & Hnx & Hbuf'); exists bx; unfold header_ok.
    cbn [headers slabs bufPools]; rewrite Hhead, <- Hcnt by done; split_and!; try done.
    destruct (bufp bx) as [p|] eqn:Ep; [|done]; destruct Hbuf' as (s & ? & ? & ? & ? & Hnp); exists s; split_and!; try done; try tauto.
    intros [?|?]%Hsub; [done|]; apply Hr; rewrite (H2 r x b bx p); auto; left.
  - intros x y bx by_ p Hx Hy; rewrite !Hhead by done; eauto.
  - intros x Hx [->|Hp]%elem_of_cons; [done|apply (H3 x (Hin x Hx) Hp)].
  - apply NoDup_cons; split; [apply H3; left|done].
  - intros x bx; destruct (decide (x = r)) as [->|]; [eauto|rewrite lookup_insert_ne by done; eauto].
  - intros x [->|]%elem_of_cons; eauto.
  - intros x; specialize (H11 x); simpl in H11; destruct (Nat.eq_dec r x); lia.
  - intros x Hx; destruct (H1 x (Hin x Hx)) as (bx & Hbx & _); exists bx, bx; cbn [headers slabs].
    rewrite Hhead by done; split_and!; done.
Qed.

(** What a release that is not the last one leaves, and the last one. *)
Lemma release_ok h hs1 r hs2 :
  heap_ok h (hs1 ++ r :: hs2) ->
  exists h', release h (Some r) = Ret h' /\ heap_ok h' (hs1 ++ hs2)
    /\ forall r', r' ∈ hs1 ++ hs2 -> same_view h h' r'.
Proof.
  intros Hok; assert (Hperm : hs1 ++ r :: hs2 ≡ₚ r :: hs1 ++ hs2) by (rewrite Permutation_middle; done).
  apply (heap_ok_perm _ _ _ Hperm) in Hok; clear Hperm; generalize dependent (hs1 ++ hs2); clear hs1 hs2; intros hs Hok.
  pose proof Hok as (H1 & H2 & H3 & H4 & H5 & H6 & H7 & H8 & H9 & H10 & H11).
  destruct (H1 r) as (b & Hb & Hcnt & Hn & Hbuf); [left|].
  unfold release; rewrite Hb; cbn [deref mbind outcome_bind]; rewrite Hcnt.
  assert (Hs : s32 (Z.of_nat (count_occ Nat.eq_dec (r :: hs) r) - 1) = Z.of_nat (count_occ Nat.eq_dec hs r)).
  { specialize (H11 r); simpl in H11 |- *; destruct (Nat.eq_dec r r); [|done]; rewrite Nat2Z.inj_succ in *.
    unfold s32, swrap; rewrite Z.mod_small; lia. }
  rewrite Hs; destruct (Z.eqb_spec (Z.of_nat (count_occ Nat.eq_dec hs r)) 0) as [Hz|Hz]; cbn [negb].
  - rewrite Hz; apply last_release_ok; [done| |done]; rewrite elem_of_count; lia.
  - assert (Hr : r ∈ hs) by (apply elem_of_count; lia).
    eexists; split; [reflexivity|split].
    + apply (heap_ok_update h (r :: hs) hs r b); cbn [rcount bufp class rn fallback]; try done; [left|intros x|intros x Hx|].
      * rewrite elem_of_cons; intuition congruence.
      * simpl; destruct (Nat.eq_dec r x); [congruence|done].
      * specialize (H11 r); simpl in H11; destruct (Nat.eq_dec r r); [lia|done].
    + intros r' Hr'; apply (same_view_set_ref h (r :: hs) r b); [done|right; done|done..].
Qed.

(** Every step keeps the invariant, and what the idle holders see. *)
Lemma pstep_ok kept st st' :
  pstep kept st st' -> heap_ok st.1 (kept ++ st.2) ->
  heap_ok st'.1 (kept ++ st'.2) /\ forall r, r ∈ kept -> same_view st.1 st'.1 r.
Proof.
  assert (Hin : forall r hs, r ∈ kept -> r ∈ kept ++ hs) by (intros; apply elem_of_app; auto).
  intros Hst; destruct Hst as [h hs pr ps bs r h1 h2 Hg Hf|h hs r h' Hr Hc Ht|h hs1 r hs2 h' Ht|h hs c pool i Hp|h hs i];
    cbn [fst snd]; intros Hok.
  - destruct (getBuf_ok pr ps bs h _ Hok) as (r' & h1' & h2' & Hg' & Hf' & Hok' & _ & _ & Hv).
    rewrite Hg in Hg'; injection Hg' as <- <-; rewrite Hf in Hf'; injection Hf' as <-.
    split; [eapply heap_ok_perm; [|exact Hok']; rewrite Permutation_middle; done|auto].
  - destruct (retain_ok h _ r Hok) as (h2 & Ht' & Hok' & Hv); [apply elem_of_app; auto|done|].
    rewrite Ht in Ht'; injection Ht' as <-.
    split; [eapply heap_ok_perm; [|exact Hok']; rewrite Permutation_middle; done|auto].
  - rewrite app_assoc in Hok; destruct (release_ok h _ r _ Hok) as (h2 & Ht' & Hok' & Hv).
    rewrite Ht in Ht'; injection Ht' as <-; rewrite <- app_assoc in Hok', Hv; auto.
  - split; [apply heap_ok_pool_delete; done|intros r Hr].
    destruct (same_view_refl h _ r Hok (Hin r hs Hr)) as (b & b' & ?); exists b, b'; done.
  - pose proof Hok as (_ & _ & _ & H4 & H5 & H6 & _ & H8 & H9 & _); split.
    + apply (heap_ok_weaken h); cbn [headers slabs bufPools refPool fresh]; eauto.
      * destruct (refPool h !! i) as [x|] eqn:E; [|rewrite (list_delete_id _ _ E); done].
        rewrite (delete_Permutation _ _ _ E) in H4; apply NoDup_cons in H4 as [_ ?]; done.
      * intros r Hr; destruct (refPool h !! i) as [x|] eqn:E; [|rewrite (list_delete_id _ _ E) in Hr; done].
        rewrite (delete_Permutation _ _ _ E); apply elem_of_cons; auto.
    + intros r Hr; destruct (same_view_refl h _ r Hok (Hin r hs Hr)) as (b & b' & ?); exists b, b'; done.
Qed.

Lemma pruns_ok kept st st' :
  rtc (pstep kept) st st' -> heap_ok st.1 (kept ++ st.2) ->
  heap_ok st'.1 (kept ++ st'.2) /\ forall r, r ∈ kept -> same_view st.1 st'.1 r.
Proof.
  induction 1 as [st|st st1 st' Hst _ IH]; intros Hok.
  - split; [done|]; intros r Hr; eapply same_view_refl; [done|apply elem_of_app; auto].
  - destruct (pstep_ok kept st st1 Hst Hok) as [Hok1 Hv1], (IH Hok1) as [Hok' Hv]; split; [done|].
    intros r Hr; eapply same_view_trans; eauto.
Qed.

(** ** Properties *)

(** C29: a frame in a pooled buffer stays what was read as long as one of its
    holders keeps its reference. From any state the clients of the pool reach,
    getting a buffer and filling it succeeds; and whatever frames the others
    then read, retain and release, and whatever the pools drop, the bytes seen
    through the reference are the bytes it was filled with, and its release
    succeeds. *)
Theorem pooled_frame_stable h hs pr ps bs :
  rtc (pstep []) (empty_heap, []) (h, hs) ->
  exists r h1 h2, getBuf pr ps (len bs) h = (r, h1) /\ fill h1 r bs = Ret h2
    /\ forall h' hs', rtc (pstep [r]) (h2, hs) (h', hs') ->
       Bytes h' r = Ret bs /\ is_ret (release h' (Some r)).
Proof.
  intros Hrun; destruct (pruns_ok [] _ _ Hrun empty_heap_ok) as [Hok _]; cbn [fst snd app] in Hok.
  destruct (getBuf_ok pr ps bs h hs Hok) as (r & h1 & h2 & Hg & Hf & Hok2 & _ & Hb & _).
  exists r, h1, h2; split; [done|split; [done|]]; intros h' hs' Hrun'.
  destruct (pruns_ok [r] (h2, hs) (h', hs') Hrun' Hok2) as [Hok' Hv]; cbn [fst snd app] in *.
  split; [rewrite (same_view_Bytes h2 h' r) by (apply Hv; left); done|].
  destruct (release_ok h' [] r hs' Hok') as (h3 & ? & _); exists h3; done.
Qed.

(** A second frame is read into another slab while the first is held. *)
Lemma pooled_frame_stable_witness :
  exists r h1 h2, getBuf None None 3 empty_heap = (r, h1)
    /\ fill h1 r [Byte.x61; Byte.x62; Byte.x63] = Ret h2
    /\ exists r' h3 h4, getBuf (Some 0%nat) (Some 0%nat) 1 h2 = (r', h3) /\ fill h3 r' [Byte.x7a] = Ret h4
       /\ Bytes h4 r = Ret [Byte.x61; Byte.x62; Byte.x63].
Proof.
  destruct (pooled_frame_stable empty_heap [] None None [Byte.x61; Byte.x62; Byte.x63])
    as (r & h1 & h2 & Hg & Hf & Hst); [apply rtc_refl|].
  vm_compute in Hg; injection Hg as <- <-; vm_compute in Hf; injection Hf as <-.
  eexists _, _, _; split; [reflexivity|split; [reflexivity|]].
  eexists _, _, _; split; [reflexivity|split; [reflexivity|]].
  apply (Hst _ [2%nat]), rtc_once; eapply (step_get _ _ _ (Some 0%nat) (Some 0%nat) [Byte.x7a]); reflexivity.
Defined.
