(* ===== verification/NodeWire.v ===== *)
(** * NodeWire: what two nodes put on a connection

    Models [node_codec.go] and the framing half of [node.go]: the node-id
    exchange message, the correlation header of a call and the length-prefixed
    frames, written with one vectored write on TCP and several writes elsewhere,
    read into a fresh buffer or into a pooled one. *)

From S2P Require Import Prelude Wire Builder BuilderSpec Roundtrip HsLabels HsFrames BufPool.
Local Open Scope Z_scope.

(** ** Node-id exchange *)

Definition nodeIDHandshakeSize : Z := HeaderSize + 64.
Definition maxNodeIDLen : Z := 60.

(** The loop [for i := 0; i < n; i++ { obj.SetUint8(i, idBytes[i]) }], from [i]. *)
Fixpoint set_id_bytes (ob : ObjectBuilder) (b : Builder) (i : Z) (ids : list byte) : outcome Builder :=
  match ids with
  | [] => Ret b
  | x :: ids => b ← SetUint8 ob b i (byte.unsigned x); set_id_bytes ob b (i + 1) ids
  end.

Definition EncodeNodeIDHandshake (nodeID : list byte) : outcome (list byte) :=
  b ← NewBuilder 128;
  o ← StartObject b 64;
  let '(obj, b) := o in
  let n := len nodeID in
  let n := if maxNodeIDLen <? n then maxNodeIDLen else n in
  b ← set_id_bytes obj b 0 (sub nodeID 0 n);
  b ← SetUint32 obj b maxNodeIDLen (u32 n);
  let '(_, b) := FinishAsRoot obj b in
  r ← Builder_Finish b; Ret r.1.

(** The loop [for i := uint32(0); i < idLen; i++]. *)
Fixpoint get_id_bytes (root : Object) (n : nat) (i : Z) : outcome (list byte) :=
  match n with
  | O => Ret []
  | S n => v ← Object_Uint8 root i; bs ← get_id_bytes root n (i + 1); Ret (byte.of_Z v :: bs)
  end.

Definition DecodeNodeIDHandshake (d : list byte) : outcome (list byte * bool) :=
  p ← Parse d;
  match p with
  | Err _ => Ret ([], false)
  | Ok m =>
      root ← Message_Root m;
      idLen ← Object_Uint32 root maxNodeIDLen;
      if (idLen =? 0) || (maxNodeIDLen <? idLen) then Ret ([], false) else
      bs ← get_id_bytes root (Z.to_nat idLen) 0; Ret (bs, true)
  end.

(** ** Correlation header *)

Definition correlatedHeaderSize : Z := 8.
Definition ReqFlagReq : Z := 1.
Definition ReqFlagResp : Z := 2.

Definition WrapCorrelated (reqID flag : Z) (body : list byte) : list byte :=
  le_bytes 4 reqID ++ le_bytes 4 flag ++ body.

(** The same bytes, for transports that take one slice. *)
Definition makeCorrelatedFrame (reqID flag : Z) (body : list byte) : list byte :=
  le_bytes 4 reqID ++ le_bytes 4 flag ++ body.

Definition UnwrapCorrelated (d : list byte) : outcome (option (Z * Z * list byte)) :=
  if len d <? correlatedHeaderSize then Ret None else
  s ← slice d 0 4; reqID ← le_uint 4 s;
  s ← slice d 4 8; flag ← le_uint 4 s;
  if negb (flag =? ReqFlagReq) && negb (flag =? ReqFlagResp) then Ret None else
  body ← slice_from d correlatedHeaderSize;
  Ret (Some (reqID, flag, body)).

(** ** Frames *)

(** [tcp]: the writer is a [*net.TCPConn], and one [writev] takes all parts. *)
Definition writeMessage (tcp : bool) (w : Writer) (d : list byte) : result unit hs_error * Writer :=
  let lenBuf := le_bytes 4 (u32 (len d)) in
  if tcp then Write w (lenBuf ++ d) else
  match Write w lenBuf with
  | (Err e, w) => (Err e, w)
  | (Ok _, w) => Write w d
  end.

Definition writeCorrelated (tcp : bool) (w : Writer) (reqID flag : Z) (body : list byte)
  : result unit hs_error * Writer :=
  let hdr := le_bytes 4 (u32 (correlatedHeaderSize + len body)) ++ le_bytes 4 reqID ++ le_bytes 4 flag in
  if tcp then Write w (hdr ++ body) else
  match Write w hdr with
  | (Err e, w) => (Err e, w)
  | (Ok _, w) => if len body =? 0 then (Ok tt, w) else Write w body
  end.

Definition MaxMessage : Z := 10 * 1024 * 1024.

(** [None] is a read error or an oversized frame; the second component is what
    is left of the stream. *)
Definition readMessageRaw (r : list byte) : outcome (option (list byte) * list byte) :=
  match ReadFull r 4 with
  | (Err _, r) => Ret (None, r)
  | (Ok lenBuf, r) =>
      length ← le_uint 4 lenBuf;
      if MaxMessage <? length then Ret (None, r) else
      match ReadFull r length with
      | (Err _, r) => Ret (None, r)
      | (Ok d, r) => Ret (Some d, r)
      end
  end.

(** [picks] is what the two pools hand out. *)
Definition readMessageRawPooled (picks : option nat * option nat) (r : list byte) (h : heap)
  : outcome (option nat * list byte * heap) :=
  match ReadFull r 4 with
  | (Err _, r) => Ret (None, r, h)
  | (Ok lenBuf, r) =>
      length ← le_uint 4 lenBuf;
      if MaxMessage <? length then Ret (None, r, h) else
      let '(ref, h) := getBuf picks.1 picks.2 length h in
      raw ← rawBuf h ref; _ ← slice raw 0 length;
      match ReadFull r length with
      | (Err _, r) => h ← release h (Some ref); Ret (None, r, h)
      | (Ok d, r) => h ← fill h ref d; Ret (Some ref, r, h)
      end
  end.

Definition readMessage (r : list byte) : outcome (option (result Message zap_error) * list byte) :=
  x ← readMessageRaw r;
  match x with
  | (None, r) => Ret (None, r)
  | (Some d, r) => p ← Parse d; Ret (Some p, r)
  end.

(** ** Frames on the stream *)

Definition node_frame (d : list byte) : list byte := le_bytes 4 (len d) ++ d.

(** Both ways of writing put the same bytes on the stream. *)
Lemma writeMessage_ok tcp w d :
  broken w = false -> len d <= MaxMessage ->
  exists w', writeMessage tcp w d = (Ok tt, w') /\ broken w' = false
    /\ concat (calls w') = concat (calls w) ++ node_frame d.
Proof.
  intros Hb Hl; unfold writeMessage, Write, node_frame, u32; rewrite Hb, Z.mod_small
    by (pose proof (len_nonneg d); unfold MaxMessage in *; lia).
  destruct tcp; cbn [broken]; eexists; (split; [reflexivity|split; [done|]]); cbn [calls];
    rewrite !concat_app; cbn [concat]; rewrite !app_nil_r, <- ?app_assoc; done.
Qed.

Lemma writeCorrelated_ok tcp w reqID flag body :
  broken w = false -> len body + 8 <= MaxMessage ->
  exists w', writeCorrelated tcp w reqID flag body = (Ok tt, w') /\ broken w' = false
    /\ concat (calls w') = concat (calls w) ++ node_frame (WrapCorrelated reqID flag body).
Proof.
  intros Hb Hl; pose proof (len_nonneg body) as Hn; unfold writeCorrelated, Write, node_frame, u32, WrapCorrelated.
  rewrite Hb, !len_app, !len_le_bytes, Z.mod_small by (unfold correlatedHeaderSize, MaxMessage in *; lia).
  replace (4 + (4 + len body)) with (correlatedHeaderSize + len body) by (unfold correlatedHeaderSize; lia).
  destruct tcp; cbn [broken]; [|destruct (Z.eqb_spec (len body) 0) as [Hz|]].
  2: assert (body = []) as -> by (destruct body; [done|rewrite len_cons in Hz; pose proof (len_nonneg body); lia]).
  all: eexists; (split; [reflexivity|split; [done|]]); cbn [calls];
    rewrite !concat_app; cbn [concat]; rewrite !app_nil_r, <- ?app_assoc; done.
Qed.

Lemma ReadFull_app d r : ReadFull (d ++ r) (len d) = (Ok d, r).
Proof.
  unfold ReadFull; rewrite len_app; pose proof (len_nonneg r); guard_false.
  rewrite sub_app_hd by done; unfold len; rewrite Nat2Z.id, drop_app_length; done.
Qed.

Lemma readMessageRaw_frame d r :
  len d <= MaxMessage -> readMessageRaw (node_frame d ++ r) = Ret (Some d, r).
Proof.
  intros Hl; pose proof (len_nonneg d); unfold readMessageRaw, node_frame; rewrite <- app_assoc.
  assert (H4 : len (le_bytes 4 (len d)) = 4) by (apply len_le_bytes; lia).
  pose proof (ReadFull_app (le_bytes 4 (len d)) (d ++ r)) as HR; rewrite H4 in HR; rewrite HR.
  assert (Hle : le_uint 4 (le_bytes 4 (len d)) = Ret (len d)).
  { unfold le_uint; rewrite H4; cbn [Z.ltb Z.compare Pos.compare Pos.compare_cont]; rewrite sub_all by lia.
    rewrite le_combine_le_bytes, Z.mod_small; [done|unfold MaxMessage in *; lia|lia]. }
  rewrite Hle; cbn [mbind outcome_bind]; guard_false; rewrite ReadFull_app; done.
Qed.

(** The pooled read is the plain read, into a buffer nobody else holds. *)
Lemma pooled_read_ok picks r h hs :
  heap_ok h hs -> exists o r', readMessageRaw r = Ret (o, r') /\
  match o with
  | Some d => exists ref h', readMessageRawPooled picks r h = Ret (Some ref, r', h')
      /\ heap_ok h' (ref :: hs) /\ Bytes h' ref = Ret d /\ (ref ∉ hs)
      /\ (forall x, x ∈ hs -> same_view h h' x)
  | None => exists h', readMessageRawPooled picks r h = Ret (None, r', h')
      /\ heap_ok h' hs /\ (forall x, x ∈ hs -> same_view h h' x)
  end.
Proof.
  intros Hok; unfold readMessageRaw, readMessageRawPooled, ReadFull.
  destruct (Z.ltb_spec (len r) 4) as [H4|H4].
  { eexists _, _; split; [reflexivity|]; eexists; split; [reflexivity|split; [done|]].
    intros x Hx; eapply same_view_refl; done. }
  assert (Hl4 : len (sub r 0 4) = 4) by (rewrite len_sub; lia).
  set (n := le_combine (sub (sub r 0 4) 0 4)).
  assert (Hle : le_uint 4 (sub r 0 4) = Ret n) by (unfold le_uint; rewrite Hl4; done).
  assert (Hn : 0 <= n) by (unfold n; pose proof (le_combine_range (sub (sub r 0 4) 0 4)); lia).
  rewrite Hle; cbn [mbind outcome_bind]; destruct (Z.ltb_spec MaxMessage n).
  { eexists _, _; split; [reflexivity|]; eexists; split; [reflexivity|split; [done|]].
    intros x Hx; eapply same_view_refl; done. }
  destruct (getBuf_got picks.1 picks.2 n h hs Hok Hn) as (ref & h1 & b & Hg & Hok1 & Hr & Hb & Hrn & Hv).
  rewrite Hg; set (rest := drop _ r).
  assert (Hraw : exists raw, rawBuf h1 ref = Ret raw /\ n <= len raw).
  { pose proof Hok1 as (H1 & _); destruct (H1 ref) as (b0 & Hb0 & _ & _ & Hbuf); [left|]; simplify_eq.
    unfold rawBuf; rewrite Hb; cbn [deref mbind outcome_bind]; destruct (bufp b) as [p|]; [|eexists; split; [reflexivity|lia]].
    destruct Hbuf as (s & Hs & _ & Hlen & Hle' & _); rewrite Hs; cbn [deref mbind outcome_bind].
    rewrite slice_ok by (pose proof (size_of_nonneg (class b)); lia).
    eexists; split; [reflexivity|]; rewrite len_sub; pose proof (size_of_nonneg (class b)); lia. }
  destruct Hraw as (raw & -> & Hraw); cbn [mbind outcome_bind]; rewrite slice_ok by lia; cbn [mbind outcome_bind].
  destruct (Z.ltb_spec (len rest) n) as [Hs|Hs].
  - destruct (release_ok h1 [] ref hs Hok1) as (h2 & -> & Hok2 & Hv2); cbn [mbind outcome_bind].
    eexists _, _; split; [reflexivity|]; eexists; split; [reflexivity|split; [done|]].
    intros x Hx; eapply same_view_trans; [apply Hv, Hx|apply Hv2, Hx].
  - destruct (fill_ok h1 (ref :: hs) ref b (sub rest 0 n) Hok1) as (h2 & -> & Hok2 & Hbytes & Hv2);
      [left|done|rewrite len_sub; lia|]; cbn [mbind outcome_bind].
    eexists _, _; split; [reflexivity|]; eexists _, _; split; [reflexivity|split_and!; try done].
    intros x Hx; eapply same_view_trans; [apply Hv, Hx|apply Hv2; [right; done|congruence]].
Qed.

(** ** Correlation *)

Lemma rd_app_l n d d' p : 0 <= p -> p + n <= len d -> rd n (d ++ d') p = rd n d p.
Proof. intros; unfold rd; rewrite sub_app_l by lia; done. Qed.

(** A 4-byte integer from its halves. *)
Lemma rd_halves d p : 0 <= p -> p + 4 <= len d -> rd 4 d p = rd 2 d p + 2 ^ 16 * rd 2 d (p + 2).
Proof.
  intros Hp Hl; pose proof (rd_range 2 d p ltac:(lia)) as Hr; unfold rd in *; change 4 with (2 + 2).
  rewrite sub_split, le_combine_app by lia; assert (Z.of_nat (length (sub d p 2)) = 2) as ->
    by (pose proof (len_sub d p 2); unfold len in *; lia).
  change (2 * 8) with 16; rewrite <- Z.lxor_lor, <- Z.add_nocarry_lxor, Z.shiftl_mul_pow2; [lia|lia|..].
  all: apply Z.bits_inj'; intros k Hk; rewrite Z.land_spec, Z.bits_0; destruct (Z.lt_ge_cases k 16).
  1,3: rewrite Z.shiftl_spec_low, andb_false_r by done; done.
  all: rewrite <- (Z.mod_small (le_combine (sub d p 2)) (2 ^ 16)), Z.mod_pow2_bits_high by lia; done.
Qed.

Lemma UnwrapCorrelated_eq d :
  UnwrapCorrelated d = Ret (
    if (len d <? 8) || negb ((rd 4 d 4 =? ReqFlagReq) || (rd 4 d 4 =? ReqFlagResp)) then None
    else Some (rd 4 d 0, rd 4 d 4, drop 8 d)).
Proof.
  unfold UnwrapCorrelated, correlatedHeaderSize; destruct (Z.ltb_spec (len d) 8); [done|cbn [orb]].
  rewrite !slice_ok by lia; cbn [mbind outcome_bind].
  rewrite !le_uint_sub by lia; cbn [mbind outcome_bind]; fold (rd 4 d 0) (rd 4 d 4).
  rewrite negb_orb; destruct (negb _ && negb _); [done|].
  unfold slice_from; rewrite slice_ok by lia; cbn [mbind outcome_bind]; do 3 f_equal.
  unfold sub; rewrite firstn_all2; [done|rewrite length_drop; unfold len; lia].
Qed.

Lemma UnwrapCorrelated_Wrap reqID flag body :
  0 <= reqID < 2 ^ 32 -> flag = ReqFlagReq \/ flag = ReqFlagResp ->
  UnwrapCorrelated (WrapCorrelated reqID flag body) = Ret (Some (reqID, flag, body)).
Proof.
  intros Hid Hf; rewrite UnwrapCorrelated_eq; unfold WrapCorrelated.
  assert (H4 : forall v, len (le_bytes 4 v) = 4) by (intros; apply len_le_bytes; lia).
  pose proof (len_nonneg body); rewrite !len_app, !H4; replace (4 + (4 + len body) <? 8) with false by lia.
  assert (E0 : rd 4 (le_bytes 4 reqID ++ le_bytes 4 flag ++ body) 0 = reqID).
  { unfold rd; rewrite sub_app_hd by done; rewrite le_combine_le_bytes, Z.mod_small by lia; done. }
  assert (E4 : rd 4 (le_bytes 4 reqID ++ le_bytes 4 flag ++ body) 4 = flag).
  { unfold rd; rewrite sub_app_r, H4, Z.sub_diag, sub_app_hd by (rewrite ?H4; done || lia).
    rewrite le_combine_le_bytes, Z.mod_small by (unfold ReqFlagReq, ReqFlagResp in *; lia); done. }
  rewrite E0, E4; replace (negb _) with false by (destruct Hf as [-> | ->]; done).
  assert (Hd : length (le_bytes 4 reqID ++ le_bytes 4 flag) = 8%nat)
    by (pose proof (H4 reqID) as L1; pose proof (H4 flag) as L2; unfold len in L1, L2; rewrite length_app; lia).
  cbn [orb]; rewrite app_assoc, <- Hd, drop_app_length; done.
Qed.

(** How [UnwrapCorrelated] classifies an uncorrelated message. A message
    [Parse] accepts is taken for uncorrelated exactly when its flags are not
    zero; with zero flags its version number is read as the correlation flag,
    and the message is taken for a call request (version 1) or a call response
    (version 2) whose body is the message from its root offset on. *)
Theorem plain_message_classified d m fl :
  Parse d = Ret (Ok m) -> Message_Flags m = Ret fl ->
  UnwrapCorrelated d = Ret (if fl =? 0 then Some (rd 4 Magic 0, rd 2 d 4, drop 8 d) else None)
  /\ (rd 2 d 4 = ReqFlagReq \/ rd 2 d 4 = ReqFlagResp).
Proof.
  intros (Hs & Hm & Hv & ->)%Parse_Ok_inv Hf; unfold HeaderSize in Hs; unfold Message_Flags in Hf; cbn [data] in Hf.
  rewrite slice_ok in Hf by (rewrite ?len_sub; lia); cbn [mbind outcome_bind] in Hf.
  rewrite le_uint_sub in Hf by (rewrite ?len_sub; lia); injection Hf as Hf; rewrite sub_sub in Hf by lia.
  change (le_combine (sub d (0 + 6) 2)) with (rd 2 d 6) in Hf.
  assert (E4 : rd 4 d 4 = rd 2 d 4 + 2 ^ 16 * fl) by (rewrite <- Hf; apply rd_halves; lia).
  pose proof (rd_range 2 d 6 ltac:(lia)) as Hr; rewrite Hf in Hr.
  rewrite UnwrapCorrelated_eq, E4; replace (len d <? 8) with false by lia; cbn [orb].
  unfold Version1, Version2, ReqFlagReq, ReqFlagResp in *; split; [|done].
  destruct (Z.eqb_spec fl 0) as [->|Hne]; rewrite ?Z.mul_0_r, ?Z.add_0_r.
  - replace (negb _) with false by (destruct Hv as [-> | ->]; done); unfold rd at 1 3; rewrite Hm; done.
  - replace (negb _) with true; [done|]; symmetry; apply negb_true_iff, orb_false_iff; lia.
Qed.

(** ** The node-id exchange *)

(** The loop over the id writes it into the object and touches nothing else. *)
Lemma set_id_bytes_holds ob ids : forall b a i,
  holds b a -> HeaderSize <= startPos ob -> 0 <= i -> startPos ob + i + len ids <= len (bytes a) ->
  exists b' a', set_id_bytes ob b i ids = Ret b' /\ holds b' a' /\ root a' = root a
    /\ len (bytes a') = len (bytes a) /\ sub (bytes a') (startPos ob + i) (len ids) = ids
    /\ forall lo n, 0 <= lo -> lo + n <= startPos ob + i -> sub (bytes a') lo n = sub (bytes a) lo n.
Proof.
  unfold HeaderSize; induction ids as [|x ids IH]; intros b a i Hh Hs Hi Hl; cbn [set_id_bytes].
  { exists b, a; split_and!; try done; unfold sub; rewrite take_0; done. }
  rewrite len_cons in Hl; pose proof (len_nonneg ids) as Hn.
  destruct (SetUintN_holds b a ob 1 i (byte.unsigned x) Hh) as (b1 & Hset & Hh1);
    [unfold field_ok, HeaderSize; lia|lia|].
  change SetUint8 with (SetUintN 1); rewrite Hset; cbn [mbind outcome_bind].
  rewrite a_extend_id in Hh1 by lia; set (a1 := a_patch a _ _) in Hh1.
  assert (Hx : le_bytes 1 (byte.unsigned x) = [x])
    by (change (le_bytes 1 (byte.unsigned x)) with [byte.of_Z (byte.unsigned x)]; rewrite byte.of_Z_unsigned; done).
  assert (Hl1 : len (bytes a1) = len (bytes a)).
  { unfold a1; cbn [a_patch bytes]; rewrite Hx; apply len_put; rewrite ?len_single; lia. }
  destruct (IH b1 a1 (i + 1) Hh1) as (b' & a' & Hrun & Hh' & Hr & Hl' & Hsub & Hlow); [lia|lia|lia|].
  exists b', a'; split_and!; try done; [lia| |].
  - rewrite len_cons, sub_split by lia; rewrite Hlow by lia.
    replace (startPos ob + i + 1) with (startPos ob + (i + 1)) by lia; rewrite Hsub.
    unfold a1; cbn [a_patch bytes]; rewrite Hx.
    pose proof (sub_put_same (bytes a) (startPos ob + i) [x]) as Hp; rewrite len_single in Hp; rewrite Hp by lia; done.
  - intros lo n Hlo Hn'; rewrite Hlow by lia; unfold a1; cbn [a_patch bytes]; rewrite Hx.
    apply sub_put_other; rewrite ?len_single; lia.
Qed.

Lemma get_id_bytes_ok d off n : forall i,
  0 <= off + i -> off + i + Z.of_nat n <= len d ->
  get_id_bytes (obj d off) n i = Ret (sub d (off + i) (Z.of_nat n)).
Proof.
  induction n as [|n IH]; intros i Hi Hl; cbn [get_id_bytes]; [unfold sub; rewrite take_0; done|].
  rewrite (Object_Uint8_eq (obj d off) (WrapBuffer d) i eq_refl) by (simpl; lia).
  cbn [data WrapBuffer offset obj]; guard_false; cbn [mbind outcome_bind].
  rewrite IH by lia; cbn [mbind outcome_bind].
  replace (Z.of_nat (S n)) with (1 + Z.of_nat n) by lia; rewrite sub_split by lia.
  unfold rd; rewrite sub_byte_at by lia; rewrite le_combine_1, byte.of_Z_unsigned.
  rewrite Z.add_assoc; done.
Qed.

(** The document the encoder has built when it finishes. *)
Lemma encode_nodeid_holds nodeID :
  let n := if maxNodeIDLen <? len nodeID then maxNodeIDLen else len nodeID in
  exists a, EncodeNodeIDHandshake nodeID = Ret (bytes (a_finish (mkDoc (bytes a) 16)))
    /\ len (bytes a) = 80 /\ sub (bytes a) 0 8 = sub (bytes (fresh_doc Version2)) 0 8
    /\ sub (bytes a) 16 n = sub nodeID 0 n /\ sub (bytes a) 76 4 = le_bytes 4 n.
Proof.
  pose proof (len_nonneg nodeID) as Hid; unfold EncodeNodeIDHandshake, NewBuilder, maxNodeIDLen.
  set (n := if 60 <? len nodeID then 60 else len nodeID).
  assert (Hn : 0 <= n <= 60 /\ n <= len nodeID) by (unfold n; case_if; lia).
  assert (Hids : len (sub nodeID 0 n) = n) by (apply len_sub; lia).
  destruct (newBuilder_holds 128 Version2) as (b0 & -> & H0); cbn [mbind outcome_bind].
  destruct (StartObject_holds b0 (fresh_doc Version2) 64 H0) as (b1 & Hst & H1).
  change (len (bytes (fresh_doc Version2)) + _) with 16 in Hst; rewrite Hst; cbn [mbind outcome_bind].
  set (a1 := a_append _ _) in H1; assert (Hl1 : len (bytes a1) = 80) by reflexivity.
  destruct (set_id_bytes_holds (mkObjectBuilder 16 64) (sub nodeID 0 n) b1 a1 0 H1)
    as (b2 & a2 & -> & H2 & Hr2 & Hl2 & Hsub2 & Hlow2); [done|done|cbn [startPos]; lia|].
  cbn [mbind outcome_bind startPos] in *; rewrite Hids in Hsub2.
  destruct (SetUintN_holds b2 a2 (mkObjectBuilder 16 64) 4 60 (u32 n) H2) as (b3 & Hset & H3); [done|lia|].
  change SetUint32 with (SetUintN 4); rewrite Hset; cbn [mbind outcome_bind startPos] in *.
  rewrite a_extend_id in H3 by lia; set (a3 := a_patch a2 _ _) in H3.
  assert (Hl3 : len (bytes a3) = 80) by (unfold a3; cbn [a_patch bytes]; rewrite len_put; rewrite ?len_le_bytes; lia).
  assert (Hoth : forall lo k, 0 <= lo -> lo + k <= 76 -> sub (bytes a3) lo k = sub (bytes a2) lo k)
    by (intros; unfold a3; cbn [a_patch bytes]; apply sub_put_other; rewrite ?len_le_bytes; lia).
  assert (H76 : sub (bytes a3) 76 4 = le_bytes 4 n).
  { unfold a3; cbn [a_patch bytes]; rewrite le_bytes_u32; set (w := le_bytes 4 n).
    assert (Hw : len w = 4) by (apply len_le_bytes; lia); pose proof (sub_put_same (bytes a2) 76 w) as Hp.
    rewrite Hw in Hp; apply Hp; lia. }
  unfold FinishAsRoot, ObjectBuilder_Finish; cbn [startPos].
  destruct (Finish_holds (mkBuilder (buf b3) (pos b3) 16) (mkDoc (bytes a3) 16)) as (b4 & -> & _);
    [destruct H3 as (? & ? & _); split; [done|split; done]|cbn [bytes]; unfold HeaderSize; lia|].
  exists a3; split; [done|split; [done|split; [rewrite Hoth, Hlow2 by lia; reflexivity|split; [|done]]]].
  rewrite Hoth by lia; done.
Qed.

(** The node-id exchange round-trips. For every id the encoder writes one
    message of [nodeIDHandshakeSize] bytes, and the decoder reads back its
    first [maxNodeIDLen] bytes; only the empty id is refused. *)
Theorem nodeid_roundtrip nodeID :
  exists d, EncodeNodeIDHandshake nodeID = Ret d /\ len d = nodeIDHandshakeSize
    /\ DecodeNodeIDHandshake d
       = Ret (if len nodeID =? 0 then ([], false) else (sub nodeID 0 maxNodeIDLen, true)).
Proof.
  destruct (encode_nodeid_holds nodeID) as (a & -> & Hl & Hh & Hsub & H76); unfold maxNodeIDLen in *.
  pose proof (len_nonneg nodeID) as Hid; set (n := if 60 <? len nodeID then 60 else len nodeID) in *.
  assert (Hn : 0 <= n <= 60 /\ (n = 0 <-> len nodeID = 0)) by (unfold n; case_if; lia).
  set (d := bytes (a_finish _)).
  destruct (finish_parses (mkDoc (bytes a) 16) Version2) as [Hparse Hroot]; cbn [bytes root];
    [unfold HeaderSize; lia|lia|apply (sub_prefix_eq _ _ 8 0 6 Hh); lia|auto|]; fold d in Hparse, Hroot.
  destruct (keeps_finish (mkDoc (bytes a) 16)) as [_ Hk]; [cbn [bytes]; unfold HeaderSize; lia|]; fold d in Hk.
  cbn [bytes] in Hk.
  assert (Hld : len d = 80) by (unfold d; rewrite len_finish; cbn [bytes]; [done|unfold HeaderSize; lia]).
  exists d; split; [done|split; [done|]]; unfold DecodeNodeIDHandshake, maxNodeIDLen.
  rewrite Hparse; cbn [mbind outcome_bind]; rewrite Hroot; cbn [mbind outcome_bind root].
  unfold Object_Uint32; rewrite (Object_UintN_eq (obj d 16) (WrapBuffer d) 60 eq_refl) by (simpl; lia).
  cbn [data WrapBuffer offset obj]; guard_false; cbn [mbind outcome_bind].
  assert (Hrd : rd 4 d (16 + 60) = n).
  { unfold rd; rewrite Hk by (unfold HeaderSize; lia); change (16 + 60) with 76; rewrite H76, le_combine_le_bytes, Z.mod_small; lia. }
  rewrite Hrd; destruct (Z.eqb_spec n 0), (Z.eqb_spec (len nodeID) 0); cbn [orb]; try (exfalso; lia); [done|].
  guard_false; rewrite get_id_bytes_ok by lia; cbn [mbind outcome_bind]; rewrite Z2Nat.id by lia.
  rewrite Hk by (unfold HeaderSize; lia); rewrite Z.add_0_r, Hsub; f_equal; f_equal; unfold n.
  destruct (Z.ltb_spec 60 (len nodeID)); [done|rewrite !sub_all by lia; done].
Qed.

Lemma plain_message_classified_witness :
  let d := Magic ++ le_bytes 2 1 ++ le_bytes 2 0 ++ le_bytes 4 16 ++ le_bytes 4 16 in
  UnwrapCorrelated d = Ret (Some (rd 4 Magic 0, 1, drop 8 d)).
Proof.
  intros d; apply (plain_message_classified d (mkMessage d None) 0); vm_compute; reflexivity.
Defined.
