(* ===== verification/NodeLoop.v ===== *)
(** * NodeLoop: dispatching frames to handlers and callers

    Models the message half of [node.go]: [Call], [dispatchLoop], the receive
    loop of [getOrConnect], [safeHandle] and [Conn.Send]/[Recv]. A handler is
    the application's code, a parameter: it returns a reply, nothing, an error,
    or panics. A response channel has room for one message. Locks are held
    around single steps and are not modelled; the loops run until the stream
    ends, cancellation of the node's context is not modelled. *)

From S2P Require Import Prelude Wire HsLabels HsFrames BufPool NodeWire.
From stdpp Require Import gmap.
Local Open Scope Z_scope.

(** [Handler]; the peer's id is passed on. *)
Definition Handler : Type := list byte -> Message -> outcome (result (option Message) unit).

(** The response channels of a connection by request id, [None] while empty. *)
Abbreviation Pending := (gmap Z (option Message)).

(** A panic in a handler becomes an error. *)
Definition safeHandle (h : Handler) (peerID : list byte) (m : Message) : result (option Message) unit :=
  match h peerID m with
  | Ret r => r
  | Panic => Err tt
  end.

(** [select { case ch <- msg: default: }] on [pending[reqID]]. *)
Definition deliver (p : Pending) (reqID : Z) (m : Message) : bool * Pending :=
  match p !! reqID with
  | Some None => (true, <[reqID := Some m]> p)
  | _ => (false, p)
  end.

(** ** Calls *)

(** A connection as its callers see it: the request counter, the channels and
    the socket. *)
Record CallConn : Type := mkCallConn {
  reqID : Z;
  pending : Pending;
  sock : Writer
}.

(** [Call] up to the wait: the id of the request. *)
Definition Call_start (tcp : bool) (c : CallConn) (body : list byte)
  : result Z hs_error * CallConn :=
  let id := u32 (reqID c + 1) in
  let p := <[id := None]> (pending c) in
  match writeCorrelated tcp (sock c) id ReqFlagReq body with
  | (Ok _, w) => (Ok id, mkCallConn id p w)
  | (Err e, w) => (Err e, mkCallConn id (delete id p) w)
  end.

(** [Call] from the wait on: the message in the channel, if there is one by the
    time the caller looks; the deferred delete runs either way. *)
Definition Call_finish (c : CallConn) (id : Z) : option Message * CallConn :=
  (c' ← pending c !! id; c', mkCallConn (reqID c) (delete id (pending c)) (sock c)).

Definition Conn_Send (tcp : bool) (w : Writer) (m : Message) : result unit hs_error * Writer :=
  writeMessage tcp w (Message_Bytes m).
Definition Conn_Recv (r : list byte) : outcome (option (result Message zap_error) * list byte) :=
  readMessage r.

(** ** Dispatch *)

Record LoopSt : Type := mkLoop {
  l_rx : list byte;
  l_tx : Writer;
  l_pending : Pending;
  l_heap : heap
}.

Section loop.
Context (tcp : bool) (handlers : gmap Z Handler) (peerID : list byte).

(** A message for a handler: run it and send its reply with [reply]. The first
    component tells whether the loop goes on. *)
Definition serve (reply : Writer -> list byte -> result unit hs_error * Writer) (w : Writer) (m : Message)
  : outcome (bool * Writer) :=
  flags ← Message_Flags m;
  let msgType := Z.shiftr flags 8 in
  match handlers !! msgType with
  | None => Ret (true, w)
  | Some handler =>
      match safeHandle handler peerID m with
      | Err _ => Ret (true, w)
      | Ok None => Ret (true, w)
      | Ok (Some resp) =>
          match reply w (Message_Bytes resp) with
          | (Err _, w) => Ret (false, w)
          | (Ok _, w) => Ret (true, w)
          end
      end
  end.

(** A message taken for a call response goes to its caller, with a reference
    of its own on the buffer. *)
Definition route_response (ref : nat) (h : heap) (p : Pending) (id : Z) (body : list byte)
  : outcome (heap * Pending) :=
  x ← Parse body;
  match x with
  | Err _ => Ret (h, p)
  | Ok m =>
      let m := attachToMessage m ref in
      h ← retain h ref;
      let '(ok, p) := deliver p id m in
      if (ok : bool) then Ret (h, p) else
      y ← Message_Release h (Some m); Ret (y.1, p)
  end.

(** One iteration of [dispatchLoop] after the read. *)
Definition dispatch_frame (ref : nat) (st : LoopSt) : outcome (bool * LoopSt) :=
  d ← Bytes (l_heap st) ref;
  u ← UnwrapCorrelated d;
  match u with
  | Some (id, flag, body) =>
      if flag =? ReqFlagResp then
        x ← route_response ref (l_heap st) (l_pending st) id body;
        let '(h, p) := x in
        h ← release h (Some ref);
        Ret (true, mkLoop (l_rx st) (l_tx st) p h)
      else if flag =? ReqFlagReq then
        x ← Parse body;
        y ← (match x with
             | Err _ => Ret (true, l_tx st)
             | Ok m => serve (fun w b => writeCorrelated tcp w id ReqFlagResp b) (l_tx st) m
             end);
        h ← release (l_heap st) (Some ref);
        Ret (y.1, mkLoop (l_rx st) y.2 (l_pending st) h)
      else
        h ← release (l_heap st) (Some ref);
        Ret (true, mkLoop (l_rx st) (l_tx st) (l_pending st) h)
  | None =>
      x ← Parse d;
      y ← (match x with
           | Err _ => Ret (true, l_tx st)
           | Ok m => serve (writeMessage tcp) (l_tx st) m
           end);
      h ← release (l_heap st) (Some ref);
      Ret (y.1, mkLoop (l_rx st) y.2 (l_pending st) h)
  end.

(** The loop of [dispatchLoop]; [picks k] is what the pools hand out at the
    [k]-th read. *)
Fixpoint dispatch_loop (fuel : nat) (picks : nat -> option nat * option nat) (k : nat) (st : LoopSt)
  : outcome LoopSt :=
  match fuel with
  | O => Panic
  | S fuel =>
      x ← readMessageRawPooled (picks k) (l_rx st) (l_heap st);
      match x with
      | (None, r, h) => Ret (mkLoop r (l_tx st) (l_pending st) h)
      | (Some ref, r, h) =>
          y ← dispatch_frame ref (mkLoop r (l_tx st) (l_pending st) h);
          if (y.1 : bool) then dispatch_loop fuel picks (S k) y.2 else Ret y.2
      end
  end.

(** Every frame takes four bytes or more. *)
Definition dispatchLoop (picks : nat -> option nat * option nat) (st : LoopSt) : outcome LoopSt :=
  dispatch_loop (S (length (l_rx st))) picks 0 st.

(** One iteration of the receive loop of [getOrConnect] after the read: it
    routes responses, and hands every other frame to a handler whose reply it
    drops. *)
Definition receive_frame (ref : nat) (st : LoopSt) : outcome LoopSt :=
  d ← Bytes (l_heap st) ref;
  isResp ← (if 8 <=? len d then s ← slice d 4 8; f ← le_uint 4 s; Ret (f =? ReqFlagResp) else Ret false);
  if (isResp : bool) then
    s ← slice d 0 4; id ← le_uint 4 s; body ← slice_from d 8;
    x ← route_response ref (l_heap st) (l_pending st) id body;
    let '(h, p) := x in
    h ← release h (Some ref);
    Ret (mkLoop (l_rx st) (l_tx st) p h)
  else
    x ← Parse d;
    _ ← (match x with
         | Err _ => Ret (true, l_tx st)
         | Ok m => serve (fun w _ => (Ok tt, w)) (l_tx st) m
         end);
    h ← release (l_heap st) (Some ref);
    Ret (mkLoop (l_rx st) (l_tx st) (l_pending st) h).
End loop.

(** ** What the loop computes *)

(** The buffers the messages in the channels hold on to. *)
Definition channel_refs (p : Pending) : list nat :=
  omap (fun kc : Z * option Message => m ← kc.2; refs m) (map_to_list p).

(** The channels by the bytes in them. *)
Definition contents (p : Pending) : gmap Z (option (list byte)) := (option_map data) <$> p.

Definition parsed (d : list byte) : option (list byte) :=
  match Parse d with Ret (Ok m) => Some (data m) | _ => None end.

Section spec.
Context (tcp : bool) (handlers : gmap Z Handler) (peerID : list byte).

Definition spec_serve (reply : Writer -> list byte -> result unit hs_error * Writer) (w : Writer)
  (d : list byte) : bool * Writer :=
  match parsed d with
  | None => (true, w)
  | Some b =>
      match h ← handlers !! Z.shiftr (rd 2 b 6) 8; Some (safeHandle h peerID (mkMessage b None)) with
      | Some (Ok (Some resp)) =>
          match reply w (data resp) with (Ok _, w) => (true, w) | (Err _, w) => (false, w) end
      | _ => (true, w)
      end
  end.

(** The effect of one frame on the socket and the channels. *)
Definition spec_frame (d : list byte) (w : Writer) (p : gmap Z (option (list byte)))
  : bool * Writer * gmap Z (option (list byte)) :=
  match UnwrapCorrelated d with
  | Ret (Some (id, flag, body)) =>
      if flag =? ReqFlagResp then
        (true, w, match parsed body, p !! id with
                  | Some b, Some None => <[id := Some b]> p
                  | _, _ => p
                  end)
      else (spec_serve (fun w b => writeCorrelated tcp w id ReqFlagResp b) w body, p)
  | _ => (spec_serve (writeMessage tcp) w d, p)
  end.

(** The effect of a stream: its frames in order, until it ends or a write fails. *)
Fixpoint spec_loop (fuel : nat) (r : list byte) (w : Writer) (p : gmap Z (option (list byte)))
  : list byte * Writer * gmap Z (option (list byte)) :=
  match fuel with
  | O => (r, w, p)
  | S fuel =>
      match readMessageRaw r with
      | Ret (Some d, r) =>
          let '(go, w, p) := spec_frame d w p in
          if (go : bool) then spec_loop fuel r w p else (r, w, p)
      | Ret (None, r) => (r, w, p)
      | Panic => (r, w, p)
      end
  end.

Lemma Parse_cases d :
  (exists b, parsed d = Some b /\ Parse d = Ret (Ok (mkMessage b None)))
  \/ (exists e, parsed d = None /\ Parse d = Ret (Err e)).
Proof. unfold parsed; rewrite Parse_eq; repeat case_if; eauto. Qed.

Lemma parsed_len d b : parsed d = Some b -> 16 <= len b.
Proof.
  unfold parsed; destruct (Parse d) as [[m|]|] eqn:E; try done; intros; simplify_eq.
  apply Parse_Ok_data in E; unfold HeaderSize in E; lia.
Qed.

Lemma serve_eq reply w d b :
  parsed d = Some b ->
  serve handlers peerID reply w (mkMessage b None) = Ret (spec_serve reply w d).
Proof.
  intros Hb; pose proof (parsed_len d b Hb); unfold serve, spec_serve, Message_Flags; rewrite Hb; cbn [data].
  rewrite slice_ok by lia; cbn [mbind outcome_bind]; rewrite le_uint_sub by lia; cbn [mbind outcome_bind].
  fold (rd 2 b 6); destruct (handlers !! _) as [h|]; [|done]; cbn [mbind option_bind].
  destruct (safeHandle h peerID _) as [[resp|]|]; try done; unfold Message_Bytes.
  destruct (reply w (data resp)) as [[]]; done.
Qed.

Lemma channel_refs_insert p id m :
  p !! id = Some None -> channel_refs (<[id := Some m]> p) ≡ₚ omap refs [m] ++ channel_refs p.
Proof.
  intros Hp; unfold channel_refs.
  rewrite <- insert_delete_eq, (map_to_list_insert (delete id p)) by apply lookup_delete_eq.
  rewrite <- (map_to_list_delete p id None Hp); cbn; destruct (refs m); done.
Qed.

Lemma count_fresh (ref : nat) hs : ref ∉ hs -> count_occ Nat.eq_dec (ref :: hs) ref = 1%nat.
Proof.
  intros Hr; simpl; destruct (Nat.eq_dec ref ref); [|done]; f_equal; apply count_occ_not_In.
  rewrite <- list_elem_of_In; done.
Qed.

(** A response is delivered with a reference of its own, or its reference is
    dropped again. *)
Lemma route_response_ok ref h p id body hs :
  heap_ok h (ref :: channel_refs p ++ hs) -> ref ∉ channel_refs p ++ hs ->
  exists h' p', route_response ref h p id body = Ret (h', p')
    /\ heap_ok h' (ref :: channel_refs p' ++ hs)
    /\ contents p' = match parsed body, contents p !! id with
                     | Some b, Some None => <[id := Some b]> (contents p)
                     | _, _ => contents p
                     end.
Proof.
  intros Hok Hr; unfold route_response; destruct (Parse_cases body) as [(b & -> & ->)|(e & -> & ->)];
    cbn [mbind outcome_bind]; [|exists h, p; done].
  destruct (retain_ok h _ ref Hok) as (h1 & -> & Hok1 & _); [left|rewrite count_fresh by done; done|].
  cbn [mbind outcome_bind]; unfold deliver, contents; rewrite lookup_fmap.
  assert (Hdrop : exists h', release h1 (Some ref) = Ret h' /\ heap_ok h' (ref :: channel_refs p ++ hs)).
  { destruct (release_ok h1 [] ref (ref :: channel_refs p ++ hs) Hok1) as (h2 & ? & ? & _); eauto. }
  destruct Hdrop as (h2 & Hrel & Hok2).
  destruct (p !! id) as [[m|]|] eqn:Ep; cbn [fmap option_fmap option_map];
    [unfold Message_Release, attachToMessage; cbn [refs]; rewrite Hrel; cbn; exists h2, p; done| |
     unfold Message_Release, attachToMessage; cbn [refs]; rewrite Hrel; cbn; exists h2, p; done].
  exists h1, (<[id := Some (attachToMessage (mkMessage b None) ref)]> p); split; [done|split].
  - eapply heap_ok_perm; [|exact Hok1]; rewrite channel_refs_insert by done; done.
  - rewrite fmap_insert; done.
Qed.

(** One iteration: the effect of the frame, and its buffer given back. *)
Lemma dispatch_frame_ok ref r w p h hs d :
  heap_ok h (ref :: channel_refs p ++ hs) -> ref ∉ channel_refs p ++ hs -> Bytes h ref = Ret d ->
  exists go w' p' h', dispatch_frame tcp handlers peerID ref (mkLoop r w p h) = Ret (go, mkLoop r w' p' h')
    /\ spec_frame d w (contents p) = (go, w', contents p') /\ heap_ok h' (channel_refs p' ++ hs).
Proof.
  intros Hok Hr Hb; unfold dispatch_frame; cbn [l_heap l_pending l_tx l_rx]; rewrite Hb; cbn [mbind outcome_bind].
  assert (Hrel : forall h p, heap_ok h (ref :: channel_refs p ++ hs) ->
    exists h', release h (Some ref) = Ret h' /\ heap_ok h' (channel_refs p ++ hs)).
  { intros h0 p0 H0; destruct (release_ok h0 [] ref (channel_refs p0 ++ hs) H0) as (h' & ? & ? & _); eauto. }
  assert (Hserve : forall reply body, (x ← Parse body; y ← (match x with
        | Err _ => Ret (true, w) | Ok m => serve handlers peerID reply w m end);
      h ← release h (Some ref); Ret (y.1, mkLoop r y.2 p h))
    = (h ← release h (Some ref); Ret ((spec_serve reply w body).1, mkLoop r (spec_serve reply w body).2 p h))).
  { intros reply body; destruct (Parse_cases body) as [(b & Hp & ->)|(e & Hp & ->)]; cbn [mbind outcome_bind].
    - rewrite (serve_eq reply w body b Hp); done.
    - unfold spec_serve; rewrite Hp; done. }
  destruct (Hrel h p Hok) as (h' & Hrel' & Hok').
  unfold spec_frame; rewrite UnwrapCorrelated_eq; destruct (_ || _) eqn:Eu; cbn [mbind outcome_bind].
  - rewrite Hserve, Hrel'; cbn [mbind outcome_bind]; destruct (spec_serve _ w d) as [go w'] eqn:Es.
    exists go, w', p, h'; done.
  - destruct (Z.eqb_spec (rd 4 d 4) ReqFlagResp) as [E2|E2].
    + destruct (route_response_ok ref h p (rd 4 d 0) (drop 8 d) hs Hok Hr) as (h1 & p1 & -> & Hok1 & Hc).
      cbn [mbind outcome_bind]; destruct (Hrel h1 p1 Hok1) as (h2 & -> & Hok2); cbn [mbind outcome_bind].
      exists true, w, p1, h2; rewrite Hc; done.
    + destruct (Z.eqb_spec (rd 4 d 4) ReqFlagReq) as [E1|E1];
        [|exfalso; apply orb_false_iff in Eu as [_ Eu]; apply negb_false_iff, orb_true_iff in Eu; lia].
      rewrite Hserve, Hrel'; cbn [mbind outcome_bind]; destruct (spec_serve _ w (drop 8 d)) as [go w'] eqn:Es.
      exists go, w', p, h'; done.
Qed.

(** A read takes four bytes or more off the stream. *)
Lemma readMessageRaw_shorter r d r' : readMessageRaw r = Ret (Some d, r') -> (length r' + 4 <= length r)%nat.
Proof.
  unfold readMessageRaw, ReadFull; destruct (Z.ltb_spec (len r) 4) as [|H4]; [done|].
  destruct (le_uint 4 _) as [n|]; cbn [mbind outcome_bind]; [|done]; case_if; [done|].
  destruct (_ <? n); [done|]; intros; simplify_eq; rewrite !length_drop; unfold len in H4; lia.
Qed.

Lemma dispatch_loop_ok picks fuel : forall k r w p h hs,
  (length r < fuel)%nat -> heap_ok h (channel_refs p ++ hs) ->
  exists r' w' p' h', dispatch_loop tcp handlers peerID fuel picks k (mkLoop r w p h) = Ret (mkLoop r' w' p' h')
    /\ spec_loop fuel r w (contents p) = (r', w', contents p') /\ heap_ok h' (channel_refs p' ++ hs).
Proof.
  induction fuel as [|fuel IH]; intros k r w p h hs Hf Hok; [lia|].
  cbn [dispatch_loop spec_loop l_rx l_heap l_tx l_pending].
  destruct (pooled_read_ok (picks k) r h _ Hok) as ([d|] & r1 & Hraw & Hpool); rewrite Hraw.
  - destruct Hpool as (ref & h1 & -> & Hok1 & Hb & Hr & _); cbn [mbind outcome_bind].
    apply readMessageRaw_shorter in Hraw.
    destruct (dispatch_frame_ok ref r1 w p h1 hs d Hok1 Hr Hb) as (go & w2 & p2 & h2 & -> & -> & Hok2).
    cbn [mbind outcome_bind fst snd]; destruct go; [|exists r1, w2, p2, h2; done].
    apply IH; [lia|done].
  - destruct Hpool as (h1 & -> & Hok1 & _); cbn [mbind outcome_bind]; exists r1, w, p, h1; done.
Qed.

(** C7: [dispatchLoop] does what its frames say, and its buffers come back.
    On any stream, from a heap in which the messages in the response channels
    and other holders have their references, and whatever the pools hand out
    and the handlers do (panics included), the loop ends; the socket and the
    channels are what [spec_loop] computes frame by frame; and the references
    held are again exactly those of the messages in the channels and of the
    other holders. *)
Theorem dispatchLoop_refines picks r w p h hs :
  heap_ok h (channel_refs p ++ hs) ->
  exists r' w' p' h', dispatchLoop tcp handlers peerID picks (mkLoop r w p h) = Ret (mkLoop r' w' p' h')
    /\ spec_loop (S (length r)) r w (contents p) = (r', w', contents p')
    /\ heap_ok h' (channel_refs p' ++ hs).
Proof. intros Hok; apply dispatch_loop_ok; [cbn; lia|done]. Qed.
End spec.

(** ** Calls end to end *)

(** Calls started one after the other, all waiting. *)
Fixpoint start_all (tcp : bool) (c : CallConn) (bodies : list (list byte))
  : result (list Z) hs_error * CallConn :=
  match bodies with
  | [] => (Ok [], c)
  | b :: bodies =>
      match Call_start tcp c b with
      | (Err e, c) => (Err e, c)
      | (Ok id, c) =>
          match start_all tcp c bodies with
          | (Err e, c) => (Err e, c)
          | (Ok ids, c) => (Ok (id :: ids), c)
          end
      end
  end.

(** The frames of requests or responses. *)
Definition frames (flag : Z) (xs : list (Z * list byte)) : list byte :=
  concat (map (fun x => node_frame (WrapCorrelated x.1 flag x.2)) xs).

(** The ids [k] calls get after [n] others. *)
Definition call_ids (n : Z) (k : nat) : list Z := map (fun i => u32 (n + 1 + Z.of_nat i)) (seq 0 k).

Lemma call_ids_S n k : call_ids n (S k) = u32 (n + 1) :: call_ids (u32 (n + 1)) k.
Proof.
  unfold call_ids; cbn [seq map]; rewrite Z.add_0_r; f_equal.
  rewrite <- seq_shift, map_map; apply map_ext; intros i; unfold u32.
  rewrite <- (Z.add_assoc ((n + 1) mod 2 ^ 32)), Zplus_mod_idemp_l; f_equal; lia.
Qed.

Lemma call_ids_NoDup n k : Z.of_nat k < 2 ^ 32 -> NoDup (call_ids n k).
Proof.
  intros Hk; unfold call_ids; apply (NoDup_fmap_2_strong (fun i => u32 (n + 1 + Z.of_nat i))); [|apply NoDup_seq].
  intros i j Hi%elem_of_seq Hj%elem_of_seq; unfold u32; intros He.
  assert (Hd : (Z.of_nat i - Z.of_nat j) mod 2 ^ 32 = 0).
  { replace (Z.of_nat i - Z.of_nat j) with ((n + 1 + Z.of_nat i) - (n + 1 + Z.of_nat j)) by lia.
    rewrite Zminus_mod, He, Z.sub_diag; done. }
  apply Z.mod_divide in Hd as [q Hq]; [|lia]; assert (q = 0) by nia; lia.
Qed.

Lemma call_ids_range n k id : id ∈ call_ids n k -> 0 <= id < 2 ^ 32.
Proof.
  intros (i & <- & _)%list_elem_of_In%in_map_iff; apply Z.mod_pos_bound; lia.
Qed.

(** Requests on the wire, an empty channel for each. *)
Lemma start_all_ok tcp bodies : forall c,
  broken (sock c) = false -> Forall (fun b => len b + 8 <= MaxMessage) bodies ->
  exists c', start_all tcp c bodies = (Ok (call_ids (reqID c) (length bodies)), c')
    /\ concat (calls (sock c'))
       = concat (calls (sock c)) ++ frames ReqFlagReq (zip (call_ids (reqID c) (length bodies)) bodies)
    /\ (forall id, id ∈ call_ids (reqID c) (length bodies) \/ pending c !! id = Some None ->
          pending c' !! id = Some None)
    /\ ((forall id ch, pending c !! id = Some ch -> ch = None) ->
        forall id ch, pending c' !! id = Some ch -> ch = None).
Proof.
  induction bodies as [|b bodies IH]; intros c Hb Hl; cbn [start_all length].
  { exists c; split; [done|split; [cbn; rewrite app_nil_r; done|split; [|done]]]; intros id [Hid|]; [inversion Hid|done]. }
  apply Forall_cons_1 in Hl as [Hlb Hl]; rewrite call_ids_S; unfold Call_start.
  destruct (writeCorrelated_ok tcp (sock c) (u32 (reqID c + 1)) ReqFlagReq b Hb Hlb) as (w & -> & Hbw & Hcw).
  destruct (IH (mkCallConn (u32 (reqID c + 1)) (<[u32 (reqID c + 1) := None]> (pending c)) w) Hbw Hl)
    as (c' & -> & Hcalls & Hp & Hn); cbn [reqID sock pending] in *.
  exists c'; split; [done|split; [|split]].
  - rewrite Hcalls, Hcw, <- app_assoc; done.
  - intros id Hid; apply Hp; destruct (decide (id = u32 (reqID c + 1))) as [->|Hne];
      [right; apply lookup_insert_eq|].
    destruct Hid as [[?|?]%elem_of_cons|Hid]; [done|auto|right; rewrite lookup_insert_ne; done].
  - intros H0; apply Hn; intros id ch; destruct (decide (id = u32 (reqID c + 1))) as [->|];
      [rewrite lookup_insert_eq; congruence|rewrite lookup_insert_ne by done; apply H0].
Qed.

Section rpc.
Context (tcp : bool) (handlers : gmap Z Handler) (peerID : list byte).

(** The handler registered for the type of the message [b] answers it with [out]. *)
Definition answers (b out : list byte) : Prop :=
  exists b' (h : Handler) resp, parsed b = Some b' /\ handlers !! Z.shiftr (rd 2 b' 6) 8 = Some h
    /\ h peerID (mkMessage b' None) = Ret (Ok (Some resp)) /\ data resp = out
    /\ len out + 8 <= MaxMessage.

Lemma frames_cons flag x xs :
  frames flag (x :: xs) = node_frame (WrapCorrelated x.1 flag x.2) ++ frames flag xs.
Proof. done. Qed.

Lemma read_correlated id flag b r :
  len b + 8 <= MaxMessage ->
  readMessageRaw (node_frame (WrapCorrelated id flag b) ++ r) = Ret (Some (WrapCorrelated id flag b), r).
Proof.
  intros Hl; apply readMessageRaw_frame; unfold WrapCorrelated; rewrite !len_app, !len_le_bytes by lia; lia.
Qed.

(** Every request is answered, in order, under its own id. *)
Lemma spec_loop_server (xs : list (Z * list byte * list byte)) : forall fuel w p,
  (length xs < fuel)%nat -> broken w = false ->
  Forall (fun x => (0 <= x.1.1 < 2 ^ 32) /\ len x.1.2 + 8 <= MaxMessage /\ answers x.1.2 x.2) xs ->
  exists w', spec_loop tcp handlers peerID fuel (frames ReqFlagReq (map fst xs)) w p = ([], w', p)
    /\ concat (calls w') = concat (calls w) ++ frames ReqFlagResp (map (fun x => (x.1.1, x.2)) xs).
Proof.
  induction xs as [|[[id b] out] xs IH]; intros [|fuel] w p Hf Hb Hall; try (cbn in Hf; lia).
  { exists w; cbn; rewrite app_nil_r; done. }
  apply Forall_cons_1 in Hall as [(Hid & Hl & b' & h & resp & Hp & Hh & Hr & Ho & Hlo) Hall]; cbn [fst snd] in *.
  cbn [map spec_loop fst snd]; rewrite frames_cons; cbn [fst snd]; rewrite read_correlated by done.
  unfold spec_frame; rewrite UnwrapCorrelated_Wrap by auto.
  change (ReqFlagReq =? ReqFlagResp) with false; cbv iota.
  destruct (writeCorrelated_ok tcp w id ReqFlagResp out Hb Hlo) as (w1 & Hw & Hb1 & Hc1).
  assert (Hs : spec_serve handlers peerID (fun w b => writeCorrelated tcp w id ReqFlagResp b) w b = (true, w1))
    by (unfold spec_serve, safeHandle; rewrite Hp; cbv beta iota; rewrite Hh; cbn [mbind option_bind];
          rewrite Hr, Ho, Hw; done).
  rewrite Hs; destruct (IH fuel w1 p) as (w' & -> & Hc); [cbn in Hf; lia|done|done|].
  exists w'; split; [done|]; rewrite Hc, Hc1, frames_cons, <- app_assoc; done.
Qed.

(** Every response reaches the channel of its id. *)
Lemma spec_loop_client (ys : list (Z * list byte)) : forall fuel w p,
  (length ys < fuel)%nat -> NoDup (map fst ys) ->
  Forall (fun y => (0 <= y.1 < 2 ^ 32) /\ len y.2 + 8 <= MaxMessage /\ parsed y.2 = Some y.2
                   /\ p !! y.1 = Some None) ys ->
  exists p', spec_loop tcp handlers peerID fuel (frames ReqFlagResp ys) w p = ([], w, p')
    /\ Forall (fun y => p' !! y.1 = Some (Some y.2)) ys
    /\ forall id, id ∉ map fst ys -> p' !! id = p !! id.
Proof.
  induction ys as [|[id out] ys IH]; intros [|fuel] w p Hf Hnd Hall; try (cbn in Hf; lia).
  { exists p; cbn; done. }
  cbn [map] in Hnd |- *; apply NoDup_cons in Hnd as [Hni Hnd].
  apply Forall_cons_1 in Hall as [(Hid & Hl & Hp & Hpend) Hall]; cbn [fst snd] in *.
  cbn [spec_loop]; rewrite frames_cons; cbn [fst snd]; rewrite read_correlated by done.
  unfold spec_frame; rewrite UnwrapCorrelated_Wrap by auto.
  change (ReqFlagResp =? ReqFlagResp) with true; cbv iota.
  rewrite Hp, Hpend; destruct (IH fuel w (<[id := Some out]> p)) as (p' & -> & Hres & Hoth); [cbn in Hf; lia|done| |].
  { apply Forall_forall; intros y Hy; eapply Forall_forall in Hall as (? & ? & ? & ?); [|exact Hy].
    split; [done|split; [done|split; [done|]]]; rewrite lookup_insert_ne; [done|]; intros ->; apply Hni, list_elem_of_In, in_map, list_elem_of_In; done. }
  exists p'; split; [done|split].
  - constructor; [cbn [fst snd]; rewrite Hoth by done; apply lookup_insert_eq|done].
  - intros x [Hx Hx']%not_elem_of_cons; rewrite Hoth, lookup_insert_ne by done; done.
Qed.
End rpc.

Lemma channel_refs_none (p : Pending) : (forall id ch, p !! id = Some ch -> ch = None) -> channel_refs p = [].
Proof.
  intros Hp; unfold channel_refs; assert (Hl : forall x, x ∈ map_to_list p -> x.2 = None)
    by (intros [id ch] Hx%elem_of_map_to_list; exact (Hp id ch Hx)).
  induction (map_to_list p) as [|x l IH]; [done|]; cbn; rewrite Hl by left; apply IH; intros; apply Hl; right; done.
Qed.

Lemma zip_triples (ids : list Z) (bodies outs : list (list byte)) P Q :
  length ids = length bodies -> Forall P ids -> Forall2 Q bodies outs ->
  let xs := zip (zip ids bodies) outs in
  map fst xs = zip ids bodies /\ map (fun x => (x.1.1, x.2)) xs = zip ids outs
  /\ Forall (fun x => P x.1.1 /\ Q x.1.2 x.2) xs /\ length xs = length ids.
Proof.
  intros Hl HP HQ; revert ids Hl HP; induction HQ as [|b o bodies outs Hb HQ IH]; intros [|id ids] Hl HP; try done.
  apply Forall_cons_1 in HP as [Hid HP]; destruct (IH ids) as (E1 & E2 & E3 & E4); [cbn in Hl; lia|done|].
  cbn; rewrite E1, E2, E4; split_and!; try done; constructor; done.
Qed.

Lemma frames_length flag xs : (length xs <= length (frames flag xs))%nat.
Proof.
  induction xs as [|x xs IH]; [done|]; rewrite frames_cons, length_app; unfold node_frame.
  pose proof (len_le_bytes 4 (len (WrapCorrelated x.1 flag x.2)) ltac:(lia)) as H4.
  unfold len at 1 in H4; rewrite length_app; cbn [length]; lia.
Qed.

(** A server's loop over requests, and a client's over responses. *)
Lemma serve_requests tcp handlers peerID picks h hs xs :
  heap_ok h hs ->
  Forall (fun x => (0 <= x.1.1 < 2 ^ 32) /\ len x.1.2 + 8 <= MaxMessage /\ answers handlers peerID x.1.2 x.2) xs ->
  exists st, dispatchLoop tcp handlers peerID picks
      (mkLoop (frames ReqFlagReq (map fst xs)) (mkWriter [] false) ∅ h) = Ret st
    /\ concat (calls (l_tx st)) = frames ReqFlagResp (map (fun x => (x.1.1, x.2)) xs).
Proof.
  intros Hok Hxs; set (r := frames ReqFlagReq (map fst xs)).
  destruct (dispatch_loop_ok tcp handlers peerID picks (S (length r)) 0 r (mkWriter [] false) ∅ h hs)
    as (r1 & w1 & p1 & h1 & HS & Hspec & _);
    [lia|rewrite channel_refs_none by (intros ? ?; rewrite lookup_empty; done); done|].
  destruct (spec_loop_server tcp handlers peerID xs (S (length r)) (mkWriter [] false) (contents ∅))
    as (w2 & Hspec' & Hresp); [|done|done|].
  { unfold r; pose proof (frames_length ReqFlagReq (map fst xs)) as Hf; rewrite length_map in Hf; lia. }
  fold r in Hspec'; rewrite Hspec in Hspec'; injection Hspec' as -> -> _; eauto.
Qed.

Lemma collect_responses tcp handlers peerID picks w (p : Pending) h hs ys :
  heap_ok h hs -> (forall id ch, p !! id = Some ch -> ch = None) -> NoDup (map fst ys) ->
  Forall (fun y => (0 <= y.1 < 2 ^ 32) /\ len y.2 + 8 <= MaxMessage /\ parsed y.2 = Some y.2
                   /\ p !! y.1 = Some None) ys ->
  exists st, dispatchLoop tcp handlers peerID picks (mkLoop (frames ReqFlagResp ys) w p h) = Ret st
    /\ Forall (fun y => exists m, l_pending st !! y.1 = Some (Some m) /\ data m = y.2) ys.
Proof.
  intros Hok Hnone Hnd Hys; set (r := frames ReqFlagResp ys).
  destruct (dispatch_loop_ok tcp handlers peerID picks (S (length r)) 0 r w p h hs)
    as (r1 & w1 & p1 & h1 & HC & Hspec & _); [lia|rewrite channel_refs_none by done; done|].
  destruct (spec_loop_client tcp handlers peerID ys (S (length r)) w (contents p)) as (p2 & Hspec' & Hgot & _).
  { unfold r; pose proof (frames_length ReqFlagResp ys); lia. }
  { done. }
  { eapply Forall_impl; [exact Hys|]; intros y (? & ? & ? & Hy); unfold contents; rewrite lookup_fmap, Hy; done. }
  fold r in Hspec'; rewrite Hspec in Hspec'; injection Hspec' as _ _ <-.
  eexists; split; [exact HC|]; eapply Forall_impl; [exact Hgot|]; cbn [l_pending]; intros y Hy.
  unfold contents in Hy; rewrite lookup_fmap in Hy; destruct (p1 !! y.1) as [[m|]|]; try done.
  exists m; cbn in Hy; split; congruence.
Qed.

Lemma zip_Forall2 {A B} (R : A -> B -> Prop) l : forall k,
  length l = length k -> Forall (fun y => R y.1 y.2) (zip l k) -> Forall2 R l k.
Proof.
  induction l as [|x l IH]; intros [|y k] Hl Hall; try done.
  apply Forall_cons_1 in Hall as [? ?]; constructor; [done|apply IH; [cbn in Hl; lia|done]].
Qed.

(** C8: calls and responses find each other. Whatever number of calls a client
    has started on a connection, if the server's handlers answer their
    messages, then the server's [dispatchLoop] on the client's bytes and the
    client's on the server's end, and every call finds in its channel the
    answer to its own message, whatever the pools hand out and whichever way
    either side writes. *)
Theorem rpc_roundtrip tcpC tcpS handlersC handlersS peerC peerS picksC picksS c wS hC hS hsC hsS bodies outs :
  sock c = mkWriter [] false -> pending c = ∅ -> wS = mkWriter [] false ->
  Z.of_nat (length bodies) < 2 ^ 32 -> heap_ok hC hsC -> heap_ok hS hsS ->
  Forall2 (fun b out => len b + 8 <= MaxMessage /\ answers handlersS peerC b out /\ parsed out = Some out)
    bodies outs ->
  exists ids c' stS stC, start_all tcpC c bodies = (Ok ids, c')
    /\ dispatchLoop tcpS handlersS peerC picksS (mkLoop (concat (calls (sock c'))) wS ∅ hS) = Ret stS
    /\ dispatchLoop tcpC handlersC peerS picksC
         (mkLoop (concat (calls (l_tx stS))) (sock c') (pending c') hC) = Ret stC
    /\ Forall2 (fun id out => exists m,
         (Call_finish (mkCallConn (reqID c') (l_pending stC) (l_tx stC)) id).1 = Some m /\ data m = out) ids outs.
Proof.
  intros Hsock Hpend -> Hk HokC HokS Hall; pose proof (Forall2_length _ _ _ Hall) as Hlen.
  destruct (start_all_ok tcpC bodies c) as (c' & Hstart & Hcalls & Hnone & Hempty).
  { rewrite Hsock; done. }
  { eapply Forall2_Forall_l; [exact Hall|]; apply Forall_true; intros; tauto. }
  set (ids := call_ids (reqID c) (length bodies)) in *; rewrite Hsock in Hcalls; cbn [calls concat app] in Hcalls.
  assert (Hl : length ids = length bodies) by (unfold ids, call_ids; rewrite length_map, length_seq; done).
  assert (Hrange : Forall (fun id => (0 <= id < 2 ^ 32) /\ id ∈ ids) ids)
    by (apply Forall_forall; intros id Hid; split; [eapply call_ids_range|]; exact Hid).
  destruct (zip_triples ids bodies outs _ _ Hl Hrange Hall) as (E1 & E2 & Hxs & _).
  set (xs := zip (zip ids bodies) outs) in *.
  destruct (serve_requests tcpS handlersS peerC picksS hS hsS xs HokS) as (stS & HS & Hresp).
  { eapply Forall_impl; [exact Hxs|]; intros x ((? & _) & ? & ? & ?); done. }
  destruct (collect_responses tcpC handlersC peerS picksC (sock c') (pending c') hC hsC (zip ids outs))
    as (stC & HC & Hgot); [done| | | |].
  { apply Hempty; intros id ch; rewrite Hpend, lookup_empty; done. }
  { change (map fst (zip ids outs)) with ((zip ids outs).*1); rewrite fst_zip by lia; apply call_ids_NoDup; done. }
  { apply Forall_forall; intros y Hy; rewrite <- E2 in Hy.
    apply list_elem_of_In, in_map_iff in Hy as ([[id b] out] & <- & Hin%list_elem_of_In).
    pose proof (proj1 (Forall_forall _ _) Hxs _ Hin) as ((? & ?) & _ & (? & ? & ? & _ & _ & _ & _ & ?) & ?); cbn in *.
    split; [done|split; [done|split; [done|apply Hnone; auto]]]. }
  exists ids, c', stS, stC; rewrite Hcalls, <- E1, Hresp, E2; split_and!; try done.
  apply zip_Forall2; [lia|]; eapply Forall_impl; [exact Hgot|]; intros y (m & Hm & ?).
  exists m; cbn; rewrite Hm; done.
Qed.

(** A connection opened by [getOrConnect] does not serve calls. Its
    receive loop takes a call request whose id is not the magic number for a
    malformed message: no handler runs, nothing is written, no channel changes,
    and the buffer is given back; so the caller at the other end waits until
    its own context ends. *)
Theorem outbound_receive_ignores_requests handlers peerID ref r w p h hs id body :
  heap_ok h (ref :: hs) -> 0 <= id < 2 ^ 32 -> id <> rd 4 Magic 0 ->
  Bytes h ref = Ret (WrapCorrelated id ReqFlagReq body) ->
  exists h', receive_frame handlers peerID ref (mkLoop r w p h) = Ret (mkLoop r w p h') /\ heap_ok h' hs.
Proof.
  intros Hok Hid Hne Hb; unfold receive_frame; cbn [l_heap l_rx l_tx l_pending]; rewrite Hb; cbn [mbind outcome_bind].
  set (d := WrapCorrelated id ReqFlagReq body); pose proof (len_nonneg body) as Hn.
  assert (H4 : forall v, len (le_bytes 4 v) = 4) by (intros; apply len_le_bytes; lia).
  assert (Hl : 8 <= len d) by (unfold d, WrapCorrelated; rewrite !len_app, !H4; lia).
  assert (E0 : sub d 0 4 = le_bytes 4 id) by (unfold d, WrapCorrelated; apply sub_app_hd, H4).
  assert (E4 : rd 4 d 4 = 1).
  { unfold rd, d, WrapCorrelated; rewrite sub_app_r, H4, Z.sub_diag, sub_app_hd by (rewrite ?H4; done || lia); done. }
  replace (8 <=? len d) with true by lia; rewrite (slice_ok d 4 8) by lia; cbn [mbind outcome_bind].
  rewrite (le_uint_sub d 4) by lia; cbn [mbind outcome_bind]; change (le_combine (sub d 4 4)) with (rd 4 d 4); rewrite E4.
  change (1 =? ReqFlagResp) with false; cbv iota.
  destruct (Parse_cases d) as [(b & _ & Hp)|(e & _ & ->)]; cbn [mbind outcome_bind].
  - exfalso; apply Parse_Ok_inv in Hp as (_ & Hm & _); apply Hne; rewrite E0 in Hm.
    unfold rd; change (sub Magic 0 4) with Magic; rewrite <- Hm, le_combine_le_bytes, Z.mod_small by lia; done.
  - destruct (release_ok h [] ref hs Hok) as (h' & -> & Hok' & _); eauto.
Qed.

(** ** Witnesses *)

(** A message of type 1 and a handler that echoes. *)
Definition ping : list byte := Magic ++ le_bytes 2 2 ++ le_bytes 2 256 ++ le_bytes 4 16 ++ le_bytes 4 16.
Definition echo : gmap Z Handler := {[ 1 := fun _ m => Ret (Ok (Some m)) ]}.

Lemma dispatchLoop_refines_witness :
  exists r' w' p' h',
    dispatchLoop true echo [] (fun _ => (None, None))
      (mkLoop (node_frame (WrapCorrelated 7 ReqFlagReq ping)) (mkWriter [] false) ∅ empty_heap)
    = Ret (mkLoop r' w' p' h') /\ concat (calls w') = node_frame (WrapCorrelated 7 ReqFlagResp ping).
Proof.
  assert (heap_ok empty_heap (channel_refs ∅ ++ [])) as Hok
    by (rewrite channel_refs_none; [exact empty_heap_ok|intros ? ?; rewrite lookup_empty; discriminate]).
  destruct (dispatchLoop_refines true echo [] (fun _ => (None, None))
    (node_frame (WrapCorrelated 7 ReqFlagReq ping)) (mkWriter [] false) ∅ empty_heap [] Hok)
    as (r' & w' & p' & h' & Hd & Hs & _).
  exists r', w', p', h'; split; [exact Hd|]; vm_compute in Hs; injection Hs as _ <- _; vm_compute; reflexivity.
Defined.

Lemma rpc_roundtrip_witness :
  exists ids c' stS stC, start_all true (mkCallConn 0 ∅ (mkWriter [] false)) [ping; ping] = (Ok ids, c')
    /\ dispatchLoop false echo [] (fun _ => (None, None))
         (mkLoop (concat (calls (sock c'))) (mkWriter [] false) ∅ empty_heap) = Ret stS
    /\ dispatchLoop true ∅ [] (fun _ => (None, None))
         (mkLoop (concat (calls (l_tx stS))) (sock c') (pending c') empty_heap) = Ret stC
    /\ Forall2 (fun id out => exists m,
         (Call_finish (mkCallConn (reqID c') (l_pending stC) (l_tx stC)) id).1 = Some m /\ data m = out) ids [ping; ping].
Proof.
  assert (len ping + 8 <= MaxMessage /\ answers echo [] ping ping /\ parsed ping = Some ping) as Ha.
  { split; [vm_compute; congruence|split; [|reflexivity]].
    eexists ping, _, (mkMessage ping None); split_and!; try reflexivity; vm_compute; congruence. }
  apply (rpc_roundtrip true false ∅ echo [] [] (fun _ => (None, None)) (fun _ => (None, None))
    (mkCallConn 0 ∅ (mkWriter [] false)) (mkWriter [] false) empty_heap empty_heap [] [] [ping; ping] [ping; ping]);
    [reflexivity|reflexivity|reflexivity|reflexivity|exact empty_heap_ok|exact empty_heap_ok|].
  repeat constructor; exact Ha || apply Ha.
Defined.

Lemma outbound_receive_ignores_requests_witness :
  exists ref h1 h2 h', getBuf None None 24 empty_heap = (ref, h1)
    /\ fill h1 ref (WrapCorrelated 7 ReqFlagReq ping) = Ret h2
    /\ receive_frame echo [] ref (mkLoop [] (mkWriter [] false) ∅ h2) = Ret (mkLoop [] (mkWriter [] false) ∅ h').
Proof.
  destruct (getBuf_ok None None (WrapCorrelated 7 ReqFlagReq ping) empty_heap [] empty_heap_ok)
    as (ref & h1 & h2 & Hg & Hf & Hok & _ & Hb & _).
  destruct (outbound_receive_ignores_requests echo [] ref [] (mkWriter [] false) ∅ h2 [] 7 ping Hok)
    as (h' & Hr & _); [split; [discriminate|reflexivity]|vm_compute; discriminate|exact Hb|].
  exists ref, h1, h2, h'; split_and!; assumption.
Defined.
