(* ===== verification/NodeNet.v ===== *)
(** * NodeNet: connection tables and nodes that dial each other

    Models [network.go] and the connection half of [node.go]: [Start], [Stop],
    [handleConn], [getOrConnect], [ConnectDirectID], [handlePeerEvent], [Send]
    and [Peers]. A goroutine is a task, cut where it takes or
    releases [connsMu] or touches its socket, so that every interleaving of the
    pieces is a schedule of [step]; what the read loops do with frames is
    [NodeLoop]. A link is a pair of byte streams with an end at each node. *)

From S2P Require Import Prelude Wire Builder BuilderSpec Roundtrip HsLabels HsFrames BufPool NodeWire.
From stdpp Require Import gmap.
From Stdlib Require String.
Import String.StringSyntax.
Local Delimit Scope string_scope with string.
Local Open Scope Z_scope.

(** ** Addresses *)

Definition text (s : String.string) : list byte := String.list_byte_of_string s.

Definition HasPrefix (s p : list byte) : bool := bytes_eqb (take (length p) s) p.

Definition Network (addr : list byte) : list byte :=
  if HasPrefix addr (text "/"%string) || HasPrefix addr (text "./"%string)
     || HasPrefix addr (text "../"%string) || HasPrefix addr (text "@"%string)
  then text "unix"%string else text "tcp"%string.

Definition is_unix (addr : list byte) : bool := bytes_eqb (Network addr) (text "unix"%string).

(** What [os.Stat] finds at a path. *)
Inductive Stat : Type :=
| NotExist
| StatFailed
| File (socket : bool).

Inductive start_error : Type :=
| ErrStat
| ErrNotSocket
| ErrServed
| ErrRemove
| ErrListen.

(** The error, if any, and whether the file was removed; [live] tells whether a
    dial of the path succeeds, [removable] whether [os.Remove] does. *)
Definition removeDeadSocket (stat : Stat) (live removable : bool) (path : list byte)
  : result unit start_error * bool :=
  if HasPrefix path (text "@"%string) then (Ok tt, false) else
  match stat with
  | NotExist => (Ok tt, false)
  | StatFailed => (Err ErrStat, false)
  | File false => (Err ErrNotSocket, false)
  | File true =>
      if live then (Err ErrServed, false)
      else if removable then (Ok tt, true) else (Err ErrRemove, false)
  end.

(** The order of Go's strings. *)
Fixpoint str_lt (a b : list byte) : bool :=
  match a, b with
  | _, [] => false
  | [], _ :: _ => true
  | x :: a, y :: b =>
      (byte.unsigned x <? byte.unsigned y) || ((byte.unsigned x =? byte.unsigned y) && str_lt a b)
  end.

(** [fmt.Sprintf(":%d", port)] *)
Fixpoint digits (fuel : nat) (n : Z) (acc : list byte) : list byte :=
  match fuel with
  | O => acc
  | S fuel =>
      let acc := byte.of_Z (48 + n mod 10) :: acc in
      if n <? 10 then acc else digits fuel (n / 10) acc
  end.

(** ** Nodes *)

(** The end of a link a node holds: the link, and whether this node dialled. *)
Definition End : Type := nat * bool.

#[export] Instance End_eq_dec : EqDecision End.
Proof. unfold End; apply _. Defined.

Record Conn : Type := mkConn { NodeID : list byte; Addr : list byte; conn : End }.
#[export] Instance Conn_eq_dec : EqDecision Conn.
Proof. solve_decision. Defined.

(** A peer mDNS reported. *)
Record Peer : Type := mkPeer { p_NodeID : list byte; p_Address : list byte }.

Record Node : Type := mkNode {
  nodeID : list byte;
  port : Z;
  addr : list byte;
  noDiscovery : bool;
  listener : bool;
  discovery : option (list Peer);
  conns : gmap (list byte) Conn;
  ctx_done : bool
}.

Record NodeConfig : Type := mkNodeConfig {
  cfg_NodeID : list byte; cfg_Port : Z; cfg_Address : list byte; cfg_NoDiscovery : bool
}.

Definition NewNode (cfg : NodeConfig) : Node :=
  mkNode (cfg_NodeID cfg) (cfg_Port cfg) (cfg_Address cfg) (cfg_NoDiscovery cfg) false None ∅ false.

Definition listenAddr (n : Node) : list byte :=
  if len (addr n) =? 0 then text ":"%string ++ digits 20 (port n) [] else addr n.

Definition with_conns (cs : gmap (list byte) Conn) (n : Node) : Node :=
  mkNode (nodeID n) (port n) (addr n) (noDiscovery n) (listener n) (discovery n) cs (ctx_done n).
Definition with_discovery (d : option (list Peer)) (n : Node) : Node :=
  mkNode (nodeID n) (port n) (addr n) (noDiscovery n) (listener n) d (conns n) (ctx_done n).

(** [found] is what mDNS has found once it runs, [None] when it cannot start. *)
Definition startDiscovery (found : option (list Peer)) (n : Node) : Node :=
  if noDiscovery n then n else
  match found with
  | None => n
  | Some _ => with_discovery found n
  end.

(** [Start] on TCP; [listens] tells whether the bind succeeds. *)
Definition Start (stat : Stat) (live removable listens : bool) (found : option (list Peer)) (n : Node)
  : result Node start_error :=
  let a := listenAddr n in
  match if is_unix a then (removeDeadSocket stat live removable a).1 else Ok tt with
  | Err e => Err e
  | Ok _ =>
      if negb listens then Err ErrListen else
      let n := mkNode (nodeID n) (port n) (addr n) (noDiscovery n) true (discovery n) (conns n) (ctx_done n) in
      Ok (if is_unix a then n else startDiscovery found n)
  end.

(** ** Links *)

Record Link : Type := mkLink {
  dialer : nat;
  acceptor : nat;
  up : list byte;
  down : list byte;
  open_dialer : bool;
  open_acceptor : bool;
  cut : bool
}.

Definition holder (l : Link) (side : bool) : nat := if side then dialer l else acceptor l.
Definition outgoing (l : Link) (side : bool) : list byte := if side then up l else down l.
Definition incoming (l : Link) (side : bool) : list byte := outgoing l (negb side).
Definition is_open (l : Link) (side : bool) : bool := if side then open_dialer l else open_acceptor l.

Definition close_side (l : Link) (side : bool) : Link :=
  if side then mkLink (dialer l) (acceptor l) (up l) (down l) false (open_acceptor l) (cut l)
  else mkLink (dialer l) (acceptor l) (up l) (down l) (open_dialer l) false (cut l).
Definition put_bytes (l : Link) (side : bool) (b : list byte) : Link :=
  if side then mkLink (dialer l) (acceptor l) (up l ++ b) (down l) (open_dialer l) (open_acceptor l) (cut l)
  else mkLink (dialer l) (acceptor l) (up l) (down l ++ b) (open_dialer l) (open_acceptor l) (cut l).
Definition cut_link (l : Link) : Link :=
  mkLink (dialer l) (acceptor l) (up l) (down l) (open_dialer l) (open_acceptor l) true.

(** The connection can still be used from this end. *)
Definition usable (l : Link) (side : bool) : bool := is_open l side && negb (cut l).

(** [writeMessage] on an end. *)
Definition write_end (tcp : bool) (l : Link) (side : bool) (d : list byte) : result unit hs_error * Link :=
  let '(r, w) := writeMessage tcp (mkWriter [] (negb (usable l side))) d in
  (r, put_bytes l side (concat (calls w))).

(** Whether a read of one frame waits for bytes that have not arrived. *)
Definition starved (r : list byte) : bool :=
  match ReadFull r 4 with
  | (Err _, _) => true
  | (Ok lenBuf, r) => let n := le_combine lenBuf in (n <=? MaxMessage) && (len r <? n)
  end.

(** [readMessageRaw] of the first frame on an end: [None] while it blocks. *)
Definition read_first (l : Link) (side : bool) : option (outcome (option (list byte))) :=
  if negb (usable l side) then Some (Ret None) else
  if starved (incoming l side) && is_open l (negb side) then None else
  Some (x ← readMessageRaw (incoming l side); Ret x.1).

(** ** Tasks *)

Inductive net_error : Type :=
| EUnavailable
| ENotFound
| EDial
| EWrite
| ERead
| EMismatch (got : list byte)
| EHandshake.

(** What is left of a goroutine. [want] is the peer [getOrConnect] asks for,
    [None] in [ConnectDirectID]. *)
Inductive task : Type :=
| THello (e : End)
| TReply (e : End) (peerID : list byte)
| TRegister (e : End) (peerID : list byte)
| TLookup (peerID : list byte)
| TDial (want : option (list byte)) (a : list byte)
| TGreet (want : option (list byte)) (a : list byte) (e : End)
| TAwait (want : option (list byte)) (a : list byte) (e : End)
| TAdd (want : option (list byte)) (a : list byte) (e : End) (peerID : list byte)
| TLoop (c : Conn)
| TLeave (c : Conn)
| TClose (e : End)
| TReturn (r : result (list byte * option Conn) net_error)
| TDone
| TPanicked.

#[export] Instance net_error_eq_dec : EqDecision net_error.
Proof. solve_decision. Defined.
#[export] Instance result_eq_dec {A E} `{EqDecision A, EqDecision E} : EqDecision (result A E).
Proof. solve_decision. Defined.
#[export] Instance task_eq_dec : EqDecision task.
Proof. solve_decision. Defined.

Record World : Type := mkWorld {
  nodes : gmap nat Node;
  links : list Link;
  tasks : list (nat * task)
}.

Definition set_node (n : nat) (nd : Node) (w : World) : World :=
  mkWorld (<[n := nd]> (nodes w)) (links w) (tasks w).
Definition set_link (k : nat) (l : Link) (w : World) : World :=
  mkWorld (nodes w) (<[k := l]> (links w)) (tasks w).
Definition spawn (n : nat) (t : task) (w : World) : World :=
  mkWorld (nodes w) (links w) (tasks w ++ [(n, t)]).
Definition set_task (i n : nat) (t : task) (w : World) : World :=
  mkWorld (nodes w) (links w) (<[i := (n, t)]> (tasks w)).

(** [netConn.Close()] *)
Definition close_end (e : End) (w : World) : World :=
  match links w !! e.1 with
  | Some l => set_link e.1 (close_side l e.2) w
  | None => w
  end.

(** [tcp] selects the writes of [writeMessage], [remoteAddr] is the address an
    accepted connection reports. *)
Section tasks.
Context (tcp : bool) (remoteAddr : nat -> list byte) (resolve : list byte -> option nat).

(** [handleConn] up to the first look at the table. *)
Definition handleConn_hello (nd : Node) (e : End) (w : World) : option (task * World) :=
  l ← links w !! e.1;
  r ← read_first l e.2;
  match r with
  | Panic => Some (TPanicked, w)
  | Ret None => Some (TClose e, w)
  | Ret (Some d) =>
      match DecodeNodeIDHandshake d with
      | Panic => Some (TPanicked, w)
      | Ret (peerID, _) =>
          match conns nd !! peerID with
          | Some _ => Some (TClose e, w)
          | None => Some (TReply e peerID, w)
          end
      end
  end.

(** Sending our id, on either side; [failed] is how the caller gives up. *)
Definition send_hello (nd : Node) (e : End) (sent : task) (failed : World -> task * World) (w : World)
  : option (task * World) :=
  l ← links w !! e.1;
  match EncodeNodeIDHandshake (nodeID nd) with
  | Panic => Some (TPanicked, w)
  | Ret d =>
      match write_end tcp l e.2 d with
      | (Ok _, l) => Some (sent, set_link e.1 l w)
      | (Err _, l) => Some (failed (set_link e.1 l w))
      end
  end.

(** [handleConn] from the second look at the table on. *)
Definition handleConn_register (n : nat) (nd : Node) (e : End) (peerID : list byte) (w : World)
  : option (task * World) :=
  match conns nd !! peerID with
  | Some _ => Some (TClose e, w)
  | None =>
      let c := mkConn peerID (remoteAddr e.1) e in
      Some (TLoop c, set_node n (with_conns (<[peerID := c]> (conns nd)) nd) w)
  end.

(** [getOrConnect] before it dials. *)
Definition getOrConnect_lookup (nd : Node) (peerID : list byte) (w : World) : option (task * World) :=
  match conns nd !! peerID with
  | Some c => Some (TReturn (Ok (peerID, Some c)), w)
  | None =>
      match discovery nd with
      | None => Some (TReturn (Err EUnavailable), w)
      | Some peers =>
          match List.find (fun p => bytes_eqb (p_NodeID p) peerID) peers with
          | None => Some (TReturn (Err ENotFound), w)
          | Some p => Some (TDial (Some peerID) (p_Address p), w)
          end
      end
  end.

(** [net.DialTimeout]: [resolve] is the node the network reaches at an address.
    If it listens it accepts, and its [acceptLoop] starts a [handleConn]. *)
Definition dial (n : nat) (want : option (list byte)) (a : list byte) (w : World) : option (task * World) :=
  match m ← resolve a; nd ← nodes w !! m; if listener nd then Some m else None with
  | None => Some (TReturn (Err EDial), w)
  | Some m =>
      let k := length (links w) in
      Some (TGreet want a (k, true),
            mkWorld (nodes w) (links w ++ [mkLink n m [] [] true true false])
              (tasks w ++ [(m, THello (k, false))]))
  end.

(** Reading the other side's id, in [getOrConnect] and [ConnectDirectID]. *)
Definition await_hello (want : option (list byte)) (a : list byte) (e : End) (w : World)
  : option (task * World) :=
  l ← links w !! e.1;
  r ← read_first l e.2;
  match r with
  | Panic => Some (TPanicked, w)
  | Ret None => Some (TReturn (Err ERead), close_end e w)
  | Ret (Some d) =>
      match DecodeNodeIDHandshake d with
      | Panic => Some (TPanicked, w)
      | Ret (remote, ok) =>
          match want with
          | Some peerID =>
              if negb (bytes_eqb remote peerID)
              then Some (TReturn (Err (EMismatch remote)), close_end e w)
              else Some (TAdd want a e peerID, w)
          | None =>
              if negb ok then Some (TReturn (Err EHandshake), close_end e w)
              else Some (TAdd want a e remote, w)
          end
      end
  end.

(** Only [getOrConnect] hands the connection out. *)
Definition handed (want : option (list byte)) (c : Conn) : option Conn :=
  match want with Some _ => Some c | None => None end.

(** The table, in [getOrConnect] and [ConnectDirectID]; the read loop runs in
    a goroutine of its own. *)
Definition add_conn (n : nat) (nd : Node) (want : option (list byte)) (a : list byte) (e : End)
  (peerID : list byte) (w : World) : option (task * World) :=
  match conns nd !! peerID with
  | Some existing =>
      Some (TReturn (Ok (peerID, handed want existing)), close_end e w)
  | None =>
      let c := mkConn peerID a e in
      Some (TReturn (Ok (peerID, handed want c)),
            spawn n (TLoop c) (set_node n (with_conns (<[peerID := c]> (conns nd)) nd) w))
  end.

(** The read loops wait until the context is cancelled or the read fails. *)
Definition loop_check (nd : Node) (c : Conn) (w : World) : option (task * World) :=
  l ← links w !! (conn c).1;
  if ctx_done nd || negb (usable l (conn c).2) || negb (is_open l (negb (conn c).2))
  then Some (TLeave c, w) else None.

(** The deferred removal: only if the table still has this connection. *)
Definition leave (n : nat) (nd : Node) (c : Conn) (w : World) : option (task * World) :=
  Some (TClose (conn c),
    match conns nd !! NodeID c with
    | Some cur =>
        if bool_decide (conn cur = conn c)
        then set_node n (with_conns (delete (NodeID c) (conns nd)) nd) w else w
    | None => w
    end).

Definition advance (n : nat) (nd : Node) (t : task) (w : World) : option (task * World) :=
  match t with
  | THello e => handleConn_hello nd e w
  | TReply e peerID => send_hello nd e (TRegister e peerID) (fun w => (TClose e, w)) w
  | TRegister e peerID => handleConn_register n nd e peerID w
  | TLookup peerID => getOrConnect_lookup nd peerID w
  | TDial want a => dial n want a w
  | TGreet want a e =>
      send_hello nd e (TAwait want a e) (fun w => (TReturn (Err EWrite), close_end e w)) w
  | TAwait want a e => await_hello want a e w
  | TAdd want a e peerID => add_conn n nd want a e peerID w
  | TLoop c => loop_check nd c w
  | TLeave c => leave n nd c w
  | TClose e => Some (TDone, close_end e w)
  | TReturn _ | TDone | TPanicked => None
  end.

(** ** Events *)

(** [Run i] lets task [i] go on; [Expire i] is the handshake's read deadline,
    [Fail i] a read or write error in a read loop; [Cut k] breaks a link. *)
Inductive event : Type :=
| Run (i : nat)
| Expire (i : nat)
| Fail (i : nat)
| Cut (k : nat)
| ConnectDirect (n : nat) (a : list byte)
| GetOrConnect (n : nat) (peerID : list byte)
| Discovered (n : nat) (p : Peer)
| Lost (n : nat) (p : Peer)
| SendTo (n : nat) (peerID : list byte) (m : list byte)
| Stop (n : nat).

Definition on_task (i : nat) (f : nat -> Node -> task -> option (task * World)) (w : World) : option World :=
  x ← tasks w !! i;
  nd ← nodes w !! x.1;
  y ← f x.1 nd x.2;
  Some (set_task i x.1 y.1 y.2).

(** [handlePeerEvent]. *)
Definition handlePeerEvent (n : nat) (nd : Node) (p : Peer) (joined : bool) (w : World) : World :=
  if joined then
    if str_lt (nodeID nd) (p_NodeID p) then spawn n (TDial None (p_Address p)) w else w
  else
    match conns nd !! p_NodeID p with
    | Some c => set_node n (with_conns (delete (p_NodeID p) (conns nd)) nd) (close_end (conn c) w)
    | None => w
    end.

(** [Conn.Send] on a connection of the table. *)
Definition Conn_send (c : Conn) (m : list byte) (w : World) : result unit net_error * World :=
  match links w !! (conn c).1 with
  | None => (Err EWrite, w)
  | Some l =>
      match write_end tcp l (conn c).2 m with
      | (Ok _, l) => (Ok tt, set_link (conn c).1 l w)
      | (Err _, l) => (Err EWrite, set_link (conn c).1 l w)
      end
  end.

(** [Stop] up to the wait: the context, the listener, every connection and the
    table. *)
Definition stop (n : nat) (nd : Node) (w : World) : World :=
  set_node n (mkNode (nodeID nd) (port nd) (addr nd) (noDiscovery nd) false (discovery nd) ∅ true)
    (foldr (fun x w => close_end (conn x.2) w) w (map_to_list (conns nd))).

Definition step (ev : event) (w : World) : option World :=
  match ev with
  | Run i => on_task i (fun n nd t => advance n nd t w) w
  | Expire i => on_task i (fun _ _ t => match t with THello e => Some (TClose e, w) | _ => None end) w
  | Fail i => on_task i (fun _ _ t => match t with TLoop c => Some (TLeave c, w) | _ => None end) w
  | Cut k => l ← links w !! k; Some (set_link k (cut_link l) w)
  | ConnectDirect n a => _ ← nodes w !! n; Some (spawn n (TDial None a) w)
  | GetOrConnect n peerID => _ ← nodes w !! n; Some (spawn n (TLookup peerID) w)
  | Discovered n p => nd ← nodes w !! n; Some (handlePeerEvent n nd p true w)
  | Lost n p => nd ← nodes w !! n; Some (handlePeerEvent n nd p false w)
  | SendTo n peerID m =>
      nd ← nodes w !! n; c ← conns nd !! peerID; Some (Conn_send c m w).2
  | Stop n => nd ← nodes w !! n; Some (stop n nd w)
  end.

Fixpoint run (evs : list event) (w : World) : option World :=
  match evs with
  | [] => Some w
  | ev :: evs => w' ← step ev w; run evs w'
  end.
End tasks.

(** [Peers], in the order Go's map iteration happens to take. *)
Definition Peers (nd : Node) : list (list byte) := (map_to_list (conns nd)).*1.

(** ** Invariant *)

(** The end a task has to close. *)
Definition task_end (t : task) : option End :=
  match t with
  | THello e | TReply e _ | TRegister e _ | TGreet _ _ e | TAwait _ _ e | TAdd _ _ e _ | TClose e => Some e
  | TLoop c | TLeave c => Some (conn c)
  | _ => None
  end.

(** A task past sending its node's id. *)
Definition greeted (t : task) : bool :=
  match t with TRegister _ _ | TAwait _ _ _ | TAdd _ _ _ _ | TLoop _ | TLeave _ => true | _ => false end.

(** The id a task has learned of the other side. *)
Definition learned (t : task) : option (list byte) :=
  match t with
  | TReply _ p | TRegister _ p | TAdd _ _ _ p => Some p
  | TLoop c | TLeave c => Some (NodeID c)
  | _ => None
  end.

(** A node's id as its handshake shows it. *)
Definition shown (id : list byte) : list byte := if len id =? 0 then [] else sub id 0 maxNodeIDLen.

Definition hello (id : list byte) (d : list byte) : Prop :=
  EncodeNodeIDHandshake id = Ret d /\ len d <= MaxMessage
  /\ exists ok, DecodeNodeIDHandshake d = Ret (shown id, ok).

(** What has been written to an end is nothing, or begins with the node's id. *)
Definition stream_ok (w : World) (l : Link) (side : bool) : Prop :=
  exists nd, nodes w !! holder l side = Some nd
    /\ (outgoing l side = [] \/ exists d rest, hello (nodeID nd) d /\ outgoing l side = node_frame d ++ rest).

Definition task_ok (w : World) (n : nat) (t : task) : Prop :=
  is_Some (nodes w !! n) /\ t <> TPanicked
  /\ forall e, task_end t = Some e ->
       exists l nd, links w !! e.1 = Some l /\ holder l e.2 = n /\ nodes w !! holder l (negb e.2) = Some nd
         /\ (greeted t = true -> outgoing l e.2 <> [])
         /\ (forall p, learned t = Some p -> p = shown (nodeID nd)).

Definition ends (ts : list (nat * task)) : list End := omap (fun x => task_end x.2) ts.

(** The task that will take a connection out of the table. *)
Definition keeps_conn (w : World) (n : nat) (c : Conn) : Prop :=
  (n, TLoop c) ∈ tasks w \/ (n, TLeave c) ∈ tasks w.

(** A read loop whose connection is not in the table is about to end. *)
Definition loop_ok (w : World) (n : nat) (c : Conn) : Prop :=
  forall nd, nodes w !! n = Some nd ->
    conns nd !! NodeID c = Some c \/ ctx_done nd = true
    \/ exists l, links w !! (conn c).1 = Some l /\ is_open l (conn c).2 = false.

Record net_inv (w : World) : Prop := mkInv {
  inv_tasks : forall n t, (n, t) ∈ tasks w -> task_ok w n t;
  inv_streams : forall k l side, links w !! k = Some l -> stream_ok w l side;
  inv_unique : NoDup (ends (tasks w));
  inv_open : forall k l side, links w !! k = Some l -> is_open l side = true -> (k, side) ∈ ends (tasks w);
  inv_conns : forall n nd id c, nodes w !! n = Some nd -> conns nd !! id = Some c ->
    NodeID c = id /\ keeps_conn w n c;
  inv_loops : forall n c, (n, TLoop c) ∈ tasks w -> loop_ok w n c
}.

(** ** Handshake messages *)

Lemma hello_of id : exists d, hello id d.
Proof.
  destruct (nodeid_roundtrip id) as (d & He & Hl & Hd); exists d; split; [exact He|].
  split; [rewrite Hl; unfold nodeIDHandshakeSize, HeaderSize, MaxMessage; lia|].
  unfold shown; rewrite Hd; case_if; eauto.
Qed.

Lemma hello_inj id d d' : hello id d -> EncodeNodeIDHandshake id = Ret d' -> d' = d.
Proof. intros (He & _) He'; rewrite He in He'; by injection He'. Qed.

(** The first frame of a stream that begins with a node's id is that id. *)
Lemma read_first_hello w l side r nd :
  stream_ok w l (negb side) -> nodes w !! holder l (negb side) = Some nd ->
  read_first l side = Some r ->
  r = Ret None \/ exists d ok, r = Ret (Some d) /\ DecodeNodeIDHandshake d = Ret (shown (nodeID nd), ok).
Proof.
  intros (nd' & Hn & Hs) Hnd Hr; rewrite Hn in Hnd; injection Hnd as ->; unfold read_first in Hr.
  destruct (negb (usable l side)); [injection Hr as <-; auto|]; unfold incoming in Hr.
  destruct (_ && _); [done|]; injection Hr as <-; destruct Hs as [->|(d & rest & (He & Hl & ok & Hd) & ->)].
  - left; done.
  - right; exists d, ok; rewrite readMessageRaw_frame by exact Hl; split; [reflexivity|exact Hd].
Qed.

(** ** Worlds that grow *)

(** Streams only grow, ends only close, and nodes keep their ids. *)
Definition link_le (l l' : Link) : Prop :=
  forall side, holder l' side = holder l side
    /\ (exists b, outgoing l' side = outgoing l side ++ b)
    /\ (is_open l' side = true -> is_open l side = true).

Definition world_le (w w' : World) : Prop :=
  (forall k l, links w !! k = Some l -> exists l', links w' !! k = Some l' /\ link_le l l')
  /\ (forall n nd, nodes w !! n = Some nd -> exists nd', nodes w' !! n = Some nd' /\ nodeID nd' = nodeID nd).

Lemma link_le_refl l : link_le l l.
Proof. intros side; split; [done|split; [exists []; by rewrite app_nil_r|done]]. Qed.

Lemma link_le_close l side : link_le l (close_side l side).
Proof.
  intros side'; destruct l, side, side'; cbn; (split; [done|split; [exists []; by rewrite app_nil_r|done]]).
Qed.

Lemma link_le_put l side b : link_le l (put_bytes l side b).
Proof.
  intros side'; destruct l, side, side'; cbn;
    (split; [done|split; [first [by exists b|exists []; by rewrite app_nil_r]|done]]).
Qed.

Lemma link_le_cut l : link_le l (cut_link l).
Proof. intros side; destruct l, side; cbn; (split; [done|split; [exists []; by rewrite app_nil_r|done]]). Qed.

Lemma task_ok_mono w w' n t : world_le w w' -> task_ok w n t -> task_ok w' n t.
Proof.
  intros [Hl Hn] ([nd0 Hnd0] & Hp & H); destruct (Hn _ _ Hnd0) as (nd0' & Hnd0' & _).
  split; [eauto|split; [done|]]; intros e He; destruct (H e He) as (l & nd & Hk & Hh & Hnd & Hg & Hm).
  destruct (Hl _ _ Hk) as (l' & Hk' & Hle); destruct (Hn _ _ Hnd) as (nd' & Hnd' & Hid).
  destruct (Hle e.2) as (Hh' & (b & Hb) & _); destruct (Hle (negb e.2)) as (Hh2 & _).
  exists l', nd'; rewrite Hh', Hh2, Hb, Hid; split; [done|split; [done|split; [done|split; [|done]]]].
  intros Hgt; specialize (Hg Hgt); by destruct (outgoing l e.2).
Qed.

(** Same streams, and nodes that keep their ids. *)
Lemma stream_ok_mono w w' l l' side :
  (forall n nd, nodes w !! n = Some nd -> exists nd', nodes w' !! n = Some nd' /\ nodeID nd' = nodeID nd) ->
  holder l' side = holder l side ->
  (outgoing l' side = outgoing l side \/ outgoing l side <> [] /\ exists b, outgoing l' side = outgoing l side ++ b) ->
  stream_ok w l side -> stream_ok w' l' side.
Proof.
  intros Hn Hh Hb (nd & Hnd & Hs); destruct (Hn _ _ Hnd) as (nd' & Hnd' & Hid).
  exists nd'; rewrite Hh, Hid; split; [done|]; destruct Hb as [->|[Hne (b & ->)]]; [done|].
  destruct Hs as [?|(d & rest & Hd & ->)]; [done|]; right; exists d, (rest ++ b); by rewrite <- app_assoc.
Qed.

(** ** Preservation *)

Lemma elem_of_insert (ts : list (nat * task)) i n t t' m u :
  ts !! i = Some (n, t) -> (m, u) ∈ <[i := (n, t')]> ts -> (m, u) = (n, t') \/ (m, u) ∈ ts.
Proof.
  intros Hi Hu; apply list_elem_of_lookup in Hu as [j Hj]; apply list_lookup_insert_Some in Hj.
  destruct Hj as [(-> & Heq & _)|(_ & Hj)]; [auto|right; apply list_elem_of_lookup; eauto].
Qed.

(** Tasks other than the one that moved are still there. *)
Lemma elem_of_insert_other (ts : list (nat * task)) i n t t' x :
  ts !! i = Some (n, t) -> x ∈ ts -> x <> (n, t) -> x ∈ <[i := (n, t')]> ts.
Proof.
  intros Hi Hx Hne; apply list_elem_of_lookup in Hx as [j Hj]; apply list_elem_of_lookup; exists j.
  rewrite list_lookup_insert_ne; [done|]; intros ->; rewrite Hi in Hj; injection Hj as <-; by apply Hne.
Qed.

Lemma elem_of_insert_new (ts : list (nat * task)) i n t t' :
  ts !! i = Some (n, t) -> (n, t') ∈ <[i := (n, t')]> ts.
Proof.
  intros Hi; apply list_elem_of_lookup; exists i; apply list_lookup_insert_eq; by eapply lookup_lt_Some.
Qed.

(** The ends a list of tasks holds, with one task taken out. *)
Lemma ends_split ts i n t :
  ts !! i = Some (n, t) ->
  exists rest, ends ts ≡ₚ option_list (task_end t) ++ rest
    /\ forall t', ends (<[i := (n, t')]> ts) ≡ₚ option_list (task_end t') ++ rest.
Proof.
  intros Hi; exists (ends (take i ts) ++ ends (drop (S i) ts)).
  assert (Hsplit : forall l1 x l2, ends (l1 ++ x :: l2) ≡ₚ option_list (task_end x.2) ++ ends l1 ++ ends l2).
  { intros l1 x l2; unfold ends; rewrite omap_app; simpl; destruct (task_end x.2); simpl; [|done].
    symmetry; apply Permutation_middle. }
  split.
  - rewrite <- (take_drop_middle ts i (n, t) Hi) at 1; apply Hsplit.
  - intros t'; rewrite insert_take_drop by (by eapply lookup_lt_Some); apply Hsplit.
Qed.

Lemma ends_snoc ts n t : ends (ts ++ [(n, t)]) = ends ts ++ option_list (task_end t).
Proof. unfold ends; rewrite omap_app; simpl; by destruct (task_end t). Qed.

Lemma task_in_ends ts n t e : (n, t) ∈ ts -> task_end t = Some e -> e ∈ ends ts.
Proof. intros Hin He; apply list_elem_of_omap; exists (n, t); done. Qed.

(** Two tasks never hold the same end. *)
Lemma same_end ts n t m u e :
  NoDup (ends ts) -> (n, t) ∈ ts -> (m, u) ∈ ts -> task_end t = Some e -> task_end u = Some e -> t = u.
Proof.
  intros Hnd Ht Hu Het Heu; apply list_elem_of_lookup in Ht as [i Hi].
  destruct (ends_split _ _ _ _ Hi) as (rest & Hp & Hr); rewrite Het in Hp; cbn [option_list app] in Hp.
  destruct (decide ((m, u) = (n, t))) as [Heq|Hne]; [by injection Heq|].
  pose proof (elem_of_insert_other _ i n t TDone _ Hi Hu Hne) as Hu'.
  apply (task_in_ends _ _ _ e) in Hu'; [|done]; rewrite (Hr TDone) in Hu'; cbn in Hu'.
  rewrite Hp in Hnd; apply NoDup_cons in Hnd as [Hno _]; done.
Qed.

Lemma world_le_refl w : world_le w w.
Proof. split; [intros k l Hk; exists l; split; [done|apply link_le_refl]|eauto]. Qed.

(** A node whose table or flags change keeps its id. *)
Lemma set_node_ids w n nd nd' :
  nodes w !! n = Some nd -> nodeID nd' = nodeID nd ->
  forall m x, nodes w !! m = Some x -> exists x', nodes (set_node n nd' w) !! m = Some x' /\ nodeID x' = nodeID x.
Proof.
  intros Hn Hid m x Hm; cbn [nodes set_node]; destruct (decide (m = n)) as [->|Hne].
  - exists nd'; rewrite lookup_insert_eq; split; [done|]; rewrite Hn in Hm; by injection Hm as <-.
  - exists x; rewrite lookup_insert_ne by done; done.
Qed.

(** A link that changes as links do, everything else unchanged. *)
Lemma set_link_inv w k l l' :
  net_inv w -> links w !! k = Some l -> link_le l l' ->
  (forall side, stream_ok w l' side) -> net_inv (set_link k l' w).
Proof.
  intros [Ht Hs Hu Ho Hc Hl] Hk Hle Hok.
  assert (Hw : world_le w (set_link k l' w)).
  { split; [|eauto]; intros j lj Hj; cbn [links set_link]; destruct (decide (j = k)) as [->|Hne].
    - exists l'; rewrite list_lookup_insert_eq by (by eapply lookup_lt_Some); rewrite Hk in Hj; by injection Hj as <-.
    - exists lj; rewrite list_lookup_insert_ne by done; split; [done|apply link_le_refl]. }
  assert (Hcase : forall j lj, links (set_link k l' w) !! j = Some lj -> j = k /\ lj = l' \/ links w !! j = Some lj).
  { intros j lj Hj; cbn [links set_link] in Hj; apply list_lookup_insert_Some in Hj as [(-> & -> & _)|[_ ?]]; auto. }
  split; try done.
  - intros n t Hin; eapply task_ok_mono; [exact Hw|by apply Ht].
  - intros j lj side Hj; destruct (Hcase _ _ Hj) as [[-> ->]|Hj']; [apply Hok|by apply (Hs j)].
  - intros j lj side Hj Hopen; destruct (Hcase _ _ Hj) as [[-> ->]|Hj'].
    + apply (Ho k l side Hk); by apply Hle.
    + by apply (Ho j lj).
  - intros n c Hin nd Hnd; destruct (Hl n c Hin nd Hnd) as [?|[?|(x & Hx & Hclosed)]]; [auto..|].
    right; right; destruct (proj1 Hw _ _ Hx) as (x' & Hx' & Hle'); exists x'; split; [done|].
    destruct (is_open x' (conn c).2) eqn:E; [|done]; apply Hle' in E; congruence.
Qed.

(** A task moves on, holding the same end. *)
Lemma retask_inv w i n t t' :
  net_inv w -> tasks w !! i = Some (n, t) -> task_end t' = task_end t -> task_ok w n t' ->
  (forall c, t = TLoop c -> t' = TLeave c) -> (forall c, t' <> TLoop c) ->
  (forall c nd, t = TLeave c -> nodes w !! n = Some nd -> conns nd !! NodeID c <> Some c) ->
  net_inv (set_task i n t' w).
Proof.
  intros [Ht Hs Hu Ho Hc Hl] Hi He Hok Hloop Hno Hleave.
  destruct (ends_split _ _ _ _ Hi) as (rest & Hp & Hr); specialize (Hr t'); rewrite He, <- Hp in Hr.
  split; cbn [tasks set_task links nodes].
  - intros m u Hin; destruct (elem_of_insert _ _ _ _ _ _ _ Hi Hin) as [[= -> ->]|?]; [exact Hok|by apply Ht].
  - exact Hs.
  - by rewrite Hr.
  - intros k l side Hk Hop; rewrite Hr; by apply (Ho k l).
  - intros m nd id c Hm Hid; destruct (Hc m nd id c Hm Hid) as [Hn Hkeep]; split; [done|].
    unfold keeps_conn; cbn [tasks set_task].
    destruct (decide ((m, TLoop c) = (n, t))) as [[= -> <-]|Hne1].
    { right; rewrite <- (Hloop c eq_refl); eapply elem_of_insert_new; exact Hi. }
    destruct Hkeep as [Hk|Hk]; [left|right]; (eapply elem_of_insert_other; [exact Hi|exact Hk|]); [done|].
    intros [= -> <-]; apply (Hleave c nd eq_refl Hm); by rewrite Hn.
  - intros m c Hin; destruct (elem_of_insert _ _ _ _ _ _ _ Hi Hin) as [[= -> Heq]|?].
    + symmetry in Heq; by apply Hno in Heq.
    + by apply Hl.
Qed.

Lemma stream_ok_same w l l' side :
  holder l' side = holder l side -> outgoing l' side = outgoing l side -> stream_ok w l side -> stream_ok w l' side.
Proof. intros Hh Hb; apply stream_ok_mono; eauto. Qed.

Lemma close_end_inv e w : net_inv w -> net_inv (close_end e w).
Proof.
  intros Hinv; unfold close_end; destruct (links w !! e.1) as [l|] eqn:E; [|done].
  eapply set_link_inv; [done|done|apply link_le_close|].
  intros side; eapply stream_ok_same; [..|by apply (inv_streams w Hinv e.1)]; destruct l, e as [k []], side; done.
Qed.

Lemma cut_inv k l w : net_inv w -> links w !! k = Some l -> net_inv (set_link k (cut_link l) w).
Proof.
  intros Hinv E; eapply set_link_inv; [done|done|apply link_le_cut|].
  intros side; eapply stream_ok_same; [..|by apply (inv_streams w Hinv k)]; destruct l, side; done.
Qed.

Lemma tasks_close_end e w : tasks (close_end e w) = tasks w.
Proof. unfold close_end; by destruct (links w !! e.1). Qed.
Lemma nodes_close_end e w : nodes (close_end e w) = nodes w.
Proof. unfold close_end; by destruct (links w !! e.1). Qed.

(** After [Close] the end is closed, and closed ends stay closed. *)
Lemma closed_close_end e w l : links (close_end e w) !! e.1 = Some l -> is_open l e.2 = false.
Proof.
  unfold close_end; destruct (links w !! e.1) as [l0|] eqn:E; [|congruence].
  cbn [links set_link]; rewrite list_lookup_insert_eq by (by eapply lookup_lt_Some); intros [= <-].
  by destruct l0, e as [k []].
Qed.

Lemma stays_closed e w k l side :
  links w !! k = Some l -> is_open l side = false ->
  exists l', links (close_end e w) !! k = Some l' /\ is_open l' side = false.
Proof.
  intros Hk Hc; unfold close_end; destruct (links w !! e.1) as [l0|] eqn:E; [|eauto].
  cbn [links set_link]; destruct (decide (k = e.1)) as [->|Hne].
  - rewrite list_lookup_insert_eq by (by eapply lookup_lt_Some); eexists; split; [done|].
    rewrite Hk in E; injection E as <-; destruct l, e as [? []], side; done.
  - rewrite list_lookup_insert_ne by done; eauto.
Qed.

(** A task gives up its end, which is closed. *)
Lemma release_inv w i n t t' :
  net_inv w -> tasks w !! i = Some (n, t) -> task_end t' = None -> t' <> TPanicked ->
  (forall e l, task_end t = Some e -> links w !! e.1 = Some l -> is_open l e.2 = false) ->
  (forall c, t <> TLoop c) -> (forall c, t <> TLeave c) ->
  net_inv (set_task i n t' w).
Proof.
  intros [Ht Hs Hu Ho Hc Hl] Hi He Hp Hclosed Hloop Hleave.
  destruct (ends_split _ _ _ _ Hi) as (rest & Hpm & Hr); specialize (Hr t'); rewrite He in Hr; cbn in Hr.
  assert (Hin : (n, t) ∈ tasks w) by (apply list_elem_of_lookup; eauto).
  split; cbn [tasks set_task links nodes].
  - intros m u Hm; destruct (elem_of_insert _ _ _ _ _ _ _ Hi Hm) as [[= -> ->]|?]; [|by apply Ht].
    split; [apply (Ht n t Hin)|split; [done|intros e; by rewrite He]].
  - exact Hs.
  - rewrite Hr; rewrite Hpm in Hu; apply NoDup_app in Hu as (_ & _ & Hu); exact Hu.
  - intros k l side Hk Hop; rewrite Hr; pose proof (Ho k l side Hk Hop) as Hx; rewrite Hpm in Hx.
    apply elem_of_app in Hx as [Hx|?]; [|done]; destruct (task_end t) as [e|]; cbn in Hx; [|by apply not_elem_of_nil in Hx].
    apply list_elem_of_singleton in Hx; subst e; pose proof (Hclosed (k, side) l eq_refl Hk) as Hcl; cbn in Hcl; congruence.
  - intros m nd id c Hm Hid; destruct (Hc m nd id c Hm Hid) as [Hn Hkeep]; split; [done|].
    unfold keeps_conn; cbn [tasks set_task].
    destruct Hkeep as [Hk|Hk]; [left|right]; (eapply elem_of_insert_other; [exact Hi|exact Hk|]).
    + intros [= -> <-]; by apply (Hloop c).
    + intros [= -> <-]; by apply (Hleave c).
  - intros m c Hm; destruct (elem_of_insert _ _ _ _ _ _ _ Hi Hm) as [[= -> Heq]|?]; [|by apply Hl].
    subst t'; done.
Qed.

(** A new goroutine that holds no end yet. *)
Lemma spawn_inv w n t :
  net_inv w -> is_Some (nodes w !! n) -> task_end t = None -> t <> TPanicked -> net_inv (spawn n t w).
Proof.
  intros [Ht Hs Hu Ho Hc Hl] Hn He Hp.
  assert (Hends : ends (tasks (spawn n t w)) = ends (tasks w)).
  { cbn [tasks spawn]; rewrite ends_snoc, He; cbn; by rewrite app_nil_r. }
  split; try rewrite Hends; try done.
  - intros m u Hin; cbn [tasks spawn] in Hin; apply elem_of_app in Hin as [Hin|Hin]; [by apply Ht|].
    apply list_elem_of_singleton in Hin; injection Hin as -> ->; split; [done|split; [done|intros e; by rewrite He]].
  - intros m nd id c Hm Hid; destruct (Hc m nd id c Hm Hid) as [? Hk]; split; [done|].
    destruct Hk as [Hk|Hk]; [left|right]; cbn [tasks spawn]; apply elem_of_app; auto.
  - intros m c Hin; cbn [tasks spawn] in Hin; apply elem_of_app in Hin as [Hin|Hin]; [by apply Hl|].
    apply list_elem_of_singleton in Hin; injection Hin as _ <-; done.
Qed.

(** Writing on an end that has sent its node's id, or sending it. *)
Lemma write_end_cases tcp l side d :
  len d <= MaxMessage ->
  write_end tcp l side d = (Ok tt, put_bytes l side (node_frame d))
  \/ exists e, write_end tcp l side d = (Err e, put_bytes l side []).
Proof.
  intros Hd; unfold write_end; destruct (usable l side); cbn [negb].
  - left; destruct (writeMessage_ok tcp (mkWriter [] false) d eq_refl Hd) as (w' & -> & _ & ->); done.
  - right; unfold writeMessage, Write; cbn [broken]; destruct tcp; cbn; eauto.
Qed.

Lemma outgoing_put l side b side' :
  outgoing (put_bytes l side b) side' = outgoing l side' ++ (if Bool.eqb side side' then b else []).
Proof. destruct l, side, side'; cbn; by rewrite ?app_nil_r. Qed.
Lemma holder_put l side b side' : holder (put_bytes l side b) side' = holder l side'.
Proof. by destruct l, side, side'. Qed.

Lemma put_inv w k l side b :
  net_inv w -> links w !! k = Some l ->
  (outgoing l side <> [] \/ b = []
   \/ exists nd d, nodes w !! holder l side = Some nd /\ hello (nodeID nd) d /\ b = node_frame d) ->
  net_inv (set_link k (put_bytes l side b) w).
Proof.
  intros Hinv Hk Hb; eapply set_link_inv; [done|done|apply link_le_put|]; intros side'.
  pose proof (inv_streams w Hinv k l side' Hk) as Hs.
  destruct (decide (outgoing l side' = [] /\ side' = side /\ b <> [])) as [(He & -> & Hne)|Hno].
  - destruct Hb as [?|[?|(nd & d & Hnd & Hd & ->)]]; [done..|]; exists nd; rewrite holder_put; split; [done|].
    right; exists d, []; split; [done|]; rewrite outgoing_put, He, eqb_reflx, app_nil_r; done.
  - eapply stream_ok_mono; [eauto|apply holder_put| |exact Hs]; rewrite outgoing_put.
    destruct (Bool.eqb side side') eqn:E; [|left; by rewrite app_nil_r]; apply Bool.eqb_prop in E as ->.
    destruct b as [|x b']; [left; by rewrite app_nil_r|]; right; split; [|eauto].
    intros He; apply Hno; done.
Qed.

(** A node loses entries of its table, or stops. *)
Lemma node_inv w n nd nd' :
  net_inv w -> nodes w !! n = Some nd -> nodeID nd' = nodeID nd ->
  (forall id c, conns nd' !! id = Some c -> conns nd !! id = Some c) ->
  (ctx_done nd = true -> ctx_done nd' = true) ->
  (forall c, (n, TLoop c) ∈ tasks w -> conns nd !! NodeID c = Some c ->
     conns nd' !! NodeID c = Some c \/ ctx_done nd' = true
     \/ exists l, links w !! (conn c).1 = Some l /\ is_open l (conn c).2 = false) ->
  net_inv (set_node n nd' w).
Proof.
  intros [Ht Hs Hu Ho Hc Hl] Hn Hid Hsub Hctx Hloop; pose proof (set_node_ids w n nd nd' Hn Hid) as Hids.
  assert (Hw : world_le w (set_node n nd' w)).
  { split; [|exact Hids]; intros k l Hk; exists l; split; [done|apply link_le_refl]. }
  split; try done.
  - intros m t Hin; eapply task_ok_mono; [exact Hw|by apply Ht].
  - intros k l side Hk; eapply stream_ok_mono; [exact Hids|done|by left|by apply (Hs k)].
  - intros m x id c Hm Hx; cbn [nodes set_node] in Hm; destruct (decide (m = n)) as [->|Hne].
    + rewrite lookup_insert_eq in Hm; injection Hm as <-; apply (Hc n nd); auto.
    + rewrite lookup_insert_ne in Hm by done; by apply (Hc m x).
  - intros m c Hin x Hm; cbn [nodes set_node] in Hm; destruct (decide (m = n)) as [->|Hne].
    + rewrite lookup_insert_eq in Hm; injection Hm as <-.
      destruct (Hl n c Hin nd Hn) as [?|[?|?]]; [by apply Hloop|auto..].
    + rewrite lookup_insert_ne in Hm by done; by apply (Hl m c).
Qed.

(** A connection enters the table together with the task that runs its loop. *)
Lemma enlist_inv w n nd t ts c :
  net_inv w -> nodes w !! n = Some nd -> conns nd !! NodeID c = None ->
  (forall x, t <> TLoop x) -> (forall x, t <> TLeave x) ->
  ends ts ≡ₚ ends (tasks w) -> (n, TLoop c) ∈ ts -> task_ok w n (TLoop c) ->
  (forall x, x ∈ tasks w -> x <> (n, t) -> x ∈ ts) ->
  (forall m u, (m, u) ∈ ts -> (m, u) ∈ tasks w \/ (m, u) = (n, TLoop c) \/ m = n /\ exists r, u = TReturn r) ->
  net_inv (mkWorld (<[n := with_conns (<[NodeID c := c]> (conns nd)) nd]> (nodes w)) (links w) ts).
Proof.
  intros [Ht Hs Hu Ho Hc Hl] Hn Hnone Hloop Hleave Hends Hin Hok Hkeep Hnew.
  set (nd' := with_conns _ nd); pose proof (set_node_ids w n nd nd' Hn eq_refl) as Hids.
  assert (Hw : world_le w (mkWorld (<[n := nd']> (nodes w)) (links w) ts)).
  { split; [|exact Hids]; intros k l Hk; exists l; split; [done|apply link_le_refl]. }
  split; cbn [nodes links tasks].
  - intros m u Hmu; destruct (Hnew m u Hmu) as [Hold|[[= -> ->]|[-> [r ->]]]].
    + eapply task_ok_mono; [exact Hw|by apply Ht].
    + eapply task_ok_mono; [exact Hw|exact Hok].
    + split; [apply mk_is_Some with nd', lookup_insert_eq|done].
  - intros k l side Hk; eapply stream_ok_mono; [exact Hids|done|by left|by apply (Hs k)].
  - by rewrite Hends.
  - intros k l side Hk Hop; rewrite Hends; by apply (Ho k l).
  - intros m x id d Hm Hx; destruct (decide (m = n)) as [->|Hne].
    2: rewrite lookup_insert_ne in Hm by done; destruct (Hc m x id d Hm Hx) as [? Hk]; split; [done|];
       destruct Hk as [Hk|Hk]; [left|right]; (apply Hkeep; [done|intros [= -> <-]; first [by apply (Hloop d)|by apply (Hleave d)]]).
    rewrite lookup_insert_eq in Hm; injection Hm as <-; cbn [conns with_conns nd'] in Hx.
    apply lookup_insert_Some in Hx as [[<- <-]|[_ Hx]]; [split; [done|by left]|].
    destruct (Hc n nd id d Hn Hx) as [? Hk]; split; [done|].
    destruct Hk as [Hk|Hk]; [left|right]; (apply Hkeep; [done|intros [= <-]; first [by apply (Hloop d)|by apply (Hleave d)]]).
  - intros m d Hmd x Hm; cbn [nodes] in Hm; destruct (Hnew m _ Hmd) as [Hold|[[= -> ->]|[_ [r Hr]]]]; [|..|done].
    + destruct (decide (m = n)) as [->|Hne].
      2: { rewrite lookup_insert_ne in Hm by done; by apply (Hl m d). }
      rewrite lookup_insert_eq in Hm; injection Hm as <-; destruct (Hl n d Hold nd Hn) as [Hd|?]; [left|by right].
      cbn [conns with_conns nd']; rewrite lookup_insert_ne; [done|]; congruence.
    + rewrite lookup_insert_eq in Hm; injection Hm as <-; left; cbn [conns with_conns nd']; by rewrite lookup_insert_eq.
Qed.

Lemma register_inv w i n nd t c :
  net_inv w -> nodes w !! n = Some nd -> tasks w !! i = Some (n, t) -> conns nd !! NodeID c = None ->
  (forall x, t <> TLoop x) -> (forall x, t <> TLeave x) ->
  task_end t = Some (conn c) -> task_ok w n (TLoop c) ->
  net_inv (set_task i n (TLoop c) (set_node n (with_conns (<[NodeID c := c]> (conns nd)) nd) w)).
Proof.
  intros Hinv Hn Hi Hnone Hloop Hleave He Hok.
  destruct (ends_split _ _ _ _ Hi) as (rest & Hp & Hr).
  apply (enlist_inv w n nd t _ c); cbn [tasks set_node]; try done.
  - rewrite Hr, Hp, He; done.
  - by eapply elem_of_insert_new.
  - intros x Hx Hne; by eapply elem_of_insert_other.
  - intros m u Hmu; destruct (elem_of_insert _ _ _ _ _ _ _ Hi Hmu); auto.
Qed.

Lemma handoff_inv w i n nd t r c :
  net_inv w -> nodes w !! n = Some nd -> tasks w !! i = Some (n, t) -> conns nd !! NodeID c = None ->
  (forall x, t <> TLoop x) -> (forall x, t <> TLeave x) ->
  task_end t = Some (conn c) -> task_ok w n (TLoop c) ->
  net_inv (set_task i n (TReturn r)
    (spawn n (TLoop c) (set_node n (with_conns (<[NodeID c := c]> (conns nd)) nd) w))).
Proof.
  intros Hinv Hn Hi Hnone Hloop Hleave He Hok; destruct (ends_split _ _ _ _ Hi) as (rest & Hp & Hr).
  assert (Hts : <[i := (n, TReturn r)]> (tasks w ++ [(n, TLoop c)]) = <[i := (n, TReturn r)]> (tasks w) ++ [(n, TLoop c)]).
  { apply insert_app_l; by eapply lookup_lt_Some. }
  apply (enlist_inv w n nd t _ c); cbn [tasks set_node spawn]; try done; rewrite Hts.
  - rewrite ends_snoc, Hr, Hp, He; cbn; symmetry; apply Permutation_cons_append.
  - apply elem_of_app; right; by apply list_elem_of_singleton.
  - intros x Hx Hne; apply elem_of_app; left; by eapply elem_of_insert_other.
  - intros m u Hmu; apply elem_of_app in Hmu as [Hmu|Hmu].
    + destruct (elem_of_insert _ _ _ _ _ _ _ Hi Hmu) as [[= -> ->]|]; eauto.
    + apply list_elem_of_singleton in Hmu; auto.
Qed.

(** A task that moves on without learning or sending anything is still fine. *)
Lemma task_ok_weaken w n t t' :
  task_ok w n t -> task_end t' = task_end t -> t' <> TPanicked ->
  (greeted t' = true -> greeted t = true) -> (forall p, learned t' = Some p -> learned t = Some p) ->
  task_ok w n t'.
Proof.
  intros (Hn & _ & H) He Hp Hg Hl; split; [done|split; [done|]]; intros e; rewrite He; intros Hte.
  destruct (H e Hte) as (l & nd & Hk & Hh & Hnd & Hgt & Hlt); exists l, nd; split_and!; auto.
Qed.

Lemma task_at w i n t : net_inv w -> tasks w !! i = Some (n, t) -> (n, t) ∈ tasks w /\ task_ok w n t.
Proof.
  intros Hinv Hi; assert (Hin : (n, t) ∈ tasks w) by (apply list_elem_of_lookup; eauto).
  split; [done|by apply (inv_tasks w Hinv)].
Qed.

(** Giving up: the end is closed and the task returns. *)
Lemma give_up_inv w i n t t' e :
  net_inv w -> tasks w !! i = Some (n, t) -> task_end t = Some e -> task_end t' = None -> t' <> TPanicked ->
  (forall c, t <> TLoop c) -> (forall c, t <> TLeave c) ->
  net_inv (set_task i n t' (close_end e w)).
Proof.
  intros Hinv Hi He He' Hp Hloop Hleave; apply (release_inv (close_end e w) i n t t'); try done.
  - by apply close_end_inv.
  - by rewrite tasks_close_end.
  - intros e' l; rewrite He; intros [= <-]; apply closed_close_end.
Qed.

Section preserve.
Context (tcp : bool) (remoteAddr : nat -> list byte) (resolve : list byte -> option nat).

(** What a first read on a task's end says about the other side. *)
Lemma task_read w n t e l r :
  net_inv w -> task_ok w n t -> task_end t = Some e -> links w !! e.1 = Some l -> read_first l e.2 = Some r ->
  r = Ret None \/ exists d ok nd, r = Ret (Some d) /\ nodes w !! holder l (negb e.2) = Some nd
    /\ DecodeNodeIDHandshake d = Ret (shown (nodeID nd), ok).
Proof.
  intros Hinv (_ & _ & Ht) He Hl Hr; destruct (Ht e He) as (l' & nd & Hl' & _ & Hnd & _).
  rewrite Hl in Hl'; injection Hl' as <-.
  destruct (read_first_hello w l e.2 r nd (inv_streams w Hinv e.1 l _ Hl) Hnd Hr) as [?|(d & ok & ? & ?)]; [auto|].
  right; by exists d, ok, nd.
Qed.

(** A task that has read the other side's id has learned it. *)
Lemma task_ok_learns w n t t' e l nd p :
  task_ok w n t -> task_end t = Some e -> task_end t' = Some e -> t' <> TPanicked ->
  links w !! e.1 = Some l -> nodes w !! holder l (negb e.2) = Some nd ->
  (greeted t' = true -> greeted t = true) -> learned t' = Some p -> p = shown (nodeID nd) -> task_ok w n t'.
Proof.
  intros (Hn & _ & H) He He' Hp Hl Hnd Hg Hlt ->; split; [done|split; [done|]]; rewrite He'; intros e' [= <-].
  destruct (H e He) as (l' & nd' & Hl' & Hh & Hnd' & Hgt & _); rewrite Hl in Hl'; injection Hl' as <-.
  exists l, nd; split_and!; auto; rewrite Hlt; by intros q [= <-].
Qed.

(** Moving on with the same end, for the tasks of a handshake. *)
Lemma move_inv w i n t t' :
  net_inv w -> tasks w !! i = Some (n, t) -> task_end t' = task_end t -> task_ok w n t' ->
  (forall c, t <> TLoop c) -> (forall c, t <> TLeave c) -> (forall c, t' <> TLoop c) ->
  net_inv (set_task i n t' w).
Proof.
  intros Hinv Hi He Hok H1 H2 H3; apply (retask_inv w i n t t'); try done.
  - intros c ->; by destruct (H1 c).
  - intros c nd ->; by destruct (H2 c).
Qed.

Lemma hello_inv w i n nd e t' w' :
  net_inv w -> tasks w !! i = Some (n, THello e) ->
  handleConn_hello nd e w = Some (t', w') -> net_inv (set_task i n t' w').
Proof.
  intros Hinv Hi H; destruct (task_at _ _ _ _ Hinv Hi) as [_ Hok]; unfold handleConn_hello in H.
  destruct (links w !! e.1) as [l|] eqn:Hl; cbn [mbind option_bind] in H; [|discriminate].
  destruct (read_first l e.2) as [r|] eqn:Hr; cbn [mbind option_bind] in H; [|discriminate].
  assert (Hclose : net_inv (set_task i n (TClose e) w)).
  { apply (move_inv w i n (THello e)); try done; by eapply task_ok_weaken. }
  destruct (task_read w n _ e l r Hinv Hok eq_refl Hl Hr) as [->|(d & ok & nd' & -> & Hnd & Hd)].
  { injection H as <- <-; exact Hclose. }
  rewrite Hd in H; destruct (conns nd !! _); injection H as <- <-; [exact Hclose|].
  apply (move_inv w i n (THello e)); try done; by eapply (task_ok_learns w n (THello e)).
Qed.

(** Sending our id, in a task that had not sent it. *)
Lemma send_hello_inv w i n nd t e sent failed t' w' :
  net_inv w -> nodes w !! n = Some nd -> tasks w !! i = Some (n, t) -> task_end t = Some e ->
  task_end sent = Some e -> sent <> TPanicked -> learned sent = learned t ->
  (forall c, t <> TLoop c) -> (forall c, t <> TLeave c) -> (forall c, sent <> TLoop c) ->
  (forall w1, net_inv w1 -> tasks w1 = tasks w -> task_ok w1 n t -> net_inv (set_task i n (failed w1).1 (failed w1).2)) ->
  send_hello tcp nd e sent failed w = Some (t', w') -> net_inv (set_task i n t' w').
Proof.
  intros Hinv Hn Hi He Hes Hp Hls H1 H2 H3 Hf H; destruct (task_at _ _ _ _ Hinv Hi) as [_ Hok].
  unfold send_hello in H; destruct (links w !! e.1) as [l|] eqn:Hl; cbn [mbind option_bind] in H; [|discriminate].
  destruct (hello_of (nodeID nd)) as [d Hd]; rewrite (proj1 Hd) in H.
  destruct (proj2 (proj2 Hok) e He) as (l' & nd' & Hl' & Hh & Hnd' & Hg & Hlt); rewrite Hl in Hl'; injection Hl' as <-.
  destruct (write_end_cases tcp l e.2 d (proj1 (proj2 Hd))) as [Hw|[err Hw]]; rewrite Hw in H.
  - injection H as <- <-; set (w1 := set_link e.1 _ w).
    assert (Hinv1 : net_inv w1).
    { apply put_inv; [exact Hinv|exact Hl|]; right; right; exists nd, d; rewrite Hh; split; [exact Hn|split; [exact Hd|reflexivity]]. }
    apply (move_inv w1 i n t); try done; [by rewrite He, Hes|].
    split; [cbn; eauto|split; [done|]]; rewrite Hes; intros e' [= <-].
    exists (put_bytes l e.2 (node_frame d)), nd'; cbn [w1 links set_link nodes].
    rewrite list_lookup_insert_eq by (by eapply lookup_lt_Some); rewrite !holder_put, outgoing_put, eqb_reflx.
    split_and!; auto; [|rewrite Hls; exact Hlt]; intros _ Hnil.
    apply app_eq_nil in Hnil as [_ Hnil]; unfold node_frame in Hnil; apply (f_equal len) in Hnil.
    rewrite len_app, len_le_bytes in Hnil by lia; pose proof (len_nonneg d); rewrite len_nil in Hnil; lia.
  - set (w1 := set_link e.1 _ w) in H.
    assert (Hinv1 : net_inv w1) by (apply put_inv; auto).
    assert (Hok1 : task_ok w1 n t) by (apply (inv_tasks w1 Hinv1), list_elem_of_lookup; eauto).
    specialize (Hf w1 Hinv1 eq_refl Hok1); injection H as H; rewrite H in Hf; exact Hf.
Qed.
End preserve.

(** A dial adds a link and the task that accepts it. *)
Lemma dial_inv w i n want a m nd0 ndm :
  net_inv w -> tasks w !! i = Some (n, TDial want a) -> nodes w !! n = Some nd0 -> nodes w !! m = Some ndm ->
  let k := length (links w) in
  net_inv (set_task i n (TGreet want a (k, true))
    (mkWorld (nodes w) (links w ++ [mkLink n m [] [] true true false]) (tasks w ++ [(m, THello (k, false))]))).
Proof.
  intros [Ht Hs Hu Ho Hc Hl] Hi Hn0 Hm k; set (l0 := mkLink n m [] [] true true false).
  assert (Hts : <[i := (n, TGreet want a (k, true))]> (tasks w ++ [(m, THello (k, false))])
    = <[i := (n, TGreet want a (k, true))]> (tasks w) ++ [(m, THello (k, false))]).
  { apply insert_app_l; by eapply lookup_lt_Some. }
  assert (Hk : (links w ++ [l0]) !! k = Some l0) by (unfold k; by apply list_lookup_middle).
  assert (Hfresh : forall side, (k, side) ∉ ends (tasks w)).
  { intros side Hin; apply list_elem_of_omap in Hin as ([x t] & Hx & Hte).
    destruct (proj2 (proj2 (Ht x t Hx)) _ Hte) as (l & _ & Hlk & _); apply lookup_lt_Some in Hlk; cbn in Hlk; lia. }
  destruct (ends_split _ _ _ _ Hi) as (rest & Hp & Hr); specialize (Hr (TGreet want a (k, true))); cbn in Hp, Hr.
  assert (Hold : forall x u, (x, u) ∈ tasks w -> task_ok (mkWorld (nodes w) (links w ++ [l0]) (tasks w)) x u).
  { intros x u Hin; eapply task_ok_mono; [|by apply Ht]; split; [|eauto]; intros j l Hj; exists l.
    split; [cbn; by apply lookup_app_l_Some|apply link_le_refl]. }
  unfold set_task; cbn [tasks nodes links]; rewrite Hts; split; cbn [tasks nodes links].
  - intros x u Hin; apply elem_of_app in Hin as [Hin|Hin].
    + destruct (elem_of_insert _ _ _ _ _ _ _ Hi Hin) as [[= -> ->]|Hin']; [|by apply Hold].
      split; [eauto|split; [done|]]; intros e [= <-]; exists l0, ndm; done.
    + apply list_elem_of_singleton in Hin as [= -> ->]; split; [eauto|split; [done|]]; intros e [= <-]; exists l0, nd0; done.
  - intros j l side Hj; apply lookup_app_Some in Hj as [Hj|[_ Hj]]; [by apply (Hs j)|].
    apply list_lookup_singleton_Some in Hj as [_ <-]; destruct side; [exists nd0|exists ndm]; auto.
  - rewrite ends_snoc, Hr; cbn; rewrite <- Hp; apply NoDup_cons; split.
    + rewrite elem_of_app; intros [?|Hx]; [by eapply Hfresh|]; by apply list_elem_of_singleton in Hx.
    + apply NoDup_app; split; [done|split; [|apply NoDup_singleton]].
      intros x Hx Hx'; apply list_elem_of_singleton in Hx' as ->; by eapply Hfresh.
  - intros j l side Hj Hop; rewrite ends_snoc, Hr; cbn; rewrite <- Hp; apply lookup_app_Some in Hj as [Hj|[Hge Hj]].
    + right; apply elem_of_app; left; by apply (Ho j l).
    + apply list_lookup_singleton_Some in Hj as [Hj <-]; assert (j = k) as -> by (unfold k; lia).
      destruct side; [left|right; apply elem_of_app; right; by left].
  - intros x nd id c Hx Hid; destruct (Hc x nd id c Hx Hid) as [Hn Hkeep]; split; [done|].
    unfold keeps_conn; cbn [tasks]; destruct Hkeep as [Hkeep|Hkeep]; [left|right]; apply elem_of_app; left;
      (eapply elem_of_insert_other; [exact Hi|exact Hkeep|discriminate]).
  - intros x c Hin nd Hx; cbn [nodes links] in *; apply elem_of_app in Hin as [Hin|Hin].
    2: by apply list_elem_of_singleton in Hin.
    destruct (elem_of_insert _ _ _ _ _ _ _ Hi Hin) as [?|Hin']; [discriminate|].
    destruct (Hl x c Hin' nd Hx) as [?|[?|(l & Hlk & ?)]]; [auto..|].
    right; right; exists l; split; [by apply lookup_app_l_Some|done].
Qed.

Section preserve2.
Context (tcp : bool) (remoteAddr : nat -> list byte) (resolve : list byte -> option nat).

Lemma await_inv w i n want a e t' w' :
  net_inv w -> tasks w !! i = Some (n, TAwait want a e) ->
  await_hello want a e w = Some (t', w') -> net_inv (set_task i n t' w').
Proof.
  intros Hinv Hi H; destruct (task_at _ _ _ _ Hinv Hi) as [_ Hok]; unfold await_hello in H.
  destruct (links w !! e.1) as [l|] eqn:Hl; cbn [mbind option_bind] in H; [|discriminate].
  destruct (read_first l e.2) as [r|] eqn:Hr; cbn [mbind option_bind] in H; [|discriminate].
  assert (Hgive : forall x, net_inv (set_task i n (TReturn x) (close_end e w))).
  { intros x; by eapply give_up_inv. }
  destruct (task_read w n _ e l r Hinv Hok eq_refl Hl Hr) as [->|(d & ok & nd' & -> & Hnd & Hd)].
  { injection H as <- <-; apply Hgive. }
  rewrite Hd in H; destruct want as [p|]; [destruct (bytes_eqb _ p) eqn:E|destruct ok];
    cbn [negb] in H; injection H as <- <-; try apply Hgive.
  - apply bool_decide_eq_true in E; apply (move_inv w i n (TAwait (Some p) a e)); try done.
    by eapply (task_ok_learns w n (TAwait (Some p) a e)).
  - apply (move_inv w i n (TAwait None a e)); try done; by eapply (task_ok_learns w n (TAwait None a e)).
Qed.

Lemma add_conn_inv w i n nd want a e p t' w' :
  net_inv w -> nodes w !! n = Some nd -> tasks w !! i = Some (n, TAdd want a e p) ->
  add_conn n nd want a e p w = Some (t', w') -> net_inv (set_task i n t' w').
Proof.
  intros Hinv Hn Hi H; destruct (task_at _ _ _ _ Hinv Hi) as [_ Hok]; unfold add_conn in H.
  destruct (conns nd !! p) as [c|] eqn:Hc; injection H as <- <-; [by eapply give_up_inv|].
  apply (handoff_inv w i n nd (TAdd want a e p) _ (mkConn p a e)); try done; by eapply task_ok_weaken.
Qed.

Lemma register_task_inv w i n nd e p t' w' :
  net_inv w -> nodes w !! n = Some nd -> tasks w !! i = Some (n, TRegister e p) ->
  handleConn_register remoteAddr n nd e p w = Some (t', w') -> net_inv (set_task i n t' w').
Proof.
  intros Hinv Hn Hi H; destruct (task_at _ _ _ _ Hinv Hi) as [_ Hok]; unfold handleConn_register in H.
  destruct (conns nd !! p) as [c|] eqn:Hc; injection H as <- <-.
  - apply (move_inv w i n (TRegister e p)); try done; by eapply task_ok_weaken.
  - apply (register_inv w i n nd (TRegister e p) (mkConn p (remoteAddr e.1) e)); try done; by eapply task_ok_weaken.
Qed.

(** The connection a table has for an end is the one its task runs. *)
Lemma same_conn w n nd c cur t :
  net_inv w -> nodes w !! n = Some nd -> (n, t) ∈ tasks w -> task_end t = Some (conn c) ->
  conns nd !! NodeID c = Some cur -> conn cur = conn c -> t = TLoop cur \/ t = TLeave cur.
Proof.
  intros Hinv Hn Hin He Hcur Heq; destruct (inv_conns w Hinv n nd _ _ Hn Hcur) as [_ [Hk|Hk]]; [left|right];
    (eapply (same_end (tasks w)); [apply (inv_unique w Hinv)|exact Hin|exact Hk|exact He|cbn; by rewrite Heq]).
Qed.

Lemma leave_inv w i n nd c t' w' :
  net_inv w -> nodes w !! n = Some nd -> tasks w !! i = Some (n, TLeave c) ->
  leave n nd c w = Some (t', w') -> net_inv (set_task i n t' w').
Proof.
  intros Hinv Hn Hi H; destruct (task_at _ _ _ _ Hinv Hi) as [Hin Hok]; injection H as <- <-.
  set (w' := match conns nd !! NodeID c with Some _ => _ | None => _ end).
  assert (Hw' : net_inv w' /\ tasks w' = tasks w
    /\ forall x, nodes w' !! n = Some x -> conns x !! NodeID c <> Some c).
  { unfold w'; destruct (conns nd !! NodeID c) as [cur|] eqn:Hcur; [case_bool_decide as Heq|].
    - destruct (same_conn w n nd c cur _ Hinv Hn Hin eq_refl Hcur Heq) as [?|[= <-]]; [discriminate|].
      split; [|split; [done|]].
      + apply (node_inv w n nd); try done; cbn [conns with_conns]; [intros id x Hx; apply lookup_delete_Some in Hx as [_ Hx]; exact Hx|].
        intros x Hx Htab; left; apply lookup_delete_Some; split; [|done]; intros Hid.
        rewrite <- Hid, Hcur in Htab; injection Htab as ->.
        pose proof (same_end _ _ _ _ _ _ (inv_unique w Hinv) Hx Hin eq_refl eq_refl); done.
      + intros x; cbn [nodes set_node]; rewrite lookup_insert_eq; intros [= <-]; cbn [conns with_conns].
        by rewrite lookup_delete_eq.
    - split; [done|split; [done|]]; intros x Hx; rewrite Hn in Hx; injection Hx as <-; rewrite Hcur; congruence.
    - split; [done|split; [done|]]; intros x Hx; rewrite Hn in Hx; injection Hx as <-; rewrite Hcur; done. }
  destruct Hw' as (Hinv' & Hts & Hno).
  assert (Hi' : tasks w' !! i = Some (n, TLeave c)) by (by rewrite Hts).
  apply (retask_inv w' i n (TLeave c)); try done.
  - apply (task_ok_weaken w' n (TLeave c)); try done; by apply (task_at w' i).
  - intros x y [= <-]; apply Hno.
Qed.

Lemma advance_inv w i n nd t t' w' :
  net_inv w -> nodes w !! n = Some nd -> tasks w !! i = Some (n, t) ->
  advance tcp remoteAddr resolve n nd t w = Some (t', w') -> net_inv (set_task i n t' w').
Proof.
  intros Hinv Hn Hi H; pose proof (task_at _ _ _ _ Hinv Hi) as [Hin Hok]; destruct t; cbn [advance] in H; try discriminate.
  - by eapply hello_inv.
  - eapply send_hello_inv; [exact Hinv|exact Hn|exact Hi| | | | | | | | |exact H]; try done.
    intros w1 Hinv1 Hts Hok1; apply (move_inv w1 i n (TReply e peerID)); try done; [by rewrite Hts|].
    by eapply task_ok_weaken.
  - by eapply register_task_inv.
  - unfold getOrConnect_lookup in H; destruct (conns nd !! peerID); [|destruct (discovery nd) as [ps|]; [destruct (List.find _ ps)|]];
      injection H as <- <-; (apply (move_inv w i n (TLookup peerID)); try done; by eapply task_ok_weaken).
  - unfold dial in H; destruct (_ ≫= _) as [m|] eqn:Hf; injection H as <- <-.
    + apply bind_Some in Hf as (m' & _ & Hf); apply bind_Some in Hf as (ndm & Hm & Hf).
      destruct (listener ndm); [injection Hf as <-|discriminate]; by eapply dial_inv.
    + apply (move_inv w i n (TDial want a)); try done; by eapply task_ok_weaken.
  - eapply send_hello_inv; [exact Hinv|exact Hn|exact Hi| | | | | | | | |exact H]; try done.
    intros w1 Hinv1 Hts Hok1; cbn; eapply give_up_inv; [done|by rewrite Hts|done..].
  - by eapply await_inv.
  - by eapply add_conn_inv.
  - unfold loop_check in H; destruct (links w !! _); cbn [mbind option_bind] in H; [|discriminate].
    destruct (_ || _); [|discriminate]; injection H as <- <-; apply (retask_inv w i n (TLoop c)); try done.
    + by eapply task_ok_weaken.
    + by intros x [= <-].
  - by eapply leave_inv.
  - injection H as <- <-; by eapply give_up_inv.
Qed.
End preserve2.

Section steps.
Context (tcp : bool) (remoteAddr : nat -> list byte) (resolve : list byte -> option nat).

(** The end of a table's connection has sent its node's id. *)
Lemma conn_link w n nd id c :
  net_inv w -> nodes w !! n = Some nd -> conns nd !! id = Some c ->
  exists l peer, links w !! (conn c).1 = Some l /\ holder l (conn c).2 = n
    /\ nodes w !! holder l (negb (conn c).2) = Some peer /\ outgoing l (conn c).2 <> []
    /\ NodeID c = id /\ id = shown (nodeID peer).
Proof.
  intros Hinv Hn Hc; destruct (inv_conns w Hinv n nd id c Hn Hc) as [Hid Hk].
  assert (Ht : exists t, (n, t) ∈ tasks w /\ task_end t = Some (conn c) /\ greeted t = true /\ learned t = Some (NodeID c)).
  { destruct Hk as [Hk|Hk]; [exists (TLoop c)|exists (TLeave c)]; done. }
  destruct Ht as (t & Hin & He & Hg & Hl); destruct (inv_tasks w Hinv n t Hin) as (_ & _ & H).
  destruct (H _ He) as (l & peer & Hlk & Hh & Hp & Hgt & Hlt); exists l, peer.
  split_and!; auto; rewrite <- Hid; by apply Hlt.
Qed.

Lemma stop_folds l w :
  net_inv w -> let w' := foldr (fun x w => close_end (conn x.2) w) w (l : list (list byte * Conn)) in
  net_inv w' /\ nodes w' = nodes w /\ tasks w' = tasks w.
Proof.
  induction l as [|x l IH]; intros Hinv; cbn; [done|]; destruct (IH Hinv) as (Hi & Hn & Ht).
  split; [by apply close_end_inv|by rewrite nodes_close_end, tasks_close_end].
Qed.

Lemma on_task_inv i f w w' :
  net_inv w -> (forall n nd t t' w1, nodes w !! n = Some nd -> tasks w !! i = Some (n, t) ->
    f n nd t = Some (t', w1) -> net_inv (set_task i n t' w1)) ->
  on_task i f w = Some w' -> net_inv w'.
Proof.
  intros Hinv Hf H; unfold on_task in H; destruct (tasks w !! i) as [[n t]|] eqn:Hi; [|discriminate].
  cbn [mbind option_bind fst snd] in H; destruct (nodes w !! n) as [nd|] eqn:Hn; [|discriminate].
  cbn [mbind option_bind] in H; destruct (f n nd t) as [[t' w1]|] eqn:Hft; [|discriminate].
  injection H as <-; by eapply Hf.
Qed.

(** Every step keeps the invariant. *)
Lemma step_inv ev w w' : net_inv w -> step tcp remoteAddr resolve ev w = Some w' -> net_inv w'.
Proof.
  intros Hinv H; destruct ev; cbn [step] in H.
  - eapply on_task_inv; [exact Hinv| |exact H]; intros n nd t t' w1 Hn Hi Ha; exact (advance_inv tcp remoteAddr resolve w i n nd t t' w1 Hinv Hn Hi Ha).
  - eapply on_task_inv; [exact Hinv| |exact H]; intros n nd t t' w1 Hn Hi Ha; destruct t; try discriminate.
    injection Ha as <- <-; apply (move_inv w i n (THello e)); try done.
    eapply task_ok_weaken; [by apply (task_at w i)|done..].
  - eapply on_task_inv; [exact Hinv| |exact H]; intros n nd t t' w1 Hn Hi Ha; destruct t; try discriminate.
    injection Ha as <- <-; apply (retask_inv w i n (TLoop c)); try done; [|by intros x [= <-]].
    eapply task_ok_weaken; [by apply (task_at w i)|done..].
  - destruct (links w !! k) eqn:Hk; [|discriminate]; injection H as <-; by apply cut_inv.
  - destruct (nodes w !! n) eqn:Hn; [|discriminate]; injection H as <-; apply spawn_inv; try done; rewrite Hn; eauto.
  - destruct (nodes w !! n) eqn:Hn; [|discriminate]; injection H as <-; apply spawn_inv; try done; rewrite Hn; eauto.
  - destruct (nodes w !! n) as [nd|] eqn:Hn; [|discriminate]; injection H as <-; unfold handlePeerEvent.
    destruct (str_lt _ _); [|done]; apply spawn_inv; try done; rewrite Hn; eauto.
  - destruct (nodes w !! n) as [nd|] eqn:Hn; [|discriminate]; injection H as <-; unfold handlePeerEvent.
    destruct (conns nd !! p_NodeID p) as [c|] eqn:Hc; [|done].
    destruct (conn_link w n nd _ c Hinv Hn Hc) as (l & peer & Hl & _ & _ & _ & Hid & _).
    apply (node_inv (close_end (conn c) w) n nd); try done.
    + by apply close_end_inv.
    + by rewrite nodes_close_end.
    + cbn [conns with_conns]; intros id x Hx; apply lookup_delete_Some in Hx as [_ Hx]; exact Hx.
    + cbn [conns with_conns]; intros x _ Hx; destruct (decide (NodeID x = p_NodeID p)) as [He|He].
      * right; right; rewrite He, Hc in Hx; injection Hx as <-.
        unfold close_end; rewrite Hl; cbn [links set_link]; rewrite list_lookup_insert_eq by (by eapply lookup_lt_Some).
        eexists; split; [done|]; destruct l, (conn c) as [? []]; done.
      * left; apply lookup_delete_Some; auto.
  - destruct (nodes w !! n) as [nd|] eqn:Hn; [|discriminate]; cbn [mbind option_bind] in H.
    destruct (conns nd !! peerID) as [c|] eqn:Hc; [|discriminate]; injection H as <-.
    destruct (conn_link w n nd _ c Hinv Hn Hc) as (l & peer & Hl & _ & _ & Hout & _).
    unfold Conn_send; rewrite Hl; unfold write_end; destruct (writeMessage _ _ _) as [[] ws]; cbn [snd]; apply put_inv; auto.
  - destruct (nodes w !! n) as [nd|] eqn:Hn; [|discriminate]; injection H as <-; unfold stop.
    destruct (stop_folds (map_to_list (conns nd)) w Hinv) as (Hi & Hns & Hts).
    apply (node_inv _ n nd); try done; [by rewrite Hns|cbn; auto].
Qed.

Lemma run_inv evs w w' : net_inv w -> run tcp remoteAddr resolve evs w = Some w' -> net_inv w'.
Proof.
  revert w; induction evs as [|ev evs IH]; intros w Hinv H; cbn [run] in H; [by injection H as <-|].
  destruct (step tcp remoteAddr resolve ev w) as [w1|] eqn:Hs; [|discriminate]; cbn [mbind option_bind] in H.
  eapply IH; [|exact H]; by eapply step_inv.
Qed.

(** No connection, no link and no goroutine yet. *)
Definition initial (w : World) : Prop :=
  links w = [] /\ tasks w = [] /\ forall n nd, nodes w !! n = Some nd -> conns nd = ∅.

Lemma initial_inv w : initial w -> net_inv w.
Proof.
  intros (Hl & Ht & Hc); split; rewrite ?Hl, ?Ht; try done.
  - intros n t Hin; by apply not_elem_of_nil in Hin.
  - apply NoDup_nil_2.
  - intros n nd id c Hn Hid; rewrite (Hc n nd Hn), lookup_empty in Hid; discriminate.
  - intros n c Hin; by apply not_elem_of_nil in Hin.
Qed.

(** C18: whatever the schedule, the failures and the timeouts: no goroutine panics,
    and a table has a connection under an id only if its link's other end is
    held by the node that shows that id, and the goroutine that will remove the
    connection is still there. *)
Theorem conn_table_sound evs w0 w :
  initial w0 -> run tcp remoteAddr resolve evs w0 = Some w ->
  (forall n, (n, TPanicked) ∉ tasks w)
  /\ forall n nd id c, nodes w !! n = Some nd -> conns nd !! id = Some c ->
       NodeID c = id /\ keeps_conn w n c
       /\ exists l peer, links w !! (conn c).1 = Some l /\ holder l (conn c).2 = n
            /\ nodes w !! holder l (negb (conn c).2) = Some peer /\ id = shown (nodeID peer).
Proof.
  intros H0 Hr; pose proof (run_inv evs w0 w (initial_inv w0 H0) Hr) as Hinv; split.
  - intros n Hin; by destruct (inv_tasks w Hinv n _ Hin) as (_ & Hp & _).
  - intros n nd id c Hn Hc; destruct (inv_conns w Hinv n nd id c Hn Hc) as [Hid Hk].
    destruct (conn_link w n nd id c Hinv Hn Hc) as (l & peer & Hl & Hh & Hp & _ & _ & Hs).
    split; [exact Hid|split; [exact Hk|by exists l, peer]].
Qed.

(** C28: no socket leaks: at every moment an open end belongs to exactly one
    unfinished goroutine of the node that holds it. *)
Theorem sockets_owned evs w0 w k l side :
  initial w0 -> run tcp remoteAddr resolve evs w0 = Some w -> links w !! k = Some l -> is_open l side = true ->
  exists t, (holder l side, t) ∈ tasks w /\ task_end t = Some (k, side)
    /\ forall m u, (m, u) ∈ tasks w -> task_end u = Some (k, side) -> u = t.
Proof.
  intros H0 Hr Hk Ho; pose proof (run_inv evs w0 w (initial_inv w0 H0) Hr) as Hinv.
  pose proof (inv_open w Hinv k l side Hk Ho) as Hin; apply list_elem_of_omap in Hin as ([n t] & Hin & He).
  destruct (inv_tasks w Hinv n t Hin) as (_ & _ & H); destruct (H _ He) as (l' & nd & Hl' & Hh & _).
  cbn in Hl', Hh; rewrite Hk in Hl'; injection Hl' as <-; exists t; rewrite Hh; split; [done|split; [done|]].
  intros m u Hu Heu; eapply (same_end (tasks w)); [apply (inv_unique w Hinv)|done..].
Qed.

Lemma run_task i n nd t t' w w1 :
  tasks w !! i = Some (n, t) -> nodes w !! n = Some nd -> advance tcp remoteAddr resolve n nd t w = Some (t', w1) ->
  step tcp remoteAddr resolve (Run i) w = Some (set_task i n t' w1).
Proof.
  intros Hi Hn Ha; cbn [step]; unfold on_task; rewrite Hi; cbn [mbind option_bind fst snd]; rewrite Hn.
  cbn [mbind option_bind]; by rewrite Ha.
Qed.

(** The deferred removal takes out the task's own connection only. *)
Lemma leave_spec w n nd c :
  nodes w !! n = Some nd ->
  exists w' nd', leave n nd c w = Some (TClose (conn c), w') /\ tasks w' = tasks w /\ links w' = links w
    /\ nodes w' !! n = Some nd' /\ conns nd' !! NodeID c <> Some c
    /\ forall id x, conns nd !! id = Some x -> (id = NodeID c -> conn x <> conn c) -> conns nd' !! id = Some x.
Proof.
  intros Hn; unfold leave; destruct (conns nd !! NodeID c) as [cur|] eqn:Hcur; [case_bool_decide as Heq|];
    eexists _, _; (split; [reflexivity|split; [reflexivity|split; [reflexivity|]]]).
  - cbn [nodes set_node]; rewrite lookup_insert_eq; split; [reflexivity|]; cbn [conns with_conns].
    split; [by rewrite lookup_delete_eq|]; intros id x Hx Hne; apply lookup_delete_Some; split; [|done].
    intros <-; rewrite Hcur in Hx; injection Hx as <-; by apply Hne.
  - split; [exact Hn|]; rewrite Hcur; split; [congruence|done].
  - split; [exact Hn|]; rewrite Hcur; split; [congruence|done].
Qed.

End steps.

(** ** Connecting *)

Lemma str_lt_asym a b : str_lt a b = true -> str_lt b a = false.
Proof.
  revert b; induction a as [|x a IH]; intros [|y b] H; cbn in *; try done.
  apply orb_true_iff in H as [H|H]; [apply Z.ltb_lt in H; apply orb_false_iff; split; [lia|]|].
  - apply andb_false_iff; left; lia.
  - apply andb_true_iff in H as [H H']; apply Z.eqb_eq in H; rewrite H, (IH _ H'), Z.ltb_irrefl, andb_false_r; done.
Qed.

Lemma str_lt_total a b : a <> b -> str_lt a b = true \/ str_lt b a = true.
Proof.
  revert b; induction a as [|x a IH]; intros [|y b] Hne; cbn; auto.
  destruct (Z.lt_trichotomy (byte.unsigned x) (byte.unsigned y)) as [H|[H|H]].
  - left; apply orb_true_iff; left; lia.
  - apply byte.unsigned_inj in H as ->; rewrite !Z.eqb_refl, !Z.ltb_irrefl; cbn; apply IH; congruence.
  - right; apply orb_true_iff; left; lia.
Qed.

(** Of two nodes that discover each other, the one with the lower id dials and
    the other does nothing, so discovery alone never opens a second link. *)
Theorem discovery_one_dialer a b na nb pa pb w :
  nodeID na <> nodeID nb -> p_NodeID pa = nodeID na -> p_NodeID pb = nodeID nb ->
  (handlePeerEvent a na pb true w = spawn a (TDial None (p_Address pb)) w /\ handlePeerEvent b nb pa true w = w)
  \/ (handlePeerEvent a na pb true w = w /\ handlePeerEvent b nb pa true w = spawn b (TDial None (p_Address pa)) w).
Proof.
  intros Hne Ha Hb; unfold handlePeerEvent; rewrite Ha, Hb.
  destruct (str_lt_total _ _ Hne) as [H|H]; rewrite H, (str_lt_asym _ _ H); auto.
Qed.

Lemma put_frame_nonempty d rest : node_frame d ++ rest <> [].
Proof.
  intros H; apply (f_equal len) in H; unfold node_frame in H; rewrite !len_app, len_le_bytes in H by lia.
  pose proof (len_nonneg d); pose proof (len_nonneg rest); rewrite len_nil in H; lia.
Qed.

(** A frame that has arrived whole does not wait. *)
Lemma starved_frame d rest : len d <= MaxMessage -> starved (node_frame d ++ rest) = false.
Proof.
  intros Hd; pose proof (len_nonneg d); pose proof (len_nonneg rest); unfold starved, node_frame; rewrite <- app_assoc.
  pose proof (ReadFull_app (le_bytes 4 (len d)) (d ++ rest)) as HR; rewrite len_le_bytes in HR by lia; rewrite HR.
  rewrite le_combine_le_bytes, Z.mod_small, len_app by (unfold MaxMessage in *; lia).
  apply andb_false_iff; right; lia.
Qed.

Lemma read_first_frame l side d rest :
  usable l side = true -> len d <= MaxMessage -> incoming l side = node_frame d ++ rest ->
  read_first l side = Some (Ret (Some d)).
Proof.
  intros Hu Hd Hin; unfold read_first; rewrite Hu, Hin, starved_frame by exact Hd; cbn [negb andb].
  by rewrite readMessageRaw_frame by exact Hd.
Qed.

Section connect.
Context (tcp : bool) (remoteAddr : nat -> list byte) (resolve : list byte -> option nat).

Lemma send_hello_ok w nd e l d sent failed :
  links w !! e.1 = Some l -> usable l e.2 = true -> hello (nodeID nd) d ->
  send_hello tcp nd e sent failed w = Some (sent, set_link e.1 (put_bytes l e.2 (node_frame d)) w).
Proof.
  intros Hl Hu (He & Hd & _); unfold send_hello; rewrite Hl; cbn [mbind option_bind]; rewrite He; unfold write_end.
  rewrite Hu; cbn [negb]; destruct (writeMessage_ok tcp (mkWriter [] false) d eq_refl Hd) as (w' & -> & _ & ->); done.
Qed.

Lemma hello_fresh w nd e l d p ok :
  links w !! e.1 = Some l -> read_first l e.2 = Some (Ret (Some d)) -> DecodeNodeIDHandshake d = Ret (p, ok) ->
  conns nd = ∅ -> handleConn_hello nd e w = Some (TReply e p, w).
Proof.
  intros Hl Hr Hd Hc; unfold handleConn_hello; rewrite Hl; cbn [mbind option_bind]; rewrite Hr.
  cbn [mbind option_bind]; rewrite Hd, Hc, lookup_empty; reflexivity.
Qed.

Lemma await_direct w a e l d p :
  links w !! e.1 = Some l -> read_first l e.2 = Some (Ret (Some d)) -> DecodeNodeIDHandshake d = Ret (p, true) ->
  await_hello None a e w = Some (TAdd None a e p, w).
Proof.
  intros Hl Hr Hd; unfold await_hello; rewrite Hl; cbn [mbind option_bind]; rewrite Hr.
  cbn [mbind option_bind]; rewrite Hd; reflexivity.
Qed.

Lemma run_cons ev evs w w1 w2 :
  step tcp remoteAddr resolve ev w = Some w1 -> run tcp remoteAddr resolve evs w1 = Some w2 -> run tcp remoteAddr resolve (ev :: evs) w = Some w2.
Proof. intros H1 H2; cbn [run]; rewrite H1; exact H2. Qed.

(** Dialling a node that listens connects both: each table has the other's id,
    over the two open ends of one link, and each side has a read loop. *)
Theorem honest_connect w a b na nb ad :
  initial w -> a <> b -> nodes w !! a = Some na -> nodes w !! b = Some nb ->
  len (nodeID nb) <> 0 ->
  resolve ad = Some b -> listener nb = true ->
  let ca := mkConn (shown (nodeID nb)) ad (0%nat, true) in
  let cb := mkConn (shown (nodeID na)) (remoteAddr 0) (0%nat, false) in
  exists w' l,
    run tcp remoteAddr resolve [ConnectDirect a ad; Run 0; Run 0; Run 1; Run 1; Run 1; Run 0; Run 0] w = Some w'
    /\ tasks w' = [(a, TReturn (Ok (shown (nodeID nb), None))); (b, TLoop cb); (a, TLoop ca)]
    /\ nodes w' !! a = Some (with_conns {[shown (nodeID nb) := ca]} na)
    /\ nodes w' !! b = Some (with_conns {[shown (nodeID na) := cb]} nb)
    /\ links w' = [l] /\ usable l true = true /\ usable l false = true.
Proof.
  intros (Hl & Ht & Hc) Hab Ha Hb Hid Hfind Hlis ca cb; destruct w as [ns ls ts]; cbn [links tasks nodes] in *; subst ls ts.
  pose proof (Hc a na Ha) as Hca; pose proof (Hc b nb Hb) as Hcb; clear Hc.
  destruct (hello_of (nodeID na)) as [da Hda]; destruct (hello_of (nodeID nb)) as [db Hdb].
  pose proof (proj2 Hda) as (Hla & oka & Hdeca); destruct Hdb as (Heb & Hlb & okb & Hdecb).
  assert (okb = true) as ->.
  { destruct (nodeid_roundtrip (nodeID nb)) as (d' & He' & _ & Hd'); rewrite Heb in He'; injection He' as <-.
    rewrite Hdecb, (proj2 (Z.eqb_neq _ _) Hid) in Hd'; injection Hd' as _ H; exact H. }
  assert (Hdb : hello (nodeID nb) db) by (split; [exact Heb|split; [exact Hlb|eexists; exact Hdecb]]).
  set (l0 := mkLink a b [] [] true true false).
  set (l1 := put_bytes l0 true (node_frame da)); set (l2 := put_bytes l1 false (node_frame db)).
  assert (Hr1 : read_first l1 false = Some (Ret (Some da))).
  { apply (read_first_frame l1 false da []); [reflexivity|exact Hla|rewrite app_nil_r; reflexivity]. }
  assert (Hr2 : read_first l2 true = Some (Ret (Some db))).
  { apply (read_first_frame l2 true db []); [reflexivity|exact Hlb|rewrite app_nil_r; reflexivity]. }
  set (nb' := with_conns {[shown (nodeID na) := cb]} nb); set (na' := with_conns {[shown (nodeID nb) := ca]} na).
  exists (mkWorld (<[a := na']> (<[b := nb']> ns)) [l2]
    [(a, TReturn (Ok (shown (nodeID nb), None))); (b, TLoop cb); (a, TLoop ca)]), l2.
  split; [|cbn [tasks nodes links]; rewrite lookup_insert_eq, lookup_insert_ne, lookup_insert_eq by exact Hab;
    (split; [reflexivity|split; [reflexivity|split; [reflexivity|split; [reflexivity|split; reflexivity]]]])].
  eapply run_cons; [cbn [step nodes]; rewrite Ha; reflexivity|].
  eapply run_cons; [eapply run_task; [reflexivity|exact Ha|cbn [advance]; unfold dial; cbn [nodes spawn]; rewrite Hfind; cbn [mbind option_bind]; rewrite Hb; cbn [mbind option_bind]; rewrite Hlis; reflexivity]|].
  eapply run_cons; [eapply run_task; [reflexivity|exact Ha|cbn [advance]; apply (send_hello_ok _ na _ l0 da); [reflexivity|reflexivity|exact Hda]]|].
  eapply run_cons; [eapply run_task; [reflexivity|exact Hb|cbn [advance]; apply (hello_fresh _ nb (0%nat, false) l1 da (shown (nodeID na)) oka); [reflexivity|exact Hr1|exact Hdeca|exact Hcb]]|].
  eapply run_cons; [eapply run_task; [reflexivity|exact Hb|cbn [advance]; apply (send_hello_ok _ nb _ l1 db); [reflexivity|reflexivity|exact Hdb]]|].
  eapply run_cons; [eapply run_task; [reflexivity|exact Hb|cbn [advance]; unfold handleConn_register; rewrite Hcb, lookup_empty; reflexivity]|].
  assert (Ha' : (<[b := nb']> ns) !! a = Some na) by (rewrite lookup_insert_ne by exact (not_eq_sym Hab); exact Ha).
  eapply run_cons; [eapply run_task; [reflexivity|exact Ha'|cbn [advance]; apply (await_direct _ ad (0%nat, true) l2 db (shown (nodeID nb))); [reflexivity|exact Hr2|exact Hdecb]]|].
  eapply run_cons; [eapply run_task; [reflexivity|exact Ha'|cbn [advance]; unfold add_conn; rewrite Hca, lookup_empty; reflexivity]|].
  reflexivity.
Qed.
End connect.

(** ** Samples *)

Definition sample_node (id : String.string) (p : Z) : Node :=
  mkNode (text id) p [] true true None ∅ false.
Definition sample_world : World :=
  mkWorld {[0%nat := sample_node "alice"%string 9001; 1%nat := sample_node "bob"%string 9002]} [] [].
Definition sample_addr : nat -> list byte := fun _ => text "peer"%string.
Definition sample_resolve (a : list byte) : option nat :=
  if bytes_eqb a (text ":9001"%string) then Some 0%nat
  else if bytes_eqb a (text ":9002"%string) then Some 1%nat else None.

Lemma sample_initial : initial sample_world.
Proof.
  split; [done|split; [done|]]; intros n nd H; cbn in H.
  apply lookup_insert_Some in H as [[_ <-]|[_ H]]; [done|].
  apply lookup_singleton_Some in H as [_ <-]; done.
Qed.

(** Alice dials Bob. *)
Definition sample_dial : list event :=
  [ConnectDirect 0 (text ":9002"%string); Run 0; Run 0; Run 1; Run 1; Run 1; Run 0; Run 0].
Definition run_sample (evs : list event) : World := default sample_world (run true sample_addr sample_resolve evs sample_world).

(** Both dial at once. Tasks 0 and 1 dial, tasks 2 and 3 accept; both accepted
    connections enter the tables before either dial looks at them. *)
Definition sample_mutual : list event :=
  [ConnectDirect 0 (text ":9002"%string); ConnectDirect 1 (text ":9001"%string);
   Run 0; Run 1; Run 0; Run 1; Run 2; Run 3; Run 2; Run 3; Run 0; Run 1; Run 2; Run 3; Run 0; Run 1;
   Run 2; Run 3; Run 2; Run 3; Run 2; Run 3].

(** Two nodes that dial each other at the same time can end with no connection
    at all, though both calls of [ConnectDirect] return without an error: each
    finds the connection it accepted, drops the one it dialled, and so closes
    the one the other has kept. *)
Theorem mutual_dial_disconnects :
  let w := run_sample sample_mutual in
  run true sample_addr sample_resolve sample_mutual sample_world = Some w
  /\ tasks w !! 0%nat = Some (0%nat, TReturn (Ok (text "bob"%string, None)))
  /\ tasks w !! 1%nat = Some (1%nat, TReturn (Ok (text "alice"%string, None)))
  /\ (Peers <$> nodes w !! 0%nat) = Some [] /\ (Peers <$> nodes w !! 1%nat) = Some []
  /\ forallb (fun l => negb (is_open l true) && negb (is_open l false)) (links w) = true.
Proof. vm_compute; repeat split; reflexivity. Qed.

Definition after_stop : list event := sample_dial ++ [Stop 0].

Lemma conn_table_sound_witness :
  let w := run_sample sample_dial in
  let c := mkConn (text "bob"%string) (text ":9002"%string) (0%nat, true) in
  ((0%nat, TPanicked) ∉ tasks w)
  /\ NodeID c = text "bob"%string /\ keeps_conn w 0 c.
Proof.
  intros w c; destruct (nodes w !! 0%nat) as [nd|] eqn:En; [|vm_compute in En; discriminate].
  destruct (conn_table_sound true sample_addr sample_resolve sample_dial sample_world w sample_initial) as [Hp Hc];
    [vm_compute; reflexivity|].
  split; [exact (Hp 0%nat)|]; destruct (Hc 0%nat nd (text "bob"%string) c En) as (Hi & Hk & _);
    [vm_compute in En; injection En as <-; vm_compute; reflexivity|split; assumption].
Defined.

Lemma sockets_owned_witness :
  let w := run_sample sample_dial in
  exists t, (0%nat, t) ∈ tasks w /\ task_end t = Some (0%nat, true).
Proof.
  intros w; destruct (links w !! 0%nat) as [l|] eqn:E; [|vm_compute in E; discriminate].
  assert (Hl : is_open l true = true /\ holder l true = 0%nat)
    by (vm_compute in E; injection E as <-; split; reflexivity).
  destruct (sockets_owned true sample_addr sample_resolve sample_dial sample_world w 0 l true sample_initial) as (t & Hin & He & _);
    [vm_compute; reflexivity|exact E|apply Hl|]; exists t; rewrite (proj2 Hl) in Hin; split; assumption.
Defined.


Lemma discovery_one_dialer_witness :
  let na := sample_node "alice"%string 9001 in let nb := sample_node "bob"%string 9002 in
  let pa := mkPeer (text "alice"%string) (text "h:9001"%string) in
  let pb := mkPeer (text "bob"%string) (text "h:9002"%string) in
  (handlePeerEvent 0 na pb true sample_world = spawn 0 (TDial None (p_Address pb)) sample_world
     /\ handlePeerEvent 1 nb pa true sample_world = sample_world)
  \/ (handlePeerEvent 0 na pb true sample_world = sample_world
     /\ handlePeerEvent 1 nb pa true sample_world = spawn 1 (TDial None (p_Address pa)) sample_world).
Proof. intros na nb pa pb; apply (discovery_one_dialer 0 1 na nb pa pb sample_world); [discriminate|reflexivity|reflexivity]. Defined.

Lemma honest_connect_witness :
  let w := run_sample sample_dial in
  exists l, links w = [l] /\ usable l true = true /\ usable l false = true.
Proof.
  intros w.
  destruct (honest_connect true sample_addr sample_resolve sample_world 0 1 (sample_node "alice"%string 9001) (sample_node "bob"%string 9002)
    (text ":9002"%string) sample_initial) as (w' & l & Hr & _ & _ & _ & Hl & Hu);
    [discriminate|reflexivity|reflexivity|discriminate|reflexivity|reflexivity|].
  exists l; unfold w, run_sample, sample_dial; rewrite Hr; split; assumption.
Defined.
