(* ===== verification/Router.v ===== *)
(** * Router: one destination, many interfaces

    Models [router.go] and [interface.go]. The router's slice is a header over a
    backing array in memory, because [Register] appends to it and sorts it in
    place while a [Send] may still be walking an older header. What a handler
    answers and what [Node.Send] does on the network are parameters. *)

From S2P Require Import Prelude HsLabels HsFrames NodeWire NodeNet.
From stdpp Require Import gmap sorting.
From Stdlib Require String.
Import String.StringSyntax.
Local Delimit Scope string_scope with string.
Local Open Scope Z_scope.

Definition Destination : Type := list byte.

Section router.
(** The live values a payload can carry. *)
Context {V : Type}.

(** [Encode] is nil for a payload that cannot cross a wire. *)
Record Payload : Type := mkPayload { Value : option V; Encode : option (list byte) }.
Definition no_payload : Payload := mkPayload None None.

Inductive route_error : Type :=
| ErrNoRoute
| ErrNotRegistered (dst : Destination)
| ErrNotEncodable
| ErrSend (e : net_error)
| ErrHandler (v : V).

(** The sender a handler sees, and the payload. *)
Definition LocalHandler : Type := Destination -> Payload -> result Payload route_error.

(** What a send does to the world outside the router. *)
Inductive effect : Type :=
| Handled (dst from : Destination) (p : Payload)
| Encoded
| Sent (peer : list byte) (m : list byte).

(** [Node.Send]. *)
Context (Node_Send : Node -> list byte -> list byte -> result unit net_error).

(** ** Interfaces *)

Inductive Interface : Type :=
| InProcessInterface (handlers : gmap Destination LocalHandler)
| NodeInterface (node : option Node) (cost : Z) (connectedOnly : bool).

Definition NewInProcessInterface : Interface := InProcessInterface ∅.
Definition DefaultNodeCost : Z := 10.
Definition NewNodeInterface (n : option Node) : Interface := NodeInterface n DefaultNodeCost false.

(** [InProcessInterface.Register]; a nil handler unregisters. *)
Definition InProcess_Register (h : gmap Destination LocalHandler) (dst : Destination) (f : option LocalHandler)
  : gmap Destination LocalHandler :=
  match f with None => delete dst h | Some f => <[dst := f]> h end.

Definition WithCost (c : Z) (i : Interface) : Interface :=
  match i with NodeInterface n _ o => NodeInterface n c o | _ => i end.
Definition ConnectedOnly (i : Interface) : Interface :=
  match i with NodeInterface n c _ => NodeInterface n c true | _ => i end.

Definition Name (i : Interface) : list byte :=
  match i with InProcessInterface _ => text "inprocess"%string | NodeInterface _ _ _ => text "node-tcp"%string end.
Definition Cost (i : Interface) : Z :=
  match i with InProcessInterface _ => 0 | NodeInterface _ c _ => c end.

Definition CanReach (i : Interface) (dst : Destination) : bool :=
  match i with
  | InProcessInterface h => bool_decide (is_Some (h !! dst))
  | NodeInterface None _ _ => false
  | NodeInterface (Some n) _ false => true
  | NodeInterface (Some n) _ true => existsb (fun p => bytes_eqb p dst) (Peers n)
  end.

(** The answer, and what happened on the way. Calling [Send] on a nil node is a
    nil dereference. *)
Definition Deliver (i : Interface) (dst : Destination) (p : Payload)
  : outcome (result Payload route_error * list effect) :=
  match i with
  | InProcessInterface h =>
      match h !! dst with
      | None => Ret (Err (ErrNotRegistered dst), [])
      | Some f => Ret (f [] p, [Handled dst [] p])
      end
  | NodeInterface n _ _ =>
      match Encode p with
      | None => Ret (Err ErrNotEncodable, [])
      | Some m =>
          n ← deref n;
          match Node_Send n dst m with
          | Err e => Ret (Err (ErrSend e), [Encoded; Sent dst m])
          | Ok _ => Ret (Ok no_payload, [Encoded; Sent dst m])
          end
      end
  end.

(** ** The router *)

(** Interfaces are shared objects, named by their index in a list of them. The
    backing arrays there have been, and the header [t.ifaces]: array and
    length. A cell past the length holds nothing yet. *)
Record Router : Type := mkRouter { arrays : list (list (option nat)); ifaces : nat * nat }.

Definition NewRouter : Router := mkRouter [[]] (0%nat, 0%nat).

(** The interfaces a header gives, in memory as it is. *)
Definition elems (mem : list (list (option nat))) (h : nat * nat) : list nat :=
  omap id (take h.2 (default [] (mem !! h.1))).

Section cost.
Context (cost : nat -> Z).

(** [sort.SliceStable]: a stable sort, here by insertion. *)
Fixpoint insert_stable (x : nat) (l : list nat) : list nat :=
  match l with
  | [] => [x]
  | y :: l => if cost x <? cost y then x :: y :: l else y :: insert_stable x l
  end.
Definition SliceStable (l : list nat) : list nat := foldl (fun acc x => insert_stable x acc) [] l.
End cost.

(** The cost of an object, as the comparison of the sort reads it. *)
Definition cost_of (os : list Interface) (i : nat) : Z := from_option Cost 0 (os !! i).

(** [growslice]: the capacity of the array [append] allocates for a slice of the
    given length that is full. *)
Context (growslice : nat -> nat).

Definition append (r : Router) (i : nat) : Router :=
  let '(a, n) := ifaces r in
  let arr := default [] (arrays r !! a) in
  if (n <? length arr)%nat then mkRouter (<[a := <[n := Some i]> arr]> (arrays r)) (a, S n)
  else mkRouter (arrays r ++ [take n arr ++ [Some i] ++ replicate (growslice n - S n) None])
         (length (arrays r), S n).

(** [Register]: append, then sort the cells of the header in place. *)
Definition Register (os : list Interface) (r : Router) (i : nat) : Router :=
  let r := append r i in
  let '(a, n) := ifaces r in
  let arr := default [] (arrays r !! a) in
  mkRouter (<[a := (Some <$> SliceStable (cost_of os) (elems (arrays r) (a, n))) ++ drop n arr]> (arrays r)) (a, n).

(** [Interfaces] copies what the header gives now. *)
Definition Interfaces (r : Router) : list nat := elems (arrays r) (ifaces r).

(** The walk of [Send] from position [k], which reads the memory of that moment
    at each position. *)
Fixpoint walk (mem : nat -> list (list (option nat))) (os : list Interface) (h : nat * nat) (fuel k : nat)
  (dst : Destination) (p : Payload) : outcome (result Payload route_error * list effect) :=
  match fuel with
  | O => Ret (Err ErrNoRoute, [])
  | S fuel =>
      i ← deref (x ← mem k !! h.1; y ← x !! k; y);
      i ← deref (os !! i);
      if CanReach i dst then Deliver i dst p else walk mem os h fuel (S k) dst p
  end.

(** [Send] with nobody else at work: the memory does not change. *)
Definition Send (os : list Interface) (r : Router) (dst : Destination) (p : Payload)
  : outcome (result Payload route_error * list effect) :=
  walk (fun _ => arrays r) os (ifaces r) (ifaces r).2 0 dst p.

(** ** What the router promises *)

(** The cheapest interface that reaches, the earliest of equal ones: a scan in
    the order of registration that keeps the best so far. *)
Definition better (os : list Interface) (dst : Destination) (best : option nat) (i : nat) : option nat :=
  if from_option (fun o => CanReach o dst) false (os !! i) then
    match best with
    | None => Some i
    | Some b => if cost_of os i <? cost_of os b then Some i else best
    end
  else best.
Definition cheapest (os : list Interface) (dst : Destination) (reg : list nat) : option nat :=
  foldl (better os dst) None reg.

Definition spec_send (os : list Interface) (reg : list nat) (dst : Destination) (p : Payload)
  : outcome (result Payload route_error * list effect) :=
  match cheapest os dst reg with
  | None => Ret (Err ErrNoRoute, [])
  | Some i => i ← deref (os !! i); Deliver i dst p
  end.

Definition registered (os : list Interface) (reg : list nat) : Router := foldl (Register os) NewRouter reg.

(** The header is inside its array, and every cell below it is filled. *)
Definition router_ok (r : Router) (l : list nat) : Prop :=
  exists arr, arrays r !! (ifaces r).1 = Some ((Some <$> l) ++ arr) /\ (ifaces r).2 = length l.

End router.

Arguments Payload V : clear implicits.
Arguments Interface V : clear implicits.
Arguments effect V : clear implicits.
Arguments route_error V : clear implicits.

Section proofs.
Context {V : Type} (Node_Send : Node -> list byte -> list byte -> result unit net_error).
Context (growslice : nat -> nat).
Implicit Types (os : list (Interface V)) (r : Router) (l reg : list nat).

Definition cost_le (cost : nat -> Z) (x y : nat) : Prop := cost x <= cost y.
Definition reaches os (dst : Destination) (i : nat) : bool := from_option (fun o => CanReach o dst) false (os !! i).

(** *** The sort *)

Lemma insert_stable_perm cost x l : insert_stable cost x l ≡ₚ x :: l.
Proof.
  induction l as [|y l IH]; cbn [insert_stable]; [done|]; case_if; [done|].
  rewrite IH; apply perm_swap.
Qed.

Lemma insert_stable_sorted cost x l :
  StronglySorted (cost_le cost) l -> StronglySorted (cost_le cost) (insert_stable cost x l).
Proof.
  induction l as [|y l IH]; intros Hs; cbn [insert_stable]; [repeat constructor|].
  apply StronglySorted_inv in Hs as [Hs Hy]; unfold cost_le in *; case_if; constructor.
  - by constructor.
  - constructor; [lia|]; eapply Forall_impl; [exact Hy|]; cbn; intros; lia.
  - by apply IH.
  - rewrite insert_stable_perm; constructor; [lia|done].
Qed.

Lemma insert_stable_last cost x l :
  Forall (fun y => cost_le cost y x) l -> insert_stable cost x l = l ++ [x].
Proof.
  unfold cost_le; induction 1 as [|y l Hy Hl IH]; cbn [insert_stable app]; [done|].
  case_if; [lia|by rewrite IH].
Qed.

Lemma SliceStable_snoc cost l x : SliceStable cost (l ++ [x]) = insert_stable cost x (SliceStable cost l).
Proof. unfold SliceStable; by rewrite foldl_snoc. Qed.

Lemma SliceStable_sorted cost l : StronglySorted (cost_le cost) (SliceStable cost l).
Proof.
  induction l as [|x l IH] using rev_ind; [constructor|]; rewrite SliceStable_snoc; by apply insert_stable_sorted.
Qed.

Lemma SliceStable_perm cost l : SliceStable cost l ≡ₚ l.
Proof.
  induction l as [|x l IH] using rev_ind; [done|]; rewrite SliceStable_snoc, insert_stable_perm, IH.
  apply Permutation_cons_append.
Qed.

(** Sorting what is sorted changes nothing. *)
Lemma SliceStable_id cost l : StronglySorted (cost_le cost) l -> SliceStable cost l = l.
Proof.
  induction l as [|x l IH] using rev_ind; intros Hs; [done|]; apply StronglySorted_app in Hs as (Hall & Hl & _).
  rewrite SliceStable_snoc, IH by done; apply insert_stable_last; apply Forall_forall; intros y Hy.
  by apply (Hall y x Hy), list_elem_of_singleton.
Qed.

(** *** The memory *)

Lemma router_ok_elems r l : router_ok r l -> elems (arrays r) (ifaces r) = l.
Proof.
  intros (arr & Ha & Hn); unfold elems; rewrite Ha, Hn; cbn [from_option id].
  rewrite take_app_length' by (by rewrite length_fmap); unfold id; clear; induction l; cbn; congruence.
Qed.

Lemma append_ok r l i : router_ok r l -> router_ok (append growslice r i) (l ++ [i]).
Proof.
  destruct r as [mem [a n]]; intros (arr & Ha & Hn); cbn [arrays ifaces fst snd] in *; subst n.
  assert (Hl : length (Some <$> l) = length l) by apply length_fmap.
  unfold append, router_ok; cbn [ifaces arrays]; rewrite Ha; cbn [from_option id]; rewrite length_app, Hl.
  destruct (Nat.ltb_spec (length l) (length l + length arr)) as [Hlt|Hge]; cbn [arrays ifaces fst snd].
  - destruct arr as [|x arr]; [cbn in Hlt; lia|]; exists arr; split; [|by rewrite length_app, Nat.add_1_r].
    rewrite list_lookup_insert_eq by (by eapply lookup_lt_Some).
    rewrite fmap_app, <- app_assoc; cbn; f_equal; by rewrite insert_app_r_alt, Hl, Nat.sub_diag by lia.
  - exists (replicate (growslice (length l) - S (length l)) None); split; [|by rewrite length_app, Nat.add_1_r].
    rewrite list_lookup_middle by done; rewrite take_app_length' by done; by rewrite fmap_app, <- app_assoc.
Qed.

Lemma Register_ok os r l i :
  router_ok r l -> router_ok (Register growslice os r i) (SliceStable (cost_of os) (l ++ [i])).
Proof.
  intros Hr; pose proof (append_ok r l i Hr) as Hok; pose proof (router_ok_elems _ _ Hok) as He; unfold Register.
  destruct (append growslice r i) as [mem [a n]]; destruct Hok as (arr & Ha & Hn); cbn [arrays ifaces fst snd] in *.
  rewrite He, Ha; cbn [from_option id]; exists arr; cbn [arrays ifaces fst snd].
  rewrite list_lookup_insert_eq by (by eapply lookup_lt_Some).
  rewrite drop_app_length' by (by rewrite length_fmap); split; [done|].
  by rewrite (Permutation_length (SliceStable_perm (cost_of os) (l ++ [i]))).
Qed.

Lemma registered_ok os reg : router_ok (registered growslice os reg) (SliceStable (cost_of os) reg).
Proof.
  induction reg as [|i reg IH] using rev_ind; [by exists []|].
  unfold registered; rewrite foldl_snoc; apply (Register_ok os _ _ i) in IH.
  rewrite SliceStable_snoc, SliceStable_id in IH by apply SliceStable_sorted; by rewrite SliceStable_snoc.
Qed.

(** *** The walk *)

Lemma walk_find mem os h l arr dst p :
  Forall (fun i => is_Some (os !! i)) l -> forall pre,
  mem !! h.1 = Some ((Some <$> pre ++ l) ++ arr) ->
  walk Node_Send (fun _ => mem) os h (length l) (length pre) dst p
  = match List.find (reaches os dst) l with
    | None => Ret (Err ErrNoRoute, [])
    | Some i => o ← deref (os !! i); Deliver Node_Send o dst p
    end.
Proof.
  induction 1 as [|i l [o Ho] Hl IH]; intros pre Hm; [done|].
  assert (Hk : ((Some <$> pre ++ i :: l) ++ arr) !! length pre = Some (Some i)).
  { rewrite fmap_app, <- app_assoc; apply list_lookup_middle; by rewrite length_fmap. }
  cbn [walk length]; rewrite Hm; cbn [mbind option_bind]; rewrite Hk; cbn [mbind option_bind deref outcome_bind].
  rewrite Ho; cbn [mbind option_bind deref outcome_bind]; cbn [List.find].
  unfold reaches at 1; rewrite Ho; cbn [from_option]; destruct (CanReach o dst).
  - rewrite Ho; done.
  - rewrite <- (IH (pre ++ [i])) by (by rewrite <- app_assoc); by rewrite length_app, Nat.add_1_r.
Qed.

(** The first that reaches, in a sorted list, is the best so far. *)
Lemma find_insert os dst x l :
  StronglySorted (cost_le (cost_of os)) l ->
  List.find (reaches os dst) (insert_stable (cost_of os) x l) = better os dst (List.find (reaches os dst) l) x.
Proof.
  induction l as [|y l IH]; intros Hs; cbn [insert_stable List.find]; unfold better; fold (reaches os dst x).
  { by destruct (reaches os dst x). }
  apply StronglySorted_inv in Hs as [Hs Hy]; destruct (Z.ltb_spec (cost_of os x) (cost_of os y)) as [Hxy|Hxy]; cbn [List.find].
  - destruct (reaches os dst x); [|done]; destruct (reaches os dst y); [by rewrite (proj2 (Z.ltb_lt _ _) Hxy)|].
    destruct (List.find (reaches os dst) l) as [b|] eqn:Hb; [|done].
    apply List.find_some in Hb as [Hb _]; apply list_elem_of_In in Hb; rewrite Forall_forall in Hy.
    specialize (Hy b Hb); unfold cost_le in Hy; by rewrite (proj2 (Z.ltb_lt _ _)) by lia.
  - destruct (reaches os dst y); [|rewrite IH by done; done].
    rewrite (proj2 (Z.ltb_ge _ _) Hxy); by destruct (reaches os dst x).
Qed.

Lemma find_cheapest os dst reg :
  List.find (reaches os dst) (SliceStable (cost_of os) reg) = cheapest os dst reg.
Proof.
  induction reg as [|i reg IH] using rev_ind; [done|].
  rewrite SliceStable_snoc, find_insert, IH by apply SliceStable_sorted; unfold cheapest; by rewrite foldl_snoc.
Qed.

Lemma Send_spec os reg dst p :
  Forall (fun i => is_Some (os !! i)) reg ->
  Send Node_Send os (registered growslice os reg) dst p = spec_send Node_Send os reg dst p.
Proof.
  intros Hreg; destruct (registered_ok os reg) as (arr & Ha & Hn); unfold Send, spec_send; rewrite Hn.
  change 0%nat with (length (@nil nat)); rewrite (walk_find _ os _ _ arr dst p).
  - by rewrite find_cheapest.
  - by rewrite SliceStable_perm.
  - exact Ha.
Qed.

(** The scan finds an interface exactly when one reaches, and none that
    reaches is cheaper. *)
Lemma cheapest_best os dst reg :
  match cheapest os dst reg with
  | None => forall j, j ∈ reg -> reaches os dst j = false
  | Some i => i ∈ reg /\ reaches os dst i = true
      /\ forall j, j ∈ reg -> reaches os dst j = true -> cost_of os i <= cost_of os j
  end.
Proof.
  induction reg as [|x reg IH] using rev_ind; [intros j Hj; by apply not_elem_of_nil in Hj|].
  unfold cheapest in *; rewrite foldl_snoc; set (b := foldl _ None reg) in *; unfold better; fold (reaches os dst x).
  assert (Hsplit : forall j, j ∈ reg ++ [x] -> j ∈ reg \/ j = x).
  { intros j; rewrite elem_of_app, list_elem_of_singleton; done. }
  assert (Hx : x ∈ reg ++ [x]) by (apply elem_of_app; right; by apply list_elem_of_singleton).
  destruct (reaches os dst x) eqn:Hr; destruct b as [b|].
  - destruct IH as (Hb & Hrb & Hmin); case_if; (split; [first [done|apply elem_of_app; by left]|split; [done|]]);
      intros j Hj Hrj; destruct (Hsplit j Hj) as [Hj'| ->]; try lia; specialize (Hmin j Hj' Hrj); lia.
  - split; [done|split; [done|]]; intros j Hj Hrj; destruct (Hsplit j Hj) as [Hj'| ->]; [|lia].
    rewrite (IH j Hj') in Hrj; done.
  - destruct IH as (Hb & Hrb & Hmin); split; [apply elem_of_app; by left|split; [done|]].
    intros j Hj Hrj; destruct (Hsplit j Hj) as [Hj'| ->]; [by apply Hmin|congruence].
  - intros j Hj; destruct (Hsplit j Hj) as [Hj'| ->]; [by apply IH|done].
Qed.
End proofs.

Section theorems.
Context {V : Type} (Node_Send : Node -> list byte -> list byte -> result unit net_error).
Context (growslice : nat -> nat).

(** C25: the router is its reference: whatever was registered in whatever order, and
    however its array grew, a send with nobody else at work is the delivery of
    a scan in the order of registration that keeps the cheapest interface that
    reaches, the first of equal ones; it is [ErrNoRoute] exactly when none
    reaches. *)
Theorem router_equiv_scan (os : list (Interface V)) reg dst p :
  Forall (fun i => is_Some (os !! i)) reg ->
  Send Node_Send os (registered growslice os reg) dst p = spec_send Node_Send os reg dst p
  /\ match cheapest os dst reg with
     | None => forall j, j ∈ reg -> reaches os dst j = false
     | Some i => i ∈ reg /\ reaches os dst i = true
         /\ forall j, j ∈ reg -> reaches os dst j = true -> cost_of os i <= cost_of os j
     end.
Proof. intros H; split; [by apply Send_spec|apply cheapest_best]. Qed.

(** A destination served in this process. *)
Definition local (os : list (Interface V)) (reg : list nat) (dst : Destination) : Prop :=
  exists i h, i ∈ reg /\ os !! i = Some (InProcessInterface h) /\ is_Some (h !! dst).

(** Where the message goes is decided by where its destination is. With every
    network interface at a positive cost, a send never panics; a destination
    served in this process gets the live payload by a direct call and nothing
    is encoded; any other payload crosses a wire only in its encoded form,
    encoded once, or not at all. *)
Theorem route_locality (os : list (Interface V)) reg dst p :
  Forall (fun i => is_Some (os !! i)) reg ->
  (forall i n c o, i ∈ reg -> os !! i = Some (NodeInterface n c o) -> 0 < c) ->
  exists res effs, Send Node_Send os (registered growslice os reg) dst p = Ret (res, effs)
    /\ (local os reg dst -> effs = [Handled dst [] p])
    /\ (~ local os reg dst -> effs = [] \/ exists m, Encode p = Some m /\ effs = [Encoded; Sent dst m]).
Proof.
  intros Hreg Hpos; rewrite Send_spec by done; unfold spec_send; pose proof (cheapest_best os dst reg) as Hc.
  assert (Hloc : local os reg dst -> exists i h, i ∈ reg /\ os !! i = Some (InProcessInterface h)
    /\ reaches os dst i = true /\ cost_of os i = 0).
  { intros (i & h & Hi & Ho & Hd); exists i, h; unfold reaches, cost_of; rewrite Ho; cbn.
    split; [done|split; [done|split; [by apply bool_decide_eq_true|done]]]. }
  destruct (cheapest os dst reg) as [i|].
  - destruct Hc as (Hi & Hr & Hmin); unfold reaches in Hr; destruct (os !! i) as [o|] eqn:Ho; [|discriminate].
    cbn [from_option] in Hr; cbn [deref mbind outcome_bind]; destruct o as [h|n c o]; cbn [CanReach Deliver] in *.
    + apply bool_decide_eq_true in Hr; destruct (h !! dst) as [f|] eqn:Hf; [|by destruct Hr].
      eexists _, _; split; [reflexivity|split; [done|]]; intros Hno; destruct Hno; exists i, h; rewrite Hf; eauto.
    + destruct n as [n|]; [|discriminate].
      assert (Hnl : ~ local os reg dst).
      { intros H; destruct (Hloc H) as (j & h & Hj & _ & Hrj & Hcj); specialize (Hmin j Hj Hrj).
        specialize (Hpos i (Some n) c o Hi Ho); unfold cost_of in *; rewrite Ho in Hmin; cbn in *; lia. }
      destruct (Encode p) as [m|]; cbn [deref mbind outcome_bind].
      * destruct (Node_Send n dst m); eexists _, _; (split; [reflexivity|split; [done|]]); eauto.
      * eexists _, _; split; [reflexivity|split; [done|auto]].
  - eexists _, _; split; [reflexivity|split; [|auto]]; intros H; destruct (Hloc H) as (j & h & Hj & _ & Hrj & _).
    rewrite (Hc j Hj) in Hrj; discriminate.
Qed.
End theorems.

(** ** Samples *)

Definition to (dst : Destination) (answer : nat) : Interface nat :=
  InProcessInterface {[dst := fun _ _ => Ok (mkPayload (Some answer) None)]}.
Definition sink : Destination := text "sink"%string.
Definition other : Destination := text "other"%string.
Definition offline : Node -> list byte -> list byte -> result unit net_error := fun _ _ _ => Err EDial.
Definition doubled (n : nat) : nat := Nat.max 1 (2 * n).

(** Three network interfaces that only go where a session exists, of which the
    third has one with the sink, and a cheaper interface that comes later. *)
Definition peered (c : Z) (peer : Destination) : Interface nat :=
  NodeInterface (Some (with_conns {[peer := mkConn peer [] (0%nat, true)]} (sample_node "n"%string 1))) c true.
Definition sample_objects : list (Interface nat) :=
  [peered 10 other; peered 11 other; peered 12 sink; to other 7].
Definition before : Router := registered doubled sample_objects [0; 1; 2]%nat.
Definition after : Router := Register doubled sample_objects before 3%nat.

(** A send that has taken its header walks the array while [Register] sorts it.
    Here the third interface, registered before and after, can reach the sink;
    a send alone finds it in either state; a send that reads its first entry
    before the registration and the others after it finds no route. *)
Theorem register_races_send :
  let p := mkPayload (Some 1%nat) (Some []) in
  let racing k := match k with O => arrays before | S _ => arrays after end in
  Send offline sample_objects before sink p = Ret (Err (ErrSend EDial), [Encoded; Sent sink []])
  /\ Send offline sample_objects after sink p = Ret (Err (ErrSend EDial), [Encoded; Sent sink []])
  /\ walk offline racing sample_objects (ifaces before) (ifaces before).2 0 sink p = Ret (Err ErrNoRoute, []).
Proof. vm_compute; repeat split; reflexivity. Qed.

Lemma router_equiv_scan_witness :
  Send offline sample_objects (registered doubled sample_objects [2; 3; 0]%nat) other (mkPayload (Some 1%nat) None)
  = Ret (Ok (mkPayload (Some 7%nat) None), [Handled other [] (mkPayload (Some 1%nat) None)]).
Proof.
  rewrite (proj1 (router_equiv_scan offline doubled sample_objects [2; 3; 0]%nat other (mkPayload (Some 1%nat) None)
    ltac:(repeat constructor; eauto))).
  vm_compute; reflexivity.
Defined.

Lemma route_locality_witness :
  exists res, Send offline sample_objects after other (mkPayload (Some 1%nat) None)
    = Ret (res, [Handled other [] (mkPayload (Some 1%nat) None)]).
Proof.
  destruct (route_locality offline doubled sample_objects [0; 1; 2; 3]%nat other (mkPayload (Some 1%nat) None))
    as (res & effs & Hs & Hl & _).
  - repeat constructor; eauto.
  - intros i n c o Hi Ho; repeat (apply elem_of_cons in Hi as [->|Hi]; [cbn in Ho; try discriminate; injection Ho; lia|]).
    by apply not_elem_of_nil in Hi.
  - exists res; rewrite <- Hl; [exact Hs|]; exists 3%nat; eexists; split; [|split; [reflexivity|eexists; vm_compute; reflexivity]].
    repeat constructor.
Defined.
