(* ===== verification/Http.v ===== *)
(** * Http: the parts of Go's library that HTTP forwarding uses

    Header maps with their canonical keys ([net/http], [net/textproto]), and the
    conversions of [strings] and [strconv]. Strings are byte lists. What Go
    takes from the Unicode tables for a string that is not ASCII is a parameter
    of the class [Unicode]; nothing is assumed about it. *)

From S2P Require Import Prelude NodeNet.
From stdpp Require Import gmap.
From Stdlib Require String.
Import String.StringSyntax.
Local Delimit Scope string_scope with string.
Local Open Scope Z_scope.

Abbreviation str := (list byte).

(** ** Bytes *)

Definition is_ascii (s : str) : bool := forallb (fun b => byte.unsigned b <? 128) s.
Definition between (lo hi : Z) (b : byte) : bool := (lo <=? byte.unsigned b) && (byte.unsigned b <=? hi).
Definition lower_letter (b : byte) : bool := between 97 122 b.
Definition upper_letter (b : byte) : bool := between 65 90 b.
Definition digit (b : byte) : bool := between 48 57 b.
Definition to_upper (b : byte) : byte := if lower_letter b then byte.of_Z (byte.unsigned b - 32) else b.
Definition to_lower (b : byte) : byte := if upper_letter b then byte.of_Z (byte.unsigned b + 32) else b.

(** Go's answers for strings with bytes outside ASCII. *)
Class Unicode : Type := {
  unicode_upper : str -> str;
  unicode_fold : str -> str -> bool;
  unicode_trim : str -> str
}.

(** [strings.ToUpper], [strings.EqualFold], [strings.TrimSpace] *)
Definition ToUpper `{Unicode} (s : str) : str := if is_ascii s then map to_upper s else unicode_upper s.
Definition EqualFold `{Unicode} (s t : str) : bool :=
  if is_ascii s && is_ascii t then bytes_eqb (map to_lower s) (map to_lower t) else unicode_fold s t.

Definition space (b : byte) : bool := between 9 13 b || (byte.unsigned b =? 32).
Fixpoint trim_left (s : str) : str :=
  match s with
  | b :: s' => if space b then trim_left s' else s
  | [] => []
  end.
Definition TrimSpace `{Unicode} (s : str) : str :=
  if is_ascii s then reverse (trim_left (reverse (trim_left s))) else unicode_trim s.

(** [s[:strings.IndexByte(s, c)]] if [c] occurs, else [s]. *)
Fixpoint before_byte (c : byte) (s : str) : str :=
  match s with
  | b :: s' => if Byte.eqb b c then [] else b :: before_byte c s'
  | [] => []
  end.

(** ** Numbers and booleans *)

(** [strconv.ParseBool], its error dropped. *)
Definition ParseBool (s : str) : bool :=
  existsb (bytes_eqb s) (map text ["1"; "t"; "T"; "TRUE"; "true"; "True"]%string).

(** The digits of [strconv.ParseUint(s, 10, 64)], from the value so far. *)
Inductive uint_result : Type := UValue (n : Z) | URange | USyntax.
Fixpoint ParseUint (s : str) (n : Z) : uint_result :=
  match s with
  | [] => UValue n
  | c :: s =>
      if negb (digit c) then USyntax else
      if (2 ^ 64 - 1) / 10 + 1 <=? n then URange else
      let n1 := n * 10 + (byte.unsigned c - 48) in
      if 2 ^ 64 - 1 <? n1 then URange else ParseUint s n1
  end.

(** [strconv.ParseInt(s, 10, 64)], its error dropped: out of range it is the
    nearest integer, otherwise malformed zero. *)
Definition ParseInt (s : str) : Z :=
  let '(neg, digits) :=
    match s with
    | c :: s' => if Byte.eqb c Byte.x2d then (true, s') else if Byte.eqb c Byte.x2b then (false, s') else (false, s)
    | [] => (false, [])
    end in
  match digits with
  | [] => 0
  | _ =>
      match ParseUint digits 0 with
      | USyntax => 0
      | URange => if neg then - 2 ^ 63 else 2 ^ 63 - 1
      | UValue un =>
          if negb neg && (2 ^ 63 <=? un) then 2 ^ 63 - 1
          else if neg && (2 ^ 63 <? un) then - 2 ^ 63
          else if neg then - un else un
      end
  end.

Definition FormatBool (b : bool) : str := if b then text "true"%string else text "false"%string.
Definition FormatInt (n : Z) : str :=
  if n <? 0 then Byte.x2d :: digits 20 (- n) [] else digits 20 n [].

(** ** Header maps *)

(** The bytes of an HTTP token. *)
Definition tokenTable (b : byte) : bool :=
  digit b || upper_letter b || lower_letter b || existsb (Byte.eqb b) (text "!#$%&'*+-.^_`|~"%string).

Definition isHTTPToken (s : str) : bool := negb (len s =? 0) && forallb tokenTable s.

(** [textproto.CanonicalMIMEHeaderKey]: a key with another byte stays as it is. *)
Fixpoint capitalize (upper : bool) (s : str) : str :=
  match s with
  | [] => []
  | c :: s =>
      let c' := if upper then to_upper c else to_lower c in
      c' :: capitalize (Byte.eqb c' Byte.x2d) s
  end.
Definition CanonicalHeaderKey (s : str) : str := if forallb tokenTable s then capitalize true s else s.

Abbreviation Header := (gmap str (list str)).

Definition Header_Values (h : Header) (k : str) : list str := default [] (h !! k).
Definition Header_Get (h : Header) (k : str) : str := default [] (head (Header_Values h (CanonicalHeaderKey k))).
Definition Header_Set (h : Header) (k v : str) : Header := <[CanonicalHeaderKey k := [v]]> h.
Definition Header_Add (h : Header) (k v : str) : Header :=
  let k := CanonicalHeaderKey k in <[k := Header_Values h k ++ [v]]> h.
Definition Header_Del (h : Header) (k : str) : Header := delete (CanonicalHeaderKey k) h.

(** [strings.HasPrefix] with a literal. *)
Definition starts (p : String.string) (s : str) : bool := HasPrefix s (text p).

(** ** Lemmas *)

Lemma token_ascii b : tokenTable b = true -> (byte.unsigned b <? 128) = true.
Proof. by destruct b; vm_compute. Qed.
Lemma token_upper b : tokenTable b = true -> tokenTable (to_upper b) = true.
Proof. by destruct b; vm_compute. Qed.
Lemma token_lower b : tokenTable b = true -> tokenTable (to_lower b) = true.
Proof. by destruct b; vm_compute. Qed.
Lemma upper_upper b : to_upper (to_upper b) = to_upper b.
Proof. by destruct b; vm_compute. Qed.
Lemma lower_lower b : to_lower (to_lower b) = to_lower b.
Proof. by destruct b; vm_compute. Qed.
Lemma upper_lower b : to_upper (to_lower b) = to_upper b.
Proof. by destruct b; vm_compute. Qed.

Lemma forallb_impl {A} (P Q : A -> bool) l : (forall x, P x = true -> Q x = true) -> forallb P l = true -> forallb Q l = true.
Proof. intros H; rewrite !forallb_forall; auto. Qed.

Lemma tokens_ascii s : forallb tokenTable s = true -> is_ascii s = true.
Proof. apply forallb_impl, token_ascii. Qed.

Lemma capitalize_tokens s : forall u, forallb tokenTable s = true -> forallb tokenTable (capitalize u s) = true.
Proof.
  induction s as [|c s IH]; intros u; cbn [capitalize forallb]; [done|]; intros H; apply andb_true_iff in H as [Hc Hs].
  apply andb_true_iff; split; [destruct u; auto using token_upper, token_lower|by apply IH].
Qed.

Lemma capitalize_idem s : forall u, capitalize u (capitalize u s) = capitalize u s.
Proof.
  induction s as [|c s IH]; intros u; cbn [capitalize]; [done|].
  destruct u; rewrite ?upper_upper, ?lower_lower, IH; done.
Qed.

Lemma upper_capitalize s : forall u, map to_upper (capitalize u s) = map to_upper s.
Proof.
  induction s as [|c s IH]; intros u; cbn [capitalize map]; [done|].
  rewrite IH; destruct u; by rewrite ?upper_upper, ?upper_lower.
Qed.

Lemma len_capitalize s : forall u, len (capitalize u s) = len s.
Proof. induction s as [|c s IH]; intros u; cbn [capitalize]; [done|]; by rewrite !len_cons, IH. Qed.

Lemma canonical_idem s : CanonicalHeaderKey (CanonicalHeaderKey s) = CanonicalHeaderKey s.
Proof.
  unfold CanonicalHeaderKey at 2; destruct (forallb tokenTable s) eqn:E; [|unfold CanonicalHeaderKey; by rewrite E].
  unfold CanonicalHeaderKey; rewrite E, capitalize_tokens by done; apply capitalize_idem.
Qed.

Lemma canonical_token s : isHTTPToken s = true -> isHTTPToken (CanonicalHeaderKey s) = true.
Proof.
  unfold isHTTPToken, CanonicalHeaderKey; intros H; apply andb_true_iff in H as [Hl Ht]; rewrite Ht.
  rewrite len_capitalize, capitalize_tokens by done; by rewrite Hl.
Qed.

(** *** Numbers *)

Lemma ParseUint_nonneg s : forall n m, 0 <= n -> ParseUint s n = UValue m -> 0 <= m.
Proof.
  induction s as [|c s IH]; intros n m Hn; cbn [ParseUint]; [intros [= <-]; done|].
  destruct (digit c) eqn:Hd; cbn [negb]; [|done]; unfold digit, between in Hd.
  case_if; [done|]; case_if; [done|]; apply IH; lia.
Qed.

Lemma ParseInt_range s : - 2 ^ 63 <= ParseInt s < 2 ^ 63.
Proof.
  unfold ParseInt; match goal with |- context [let '(_, _) := ?x in _] => destruct x as [neg ds] end.
  destruct ds as [|d ds]; [lia|]; destruct (ParseUint (d :: ds) 0) as [un| |] eqn:E; [|destruct neg; lia|lia].
  apply ParseUint_nonneg in E; [|lia]; destruct neg; cbn [negb andb]; repeat case_if; bool_to_prop; lia.
Qed.

Lemma of_digit k : 0 <= k < 10 -> byte.unsigned (byte.of_Z (48 + k)) = 48 + k.
Proof. intros; rewrite byte.unsigned_of_Z; unfold byte.wrap; apply Z.mod_small; lia. Qed.

Lemma digits_S fuel n acc :
  digits (S fuel) n acc = let acc := byte.of_Z (48 + n mod 10) :: acc in if n <? 10 then acc else digits fuel (n / 10) acc.
Proof. done. Qed.

Lemma ParseUint_digits fuel : forall n acc,
  0 <= n < 10 ^ Z.of_nat (S fuel) -> n < 2 ^ 64 -> ParseUint (digits (S fuel) n acc) 0 = ParseUint acc n.
Proof.
  induction fuel as [|fuel IH]; intros n acc Hn Hm; rewrite digits_S; cbv zeta.
  - change (10 ^ Z.of_nat 1) with 10 in Hn; replace (n <? 10) with true by lia; cbn [ParseUint]; unfold digit, between.
    rewrite of_digit, Z.mod_small by (rewrite ?Z.mod_small by lia; lia); repeat guard_false; f_equal; lia.
  - destruct (Z.ltb_spec n 10).
    + cbn [ParseUint]; unfold digit, between; rewrite of_digit, Z.mod_small by (rewrite ?Z.mod_small by lia; lia).
      repeat guard_false; f_equal; lia.
    + assert (Hq : 0 <= n / 10 < 10 ^ Z.of_nat (S fuel)).
      { split; [apply Z.div_pos; lia|]; apply Z.div_lt_upper_bound; [lia|].
        rewrite (Nat2Z.inj_succ (S fuel)), Z.pow_succ_r in Hn by lia; lia. }
      rewrite IH by (try lia; Z.div_mod_to_equations; lia); cbn [ParseUint]; unfold digit, between.
      pose proof (Z.mod_pos_bound n 10 ltac:(lia)); pose proof (Z.div_mod n 10 ltac:(lia)).
      rewrite of_digit by lia; change ((2 ^ 64 - 1) / 10 + 1) with 1844674407370955162.
      repeat guard_false; f_equal; lia.
Qed.

Lemma digits_head fuel : forall n c acc, digit c = true -> exists c' acc', digits fuel n (c :: acc) = c' :: acc' /\ digit c' = true.
Proof.
  induction fuel as [|fuel IH]; intros n c acc Hc; [by exists c, acc|]; rewrite digits_S; cbv zeta.
  assert (Hd : digit (byte.of_Z (48 + n mod 10)) = true).
  { pose proof (Z.mod_pos_bound n 10 ltac:(lia)); unfold digit, between; rewrite of_digit by lia; lia. }
  case_if; [eauto|by apply IH].
Qed.

Lemma digits_nonempty n : 0 <= n -> exists c acc, digits 20 n [] = c :: acc /\ digit c = true.
Proof.
  intros Hn; change 20%nat with (S 19); rewrite digits_S; cbv zeta.
  assert (Hd : digit (byte.of_Z (48 + n mod 10)) = true).
  { pose proof (Z.mod_pos_bound n 10 ltac:(lia)); unfold digit, between; rewrite of_digit by lia; lia. }
  case_if; [eauto|by apply digits_head].
Qed.

Lemma not_sign c : digit c = true -> Byte.eqb c Byte.x2d = false /\ Byte.eqb c Byte.x2b = false.
Proof. by destruct c; vm_compute. Qed.

Lemma ParseInt_FormatInt n : - 2 ^ 63 <= n < 2 ^ 63 -> ParseInt (FormatInt n) = n.
Proof.
  intros Hn; unfold FormatInt, ParseInt; destruct (Z.ltb_spec n 0).
  - change (Byte.eqb Byte.x2d Byte.x2d) with true; cbv iota.
    pose proof (ParseUint_digits 19 (- n) []) as Hp; change (S 19) with 20%nat in Hp; cbn [ParseUint] in Hp.
    destruct (digits_nonempty (- n)) as (c & acc & E & _); [lia|]; rewrite E in Hp |- *.
    rewrite Hp by lia; cbn [negb andb]; guard_false; lia.
  - pose proof (ParseUint_digits 19 n []) as Hp; change (S 19) with 20%nat in Hp; cbn [ParseUint] in Hp.
    destruct (digits_nonempty n) as (c & acc & E & Hc); [lia|]; rewrite E in Hp |- *.
    destruct (not_sign c Hc) as [-> ->]; rewrite Hp by lia; cbn [negb andb]; guard_false; done.
Qed.

Lemma ParseBool_FormatBool b : ParseBool (FormatBool b) = b.
Proof. by destruct b; vm_compute. Qed.
