(* ===== verification/Forward.v ===== *)
(** * Forward: HTTP over ZAP

    The package [forward]: the three envelopes ([forward.go]), the identity
    headers ([identity.go]), the gateway's client and its registry of reverse
    pushes ([client.go]), the relay ([relay.go]) and the backend's server
    ([serve.go]). Go's JSON codec for header maps and its URL parser are
    parameters of the definitions that use them, and so are the HTTP handler,
    the gate and [Node.Call]. *)

From S2P Require Import Prelude Wire Builder BuilderSpec Roundtrip Envelope NodeNet Http.
From stdpp Require Import gmap.
From Stdlib Require String.
Import String.StringSyntax.
Local Delimit Scope string_scope with string.
Local Open Scope Z_scope.

(** ** Envelopes *)

Definition MsgTypeForward : Z := 0x80.
Definition MsgTypePush : Z := 0x81.

(** A nil slice and an empty one are both the empty list: the package only
    looks at their lengths. *)
Record Forward : Type := mkForward {
  TenantID : str;
  UserID : str;
  IsAdmin : bool;
  Permissions : Z;
  Method : str;
  Path : str;
  Headers : str;
  Body : str;
  ConnID : str
}.
Record Response : Type := mkResponse { Status : Z; r_Headers : str; r_Body : str }.
Record Push : Type := mkPush { p_ConnID : str; Frame : str; Encoding : str }.

Definition fwdIsAdmin := 0.
Definition fwdPermissions := 8.
Definition fwdTenantID := 16.
Definition fwdUserID := 24.
Definition fwdMethod := 32.
Definition fwdPath := 40.
Definition fwdConnID := 48.
Definition fwdHeaders := 56.
Definition fwdBody := 64.
Definition fwdSlotSize := 72.
Definition respStatus := 0.
Definition respBody := 8.
Definition respHeaders := 16.
Definition respSlotSize := 24.
Definition pushConnID := 0.
Definition pushFrame := 8.
Definition pushEncoding := 16.
Definition pushSlotSize := 24.
#[export] Hint Unfold fwdIsAdmin fwdPermissions fwdTenantID fwdUserID fwdMethod fwdPath fwdConnID fwdHeaders fwdBody fwdSlotSize respStatus respBody respHeaders respSlotSize pushConnID pushFrame pushEncoding pushSlotSize : wire.

Definition BuildForward (f : Forward) : outcome (result Message zap_error) :=
  build_flat (fwdSlotSize + len (Headers f) + len (Body f) + len (TenantID f) + len (UserID f)
              + len (Method f) + len (Path f) + len (ConnID f) + 64) fwdSlotSize (tag MsgTypeForward)
    [fBool fwdIsAdmin (IsAdmin f);
     fUint64 fwdPermissions (u64 (Permissions f));
     fText fwdTenantID (TenantID f);
     fText fwdUserID (UserID f);
     fText fwdMethod (Method f);
     fText fwdPath (Path f);
     fText fwdConnID (ConnID f);
     fBytes fwdHeaders (Headers f);
     fBytes fwdBody (Body f)].

Definition ReadForward (m : Message) : outcome Forward :=
  r ← Message_Root m;
  isAdmin ← Object_Bool r fwdIsAdmin;
  permissions ← Object_Int64 r fwdPermissions;
  tenantID ← Object_Text r fwdTenantID;
  userID ← Object_Text r fwdUserID;
  method ← Object_Text r fwdMethod;
  path ← Object_Text r fwdPath;
  connID ← Object_Text r fwdConnID;
  headers ← copyBytes r fwdHeaders;
  body ← copyBytes r fwdBody;
  Ret (mkForward tenantID userID isAdmin permissions method path headers body connID).

Definition BuildResponse (r : Response) : outcome (result Message zap_error) :=
  build_flat (respSlotSize + len (r_Body r) + len (r_Headers r) + 32) respSlotSize (tag MsgTypeForward)
    [fUint32 respStatus (u32 (Status r));
     fBytes respBody (r_Body r);
     fBytes respHeaders (r_Headers r)].

Definition ReadResponse (m : Message) : outcome Response :=
  r ← Message_Root m;
  status ← Object_Uint32 r respStatus;
  body ← copyBytes r respBody;
  headers ← copyBytes r respHeaders;
  Ret (mkResponse status headers body).

Definition BuildPush (p : Push) : outcome (result Message zap_error) :=
  build_flat (pushSlotSize + len (Frame p) + len (p_ConnID p) + len (Encoding p) + 16) pushSlotSize (tag MsgTypePush)
    [fText pushConnID (p_ConnID p);
     fBytes pushFrame (Frame p);
     fText pushEncoding (Encoding p)].

Definition ReadPush (m : Message) : outcome Push :=
  r ← Message_Root m;
  connID ← Object_Text r pushConnID;
  frame ← copyBytes r pushFrame;
  encoding ← Object_Text r pushEncoding;
  Ret (mkPush connID frame encoding).

Definition Forward_env : Envelope Forward := {|
  typed f := - 2 ^ 63 <= Permissions f < 2 ^ 63;
  build := BuildForward;
  read := ReadForward;
  norm f := f;
  env_flags := tag MsgTypeForward;
  env_size f := 16 + fwdSlotSize + len (TenantID f) + len (UserID f) + len (Method f) + len (Path f)
                + len (ConnID f) + len (Headers f) + len (Body f)
|}.
Definition Response_env : Envelope Response := {|
  typed r := 0 <= Status r < 2 ^ 32;
  build := BuildResponse;
  read := ReadResponse;
  norm r := r;
  env_flags := tag MsgTypeForward;
  env_size r := 16 + respSlotSize + len (r_Body r) + len (r_Headers r)
|}.
Definition Push_env : Envelope Push := {|
  typed p := True;
  build := BuildPush;
  read := ReadPush;
  norm p := p;
  env_flags := tag MsgTypePush;
  env_size p := 16 + pushSlotSize + len (p_ConnID p) + len (Frame p) + len (Encoding p)
|}.
#[export] Hint Unfold BuildForward ReadForward BuildResponse ReadResponse BuildPush ReadPush Forward_env Response_env Push_env : envelope.

#[export] Instance Push_laws : EnvelopeLaws Push_env.
Proof. envelope. Qed.
#[export] Instance Response_laws : EnvelopeLaws Response_env.
Proof. envelope; (unfold u32; rewrite Z.mod_small by lia; first [lia|by destruct x]). Qed.

Lemma s64_u64 z : - 2 ^ 63 <= z < 2 ^ 63 -> s64 (u64 z) = z.
Proof.
  intros; unfold s64, swrap, u64; rewrite Zplus_mod_idemp_l, Z.mod_small; lia.
Qed.

Lemma s64_range z : - 2 ^ 63 <= s64 z < 2 ^ 63.
Proof. unfold s64, swrap; pose proof (Z.mod_pos_bound (z + 2 ^ (64 - 1)) (2 ^ 64) ltac:(lia)); lia. Qed.

Lemma Int64_gives o f : view o -> 0 <= f -> gives (Object_Int64 o f) (fun v => - 2 ^ 63 <= v < 2 ^ 63).
Proof.
  intros Ho Hf; unfold Object_Int64; eapply gives_bind; [by apply Uint64_gives|].
  intros v _; apply gives_ret, s64_range.
Qed.
#[export] Hint Resolve Int64_gives : wire.

Lemma Int64_read o f v :
  - 2 ^ 63 <= v < 2 ^ 63 -> read_uint 8 o f = Ret (u64 v) -> Object_Int64 o f = Ret v.
Proof. intros Hv H; unfold Object_Int64; rewrite (H : Object_Uint64 o f = _); cbn; by rewrite s64_u64. Qed.

#[export] Instance Forward_laws : EnvelopeLaws Forward_env.
Proof.
  envelope;
    first [unfold u64; pose proof (Z.mod_pos_bound (Permissions x) (2 ^ 64) ltac:(lia)); lia
          |rewrite (Int64_read _ _ (Permissions x)) by (done || lia); by destruct x].
Qed.

(** ** Identity headers *)

Definition HeaderOrgID : str := text "X-Org-Id"%string.
Definition HeaderUserID : str := text "X-User-Id"%string.
Definition HeaderUserIsAdmin : str := text "X-User-IsAdmin"%string.
Definition HeaderUserPerms : str := text "X-User-Permissions"%string.

Definition clientIdentityHeaders : list str :=
  [HeaderOrgID; HeaderUserID; HeaderUserIsAdmin; HeaderUserPerms] ++
  map text ["X-Roles"; "X-User-Email"; "X-Phone-Number"; "X-User-Role"; "X-User-Roles"; "X-User-Name";
            "X-Tenant-Id"; "X-Org"; "X-Is-Admin"; "X-Gateway-Validated"; "X-Gateway-User-Id";
            "X-Gateway-Org-Id"; "X-Gateway-User-Email"]%string.

Definition identity_prefix `{Unicode} (key : str) : bool :=
  let upper := ToUpper key in
  starts "X-IAM-"%string upper || starts "X-HANZO-"%string upper || starts "X-GATEWAY-"%string upper.

(** The sweep deletes while it ranges over the map. A key it deletes on behalf
    of another has the same upper case, so the order does not matter. *)
Definition stripClientIdentity `{Unicode} (h : Header) : Header :=
  let h := foldl Header_Del h clientIdentityHeaders in
  let h := foldl (fun h key => if identity_prefix key then Header_Del h key else h) h ((map_to_list h).*1) in
  Header_Del h (text "Cookie"%string).

(** ** The gateway's client *)

(** What reading the request's body gives. *)
Inductive body : Type := NoBody | BodyBytes (b : str) | BodyError.

(** The fields of an [http.Request] the client reads; a nil header map is
    empty. *)
Record HttpRequest : Type := mkHttpRequest {
  hr_Method : str;
  hr_Path : str;
  hr_RawQuery : str;
  hr_Header : Header;
  hr_Body : body
}.
Record HttpResponse : Type := mkHttpResponse { StatusCode : Z; hp_Header : Header; hp_Body : str }.

Inductive forward_error (E : Type) : Type :=
| EBody
| EJSON
| EZap (e : zap_error)
| ECall (e : E).
Arguments EBody {E}.
Arguments EJSON {E}.
Arguments EZap {E} _.
Arguments ECall {E} _.

(** The sinks of reverse pushes; a sink is the name of a live connection. *)
Abbreviation pushRegistry := (gmap str nat).

(** [Marshal] and [Unmarshal] are JSON's on header maps; [Unmarshal] lists the
    decoded map in the order a [range] over it takes. *)
Section forward.
Context `{Unicode} {E : Type}.
Context (Marshal : Header -> option str) (Unmarshal : str -> option (list (str * list str))).

Definition requestToForward (req : HttpRequest) : result Forward (forward_error E) :=
  match hr_Body req with
  | BodyError => Err EBody
  | NoBody | BodyBytes _ =>
      let b := match hr_Body req with BodyBytes b => b | _ => [] end in
      let path := if len (hr_Path req) =? 0 then text "/"%string else hr_Path req in
      let path := if len (hr_RawQuery req) =? 0 then path else path ++ text "?"%string ++ hr_RawQuery req in
      let h := hr_Header req in
      let fwd headers :=
        mkForward (Header_Get h HeaderOrgID) (Header_Get h HeaderUserID)
          (ParseBool (Header_Get h HeaderUserIsAdmin)) (ParseInt (Header_Get h HeaderUserPerms))
          (hr_Method req) path headers b [] in
      let h := stripClientIdentity h in
      if bool_decide (h = ∅) then Ok (fwd []) else
      match Marshal h with
      | None => Err EJSON
      | Some hdrJSON => Ok (fwd hdrJSON)
      end
  end.

(** [header.Add] for every value of a decoded map, filtered by [key] and [val]. *)
Definition add_headers (key val : str -> bool) (hdrs : list (str * list str)) (h : Header) : Header :=
  foldl (fun h kvs =>
    if key kvs.1 then foldl (fun h v => if val v then Header_Add h kvs.1 v else h) h kvs.2 else h) h hdrs.

Definition responseFromEnvelope (r : Response) : HttpResponse :=
  let header :=
    if len (r_Headers r) =? 0 then ∅ else
    match Unmarshal (r_Headers r) with
    | Some hdrs => add_headers (fun _ => true) (fun _ => true) hdrs ∅
    | None => ∅
    end in
  mkHttpResponse (if Status r =? 0 then 200 else Status r) header (r_Body r).

(** [f.Node.Call] to the peer is [call]. *)
Definition RoundTrip (call : Message -> outcome (result Message E)) (req : HttpRequest)
  : outcome (result HttpResponse (forward_error E)) :=
  match requestToForward req with
  | Err e => Ret (Err e)
  | Ok fwd =>
      x ← BuildForward fwd;
      match x with
      | Err e => Ret (Err (EZap e))
      | Ok msg =>
          y ← call msg;
          match y with
          | Err e => Ret (Err (ECall e))
          | Ok resp => r ← ReadResponse resp; Ret (Ok (responseFromEnvelope r))
          end
      end
  end.

(** *** Reverse pushes *)

Definition RegisterReversePush (connID : str) (sink : nat) (reg : pushRegistry) : pushRegistry := <[connID := sink]> reg.
Definition UnregisterReversePush (connID : str) (reg : pushRegistry) : pushRegistry := delete connID reg.

(** [deliver] is a sink's answer; the deliveries made are part of the result. *)
Definition HandleReversePush (deliver : nat -> Push -> option E) (msg : Message) (reg : pushRegistry)
  : outcome (option E * pushRegistry * list (nat * Push)) :=
  p ← ReadPush msg;
  match reg !! p_ConnID p with
  | None => Ret (None, reg, [])
  | Some sink =>
      match deliver sink p with
      | Some err => Ret (Some err, UnregisterReversePush (p_ConnID p) reg, [(sink, p)])
      | None => Ret (None, reg, [(sink, p)])
      end
  end.

(** ** The relay *)

(** A gate works on the envelope in place and allows, denies or fails. *)
Inductive verdict : Type := Allow | Deny (r : Response) | GateError (e : E).

(** The handler [Relay] installs; the calls it makes are part of the result. *)
Definition Relay (gate : Forward -> verdict * Forward) (pick : str -> str)
  (call : str -> Message -> result Message (forward_error E)) (msg : Message)
  : outcome (result Message (forward_error E) * list (str * Message)) :=
  f ← ReadForward msg;
  let '(v, f) := gate f in
  match v with
  | GateError e => Ret (Err (ECall e), [])
  | Deny deny =>
      x ← BuildResponse deny;
      Ret (match x with Ok m => Ok m | Err e => Err (EZap e) end, [])
  | Allow =>
      x ← BuildForward f;
      match x with
      | Err e => Ret (Err (EZap e), [])
      | Ok augmented => Ret (call (pick (Path f)) augmented, [(pick (Path f), augmented)])
      end
  end.

(** ** The backend's server *)

Definition quoted (s : str) : str := Byte.x22 :: s ++ [Byte.x22].

(** The two JSON objects of an error, for reasons that need no escapes. *)
Definition errorResponse (status : Z) (reason : String.string) : Response :=
  mkResponse status
    (text "{"%string ++ quoted (text "Content-Type"%string) ++ text ":["%string
     ++ quoted (text "application/json"%string) ++ text "]}"%string)
    (text "{"%string ++ quoted (text "error"%string) ++ text ":"%string ++ quoted (text reason) ++ text "}"%string).

Definition hasControlByte (s : str) : bool :=
  existsb (fun b => (byte.unsigned b <? 0x20) || (byte.unsigned b =? 0x7f)) s.

Definition validHeaderValue (s : str) : bool :=
  forallb (fun b => negb ((byte.unsigned b =? 13) || (byte.unsigned b =? 10) || (byte.unsigned b =? 0))) s.

(** Go's URLs: [ParseRequestURI] and [Parse] may refuse, [String] renders. *)
Context {U : Type} (ParseRequestURI Parse_URL : str -> option U) (URL_String : U -> str).

Definition MethodGet : str := text "GET"%string.

Definition validForwardLine (method path : str) : result (str * U) String.string :=
  if negb (len method =? 0) && negb (isHTTPToken method) then Err "invalid method"%string else
  let method := if len method =? 0 then MethodGet else method in
  let path := if len path =? 0 then text "/"%string else path in
  if hasControlByte path then Err "invalid path"%string else
  match ParseRequestURI path with
  | None => Err "invalid path"%string
  | Some parsed => Ok (method, parsed)
  end.

(** The request a handler is given. *)
Record Request : Type := mkRequest { rq_Method : str; rq_URL : U; rq_Header : Header; rq_Body : str }.

(** [http.NewRequestWithContext]: an empty method is GET, a method is a token. *)
Definition NewRequest (method url b : str) : option Request :=
  let method := if len method =? 0 then MethodGet else method in
  if negb (isHTTPToken method) then None else
  u ← Parse_URL url; Some (mkRequest method u ∅ b).

(** What a recorder holds after a handler has run. *)
Record Recorder : Type := mkRecorder { Code : Z; rec_Header : Header; rec_Body : str }.

Definition isStreamingResponse (h : Header) : bool :=
  let ct := Header_Get h (text "Content-Type"%string) in
  if len ct =? 0 then false else
  EqualFold (TrimSpace (before_byte Byte.x3b ct)) (text "text/event-stream"%string).

(** The client's headers, decoded onto a request's. *)
Definition decode_headers (f : Forward) (h : Header) : Header :=
  if len (Headers f) =? 0 then h else
  match Unmarshal (Headers f) with
  | Some hdrs => add_headers isHTTPToken validHeaderValue hdrs h
  | None => h
  end.

(** The edge's identity, set on a request's headers. *)
Definition inject_identity (f : Forward) (h : Header) : Header :=
  let h := if len (TenantID f) =? 0 then h else Header_Set h HeaderOrgID (TenantID f) in
  let h := if len (UserID f) =? 0 then h else Header_Set h HeaderUserID (UserID f) in
  let h := Header_Set h HeaderUserIsAdmin (FormatBool (IsAdmin f)) in
  Header_Set h HeaderUserPerms (FormatInt (Permissions f)).

(** [handle] up to the call of the handler: a refusal, or the request. *)
Definition vet_request (f : Forward) : Response + Request :=
  match validForwardLine (Method f) (Path f) with
  | Err reason => inl (errorResponse 400 reason)
  | Ok (method, u) =>
      match NewRequest method (URL_String u) (Body f) with
      | None => inl (errorResponse 400 "invalid request"%string)
      | Some req =>
          let h := inject_identity f (stripClientIdentity (decode_headers f (rq_Header req))) in
          inr (mkRequest (rq_Method req) (rq_URL req) h (rq_Body req))
      end
  end.

Definition handle (h : Request -> outcome Recorder) (f : Forward) : outcome Response :=
  match vet_request f with
  | inl refusal => Ret refusal
  | inr req =>
      rec ← h req;
      if isStreamingResponse (rec_Header rec)
      then Ret (errorResponse 501 "streaming not supported over Forward yet"%string)
      else Ret (mkResponse (Code rec) (default [] (Marshal (rec_Header rec))) (rec_Body rec))
  end.

(** The handler [Serve] installs. *)
Definition Serve (h : Request -> outcome Recorder) (msg : Message) : outcome (result Message (forward_error E)) :=
  f ← ReadForward msg;
  r ← handle h f;
  x ← BuildResponse r;
  Ret (match x with Ok m => Ok m | Err e => Err (EZap e) end).
End forward.

(** ** Lookups in header maps *)

Lemma Del_lookup h key k : Header_Del h key !! k = if bytes_eqb k (CanonicalHeaderKey key) then None else h !! k.
Proof.
  unfold Header_Del, bytes_eqb; case_bool_decide as E; [subst; apply lookup_delete_eq|by rewrite lookup_delete_ne].
Qed.

Lemma Set_lookup h key v k :
  Header_Set h key v !! k = if bytes_eqb k (CanonicalHeaderKey key) then Some [v] else h !! k.
Proof.
  unfold Header_Set, bytes_eqb; case_bool_decide as E; [subst; apply lookup_insert_eq|by rewrite lookup_insert_ne].
Qed.

Lemma Add_lookup h key v k :
  Header_Add h key v !! k = if bytes_eqb k (CanonicalHeaderKey key) then Some (Header_Values h k ++ [v]) else h !! k.
Proof.
  unfold Header_Add, bytes_eqb; case_bool_decide as E; [subst; apply lookup_insert_eq|by rewrite lookup_insert_ne].
Qed.

Lemma Dels_lookup keys : forall h k,
  foldl Header_Del h keys !! k = if existsb (fun key => bytes_eqb k (CanonicalHeaderKey key)) keys then None else h !! k.
Proof.
  induction keys as [|key keys IH]; intros h k; cbn [foldl existsb]; [done|]; rewrite IH, Del_lookup.
  by destruct (bytes_eqb k _), (existsb _ keys).
Qed.

Section strip.
Context `{Unicode}.

Lemma sweep_lookup keys : forall h k,
  foldl (fun h key => if identity_prefix key then Header_Del h key else h) h keys !! k
  = if existsb (fun key => identity_prefix key && bytes_eqb k (CanonicalHeaderKey key)) keys then None else h !! k.
Proof.
  induction keys as [|key keys IH]; intros h k; cbn [foldl existsb]; [done|]; rewrite IH.
  destruct (identity_prefix key); cbn [andb orb]; [rewrite Del_lookup|done].
  by destruct (bytes_eqb k _), (existsb _ keys).
Qed.

(** The names that may carry an identity, in canonical form. *)
Definition identity_key (k : str) : bool :=
  existsb (fun key => bytes_eqb k (CanonicalHeaderKey key)) clientIdentityHeaders
  || identity_prefix k || bytes_eqb k (CanonicalHeaderKey (text "Cookie"%string)).

Definition canonical_keys (h : Header) : Prop := forall k vs, h !! k = Some vs -> CanonicalHeaderKey k = k.

(** On a map with canonical keys the strip removes exactly the identity. *)
Lemma strip_lookup h k :
  canonical_keys h -> stripClientIdentity h !! k = if identity_key k then None else h !! k.
Proof.
  intros Hc; unfold stripClientIdentity, identity_key; rewrite Del_lookup, sweep_lookup, Dels_lookup.
  set (h1 := foldl Header_Del h clientIdentityHeaders).
  destruct (bytes_eqb k (CanonicalHeaderKey _)); [by rewrite orb_true_r|]; rewrite orb_false_r.
  destruct (existsb _ clientIdentityHeaders) eqn:E1; cbn [orb]; [destruct (existsb _ (map_to_list h1).*1); reflexivity|].
  destruct (existsb _ ((map_to_list h1).*1)) eqn:E2.
  - apply existsb_exists in E2 as (key & Hin & Hk); apply andb_true_iff in Hk as [Hp He].
    apply bool_decide_eq_true in He; apply list_elem_of_In, list_elem_of_fmap in Hin as ([k' vs] & -> & Hin).
    apply elem_of_map_to_list in Hin; unfold h1 in Hin; rewrite Dels_lookup in Hin; cbn [fst] in *.
    destruct (existsb (fun key => bytes_eqb k' _) clientIdentityHeaders); [done|].
    rewrite (Hc _ _ Hin) in He; subst k'; by rewrite Hp.
  - destruct (identity_prefix k) eqn:Hp; [|done]; destruct (h !! k) as [vs|] eqn:Hk; [|done].
    assert (Hin : h1 !! k = Some vs) by (unfold h1; rewrite Dels_lookup, E1; done).
    rewrite <- not_true_iff_false in E2; destruct E2; apply existsb_exists; exists k; split.
    + apply list_elem_of_In, list_elem_of_fmap; exists (k, vs); split; [done|by apply elem_of_map_to_list].
    + rewrite Hp, (Hc _ _ Hk); by apply bool_decide_eq_true.
Qed.
End strip.

(** The values of [k] in a decoded map that pass the filters, in order. *)
Definition collected (key val : str -> bool) (hdrs : list (str * list str)) (k : str) : list str :=
  concat (map (fun kvs => if key kvs.1 && bytes_eqb k (CanonicalHeaderKey kvs.1) then List.filter val kvs.2 else []) hdrs).

Definition extended (h : Header) (k : str) (vs : list str) : option (list str) :=
  match vs with [] => h !! k | _ => Some (Header_Values h k ++ vs) end.

Lemma extended_app h k vs ws o :
  o = extended h k vs -> match ws with [] => o | _ => Some (default [] o ++ ws) end = extended h k (vs ++ ws).
Proof.
  intros ->; destruct vs as [|v vs], ws as [|w ws]; cbn [app extended default from_option id]; rewrite ?app_nil_r; try done.
  by rewrite <- app_assoc.
Qed.

Lemma adds_lookup (val : str -> bool) (key : str) (vs : list str) : forall (h : Header) k,
  foldl (fun h v => if val v then Header_Add h key v else h) h vs !! k
  = extended h k (if bytes_eqb k (CanonicalHeaderKey key) then List.filter val vs else []).
Proof.
  induction vs as [|v vs IH]; intros h k; cbn [foldl List.filter]; [by destruct (bytes_eqb _ _)|]; rewrite IH.
  destruct (bytes_eqb k (CanonicalHeaderKey key)) eqn:E, (val v); cbn [extended]; try done.
  - unfold extended at 1; unfold Header_Values at 1; rewrite !Add_lookup, E; cbn [default from_option id].
    destruct (List.filter val vs); [done|]; by rewrite <- app_assoc.
  - by rewrite Add_lookup, E.
Qed.

Lemma add_headers_lookup key val hdrs : forall (h : Header) k,
  add_headers key val hdrs h !! k = extended h k (collected key val hdrs k).
Proof.
  unfold add_headers, collected; induction hdrs as [|[k' vs] hdrs IH] using rev_ind; intros h k; [done|].
  rewrite foldl_app, map_app, concat_app; cbn [foldl map concat fst snd app]; rewrite app_nil_r.
  specialize (IH h k); set (h1 := foldl _ h hdrs) in *; destruct (key k'); cbn [andb].
  - rewrite adds_lookup; by apply extended_app.
  - by rewrite app_nil_r.
Qed.

(** ** Properties *)

Definition edge_headers : list str := map CanonicalHeaderKey [HeaderOrgID; HeaderUserID; HeaderUserIsAdmin; HeaderUserPerms].

Section server.
Context `{Unicode} {E : Type}.
Context (Marshal : Header -> option str) (Unmarshal : str -> option (list (str * list str))).
Context {U : Type} (ParseRequestURI Parse_URL : str -> option U) (URL_String : U -> str).

(** The client's headers in an envelope, and the values a backend takes over. *)
Definition client_headers (f : Forward) : list (str * list str) :=
  if len (Headers f) =? 0 then [] else default [] (Unmarshal (Headers f)).
Definition client_values (f : Forward) (k : str) : list str :=
  collected isHTTPToken validHeaderValue (client_headers f) k.

Definition non_empty (vs : list str) : option (list str) := match vs with [] => None | _ => Some vs end.

(** The headers of a request before the edge's identity is set. *)
Definition client_map (f : Forward) : Header := decode_headers Unmarshal f ∅.

Lemma client_map_lookup f k : client_map f !! k = non_empty (client_values f k).
Proof.
  unfold client_map, decode_headers, client_values, client_headers; case_if; [done|].
  destruct (Unmarshal (Headers f)) as [hdrs|]; [|done]; rewrite add_headers_lookup; unfold extended, Header_Values.
  rewrite lookup_empty; by destruct (collected _ _ _ _).
Qed.

Lemma collected_key key val hdrs k v :
  v ∈ collected key val hdrs k -> val v = true /\ exists k', key k' = true /\ k = CanonicalHeaderKey k'.
Proof.
  unfold collected; intros Hv; apply list_elem_of_In, in_concat in Hv as (vs & Hin & Hv).
  apply in_map_iff in Hin as ([k' ws] & <- & _); cbn [fst snd] in Hv.
  destruct (key k') eqn:Hk; cbn [andb] in Hv; [|done]; destruct (bytes_eqb k _) eqn:Hb; [|done].
  apply filter_In in Hv as [_ Hv]; split; [done|]; exists k'; split; [done|by apply bool_decide_eq_true in Hb].
Qed.

Lemma client_map_keys f k vs :
  client_map f !! k = Some vs -> CanonicalHeaderKey k = k /\ isHTTPToken k = true /\ Forall (fun v => validHeaderValue v = true) vs.
Proof.
  rewrite client_map_lookup; unfold non_empty, client_values; intros Hk.
  assert (Hvs : vs = collected isHTTPToken validHeaderValue (client_headers f) k) by (destruct (collected _ _ _ _); congruence).
  destruct vs as [|v vs]; [rewrite <- Hvs in Hk; discriminate|].
  destruct (collected_key isHTTPToken validHeaderValue (client_headers f) k v) as (_ & k' & Ht & ->);
    [rewrite <- Hvs; constructor|].
  split; [apply canonical_idem|split; [by apply canonical_token|]]; rewrite Hvs; apply Forall_forall; intros w Hw.
  by destruct (collected_key _ _ _ _ _ Hw).
Qed.

(** What the edge sets for a name, over what the strip has left. *)
Definition edge_value (f : Forward) (k : str) : option (list str) :=
  if bytes_eqb k (CanonicalHeaderKey HeaderUserPerms) then Some [FormatInt (Permissions f)]
  else if bytes_eqb k (CanonicalHeaderKey HeaderUserIsAdmin) then Some [FormatBool (IsAdmin f)]
  else if bytes_eqb k (CanonicalHeaderKey HeaderUserID) then (if len (UserID f) =? 0 then None else Some [UserID f])
  else if bytes_eqb k (CanonicalHeaderKey HeaderOrgID) then (if len (TenantID f) =? 0 then None else Some [TenantID f])
  else None.

Lemma edge_identity k : k ∈ edge_headers -> identity_key k = true.
Proof.
  unfold edge_headers; cbn [map]; rewrite !elem_of_cons, elem_of_nil.
  intros [-> | [-> | [-> | [-> | []]]]]; by vm_compute.
Qed.

Lemma not_edge k : k ∉ edge_headers ->
  bytes_eqb k (CanonicalHeaderKey HeaderUserPerms) = false /\ bytes_eqb k (CanonicalHeaderKey HeaderUserIsAdmin) = false
  /\ bytes_eqb k (CanonicalHeaderKey HeaderUserID) = false /\ bytes_eqb k (CanonicalHeaderKey HeaderOrgID) = false.
Proof.
  unfold edge_headers; cbn [map]; rewrite !not_elem_of_cons; intros (? & ? & ? & ? & _).
  split_and!; by apply bool_decide_eq_false.
Qed.

Lemma user_not_org : bytes_eqb (CanonicalHeaderKey HeaderUserID) (CanonicalHeaderKey HeaderOrgID) = false.
Proof. by vm_compute. Qed.

Lemma edge_members :
  CanonicalHeaderKey HeaderOrgID ∈ edge_headers /\ CanonicalHeaderKey HeaderUserID ∈ edge_headers
  /\ CanonicalHeaderKey HeaderUserIsAdmin ∈ edge_headers /\ CanonicalHeaderKey HeaderUserPerms ∈ edge_headers.
Proof. unfold edge_headers; cbn [map]; rewrite !elem_of_cons; tauto. Qed.

Lemma edge_values f :
  edge_value f (CanonicalHeaderKey HeaderOrgID) = (if len (TenantID f) =? 0 then None else Some [TenantID f])
  /\ edge_value f (CanonicalHeaderKey HeaderUserID) = (if len (UserID f) =? 0 then None else Some [UserID f])
  /\ edge_value f (CanonicalHeaderKey HeaderUserIsAdmin) = Some [FormatBool (IsAdmin f)]
  /\ edge_value f (CanonicalHeaderKey HeaderUserPerms) = Some [FormatInt (Permissions f)].
Proof.
  unfold edge_value; split_and!; repeat match goal with
    | |- context [bytes_eqb ?a ?b] =>
        first [replace (bytes_eqb a b) with true by (vm_compute; reflexivity)
              |replace (bytes_eqb a b) with false by (vm_compute; reflexivity)]
    end; reflexivity.
Qed.

Lemma inject_lookup f h k :
  (k ∈ edge_headers -> h !! k = None) ->
  inject_identity f h !! k = if bool_decide (k ∈ edge_headers) then edge_value f k else h !! k.
Proof.
  intros Hs; unfold inject_identity; rewrite !Set_lookup; case_bool_decide as Hk.
  - specialize (Hs Hk); unfold edge_value.
    destruct (bytes_eqb k (CanonicalHeaderKey HeaderUserPerms)); [done|].
    destruct (bytes_eqb k (CanonicalHeaderKey HeaderUserIsAdmin)); [done|].
    destruct (bytes_eqb k (CanonicalHeaderKey HeaderUserID)) eqn:Hu.
    + apply bool_decide_eq_true in Hu as ->; destruct (len (UserID f) =? 0); rewrite ?Set_lookup, ?bytes_eqb_refl; [|done].
      destruct (len (TenantID f) =? 0); by rewrite ?Set_lookup, ?user_not_org.
    + destruct (len (UserID f) =? 0), (len (TenantID f) =? 0); rewrite ?Set_lookup, ?Hu, ?Hs;
        destruct (bytes_eqb k (CanonicalHeaderKey HeaderOrgID)); reflexivity.
  - destruct (not_edge k Hk) as (-> & -> & Hu & Ho); repeat case_if; by rewrite ?Set_lookup, ?Hu, ?Ho.
Qed.

Lemma strip_client_map f k :
  stripClientIdentity (client_map f) !! k = if identity_key k then None else client_map f !! k.
Proof. apply strip_lookup; intros k' vs Hk'; by destruct (client_map_keys _ _ _ Hk'). Qed.

(** The method and the URL a handler is given. *)
Lemma vet_request_line f req :
  vet_request Unmarshal ParseRequestURI Parse_URL URL_String f = inr req -> len (Path f) <> 0 ->
  rq_Method req = (if len (Method f) =? 0 then MethodGet else Method f)
  /\ exists u, ParseRequestURI (Path f) = Some u /\ Parse_URL (URL_String u) = Some (rq_URL req).
Proof.
  intros Hv Hp; revert Hv; unfold vet_request, validForwardLine.
  replace (len (Path f) =? 0) with false by lia.
  destruct (negb (len (Method f) =? 0) && negb (isHTTPToken (Method f))); [done|].
  destruct (hasControlByte (Path f)); [done|]; destruct (ParseRequestURI (Path f)) as [u|] eqn:Hu; [|done].
  unfold NewRequest; set (m := if len (Method f) =? 0 then MethodGet else Method f).
  assert (Hm : (if len m =? 0 then MethodGet else m) = m)
    by (unfold m; destruct (len (Method f) =? 0) eqn:Hz; [reflexivity|by rewrite Hz]).
  rewrite Hm; destruct (negb (isHTTPToken m)); [done|].
  destruct (Parse_URL (URL_String u)) as [u'|] eqn:Hu'; [|done]; cbn [mbind option_bind rq_Header rq_Method rq_URL rq_Body].
  intros Hreq; apply (inj inr) in Hreq; subst req; cbn [rq_Method rq_URL]; split; [reflexivity|eauto].
Qed.

Lemma vet_request_headers f req :
  vet_request Unmarshal ParseRequestURI Parse_URL URL_String f = inr req ->
  isHTTPToken (rq_Method req) = true /\ rq_Body req = Body f /\ hasControlByte (Path f) = false
  /\ forall k, rq_Header req !! k
       = if bool_decide (k ∈ edge_headers) then edge_value f k
         else if identity_key k then None else client_map f !! k.
Proof.
  unfold vet_request, validForwardLine.
  destruct (negb (len (Method f) =? 0) && negb (isHTTPToken (Method f))) eqn:Em; [done|].
  destruct (hasControlByte (if len (Path f) =? 0 then _ else _)) eqn:Ep; [done|].
  destruct (ParseRequestURI _) as [u|]; [|done]; unfold NewRequest.
  match goal with |- context [if negb (isHTTPToken ?m) then None else _] => destruct (isHTTPToken m) eqn:Et end; [|done].
  cbn [negb]; destruct (Parse_URL (URL_String u)) as [u'|]; [|done]; cbn [mbind option_bind rq_Header rq_Method rq_URL rq_Body].
  fold (client_map f); intros Hreq; apply (inj inr) in Hreq; subst req; cbn [rq_Header rq_Method rq_URL rq_Body].
  split; [exact Et|split; [reflexivity|split]].
  { destruct (Z.eqb_spec (len (Path f)) 0) as [Hz|]; [|exact Ep]; destruct (Path f); [reflexivity|].
    rewrite len_cons in Hz; pose proof (len_nonneg l); lia. }
  intros k; rewrite inject_lookup, strip_client_map; [reflexivity|].
  intros Hk; by rewrite strip_client_map, (edge_identity k Hk).
Qed.

(** C15: a handler sees the edge's identity and no other. Whatever envelope reaches
    the backend, and whatever its header JSON decodes to: a request handed to
    the handler has the four identity headers exactly as the envelope's typed
    fields say, no other header that may carry an identity and no cookie, and
    every other header with exactly those client values that have a token for a
    name and no line break; its method is a token and its body is the
    envelope's. *)
Theorem backend_identity_from_edge f req :
  vet_request Unmarshal ParseRequestURI Parse_URL URL_String f = inr req ->
  let h := rq_Header req in
  isHTTPToken (rq_Method req) = true /\ rq_Body req = Body f /\ hasControlByte (Path f) = false
  /\ h !! CanonicalHeaderKey HeaderOrgID = (if len (TenantID f) =? 0 then None else Some [TenantID f])
  /\ h !! CanonicalHeaderKey HeaderUserID = (if len (UserID f) =? 0 then None else Some [UserID f])
  /\ h !! CanonicalHeaderKey HeaderUserIsAdmin = Some [FormatBool (IsAdmin f)]
  /\ h !! CanonicalHeaderKey HeaderUserPerms = Some [FormatInt (Permissions f)]
  /\ (forall k, identity_key k = true -> k ∉ edge_headers -> h !! k = None)
  /\ (forall k, identity_key k = false -> h !! k = non_empty (client_values f k))
  /\ (forall k vs v, identity_key k = false -> h !! k = Some vs -> v ∈ vs ->
        isHTTPToken k = true /\ validHeaderValue v = true).
Proof.
  intros Hv h; destruct (vet_request_headers f req Hv) as (Hm & Hb & Hp & Hh); fold h in Hh.
  assert (Hedge : forall k, k ∈ edge_headers -> h !! k = edge_value f k).
  { intros k Hk; rewrite Hh; by rewrite bool_decide_true. }
  assert (Hother : forall k, identity_key k = false -> h !! k = client_map f !! k).
  { intros k Hk; rewrite Hh, Hk, bool_decide_false; [done|]; intros Hin; by rewrite (edge_identity k Hin) in Hk. }
  split; [done|split; [done|split; [done|]]].
  destruct edge_members as (M1 & M2 & M3 & M4), (edge_values f) as (V1 & V2 & V3 & V4).
  split; [by rewrite Hedge|split; [by rewrite Hedge|split; [by rewrite Hedge|split; [by rewrite Hedge|]]]].
  split; [intros k Hk Hne; by rewrite Hh, Hk, bool_decide_false|].
  split; [intros k Hk; by rewrite Hother, client_map_lookup|].
  intros k vs v Hk Hvs Hin; rewrite Hother in Hvs by done; destruct (client_map_keys f k vs Hvs) as (_ & Ht & Hall).
  split; [done|]; rewrite Forall_forall in Hall; by apply Hall.
Qed.

(** The identity survives further hops: a request that a backend was given and
    forwards in turn carries the same tenant, user, administrator flag and
    permissions. *)
Theorem identity_survives_hops f breq req f' :
  vet_request Unmarshal ParseRequestURI Parse_URL URL_String f = inr breq ->
  - 2 ^ 63 <= Permissions f < 2 ^ 63 ->
  hr_Header req = rq_Header breq -> requestToForward (E := E) Marshal req = Ok f' ->
  TenantID f' = TenantID f /\ UserID f' = UserID f /\ IsAdmin f' = IsAdmin f /\ Permissions f' = Permissions f.
Proof.
  intros Hv Hp Hr Hf; destruct (vet_request_headers f breq Hv) as (_ & _ & _ & Hh).
  assert (Hget : forall k, CanonicalHeaderKey k ∈ edge_headers ->
    Header_Get (hr_Header req) k = default [] (head (default [] (edge_value f (CanonicalHeaderKey k))))).
  { intros k Hk; unfold Header_Get, Header_Values; by rewrite Hr, Hh, bool_decide_true. }
  assert (Hid : TenantID f' = Header_Get (hr_Header req) HeaderOrgID /\ UserID f' = Header_Get (hr_Header req) HeaderUserID
    /\ IsAdmin f' = ParseBool (Header_Get (hr_Header req) HeaderUserIsAdmin)
    /\ Permissions f' = ParseInt (Header_Get (hr_Header req) HeaderUserPerms)).
  { unfold requestToForward in Hf; destruct (hr_Body req); [| |discriminate];
      (case_bool_decide; [by injection Hf as <-|]; destruct (Marshal _); [by injection Hf as <-|discriminate]). }
  destruct edge_members as (M1 & M2 & M3 & M4), (edge_values f) as (V1 & V2 & V3 & V4).
  destruct Hid as (-> & -> & -> & ->); rewrite (Hget _ M1), (Hget _ M2), (Hget _ M3), (Hget _ M4), V1, V2, V3, V4.
  cbn [default from_option id head]; rewrite ParseBool_FormatBool, ParseInt_FormatInt by done.
  assert (Hnil : forall s : str, default [] (head (default [] (if len s =? 0 then None else Some [s]))) = s).
  { intros [|x s]; [done|]; rewrite len_cons; pose proof (len_nonneg s); by replace (1 + len s =? 0) with false by lia. }
  split; [apply Hnil|split; [apply Hnil|done]].
Qed.

(** The call over the wire to a node that serves [h]. A handler's error never
    reaches the caller, who waits until [lost]. *)
Definition call_serve (lost : E) (h : Request (U := U) -> outcome Recorder) (m : Message) : outcome (result Message E) :=
  x ← Serve (E := E) Marshal Unmarshal ParseRequestURI Parse_URL URL_String h m;
  Ret (match x with Ok m => Ok m | Err _ => Err lost end).

Lemma requestToForward_typed req f : requestToForward (E := E) Marshal req = Ok f -> typed Forward_env f.
Proof.
  cbn [typed Forward_env]; unfold requestToForward; intros Hf.
  assert (exists s, Permissions f = ParseInt s) as [s ->]; [|apply ParseInt_range].
  exists (Header_Get (hr_Header req) HeaderUserPerms); destruct (hr_Body req); [| |discriminate];
    (case_bool_decide; [by injection Hf as <-|]; destruct (Marshal _); [by injection Hf as <-|discriminate]).
Qed.


Lemma collected_listed (l : list (str * list str)) k :
  NoDup l.*1 -> Forall (fun kvs => CanonicalHeaderKey kvs.1 = kvs.1 /\ isHTTPToken kvs.1 = true
                           /\ Forall (fun v => validHeaderValue v = true) kvs.2) l ->
  (forall vs, (k, vs) ∈ l -> collected isHTTPToken validHeaderValue l k = vs)
  /\ ((forall vs, (k, vs) ∉ l) -> collected isHTTPToken validHeaderValue l k = []).
Proof.
  unfold collected; induction l as [|[k' ws] l IH]; cbn [fmap list_fmap map concat fst snd]; intros Hnd Hall.
  { split; [intros vs Hin; by apply not_elem_of_nil in Hin|done]. }
  apply NoDup_cons in Hnd as [Hni Hnd]; apply Forall_cons in Hall as [(Hc & Ht & Hv) Hall]; cbn [fst snd] in *.
  destruct (IH Hnd Hall) as [IH1 IH2]; rewrite Ht, Hc; cbn [andb]; destruct (bytes_eqb k k') eqn:Hk;
    [apply bool_decide_eq_true in Hk|apply bool_decide_eq_false in Hk].
  - subst k'; assert (Hno : forall vs, (k, vs) ∉ l).
    { intros vs Hin; apply Hni, list_elem_of_fmap; by exists (k, vs). }
    rewrite (IH2 Hno), app_nil_r; assert (Hf : List.filter validHeaderValue ws = ws).
    { clear -Hv; induction Hv as [|v ws Hv _ IH]; cbn; [done|]; by rewrite Hv, IH. }
    rewrite Hf; split; [|intros Hn; by destruct (Hn ws); left].
    intros vs Hin; apply elem_of_cons in Hin as [[= <-]|Hin]; [done|by destruct (Hno vs)].
  - cbn [app]; split.
    + intros vs Hin; apply elem_of_cons in Hin as [[= -> _]|Hin]; [done|by apply IH1].
    + intros Hn; apply IH2; intros vs Hin; apply (Hn vs); by right.
Qed.

(** A header map as clients have it: canonical token names, values without line
    breaks, no empty lists. *)
Definition header_wf (h : Header) : Prop :=
  forall k vs, h !! k = Some vs ->
    CanonicalHeaderKey k = k /\ isHTTPToken k = true /\ vs <> [] /\ Forall (fun v => validHeaderValue v = true) vs.

(** The path and query a client asked for. *)
Definition request_target (req : HttpRequest) : str :=
  let path := if len (hr_Path req) =? 0 then text "/"%string else hr_Path req in
  if len (hr_RawQuery req) =? 0 then path else path ++ text "?"%string ++ hr_RawQuery req.

Lemma request_target_ne req : len (request_target req) <> 0.
Proof.
  unfold request_target; pose proof (len_nonneg (hr_Path req)); pose proof (len_nonneg (hr_RawQuery req)).
  destruct (Z.eqb_spec (len (hr_Path req)) 0), (Z.eqb_spec (len (hr_RawQuery req)) 0); rewrite ?len_app;
    change (len (text "/"%string)) with 1; change (len (text "?"%string)) with 1; lia.
Qed.

(** What the gateway's client puts into an envelope besides the headers. *)
Lemma requestToForward_fields req b f :
  hr_Body req = BodyBytes b -> requestToForward (E := E) Marshal req = Ok f ->
  Body f = b /\ Method f = hr_Method req /\ Path f = request_target req
  /\ TenantID f = Header_Get (hr_Header req) HeaderOrgID /\ UserID f = Header_Get (hr_Header req) HeaderUserID
  /\ IsAdmin f = ParseBool (Header_Get (hr_Header req) HeaderUserIsAdmin)
  /\ Permissions f = ParseInt (Header_Get (hr_Header req) HeaderUserPerms).
Proof.
  unfold requestToForward; intros -> Hf.
  case_bool_decide; [|destruct (Marshal _); [|discriminate]]; injection Hf as <-; split_and!; reflexivity.
Qed.

End server.

(** What an envelope's builder writes, its reader reads, for all three; and
    every parsed message reads as some value of the type. *)
Theorem forward_envelopes_roundtrip :
  (forall f, - 2 ^ 63 <= Permissions f < 2 ^ 63 -> env_size Forward_env f < 2 ^ 31 ->
     exists m, BuildForward f = Ret (Ok m) /\ Message_Flags m = Ret (tag MsgTypeForward) /\ ReadForward m = Ret f)
  /\ (forall r, 0 <= Status r < 2 ^ 32 -> env_size Response_env r < 2 ^ 31 ->
     exists m, BuildResponse r = Ret (Ok m) /\ ReadResponse m = Ret r)
  /\ (forall p, env_size Push_env p < 2 ^ 31 ->
     exists m, BuildPush p = Ret (Ok m) /\ Message_Flags m = Ret (tag MsgTypePush) /\ ReadPush m = Ret p)
  /\ (forall d m, Parse d = Ret (Ok m) -> is_ret (ReadForward m) /\ is_ret (ReadResponse m) /\ is_ret (ReadPush m)).
Proof.
  split; [|split; [|split]].
  - intros f Ht Hs; destruct (env_roundtrip (e := Forward_env) f Ht Hs) as (d & Hb & _ & _ & Hf & Hr); eauto.
  - intros r Ht Hs; destruct (env_roundtrip (e := Response_env) r Ht Hs) as (d & Hb & _ & _ & _ & Hr); eauto.
  - intros p Hs; destruct (env_roundtrip (e := Push_env) p I Hs) as (d & Hb & _ & _ & Hf & Hr); eauto.
  - intros d m Hp; split; [|split].
    + destruct (env_total (e := Forward_env) d m Hp) as (f & Hf & _); by exists f.
    + destruct (env_total (e := Response_env) d m Hp) as (f & Hf & _); by exists f.
    + destruct (env_total (e := Push_env) d m Hp) as (f & Hf & _); by exists f.
Qed.

Section relay.
Context {E : Type}.

(** C27: the relay's contract. On any parsed message it runs the gate on the decoded
    envelope. A refusal or an error of the gate reaches no backend; a refusal
    comes back as the response the gate chose. An allowed request causes one
    call, to the backend picked for its path, with an envelope that decodes to
    what the gate left; the backend's answer comes back as it is. *)
Theorem relay_exact (gate : Forward -> verdict (E := E) * Forward) pick call d m :
  Parse d = Ret (Ok m) ->
  exists f, ReadForward m = Ret f /\
    match gate f with
    | (GateError e, _) => Relay gate pick call m = Ret (Err (ECall e), [])
    | (Deny r, _) =>
        0 <= Status r < 2 ^ 32 -> env_size Response_env r < 2 ^ 31 ->
        exists m', Relay gate pick call m = Ret (Ok m', []) /\ ReadResponse m' = Ret r
    | (Allow, f') =>
        - 2 ^ 63 <= Permissions f' < 2 ^ 63 -> env_size Forward_env f' < 2 ^ 31 ->
        exists m', Relay gate pick call m = Ret (call (pick (Path f')) m', [(pick (Path f'), m')])
          /\ ReadForward m' = Ret f' /\ Message_Flags m' = Ret (tag MsgTypeForward)
    end.
Proof.
  intros Hp; destruct (env_total (e := Forward_env) d m Hp) as (f & Hf & _); exists f; split; [done|].
  cbn [read Forward_env] in Hf; unfold Relay; rewrite Hf; cbn [mbind outcome_bind]; destruct (gate f) as [[|r|e] f'].
  - intros Ht Hs; destruct (env_roundtrip (e := Forward_env) f' Ht Hs) as (d' & Hb & _ & _ & Hfl & Hr).
    cbn [build read norm Forward_env env_flags] in *; rewrite Hb; cbn [mbind outcome_bind]; eauto.
  - intros Ht Hs; destruct (env_roundtrip (e := Response_env) r Ht Hs) as (d' & Hb & _ & _ & _ & Hr).
    cbn [build read norm Response_env] in *; rewrite Hb; cbn [mbind outcome_bind]; eauto.
  - done.
Qed.

(** A reverse push is delivered once, unchanged, to the sink registered for its
    connection and to nobody else; without one it is dropped. A failed delivery
    removes that sink and no other. *)
Theorem reverse_push_exact (deliver : nat -> Push -> option E) (p : Push) (reg : pushRegistry) :
  env_size Push_env p < 2 ^ 31 ->
  exists m, BuildPush p = Ret (Ok m) /\
    match reg !! p_ConnID p with
    | None => HandleReversePush deliver m reg = Ret (None, reg, [])
    | Some sink =>
        exists reg', HandleReversePush deliver m reg = Ret (deliver sink p, reg', [(sink, p)])
          /\ (forall c, c <> p_ConnID p -> reg' !! c = reg !! c)
          /\ (reg' !! p_ConnID p = match deliver sink p with None => Some sink | Some _ => None end)
    end.
Proof.
  intros Hs; destruct (env_roundtrip (e := Push_env) p I Hs) as (d & Hb & _ & _ & _ & Hr).
  exists (WrapBuffer d); split; [exact Hb|]; cbn [read norm Push_env] in Hr; unfold HandleReversePush.
  rewrite Hr; cbn [mbind outcome_bind]; destruct (reg !! p_ConnID p) as [sink|] eqn:Hreg; [|done].
  destruct (deliver sink p) as [e|]; eexists; (split; [reflexivity|split]).
  - intros c Hc; unfold UnregisterReversePush; by rewrite lookup_delete_ne.
  - unfold UnregisterReversePush; apply lookup_delete_eq.
  - done.
  - exact Hreg.
Qed.
End relay.

(** ** Witnesses *)

#[local] Instance ascii_only : Unicode := {| unicode_upper s := s; unicode_fold _ _ := false; unicode_trim s := s |}.

(** The strip deletes canonical names only: a map with a lower-case name keeps
    it, and the sweep over prefixes, which ignores case when it looks, does not
    when it deletes. *)
Theorem strip_misses_lower_case :
  let evil := [text "mallory"%string] in
  let h := <[text "x-org-id"%string := evil]> {[text "x-iam-role"%string := evil]} in
  identity_prefix (text "x-iam-role"%string) = true
  /\ stripClientIdentity h !! text "x-org-id"%string = Some evil
  /\ stripClientIdentity h !! text "x-iam-role"%string = Some evil.
Proof. vm_compute; repeat split; reflexivity. Qed.

(** A permission word that does not fit is not refused: the range error is
    dropped and every bit but the sign is set. *)
Theorem permissions_saturate :
  let h : Header := {[CanonicalHeaderKey HeaderUserPerms := [text "99999999999999999999"%string]]} in
  match requestToForward (E := unit) (fun _ => None) (mkHttpRequest [] [] [] h NoBody) with
  | Ok f => Permissions f = 2 ^ 63 - 1
  | Err _ => False
  end.
Proof. vm_compute; reflexivity. Qed.

Definition sample_json : str := text "json"%string.
Definition accept_text : str := text "Accept"%string.
Definition sample_headers : Header :=
  <[CanonicalHeaderKey HeaderUserID := [text "alice"%string]]> {[accept_text := [text "text/plain"%string]]}.
Definition sample_client : Header := {[accept_text := [text "text/plain"%string]]}.
Definition sample_request : HttpRequest :=
  mkHttpRequest (text "POST"%string) (text "/v1"%string) (text "q=1"%string) sample_headers (BodyBytes (text "hi"%string)).
Definition sample_marshal (h : Header) : option str := Some sample_json.
Definition sample_unmarshal (j : str) : option (list (str * list str)) := Some (map_to_list sample_client).
Definition sample_parse (s : str) : option str := Some s.
Definition sample_forward : Forward :=
  mkForward [] (text "alice"%string) false 0 (text "POST"%string) (text "/v1?q=1"%string) sample_json (text "hi"%string) [].
Definition sample_vet (f : Forward) : Response + Request :=
  vet_request sample_unmarshal sample_parse sample_parse (fun u : str => u) f.
Definition sample_backend : Request (U := str) :=
  mkRequest (text "POST"%string) (text "/v1?q=1"%string)
    (inject_identity sample_forward (stripClientIdentity (decode_headers sample_unmarshal sample_forward ∅))) (text "hi"%string).

Lemma sample_vet_ok : sample_vet sample_forward = inr sample_backend.
Proof. vm_compute; reflexivity. Qed.

Lemma backend_identity_from_edge_witness :
  rq_Header sample_backend !! CanonicalHeaderKey HeaderUserID = Some [text "alice"%string]
  /\ rq_Header sample_backend !! text "X-Roles"%string = None
  /\ rq_Header sample_backend !! accept_text = Some [text "text/plain"%string].
Proof.
  destruct (backend_identity_from_edge sample_unmarshal sample_parse sample_parse (fun u => u) sample_forward sample_backend sample_vet_ok)
    as (_ & _ & _ & _ & Hu & _ & _ & Hid & Hcl & _).
  split; [exact Hu|split; [apply Hid; [vm_compute; reflexivity|apply (bool_decide_unpack _); vm_compute; exact I]|]].
  rewrite Hcl by (vm_compute; reflexivity); vm_compute; reflexivity.
Defined.

Lemma identity_survives_hops_witness :
  exists f, requestToForward (E := unit) sample_marshal (mkHttpRequest [] [] [] (rq_Header sample_backend) NoBody) = Ok f
    /\ UserID f = text "alice"%string.
Proof.
  eexists; split; [vm_compute; reflexivity|].
  destruct (identity_survives_hops (E := unit) sample_marshal sample_unmarshal sample_parse sample_parse (fun u => u)
    sample_forward sample_backend (mkHttpRequest [] [] [] (rq_Header sample_backend) NoBody) _ sample_vet_ok
    ltac:(vm_compute; split; [discriminate|reflexivity]) eq_refl ltac:(vm_compute; reflexivity)) as (_ & Hu & _); exact Hu.
Defined.

Definition sample_handler (r : Request (U := str)) : outcome Recorder := Ret (mkRecorder 201 sample_client (rq_Body r)).


Lemma sample_header_wf : header_wf (hr_Header sample_request).
Proof.
  intros k vs Hk; cbn [hr_Header sample_request] in Hk; unfold sample_headers in Hk.
  apply lookup_insert_Some in Hk as [[<- <-]|[_ Hk]]; [|apply lookup_singleton_Some in Hk as [<- <-]];
    (split; [vm_compute; reflexivity|split; [vm_compute; reflexivity|split; [discriminate|]]]);
    (apply Forall_cons; split; [vm_compute; reflexivity|apply Forall_nil; exact I]).
Qed.


Definition sample_gate (f : Forward) : verdict (E := unit) * Forward :=
  (Allow, mkForward (text "acme"%string) (UserID f) true 7 (Method f) (Path f) (Headers f) (Body f) (ConnID f)).
Definition sample_message : Message :=
  match BuildForward sample_forward with Ret (Ok m) => m | _ => WrapBuffer [] end.

Lemma relay_exact_witness :
  exists m' f', Relay (E := unit) sample_gate (fun _ => text "base"%string) (fun _ m => Ok m) sample_message
    = Ret (Ok m', [(text "base"%string, m')]) /\ ReadForward m' = Ret f' /\ TenantID f' = text "acme"%string.
Proof.
  destruct (relay_exact sample_gate (fun _ => text "base"%string) (fun _ m => Ok m) (data sample_message) sample_message)
    as (f & Hf & H); [vm_compute; reflexivity|].
  assert (Hs : f = sample_forward) by (vm_compute in Hf; injection Hf as <-; vm_compute; reflexivity); subst f.
  destruct H as (m' & Hr & Hrd & _); [cbn; lia|vm_compute; reflexivity|].
  exists m', (sample_gate sample_forward).2; split; [exact Hr|split; [exact Hrd|reflexivity]].
Defined.

Definition sample_push : Push := mkPush (text "c1"%string) (text "data"%string) (text "sse"%string).

Lemma reverse_push_exact_witness :
  exists m, BuildPush sample_push = Ret (Ok m)
    /\ exists reg', HandleReversePush (fun _ _ => Some tt) m {[text "c1"%string := 4%nat]} = Ret (Some tt, reg', [(4%nat, sample_push)]).
Proof.
  destruct (reverse_push_exact (fun _ _ => Some tt) sample_push {[text "c1"%string := 4%nat]}) as (m & Hb & H); [vm_compute; reflexivity|].
  exists m; split; [exact Hb|]; destruct H as (reg' & H & _); exists reg'; exact H.
Defined.

Lemma forward_envelopes_roundtrip_witness :
  exists m, BuildForward sample_forward = Ret (Ok m) /\ ReadForward m = Ret sample_forward.
Proof.
  destruct (proj1 forward_envelopes_roundtrip sample_forward) as (m & Hb & _ & Hr); [cbn; lia|vm_compute; reflexivity|].
  exists m; split; [exact Hb|exact Hr].
Defined.
