(* ===== verification/ZapClient.v ===== *)
(** * ZapClient: procedures by name

    The packages [zapclient] and [zapweb]. [codec.go] hashes a procedure name
    to an opcode, [client.go] connects, picks a peer, tags the message with the
    opcode and calls, [server.go] keeps the table of procedures and dispatches
    to it behind a verifier ([iface.go]), and [static.go] is the discovery over
    fixed addresses. [zapweb] carries the same dispatch over WebSocket frames.
    [Node.Call], [Node.Send] and [Node.ConnectDirectID] are arguments of the
    client's operations; [NodeLoop] and [NodeNet] model them. *)

From S2P Require Import Prelude Wire Builder BuilderSpec HsFrames NodeWire NodeLoop NodeNet Http.
From stdpp Require Import gmap.
From Stdlib Require String.
Import String.StringSyntax.
Local Delimit Scope string_scope with string.
Local Open Scope Z_scope.

(** [EOther] is an error of a caller's own verifier, picker or handler. *)
Inductive client_error : Type :=
| ErrNoPeers
| ErrUnknownProcedure
| ErrPeerUnauthorized
| EEmptyName
| ECollision (op : Z) (existing procedure : str)
| ENoServiceType
| ENodeStart (e : start_error)
| EDiscoveryStart
| EDiscover (want : Z) (serviceType : str) (have : Z)
| EDialPeer (address : str) (e : net_error)
| ENode (e : net_error)
| EOther (s : str).

(** ** Opcodes *)

Definition fnv32a (s : str) : Z :=
  fold_left (fun h b => u32 (Z.lxor h (byte.unsigned b) * 16777619)) s 2166136261.

Definition ProcedureOpcode (name : str) : result Z client_error :=
  if len name =? 0 then Err EEmptyName else
  let b := u8 (fnv32a name mod 254 + 1) in
  Ok (u16 (Z.shiftl b 8)).

Definition MustOpcode (name : str) : outcome Z :=
  match ProcedureOpcode name with Ok op => Ret op | Err _ => Panic end.

(** ** Peers and discovery *)

Record Peer : Type := mkPeer { peer_NodeID : str; peer_ServiceType : str; Address : str }.

(** What the discoveries the program does not own report at some moment: the
    ids the node is connected to, and the peers of the caller's discovery. *)
Record Snapshot : Type := mkSnapshot { node_ids : list str; own_peers : list Peer }.

(** [ownDiscovery] is one the caller passed to [WithDiscovery]. *)
Inductive Discovery : Type :=
| nodeDiscovery (serviceType : str)
| staticDiscovery (serviceType : str) (peers : list Peer)
| ownDiscovery (serviceType : str) (starts : bool).

Fixpoint static_peers (serviceType : str) (i : Z) (addrs : list str) : list Peer :=
  match addrs with
  | [] => []
  | a :: addrs =>
      if len a =? 0 then static_peers serviceType (i + 1) addrs else
      mkPeer (serviceType ++ text "-static-"%string ++ FormatInt i) serviceType a
        :: static_peers serviceType (i + 1) addrs
  end.

Definition newStaticDiscovery (serviceType : str) (addrs : list str) : Discovery :=
  staticDiscovery serviceType (static_peers serviceType 0 addrs).

Definition Discovery_Peers (d : Discovery) (s : Snapshot) : list Peer :=
  match d with
  | nodeDiscovery t => map (fun id => mkPeer id t []) (node_ids s)
  | staticDiscovery _ ps => ps
  | ownDiscovery _ _ => own_peers s
  end.

Definition PeerCount (d : Discovery) (s : Snapshot) : Z := len (Discovery_Peers d s).

Definition Discovery_ServiceType (d : Discovery) : str :=
  match d with nodeDiscovery t | staticDiscovery t _ | ownDiscovery t _ => t end.

Definition Discovery_Start (d : Discovery) : result unit client_error :=
  match d with
  | ownDiscovery _ false => Err EDiscoveryStart
  | _ => Ok tt
  end.

(** ** Picking *)

Inductive Picker : Type :=
| RoundRobinPicker (next : Z)
| ownPicker (pick : list Peer -> result Peer client_error).

(** [p.next.Add(1) - 1], modulo [2^64]. *)
Definition RoundRobin_Pick (next : Z) (peers : list Peer) : outcome (result Peer client_error) * Z :=
  if len peers =? 0 then (Ret (Err ErrNoPeers), next) else
  let next' := u64 (next + 1) in
  let idx := u64 (next' - 1) in
  (p ← index peers (idx mod len peers); Ret (Ok p), next').

Definition Pick (p : Picker) (peers : list Peer) : outcome (result Peer client_error) * Picker :=
  match p with
  | RoundRobinPicker next =>
      let '(r, next) := RoundRobin_Pick next peers in (r, RoundRobinPicker next)
  | ownPicker f => (Ret (f peers), p)
  end.

(** ** Tagging a message *)

(** The stub for a procedure without parameters. *)
Definition stub (op : Z) : outcome (list byte) :=
  b ← NewBuilder HeaderSize;
  '(ob, b) ← StartObject b 0;
  let '(_, b) := FinishAsRoot ob b in
  '(d, _) ← FinishWithFlags b op;
  Ret d.

Definition set_flags (raw : list byte) (op : Z) : outcome (list byte) :=
  raw ← store raw 6 [byte.of_Z (u8 op)];
  store raw 7 [byte.of_Z (u8 (Z.shiftr op 8))].

(** [out, _ := zap.Parse(raw)]: nil on an error. *)
Definition parse_or_nil (raw : list byte) : outcome (option Message) :=
  x ← Parse raw;
  Ret (match x with Ok m => Some m | Err _ => None end).

Definition withFlags (msg : option Message) (op : Z) : outcome (option Message) :=
  match msg with
  | None => d ← stub op; parse_or_nil d
  | Some m => raw ← set_flags (Message_Bytes m) op; parse_or_nil raw
  end.

(** ** The client *)

Record ClientOptions : Type := mkClientOptions {
  o_NodeID : str;
  MinPeers : Z;
  DiscoverTimeout : Z;
  BrowseInterval : Z;
  CallTimeout : Z;
  o_Discovery : option Discovery;
  o_Picker : Picker;
  StaticPeers : list str
}.

(** Durations are nanoseconds. *)
Definition defaultClientOpts : ClientOptions :=
  mkClientOptions [] 1 10000000000 5000000000 30000000000 None (RoundRobinPicker 0) [].

Definition ClientOption : Type := ClientOptions -> ClientOptions.
Definition WithNodeID (id : str) : ClientOption := fun o =>
  mkClientOptions id (MinPeers o) (DiscoverTimeout o) (BrowseInterval o) (CallTimeout o) (o_Discovery o) (o_Picker o) (StaticPeers o).
Definition WithMinPeers (n : Z) : ClientOption := fun o =>
  mkClientOptions (o_NodeID o) n (DiscoverTimeout o) (BrowseInterval o) (CallTimeout o) (o_Discovery o) (o_Picker o) (StaticPeers o).
Definition WithDiscoverTimeout (d : Z) : ClientOption := fun o =>
  mkClientOptions (o_NodeID o) (MinPeers o) d (BrowseInterval o) (CallTimeout o) (o_Discovery o) (o_Picker o) (StaticPeers o).
Definition WithBrowseInterval (d : Z) : ClientOption := fun o =>
  mkClientOptions (o_NodeID o) (MinPeers o) (DiscoverTimeout o) d (CallTimeout o) (o_Discovery o) (o_Picker o) (StaticPeers o).
Definition WithCallTimeout (d : Z) : ClientOption := fun o =>
  mkClientOptions (o_NodeID o) (MinPeers o) (DiscoverTimeout o) (BrowseInterval o) d (o_Discovery o) (o_Picker o) (StaticPeers o).
Definition WithDiscovery (d : Discovery) : ClientOption := fun o =>
  mkClientOptions (o_NodeID o) (MinPeers o) (DiscoverTimeout o) (BrowseInterval o) (CallTimeout o) (Some d) (o_Picker o) (StaticPeers o).
Definition WithStaticPeers (addrs : list str) : ClientOption := fun o =>
  mkClientOptions (o_NodeID o) (MinPeers o) (DiscoverTimeout o) (BrowseInterval o) (CallTimeout o) (o_Discovery o) (o_Picker o) addrs.
Definition WithPicker (p : Picker) : ClientOption := fun o =>
  mkClientOptions (o_NodeID o) (MinPeers o) (DiscoverTimeout o) (BrowseInterval o) (CallTimeout o) (o_Discovery o) p (StaticPeers o).

Record Client : Type := mkClient {
  node : Node;
  disc : Discovery;
  picker : Picker;
  timeout : Z;
  closed : bool;
  stopDisc : bool;  (* whether [stopDisc] is [disc.Stop] or does nothing *)
  addrID : gmap str str
}.

(** What [Connect] and [Close] do to the node and the discovery. *)
Inductive action : Type :=
| NodeStart
| NodeStop
| DiscStart
| DiscStop.
#[export] Instance action_eq_dec : EqDecision action.
Proof. solve_decision. Defined.

(** [waitForPeers]: [polls] is what the discovery reports each time round the
    loop, the last one when the context is done; [final] what it reports while
    the error is formatted. *)
Fixpoint wait_loop (d : Discovery) (want : Z) (polls : list Snapshot) (final : Snapshot) : result unit client_error :=
  match polls with
  | [] => Err (EDiscover want (Discovery_ServiceType d) (PeerCount d final))
  | s :: polls => if want <=? PeerCount d s then Ok tt else wait_loop d want polls final
  end.
Definition waitForPeers (d : Discovery) (want : Z) (first : Snapshot) (polls : list Snapshot) (final : Snapshot)
  : result unit client_error :=
  if want <=? 0 then Ok tt else wait_loop d want (first :: polls) final.

Section connect.
(** [suffix] is [randomSuffix()], [start] is [Node.Start]. *)
Context (suffix : str) (start : Node -> result Node start_error).
Context (first : Snapshot) (polls : list Snapshot) (final : Snapshot).

Definition client_config (o : ClientOptions) : NodeConfig :=
  mkNodeConfig (text "client-"%string ++ o_NodeID o) 0 [] (match o_Discovery o with Some _ => true | None => false end).

(** The options [Connect] works with. *)
Definition resolve_options (serviceType : str) (opts : list ClientOption) : ClientOptions :=
  let o := fold_left (fun o opt => opt o) opts defaultClientOpts in
  let o := if len (o_NodeID o) =? 0 then WithNodeID (text "zapclient-"%string ++ suffix) o else o in
  match o_Discovery o with
  | None => if 0 <? len (StaticPeers o) then WithDiscovery (newStaticDiscovery serviceType (StaticPeers o)) o else o
  | Some _ => o
  end.

Definition Connect (serviceType : str) (opts : list ClientOption) : result Client client_error * list action :=
  if len serviceType =? 0 then (Err ENoServiceType, []) else
  let o := resolve_options serviceType opts in
  match start (NewNode (client_config o)) with
  | Err e => (Err (ENodeStart e), [])
  | Ok n =>
      let wait d stop log :=
        match waitForPeers d (MinPeers o) first polls final with
        | Err e => (Err e, log ++ (if stop : bool then [DiscStop] else []) ++ [NodeStop])
        | Ok _ => (Ok (mkClient n d (o_Picker o) (CallTimeout o) false stop ∅), log)
        end in
      match o_Discovery o with
      | None => wait (nodeDiscovery serviceType) false [NodeStart]
      | Some d =>
          match Discovery_Start d with
          | Err e => (Err e, [NodeStart; NodeStop])
          | Ok _ => wait d true [NodeStart; DiscStart]
          end
      end
  end.
End connect.

Definition Close (c : Client) : Client * list action :=
  if closed c then (c, []) else
  (mkClient (node c) (disc c) (picker c) (timeout c) true (stopDisc c) (addrID c),
   (if stopDisc c then [DiscStop] else []) ++ [NodeStop]).

Definition with_picker (p : Picker) (c : Client) : Client :=
  mkClient (node c) (disc c) p (timeout c) (closed c) (stopDisc c) (addrID c).
Definition with_addrID (m : gmap str str) (c : Client) : Client :=
  mkClient (node c) (disc c) (picker c) (timeout c) (closed c) (stopDisc c) m.

Definition Client_pick (s : Snapshot) (c : Client) : outcome (result Peer client_error) * Client :=
  let '(r, p) := Pick (picker c) (Discovery_Peers (disc c) s) in (r, with_picker p c).

Section calls.
(** [dial] is [Node.ConnectDirectID]: the id the peer introduced itself by. *)
Context (dial : str -> result str net_error).

Definition resolvePeer (peer : Peer) (c : Client) : result str client_error * Client :=
  if len (Address peer) =? 0 then (Ok (peer_NodeID peer), c) else
  match addrID c !! Address peer with
  | Some id => (Ok id, c)
  | None =>
      match dial (Address peer) with
      | Err e => (Err (EDialPeer (Address peer) e), c)
      | Ok id =>
          let id := if len id =? 0 then peer_NodeID peer else id in
          (Ok id, with_addrID (<[Address peer := id]> (addrID c)) c)
      end
  end.

(** The common part of [Call] and [Send]: the peer to address and the tagged
    message. *)
Definition prepare (s : Snapshot) (procedure : str) (req : option Message) (c : Client)
  : outcome (result (str * option Message) client_error) * Client :=
  match ProcedureOpcode procedure with
  | Err e => (Ret (Err e), c)
  | Ok op =>
      match Client_pick s c with
      | (Panic, c) => (Panic, c)
      | (Ret (Err e), c) => (Ret (Err e), c)
      | (Ret (Ok peer), c) =>
          match resolvePeer peer c with
          | (Err e, c) => (Ret (Err e), c)
          | (Ok target, c) => (tagged ← withFlags req op; Ret (Ok (target, tagged)), c)
          end
      end
  end.

(** [send] is [node.Call] or [node.Send] at a target, which dereferences the
    message it is given. *)
Definition perform {A} (send : str -> Message -> result A net_error)
  (s : Snapshot) (procedure : str) (req : option Message) (c : Client)
  : outcome (result A client_error) * Client :=
  let '(r, c) := prepare s procedure req c in
  (x ← r;
   match x with
   | Err e => Ret (Err e)
   | Ok (target, tagged) =>
       m ← deref tagged;
       Ret (match send target m with Ok a => Ok a | Err e => Err (ENode e) end)
   end, c).

Definition Client_Call (call : str -> Message -> result Message net_error) := perform call.
Definition Client_Send (send : str -> Message -> result unit net_error) := perform send.
End calls.

(** ** The server *)

(** The certificate fields are never filled in by this code. *)
Record PeerInfo : Type := mkPeerInfo { NodeID : str; ServiceType : str; TLSCertSubject : str; TLSCertSANs : list str }.

Definition PeerVerifier : Type := PeerInfo -> str -> option client_error.

Definition LocalTrustVerifier : PeerVerifier := fun peer _ =>
  if (len (NodeID peer) =? 0) && (len (TLSCertSubject peer) =? 0) then Some ErrPeerUnauthorized else None.

(** A nil map and an empty one are the same to a lookup. *)
Definition AllowListVerifier (Allowed : gmap str (gset str)) : PeerVerifier := fun peer procedure =>
  match Allowed !! procedure with
  | None => Some ErrPeerUnauthorized
  | Some set =>
      if bool_decide (set = ∅) then Some ErrPeerUnauthorized else
      if bool_decide (NodeID peer ∈ set) then None else Some ErrPeerUnauthorized
  end.

Definition ProcedureHandler : Type := PeerInfo -> Message -> outcome (result (option Message) client_error).

Record registration : Type := mkRegistration { procedure : str; handler : ProcedureHandler }.

(** [handled] are the message types the node calls [dispatch] for. *)
Record Server : Type := mkServer {
  s_nodeID : str;
  verifier : PeerVerifier;
  procedures : gmap Z registration;
  procNames : gmap str Z;
  handled : gset Z
}.

(** [NewServer] with the id and the verifier its options chose, if any. *)
Definition NewServer (suffix serviceType : str) (id : str) (v : option PeerVerifier) : result Server client_error :=
  if len serviceType =? 0 then Err ENoServiceType else
  let id := if len id =? 0 then text "zapserver-"%string ++ suffix else id in
  Ok (mkServer id (default LocalTrustVerifier v) ∅ ∅ ∅).

Definition Register (s : Server) (p : str) (h : ProcedureHandler) : result unit client_error * Server :=
  match ProcedureOpcode p with
  | Err e => (Err e, s)
  | Ok op =>
      match procedures s !! op with
      | Some existing => (Err (ECollision op (procedure existing) p), s)
      | None =>
          (Ok tt, mkServer (s_nodeID s) (verifier s) (<[op := mkRegistration p h]> (procedures s))
                    (<[p := op]> (procNames s)) ({[Z.shiftr op 8]} ∪ handled s))
      end
  end.

Definition dispatch (s : Server) (from : str) (m : Message) : outcome (result (option Message) client_error) :=
  op ← Message_Flags m;
  match procedures s !! op with
  | None => Ret (Err ErrUnknownProcedure)
  | Some reg =>
      let peer := mkPeerInfo from (s_nodeID s) [] [] in
      match verifier s peer (procedure reg) with
      | Some e => Ret (Err e)
      | None => handler reg peer m
      end
  end.
Definition Dispatch := dispatch.

(** The handlers the server's node runs; its loop looks no further than
    whether a handler failed. *)
Definition node_handlers (s : Server) : gmap Z Handler :=
  gset_to_gmap (fun from m =>
    r ← dispatch s from m;
    Ret (match r with Ok x => Ok x | Err _ => Err tt end)) (handled s).

(** ** zapweb *)

Definition corrHeader : Z := 8.
Definition FlagErr : Z := 3.

(** The three frames of the protocol: the prefix, then [body]. *)
Definition frame (reqID flag : Z) (body : list byte) : outcome (list byte) :=
  let out := zeros (corrHeader + len body) in
  out ← store out 0 (le_bytes 4 reqID);
  out ← store out 4 (le_bytes 4 flag);
  store out corrHeader body.

Definition encodeRequest (reqID : Z) (procedure : str) (req : option Message) : outcome (result (list byte) client_error) :=
  match ProcedureOpcode procedure with
  | Err e => Ret (Err e)
  | Ok op =>
      body ← (match req with
              | None => stub op
              | Some m => set_flags (Message_Bytes m) op
              end);
      out ← frame reqID ReqFlagReq body;
      Ret (Ok out)
  end.

Definition encodeResp (reqID : Z) (resp : option Message) : outcome (list byte) :=
  frame reqID ReqFlagResp (match resp with Some m => Message_Bytes m | None => [] end).

Section zapweb.
(** [err.Error()] for the errors of a dispatch and of a parse. *)
Context (Error : client_error -> str) (ParseError : zap_error -> str).

Definition encodeErr (reqID : Z) (es : str) : outcome (list byte) := frame reqID FlagErr es.

(** [Handler] fills in the identity browser calls are made under. *)
Definition web_peer (PeerID : str) : str := if len PeerID =? 0 then text "zapweb"%string else PeerID.

(** One message from the WebSocket ([binary] tells its type): the reply the
    loop of [Handler] writes, if any. *)
Definition web_answer (srv : Server) (PeerID : str) (binary : bool) (d : list byte) : outcome (option (list byte)) :=
  if negb binary || (len d <? corrHeader) then Ret None else
  s ← slice d 0 4;
  reqID ← le_uint 4 s;
  body ← slice_from d corrHeader;
  x ← Parse body;
  match x with
  | Err e => out ← encodeErr reqID (ParseError e); Ret (Some out)
  | Ok m =>
      r ← Dispatch srv (web_peer PeerID) m;
      out ← (match r with
             | Err e => encodeErr reqID (Error e)
             | Ok resp => encodeResp reqID resp
             end);
      Ret (Some out)
  end.

(** The loop: each incoming message comes with whether a write after it would
    succeed; what is written, in order. *)
Fixpoint web_loop (srv : Server) (PeerID : str) (inbox : list (bool * list byte * bool)) : outcome (list (list byte)) :=
  match inbox with
  | [] => Ret []
  | (binary, d, ok) :: inbox =>
      a ← web_answer srv PeerID binary d;
      match a with
      | None => web_loop srv PeerID inbox
      | Some out =>
          if (ok : bool) then rest ← web_loop srv PeerID inbox; Ret (out :: rest) else Ret []
      end
  end.

Inductive web_error : Type :=
| WEncode (e : client_error)
| WWrite
| WRead
| WMalformed
| WDispatch (s : str)
| WParse (e : zap_error)
| WFlag (flag : Z).

(** [Client.Call] after the read. *)
Definition decode_reply (binary : bool) (d : list byte) : outcome (result (option Message) web_error) :=
  if negb binary || (len d <? corrHeader) then Ret (Err WMalformed) else
  s ← slice d 4 8;
  flag ← le_uint 4 s;
  body ← slice_from d corrHeader;
  if flag =? FlagErr then Ret (Err (WDispatch body)) else
  if flag =? ReqFlagResp then
    (if len body =? 0 then Ret (Ok None) else
     x ← Parse body;
     Ret (match x with Ok m => Ok (Some m) | Err e => Err (WParse e) end))
  else Ret (Err (WFlag flag)).

Definition nextReqID (reqID : Z) : Z := u32 (reqID + 1).

(** [Client.Call] over a connection: [exchange] writes a frame and reads the
    next message; it fails with [WWrite] or [WRead]. *)
Definition web_Call (exchange : list byte -> outcome (result (bool * list byte) web_error)) (reqID : Z) (procedure : str) (req : option Message)
  : outcome (result (option Message) web_error) * Z :=
  let id := nextReqID reqID in
  (f ← encodeRequest id procedure req;
   match f with
   | Err e => Ret (Err (WEncode e))
   | Ok f =>
       x ← exchange f;
       match x with
       | Err e => Ret (Err e)
       | Ok (binary, d) => decode_reply binary d
       end
   end, id).
End zapweb.

(** ** Opcodes and tagged messages *)

Lemma ProcedureOpcode_spec p :
  p <> [] -> exists b, ProcedureOpcode p = Ok (b * 256) /\ 1 <= b <= 254.
Proof.
  intros Hp; unfold ProcedureOpcode.
  assert ((len p =? 0) = false) as -> by (apply Z.eqb_neq; destruct p; [done|]; unfold len; cbn [length]; lia).
  pose proof (Z.mod_pos_bound (fnv32a p) 254 ltac:(lia)).
  exists (fnv32a p mod 254 + 1); split; [|lia].
  unfold u8, u16; rewrite Z.shiftl_mul_pow2 by lia.
  rewrite (Z.mod_small (fnv32a p mod 254 + 1)) by lia.
  rewrite Z.mod_small by lia; done.
Qed.

Lemma ProcedureOpcode_range p op :
  ProcedureOpcode p = Ok op -> exists b, op = b * 256 /\ 1 <= b <= 254.
Proof.
  destruct (decide (p = [])) as [->|Hp]; [done|].
  destruct (ProcedureOpcode_spec p Hp) as (b & -> & Hb); intros [= <-]; eauto.
Qed.

(** A message as [Parse] accepts it. *)
Definition well_formed (m : Message) : Prop := Parse (data m) = Ret (Ok (mkMessage (data m) None)).

Lemma well_formed_inv m :
  well_formed m ->
  HeaderSize <= len (data m) /\ rd 4 (data m) 12 = len (data m) /\ sub (data m) 0 4 = Magic
  /\ (rd 2 (data m) 4 = Version1 \/ rd 2 (data m) 4 = Version2).
Proof.
  intros (Hs & Hm & Hv & Hd)%Parse_Ok_inv; injection Hd as Hd.
  apply (f_equal len) in Hd; unfold HeaderSize in *; rewrite len_sub in Hd by lia.
  split_and!; [lia|lia|done|done].
Qed.

Lemma well_formed_intro d :
  HeaderSize <= len d -> rd 4 d 12 = len d -> sub d 0 4 = Magic ->
  rd 2 d 4 = Version1 \/ rd 2 d 4 = Version2 -> well_formed (mkMessage d None).
Proof.
  intros Hl Hs Hm Hv; unfold well_formed; cbn [data].
  rewrite Parse_Ok_intro by (try done; rewrite Hs; lia).
  rewrite Hs, sub_all by lia; done.
Qed.

(** The bytes with the opcode in the flags. *)
Definition retag (d : list byte) (op : Z) : list byte := put d 6 (le_bytes 2 op).

Lemma le_bytes_2 op : le_bytes 2 op = [byte.of_Z (u8 op); byte.of_Z (u8 (Z.shiftr op 8))].
Proof.
  assert (Hb : forall z, byte.of_Z (z mod 2 ^ 8) = byte.of_Z z)
    by (intros z; apply byte.unsigned_inj; rewrite !byte.unsigned_of_Z; unfold byte.wrap; rewrite Z.mod_mod by lia; done).
  unfold u8; rewrite !Hb; done.
Qed.

Lemma set_flags_eq d op : HeaderSize <= len d -> set_flags d op = Ret (retag d op).
Proof.
  unfold HeaderSize; intros Hl; unfold set_flags, retag; rewrite le_bytes_2.
  assert (H1 : forall x : byte, len [x] = 1) by done.
  assert (H2 : forall x y : byte, len [x; y] = 2) by done.
  rewrite store_ok by (rewrite ?H1; lia); cbn [mbind outcome_bind].
  rewrite store_ok by (rewrite ?len_put; rewrite ?H1; lia).
  f_equal; apply list_eq; intros i.
  rewrite !lookup_put by (rewrite ?len_put; rewrite ?H1, ?H2; lia); rewrite !H1, !H2.
  repeat case_decide; try lia; try done.
  - replace (i - Z.to_nat 7)%nat with 0%nat by lia; replace (i - Z.to_nat 6)%nat with 1%nat by lia; done.
  - replace (i - Z.to_nat 6)%nat with 0%nat by lia; done.
Qed.

Lemma retag_facts d op :
  HeaderSize <= len d -> 0 <= op < 2 ^ 16 ->
  len (retag d op) = len d /\ rd 2 (retag d op) 6 = op
  /\ forall lo n, 0 <= lo -> lo + n <= 6 \/ 8 <= lo -> sub (retag d op) lo n = sub d lo n.
Proof.
  unfold HeaderSize; intros Hl Hop; unfold retag; split_and!.
  - apply len_put; rewrite ?len_le_bytes; lia.
  - unfold rd; rewrite <-(len_le_bytes 2 op) at 2 by lia.
    rewrite sub_put_same by (rewrite ?len_le_bytes; lia).
    unfold le_bytes; rewrite LittleEndianList.le_combine_split; change (Z.of_nat (Z.to_nat 2) * 8) with 16; apply Z.mod_small; lia.
  - intros; apply sub_put_other; rewrite ?len_le_bytes; lia.
Qed.

Lemma retag_well_formed m op :
  well_formed m -> 0 <= op < 2 ^ 16 ->
  well_formed (mkMessage (retag (data m) op) None)
  /\ Message_Flags (mkMessage (retag (data m) op) None) = Ret op.
Proof.
  intros (Hl & Hs & Hm & Hv)%well_formed_inv Hop.
  destruct (retag_facts _ op Hl Hop) as (Hlen & Hf & Hsame); split.
  - apply well_formed_intro; unfold rd in *; rewrite ?Hlen, ?Hsame by lia; done.
  - unfold Message_Flags; cbn [data]; unfold HeaderSize in *.
    rewrite <-Hf at 2; rewrite <-Hlen in Hl; clear - Hl; go_eval.
Qed.

(** The stub before it is tagged. *)
Definition stub_bytes : list byte :=
  Magic ++ le_bytes 2 Version2 ++ [Byte.x00; Byte.x00] ++ le_bytes 4 16 ++ le_bytes 4 16.

Lemma stub_eq op : stub op = Ret (retag stub_bytes op).
Proof.
  unfold stub, FinishWithFlags, retag; pose proof (len_le_bytes 2 op ltac:(lia)) as Hl.
  destruct (le_bytes 2 op) as [|a [|b [|c l]]]; try (unfold len in Hl; cbn [length] in Hl; lia).
  reflexivity.
Qed.

Lemma stub_well_formed : well_formed (mkMessage stub_bytes None).
Proof. reflexivity. Qed.

(** What a call sends: the request's bytes, or the stub's. *)
Definition request (req : option Message) : list byte :=
  match req with Some m => data m | None => stub_bytes end.

Definition requestable (req : option Message) : Prop := forall m, req = Some m -> well_formed m.

Lemma request_well_formed req : requestable req -> well_formed (mkMessage (request req) None).
Proof. destruct req as [m|]; intros H; [exact (H m eq_refl)|exact stub_well_formed]. Qed.

Lemma withFlags_eq req op :
  requestable req -> 0 <= op < 2 ^ 16 ->
  let m := mkMessage (retag (request req) op) None in
  withFlags req op = Ret (Some m) /\ well_formed m /\ Message_Flags m = Ret op.
Proof.
  intros Hr Hop m; pose proof (request_well_formed req Hr) as Hwf.
  destruct (retag_well_formed _ op Hwf Hop) as [Hw Hf]; cbn [data] in Hw, Hf.
  split; [|split; [exact Hw|exact Hf]].
  assert (Hp : parse_or_nil (retag (request req) op) = Ret (Some m))
    by (unfold parse_or_nil; unfold well_formed in Hw; cbn [data] in Hw; rewrite Hw; reflexivity).
  destruct (well_formed_inv _ Hwf) as (Hl & _); cbn [data] in Hl.
  destruct req as [m0|]; unfold withFlags; cbn [request] in *.
  - unfold Message_Bytes; rewrite set_flags_eq by done; exact Hp.
  - rewrite stub_eq; exact Hp.
Qed.

(** ** The table of procedures *)

(** Registrations made one after the other; a refused one leaves the server as
    it was. *)
Definition attempts (s : Server) (ps : list (str * ProcedureHandler)) : Server :=
  fold_left (fun s ph => (Register s ph.1 ph.2).2) ps s.

(** Every entry is under its name's opcode, the node dispatches exactly the
    types of the entries, and the index by name agrees with the table. *)
Record server_inv (s : Server) : Prop := mkServerInv {
  inv_opcode : forall op reg, procedures s !! op = Some reg -> ProcedureOpcode (procedure reg) = Ok op;
  inv_handled : forall t, t ∈ handled s <-> exists op, is_Some (procedures s !! op) /\ Z.shiftr op 8 = t;
  inv_names : forall p op, procNames s !! p = Some op <-> exists h, procedures s !! op = Some (mkRegistration p h)
}.

Lemma Register_Ok s p h :
  (Register s p h).1 = Ok tt ->
  exists op, ProcedureOpcode p = Ok op /\ procedures s !! op = None
  /\ (Register s p h).2 = mkServer (s_nodeID s) (verifier s) (<[op := mkRegistration p h]> (procedures s))
       (<[p := op]> (procNames s)) ({[Z.shiftr op 8]} ∪ handled s).
Proof.
  unfold Register; destruct (ProcedureOpcode p) as [op|e]; [|done].
  destruct (procedures s !! op) eqn:E; [done|]; intros _; exists op; done.
Qed.

Lemma Register_Err s p h e : (Register s p h).1 = Err e -> (Register s p h).2 = s.
Proof.
  unfold Register; destruct (ProcedureOpcode p) as [op|e']; [|done].
  destruct (procedures s !! op); done.
Qed.

(** What holds of a server and is kept by accepted registrations holds after
    any attempts. *)
Lemma attempts_ind (P : Server -> Prop) s ps :
  P s -> (forall s p h, P s -> (Register s p h).1 = Ok tt -> P (Register s p h).2) -> P (attempts s ps).
Proof.
  intros H0 Hstep; revert s H0; induction ps as [|[p h] ps IH]; intros s H0; [exact H0|].
  unfold attempts; cbn [fold_left fst snd]; apply IH.
  destruct (Register s p h).1 as [[]|e] eqn:E; [exact (Hstep s p h H0 E)|].
  rewrite (Register_Err _ _ _ _ E); exact H0.
Qed.

Lemma Register_inv s p h : server_inv s -> (Register s p h).1 = Ok tt -> server_inv (Register s p h).2.
Proof.
  intros [Ho Hh Hn] (op & Hp & Hnew & ->)%Register_Ok; constructor; cbn [procedures handled procNames].
  - intros op' reg; rewrite lookup_insert_Some; intros [[<- <-]|[_ Hl]]; [exact Hp|eauto].
  - intros t; rewrite elem_of_union, elem_of_singleton, Hh; split.
    + intros [->|(op' & Hs & <-)].
      * exists op; rewrite lookup_insert_eq; eauto.
      * exists op'; rewrite lookup_insert_is_Some'; eauto.
    + intros (op' & [<-|Hs]%lookup_insert_is_Some' & <-); eauto.
  - intros p' op'; rewrite lookup_insert_Some, Hn; split.
    + intros [[<- <-]|[Hne [h' Hl]]]; [exists h; apply lookup_insert_eq|].
      exists h'; rewrite lookup_insert_ne; [exact Hl|intros ->; congruence].
    + intros [h' [[<- [= <-]]|[Hne Hl]]%lookup_insert_Some]; [by left|right; split; [|eauto]].
      intros <-; apply Ho in Hl; cbn [procedure] in Hl; congruence.
Qed.

Lemma NewServer_inv suffix st id v s : NewServer suffix st id v = Ok s -> server_inv s.
Proof.
  unfold NewServer; case_if; [done|]; intros [= <-]; constructor; cbn [procedures handled procNames].
  - intros op reg; rewrite lookup_empty; done.
  - intros t; rewrite elem_of_empty; split; [done|]; intros (op & [? Hs] & _); rewrite lookup_empty in Hs; done.
  - intros p op; rewrite lookup_empty; split; [done|]; intros [h Hl]; rewrite lookup_empty in Hl; done.
Qed.

Lemma attempts_inv s ps : server_inv s -> server_inv (attempts s ps).
Proof. intros H; apply attempts_ind; [exact H|]; intros; apply Register_inv; done. Qed.

Lemma attempts_keep s ps op reg :
  procedures s !! op = Some reg ->
  procedures (attempts s ps) !! op = Some reg
  /\ verifier (attempts s ps) = verifier s /\ s_nodeID (attempts s ps) = s_nodeID s.
Proof.
  intros H; apply (attempts_ind (fun s' => procedures s' !! op = Some reg /\ verifier s' = verifier s /\ s_nodeID s' = s_nodeID s));
    [done|].
  intros s' p h (Hl & Hv & Hi) (op' & _ & Hnew & ->)%Register_Ok; cbn [procedures verifier s_nodeID].
  rewrite lookup_insert_ne by congruence; done.
Qed.

(** Entries come from the registrations that were made. *)
Lemma attempts_entries s ps op reg :
  procedures s = ∅ -> procedures (attempts s ps) !! op = Some reg ->
  (procedure reg, handler reg) ∈ ps.
Proof.
  intros H0; assert (Hin : forall qs s', (forall o r, procedures s' !! o = Some r -> (procedure r, handler r) ∈ ps) -> qs ⊆ ps ->
    forall o r, procedures (attempts s' qs) !! o = Some r -> (procedure r, handler r) ∈ ps).
  { induction qs as [|[p h] qs IH]; intros s' Hs Hsub; [exact Hs|].
    unfold attempts; cbn [fold_left fst snd]; apply IH; [|set_solver].
    destruct (Register s' p h).1 as [[]|e] eqn:E; [|rewrite (Register_Err _ _ _ _ E); exact Hs].
    destruct (Register_Ok _ _ _ E) as (op' & _ & _ & ->); cbn [procedures].
    intros o r [[_ <-]|[_ Hl]]%lookup_insert_Some; [set_solver|eauto]. }
  apply Hin; [|done]; rewrite H0; intros o r; rewrite lookup_empty; done.
Qed.

(** ** Calls reach their procedure *)

(** What a procedure's caller gets: the verifier's refusal or what the handler
    makes of the message. *)
Definition gated (s : Server) (from p : str) (h : ProcedureHandler) (m : Message)
  : outcome (result (option Message) client_error) :=
  let peer := mkPeerInfo from (s_nodeID s) [] [] in
  match verifier s peer p with Some e => Ret (Err e) | None => h peer m end.

Lemma dispatch_entry s from m op p h :
  Message_Flags m = Ret op -> procedures s !! op = Some (mkRegistration p h) ->
  dispatch s from m = gated s from p h m.
Proof. intros Hf Hl; unfold dispatch; rewrite Hf; cbn [mbind outcome_bind]; rewrite Hl; done. Qed.

Lemma registered_entry s p h after :
  (Register s p h).1 = Ok tt ->
  let s' := attempts (Register s p h).2 after in
  exists op, ProcedureOpcode p = Ok op /\ procedures s' !! op = Some (mkRegistration p h)
  /\ verifier s' = verifier s /\ s_nodeID s' = s_nodeID s.
Proof.
  intros HR s'; destruct (Register_Ok _ _ _ HR) as (op & Hp & _ & HE).
  destruct (attempts_keep (Register s p h).2 after op (mkRegistration p h)) as (Hl & Hv & Hi).
  { rewrite HE; apply lookup_insert_eq. }
  exists op; fold s' in Hl, Hv, Hi; rewrite Hl, Hv, Hi, HE; done.
Qed.

(** C20: a procedure that registered is what calls of its name run, whatever else
    was and is registered: its opcode is [0x0100] to [0xFE00] with a zero low
    byte; the message the client tags is well formed, carries the opcode and
    differs from the request in the flags alone; the server's node has a
    handler for its type; and dispatching it answers with the verifier's
    refusal for this very name or with this handler's result. *)
Theorem procedure_calls suffix st id v s0 before p h after req :
  NewServer suffix st id v = Ok s0 ->
  (Register (attempts s0 before) p h).1 = Ok tt ->
  requestable req ->
  let s := attempts (Register (attempts s0 before) p h).2 after in
  exists op m, ProcedureOpcode p = Ok op /\ 0x0100 <= op <= 0xFE00 /\ op mod 256 = 0
  /\ withFlags req op = Ret (Some m) /\ well_formed m /\ Message_Flags m = Ret op
  /\ len (data m) = len (request req)
  /\ (forall lo n, 0 <= lo -> lo + n <= 6 \/ 8 <= lo -> sub (data m) lo n = sub (request req) lo n)
  /\ (exists hd, node_handlers s !! Z.shiftr op 8 = Some hd /\ forall from,
        hd from m = (r ← gated s from p h m; Ret (match r with Ok x => Ok x | Err _ => Err tt end)))
  /\ forall from, dispatch s from m = gated s from p h m.
Proof.
  intros HN HR Hreq s; destruct (registered_entry _ _ _ after HR) as (op & Hp & Hl & _ & _); fold s in Hl.
  destruct (ProcedureOpcode_range _ _ Hp) as (b & -> & Hb).
  destruct (withFlags_eq req (b * 256) Hreq ltac:(lia)) as (Hw & Hwf & Hf).
  pose proof (well_formed_inv _ (request_well_formed req Hreq)) as (Hlen & _); cbn [data] in Hlen.
  destruct (retag_facts _ (b * 256) Hlen ltac:(lia)) as (Hl' & _ & Hs').
  assert (Hd : forall from, dispatch s from (mkMessage (retag (request req) (b * 256)) None)
                            = gated s from p h (mkMessage (retag (request req) (b * 256)) None))
    by (intros; eapply dispatch_entry; done).
  assert (Hinv : server_inv s) by (apply attempts_inv, Register_inv, HR; apply attempts_inv, (NewServer_inv _ _ _ _ _ HN)).
  exists (b * 256), (mkMessage (retag (request req) (b * 256)) None).
  do 2 (split; [done || lia|]); split; [apply Z.mod_mul; lia|].
  do 3 (split; [done|]); split; [exact Hl'|]; split; [exact Hs'|]; split; [|exact Hd].
  eexists; split.
  - unfold node_handlers; apply lookup_gset_to_gmap_Some; split; [apply (inv_handled _ Hinv); eauto|reflexivity].
  - intros from; cbn beta; rewrite Hd; reflexivity.
Qed.

(** A dispatch runs nothing else: whatever the message, the answer is that the
    procedure is unknown, or it is the gated result of a registered procedure
    whose opcode the message carries, and only one name has that opcode. *)
Theorem dispatch_confined suffix st id v s0 ps from m :
  NewServer suffix st id v = Ok s0 -> HeaderSize <= len (data m) ->
  let s := attempts s0 ps in
  dispatch s from m = Ret (Err ErrUnknownProcedure)
  \/ exists p h op, (p, h) ∈ ps /\ Message_Flags m = Ret op /\ ProcedureOpcode p = Ok op
     /\ dispatch s from m = gated s from p h m
     /\ forall p', procNames s !! p' = Some op -> p' = p.
Proof.
  intros HN Hl s; assert (exists op, Message_Flags m = Ret op) as [op Hf].
  { exists (rd 2 (data m) 6); unfold Message_Flags, HeaderSize in *; clear - Hl; go_eval. }
  assert (Hinv : server_inv s) by (apply attempts_inv, (NewServer_inv _ _ _ _ _ HN)).
  destruct (procedures s !! op) as [[p h]|] eqn:E.
  - right; exists p, h, op; split; [|split; [exact Hf|split; [exact (inv_opcode _ Hinv _ _ E)|split]]].
    + apply (attempts_entries s0 ps op (mkRegistration p h)); [|exact E].
      unfold NewServer in HN; case_if; [done|]; injection HN as <-; done.
    + eapply dispatch_entry; done.
    + intros p' (h' & E')%(inv_names _ Hinv); congruence.
  - left; unfold dispatch; rewrite Hf; cbn [mbind outcome_bind]; rewrite E; done.
Qed.

(** ** zapweb is the native dispatch *)

Lemma frame_eq reqID flag body : frame reqID flag body = Ret (le_bytes 4 reqID ++ le_bytes 4 flag ++ body).
Proof.
  unfold frame, corrHeader; pose proof (len_nonneg body).
  assert (Hz : zeros (8 + len body) = zeros 4 ++ zeros 4 ++ zeros (len body)).
  { unfold zeros; rewrite <-!replicate_add; f_equal; lia. }
  assert (H4 : forall v, len (le_bytes 4 v) = 4) by (intros; apply len_le_bytes; lia).
  assert (Hzl : forall n, 0 <= n -> len (zeros n) = n) by (intros; unfold len, zeros; rewrite length_replicate; lia).
  assert (Hd : forall (a b c : list byte), length a = length b -> put (a ++ c) 0 b = b ++ c).
  { intros a b c Hab; rewrite put_0, <-Hab, drop_app_length; done. }
  rewrite Hz, store_ok by (rewrite ?len_app, ?H4, ?Hzl; lia); cbn [mbind outcome_bind].
  rewrite Hd by (specialize (H4 reqID); unfold len in H4; unfold zeros; rewrite length_replicate; lia).
  rewrite store_ok by (rewrite ?len_app, ?H4, ?Hzl; lia); cbn [mbind outcome_bind].
  rewrite put_skip by apply H4.
  rewrite Hd by (specialize (H4 flag); unfold len in H4; unfold zeros; rewrite length_replicate; lia).
  rewrite store_ok by (rewrite ?len_app, ?H4, ?Hzl; lia).
  rewrite app_assoc, put_skip by (rewrite len_app, !H4; lia).
  rewrite <-(app_nil_r (zeros (len body))) at 1.
  rewrite Hd by (unfold zeros, len; rewrite length_replicate; lia).
  rewrite app_nil_r, <-app_assoc; done.
Qed.

(** The parts of a frame. *)
Lemma frame_parts reqID flag body :
  0 <= reqID < 2 ^ 32 -> 0 <= flag < 2 ^ 32 ->
  let f := le_bytes 4 reqID ++ le_bytes 4 flag ++ body in
  (len f <? corrHeader) = false
  /\ (s ← slice f 0 4; le_uint 4 s) = Ret reqID /\ (s ← slice f 4 8; le_uint 4 s) = Ret flag
  /\ slice_from f corrHeader = Ret body.
Proof.
  intros Hi Hg f; pose proof (len_nonneg body).
  assert (H4 : forall v, len (le_bytes 4 v) = 4) by (intros; apply len_le_bytes; lia).
  assert (Hlen : len f = 8 + len body) by (unfold f; rewrite !len_app, !H4; lia).
  assert (Hv : forall v, 0 <= v < 2 ^ 32 -> le_uint 4 (le_bytes 4 v) = Ret v).
  { intros v ?; unfold le_uint; rewrite H4; guard_true; rewrite sub_all by (rewrite H4; lia).
    unfold le_bytes; rewrite LittleEndianList.le_combine_split.
    change (Z.of_nat (Z.to_nat 4) * 8) with 32; rewrite Z.mod_small by lia; done. }
  assert (H40 : forall v, length (le_bytes 4 v) = 4%nat) by (intros v; specialize (H4 v); unfold len in H4; lia).
  split; [apply Z.ltb_ge; unfold corrHeader; lia|].
  rewrite !slice_ok, slice_from_ok by (unfold corrHeader; lia); cbn [mbind outcome_bind].
  unfold f, sub, corrHeader; cbn [Z.sub Z.to_nat Pos.to_nat Pos.iter_op Nat.add].
  rewrite drop_0, take_app_length' by (rewrite H40; done); split; [by apply Hv|].
  rewrite drop_app_length' by (rewrite H40; done).
  rewrite take_app_length' by (rewrite H40; done); split; [by apply Hv|].
  rewrite app_assoc, drop_app_length' by (rewrite length_app, !H40; done).
  rewrite take_ge by (rewrite !len_app, !H4; unfold len; lia); done.
Qed.

Section web_equivalence.
Context (Error : client_error -> str) (ParseError : zap_error -> str).

Lemma web_answer_frame srv PeerID id flag body :
  0 <= id < 2 ^ 32 -> 0 <= flag < 2 ^ 32 ->
  web_answer Error ParseError srv PeerID true (le_bytes 4 id ++ le_bytes 4 flag ++ body)
  = (x ← Parse body;
     match x with
     | Err e => out ← encodeErr id (ParseError e); Ret (Some out)
     | Ok m =>
         r ← Dispatch srv (web_peer PeerID) m;
         out ← (match r with Err e => encodeErr id (Error e) | Ok resp => encodeResp id resp end);
         Ret (Some out)
     end).
Proof.
  intros Hi Hg; destruct (frame_parts id flag body Hi Hg) as (Hl & Hid & _ & Hb).
  unfold web_answer; rewrite Hl; cbn [negb orb].
  destruct (slice _ 0 4) as [s|]; [|done]; cbn [mbind outcome_bind] in Hid |- *.
  rewrite Hid; cbn [mbind outcome_bind]; rewrite Hb; done.
Qed.

Lemma decode_reply_frame id flag body :
  0 <= id < 2 ^ 32 -> 0 <= flag < 2 ^ 32 ->
  decode_reply true (le_bytes 4 id ++ le_bytes 4 flag ++ body)
  = (if flag =? FlagErr then Ret (Err (WDispatch body)) else
     if flag =? ReqFlagResp then
       (if len body =? 0 then Ret (Ok None) else
        x ← Parse body; Ret (match x with Ok m => Ok (Some m) | Err e => Err (WParse e) end))
     else Ret (Err (WFlag flag))).
Proof.
  intros Hi Hg; destruct (frame_parts id flag body Hi Hg) as (Hl & _ & Hf & Hb).
  unfold decode_reply; rewrite Hl; cbn [negb orb].
  destruct (slice _ 4 8) as [s|]; [|done]; cbn [mbind outcome_bind] in Hf |- *.
  rewrite Hf; cbn [mbind outcome_bind]; rewrite Hb; done.
Qed.

(** The server at the other end of the socket. *)
Definition web_exchange (srv : Server) (PeerID : str) (f : list byte) : outcome (result (bool * list byte) web_error) :=
  a ← web_answer Error ParseError srv PeerID true f;
  Ret (match a with Some out => Ok (true, out) | None => Err WRead end).

(** What a caller sees of a dispatch. *)
Definition web_view (r : result (option Message) client_error) : result (option Message) web_error :=
  match r with
  | Ok (Some resp) => Ok (Some (mkMessage (data resp) None))
  | Ok None => Ok None
  | Err e => Err (WDispatch (Error e))
  end.

Lemma encodeRequest_eq id p op req :
  ProcedureOpcode p = Ok op -> requestable req ->
  encodeRequest id p req = Ret (Ok (le_bytes 4 id ++ le_bytes 4 ReqFlagReq ++ retag (request req) op)).
Proof.
  intros Hp Hr; unfold encodeRequest; rewrite Hp.
  pose proof (well_formed_inv _ (request_well_formed req Hr)) as (Hl & _); cbn [data] in Hl.
  destruct req as [m|]; unfold Message_Bytes; cbn [request] in *;
    [rewrite set_flags_eq by done|rewrite stub_eq]; cbn [mbind outcome_bind]; rewrite frame_eq; done.
Qed.

Lemma reply_decoded id r :
  0 <= id < 2 ^ 32 -> (forall resp, r = Ok (Some resp) -> well_formed resp) ->
  exists flag body, (match r with Err e => encodeErr id (Error e) | Ok resp => encodeResp id resp end)
    = Ret (le_bytes 4 id ++ le_bytes 4 flag ++ body)
  /\ decode_reply true (le_bytes 4 id ++ le_bytes 4 flag ++ body) = Ret (web_view r).
Proof.
  intros Hi Hw; destruct r as [[resp|]|e]; unfold encodeResp, encodeErr; rewrite frame_eq; do 2 eexists;
    (split; [reflexivity|]); rewrite decode_reply_frame by (unfold ReqFlagResp, FlagErr; lia);
    cbn [Z.eqb FlagErr ReqFlagResp Pos.eqb]; try reflexivity.
  specialize (Hw _ eq_refl); destruct (well_formed_inv _ Hw) as (Hl & _); unfold HeaderSize, Message_Bytes in *.
  replace (len (data resp) =? 0) with false by (symmetry; apply Z.eqb_neq; lia).
  unfold well_formed in Hw; rewrite Hw; reflexivity.
Qed.

(** A call over a WebSocket is the native dispatch: the frame carries the very
    message [zapclient]'s client would send, the server runs the same
    dispatch on it under the web identity, and the caller gets back the
    handler's message, nothing, or the text of the dispatch's error. The call
    panics only where the handler does. *)
Theorem web_call_is_dispatch srv PeerID reqID p op req :
  ProcedureOpcode p = Ok op -> requestable req ->
  (forall from m resp, dispatch srv from m = Ret (Ok (Some resp)) -> well_formed resp) ->
  exists m, withFlags req op = Ret (Some m)
  /\ web_Call (web_exchange srv PeerID) reqID p req
     = (r ← dispatch srv (web_peer PeerID) m; Ret (web_view r), u32 (reqID + 1)).
Proof.
  intros Hp Hreq Hresp; destruct (ProcedureOpcode_range _ _ Hp) as (b & Eb & Hb).
  destruct (withFlags_eq req op Hreq ltac:(lia)) as (Hw & Hwf & _).
  eexists; split; [exact Hw|]; unfold web_Call, nextReqID; f_equal.
  assert (Hid : 0 <= u32 (reqID + 1) < 2 ^ 32) by (apply Z.mod_pos_bound; lia).
  rewrite (encodeRequest_eq _ _ op) by done; cbn [mbind outcome_bind].
  unfold web_exchange; rewrite web_answer_frame by (unfold ReqFlagReq; lia).
  unfold well_formed in Hwf; cbn [data] in Hwf; rewrite Hwf; cbn [mbind outcome_bind]; unfold Dispatch.
  destruct (dispatch srv _ _) as [r|] eqn:E; [|reflexivity]; cbn [mbind outcome_bind].
  destruct (reply_decoded (u32 (reqID + 1)) r Hid) as (flag & body & He & Hd).
  { intros resp ->; eapply Hresp, E. }
  rewrite He; cbn [mbind outcome_bind]; exact Hd.
Qed.
End web_equivalence.

(** ** Connecting, picking and addressing *)

(** Everything the log starts it also stops. *)
Definition released (log : list action) : Prop :=
  count_occ action_eq_dec log NodeStart = count_occ action_eq_dec log NodeStop
  /\ count_occ action_eq_dec log DiscStart = count_occ action_eq_dec log DiscStop.

Lemma wait_loop_Ok d want polls final :
  wait_loop d want polls final = Ok tt <-> exists s, s ∈ polls /\ want <= PeerCount d s.
Proof.
  induction polls as [|s polls IH]; cbn [wait_loop].
  - split; [done|]; intros (s & Hs%elem_of_nil & _); done.
  - setoid_rewrite elem_of_cons; destruct (Z.leb_spec want (PeerCount d s)) as [Hle|Hlt].
    + split; [intros _; exists s; eauto|done].
    + rewrite IH; split; [intros (s' & Hs & Hle); eauto|].
      intros (s' & [->|Hs] & Hle); [lia|eauto].
Qed.

(** [Connect] leaks nothing: when it fails, on whatever path, the node and the
    discovery it started are stopped again. A client is only returned once
    enough peers were seen, and closing it stops what was started, once. *)
Theorem connect_releases suffix start first polls final st opts :
  match Connect suffix start first polls final st opts with
  | (Err _, log) => released log
  | (Ok c, log) =>
      let want := MinPeers (resolve_options suffix st opts) in
      (want <= 0 \/ exists s, s ∈ (first :: polls) /\ want <= PeerCount (disc c) s)
      /\ closed c = false /\ (NodeStop ∉ log) /\ (DiscStop ∉ log)
      /\ released (log ++ (Close c).2) /\ (Close (Close c).1).2 = []
  end.
Proof.
  unfold Connect; case_if; [done|]; destruct (start _) as [n|e]; [|done].
  set (o := resolve_options suffix st opts).
  assert (Hwait : forall d, waitForPeers d (MinPeers o) first polls final = Ok tt ->
    MinPeers o <= 0 \/ exists s, s ∈ (first :: polls) /\ MinPeers o <= PeerCount d s).
  { unfold waitForPeers; intros d; destruct (Z.leb_spec (MinPeers o) 0); [by left|].
    intros Hw; right; apply wait_loop_Ok in Hw; exact Hw. }
  destruct (o_Discovery o) as [d|]; [destruct (Discovery_Start d) as [[]|e]; [|done]|].
  - destruct (waitForPeers d _ _ _ _) as [[]|e] eqn:E; [|done].
    split; [exact (Hwait d E)|]; split_and!; try done; apply (bool_decide_unpack _); exact I.
  - destruct (waitForPeers (nodeDiscovery st) _ _ _ _) as [[]|e] eqn:E; [|done].
    split; [exact (Hwait _ E)|]; split_and!; try done; apply (bool_decide_unpack _); exact I.
Qed.

Fixpoint picks (k : nat) (next : Z) (peers : list Peer) : list (outcome (result Peer client_error)) * Z :=
  match k with
  | O => ([], next)
  | S k =>
      let '(r, next) := RoundRobin_Pick next peers in
      let '(rs, next) := picks k next peers in (r :: rs, next)
  end.

Lemma RoundRobin_Pick_eq n peers :
  peers <> [] -> 0 <= n < 2 ^ 64 ->
  exists p, peers !! Z.to_nat (n mod len peers) = Some p
  /\ RoundRobin_Pick n peers = (Ret (Ok p), u64 (n + 1)).
Proof.
  intros Hne Hn; assert (Hl : 0 < len peers) by (destruct peers; [done|]; unfold len; cbn [length]; lia).
  unfold RoundRobin_Pick; replace (len peers =? 0) with false by (symmetry; apply Z.eqb_neq; lia).
  assert (Hi : u64 (u64 (n + 1) - 1) = n).
  { unfold u64; rewrite Zminus_mod_idemp_l; replace (n + 1 - 1) with n by lia; apply Z.mod_small; lia. }
  rewrite Hi; destruct (index_ok peers (n mod len peers)) as (p & -> & Hp); [apply Z.mod_pos_bound; lia|].
  exists p; done.
Qed.

Lemma picks_lookup k n peers :
  peers <> [] -> 0 <= n -> n + Z.of_nat k <= 2 ^ 64 ->
  length (picks k n peers).1 = k
  /\ forall i, (i < k)%nat -> exists p, peers !! Z.to_nat ((n + Z.of_nat i) mod len peers) = Some p
     /\ (picks k n peers).1 !! i = Some (Ret (Ok p)).
Proof.
  intros Hne; revert n; induction k as [|k IH]; intros n H0 Hk; [split; [done|lia]|].
  destruct (RoundRobin_Pick_eq n peers Hne ltac:(lia)) as (p & Hp & Ep).
  cbn [picks]; rewrite Ep; destruct k as [|k].
  { split; [done|]; intros i Hi; replace i with 0%nat by lia; exists p; rewrite Z.add_0_r; done. }
  assert (Hs : u64 (n + 1) = n + 1) by (unfold u64; apply Z.mod_small; lia); rewrite Hs.
  destruct (IH (n + 1)) as [Hlen Hat]; [lia|lia|].
  destruct (picks (S k) (n + 1) peers) as [rs nx]; cbn [fst] in *; split; [cbn [length]; lia|].
  intros [|i] Hi; [exists p; rewrite Z.add_0_r; done|].
  destruct (Hat i ltac:(lia)) as (q & Hq & Hr); exists q; cbn [lookup list_lookup].
  replace (n + Z.of_nat (S i)) with (n + 1 + Z.of_nat i) by lia; done.
Qed.

(** Round robin is fair: over as many picks as there are peers, each peer is
    picked exactly once, in the order of the list from where the counter
    stood; the counter only wraps after [2^64] picks. *)
Theorem round_robin_fair peers n :
  peers <> [] -> 0 <= n -> n + len peers <= 2 ^ 64 ->
  (picks (length peers) n peers).1 = map (fun p => Ret (Ok p)) (rotate (Z.to_nat (n mod len peers)) peers)
  /\ rotate (Z.to_nat (n mod len peers)) peers ≡ₚ peers.
Proof.
  intros Hne H0 Hn; unfold len in Hn; destruct (picks_lookup (length peers) n peers Hne H0 Hn) as [Hlen Hat].
  split; [|unfold rotate; rewrite Permutation_app_comm, take_drop; done].
  assert (Hl : 0 < len peers) by (destruct peers; [done|]; unfold len; cbn [length]; lia).
  pose proof (Z.mod_pos_bound n (len peers) Hl) as Hm.
  apply list_eq; intros i; destruct (decide (i < length peers)%nat) as [Hi|Hi].
  - destruct (Hat i Hi) as (p & Hp & ->); rewrite list_lookup_fmap.
    rewrite lookup_rotate_r by done; unfold rotate_nat_add.
    rewrite Z2Nat.id by lia; unfold len in *; rewrite Zplus_mod_idemp_l, Hp; done.
  - rewrite !(proj2 (lookup_ge_None _ _)); [done| |]; [rewrite length_map, length_rotate|]; lia.
Qed.

(** A client of one static address that has learned the id behind it. *)
Definition settled (p : Peer) (id : str) (c : Client) : Prop :=
  disc c = staticDiscovery (peer_ServiceType p) [p] /\ addrID c !! Address p = Some id
  /\ exists n, picker c = RoundRobinPicker n /\ 0 <= n < 2 ^ 64.

Definition lift {A} (r : result A net_error) : result A client_error :=
  match r with Ok a => Ok a | Err e => Err (ENode e) end.

(** One call of a client of one static peer, its first or a later one. *)
Lemma perform_static {A} dial (send : str -> Message -> result A net_error) snap proc op req c p n id :
  disc c = staticDiscovery (peer_ServiceType p) [p] -> picker c = RoundRobinPicker n -> 0 <= n < 2 ^ 64 ->
  Address p <> [] -> ProcedureOpcode proc = Ok op -> requestable req ->
  addrID c !! Address p = Some id \/ addrID c !! Address p = None /\ dial (Address p) = Ok id /\ id <> [] ->
  exists c' m, withFlags req op = Ret (Some m)
  /\ perform dial send snap proc req c = (Ret (lift (send id m)), c') /\ settled p id c'.
Proof.
  intros Hd Hp Hn Ha Hop Hreq Hid.
  destruct (ProcedureOpcode_range _ _ Hop) as (b & Eb & Hb).
  destruct (withFlags_eq req op Hreq ltac:(lia)) as (Hw & _ & _).
  destruct (RoundRobin_Pick_eq n [p] ltac:(done) Hn) as (q & Hq & Ep).
  rewrite Z.mod_1_r in Hq; injection Hq as <-.
  assert (Hne : forall s : str, s <> [] -> (len s =? 0) = false)
    by (intros s Hs; apply Z.eqb_neq; destruct s; [done|]; unfold len; cbn [length]; lia).
  assert (Hu : 0 <= u64 (n + 1) < 2 ^ 64) by (apply Z.mod_pos_bound; lia).
  unfold perform, prepare, Client_pick, Pick; rewrite Hop, Hd, Hp; cbn [Discovery_Peers]; rewrite Ep.
  unfold resolvePeer; rewrite Hne by done; cbn [addrID with_picker].
  destruct Hid as [Hid|(Hid & Hdial & Hidn)]; rewrite Hid; [|rewrite Hdial, Hne by done];
    do 2 eexists; (split; [exact Hw|]); rewrite Hw; (split; [reflexivity|]); split; [exact Hd| |exact Hd|];
    (split; [|eauto]); [exact Hid|apply lookup_insert_eq].
Qed.

(** C39: [WithStaticPeers] with one address: the client connects without mDNS; its
    first call dials the address and calls the id learned there with the
    tagged message. From then on every call goes to that id and the address
    is not dialled again, whatever dialling would yield. So once the server's
    connection is gone from the node's table every call fails: the node was
    started without a discovery and has no other address for the id. *)
Theorem static_peer_not_redialled suffix first polls final st a stat live removable found n :
  st <> [] -> a <> [] ->
  (Start stat live removable true found
     (NewNode (client_config (resolve_options suffix st [WithStaticPeers [a]])))) = Ok n ->
  exists c p, Connect suffix (Start stat live removable true found) first polls final st [WithStaticPeers [a]]
      = (Ok c, [NodeStart; DiscStart])
  /\ Address p = a /\ node c = n /\ discovery n = None
  /\ (forall A dial (send : str -> Message -> result A net_error) snap proc op req id,
        dial a = Ok id -> id <> [] -> ProcedureOpcode proc = Ok op -> requestable req ->
        exists c' m, withFlags req op = Ret (Some m)
        /\ perform dial send snap proc req c = (Ret (lift (send id m)), c') /\ settled p id c')
  /\ (forall A dial (send : str -> Message -> result A net_error) snap proc op req id c',
        settled p id c' -> ProcedureOpcode proc = Ok op -> requestable req ->
        exists c'' m, withFlags req op = Ret (Some m)
        /\ perform dial send snap proc req c' = (Ret (lift (send id m)), c'') /\ settled p id c'')
  /\ (forall nd w id, discovery nd = None -> conns nd !! id = None ->
        getOrConnect_lookup nd id w = Some (TReturn (Err EUnavailable), w)).
Proof.
  intros Hst Ha Hs.
  assert (Hne : forall s : str, s <> [] -> (len s =? 0) = false)
    by (intros s Hs'; apply Z.eqb_neq; destruct s; [done|]; unfold len; cbn [length]; lia).
  set (p := mkPeer (st ++ text "-static-"%string ++ FormatInt 0) st a).
  assert (Hdisc : newStaticDiscovery st [a] = staticDiscovery st [p])
    by (unfold newStaticDiscovery; cbn [static_peers]; rewrite Hne by done; done).
  exists (mkClient n (staticDiscovery st [p]) (RoundRobinPicker 0) 30000000000 false true ∅), p.
  split; [|split; [done|split; [done|split; [|split; [|split]]]]].
  - unfold Connect; rewrite Hne by done; rewrite Hs.
    assert (Ho : o_Discovery (resolve_options suffix st [WithStaticPeers [a]]) = Some (staticDiscovery st [p]))
      by (rewrite <-Hdisc; reflexivity).
    rewrite Ho; reflexivity.
  - revert Hs; unfold Start; change (listenAddr _) with (text ":0"%string).
    change (is_unix (text ":0"%string)) with false; cbv iota; intros [= <-]; reflexivity.
  - intros A dial send snap proc op req id Hdial Hid Hop Hreq.
    eapply perform_static; [reflexivity|reflexivity|lia|done|done|done|right; done].
  - intros A dial send snap proc op req id c' (Hd & Hid & k & Hk & Hkr) Hop Hreq.
    eapply perform_static; [done|done|lia|done|done|done|left; done].
  - intros nd w id Hd Hc; unfold getOrConnect_lookup; rewrite Hc, Hd; done.
Qed.

(** Over the node's own transport a dispatch that fails is not answered: the
    loop writes nothing and goes on, so the caller of a refused, unknown or
    failing procedure waits for its deadline. *)
Theorem native_errors_unanswered s from m e reply w :
  dispatch s from m = Ret (Err e) ->
  serve (node_handlers s) from reply w m = Ret (true, w).
Proof.
  intros Hd; unfold serve; destruct (Message_Flags m) as [op|] eqn:Hf;
    [|unfold dispatch in Hd; rewrite Hf in Hd; done]; cbn [mbind outcome_bind].
  destruct (node_handlers s !! Z.shiftr op 8) as [hd|] eqn:E; [|reflexivity].
  unfold node_handlers in E; apply lookup_gset_to_gmap_Some in E as [_ <-].
  unfold safeHandle; rewrite Hd; reflexivity.
Qed.

(** ** Witnesses *)

(** Two procedures, one that answers with its request and one that fails. *)
Definition p_echo : str := text "Echo"%string.
Definition p_deny : str := text "Deny"%string.
Definition h_echo : ProcedureHandler := fun _ m => Ret (Ok (Some (mkMessage (request (Some m)) None))).
Definition h_deny : ProcedureHandler := fun _ _ => Ret (Err (EOther (text "no"%string))).
Definition sample_server : Server := mkServer (text "srv"%string) LocalTrustVerifier ∅ ∅ ∅.
Definition stub_message : Message := mkMessage stub_bytes None.

Lemma stub_requestable : requestable (Some stub_message).
Proof. intros m [= <-]; exact stub_well_formed. Qed.

Lemma procedure_calls_witness :
  exists op m, ProcedureOpcode p_echo = Ok op /\ withFlags (Some stub_message) op = Ret (Some m)
  /\ dispatch (attempts (Register (attempts sample_server []) p_echo h_echo).2 [(p_deny, h_deny)]) (text "peer"%string) m
     = gated (attempts (Register (attempts sample_server []) p_echo h_echo).2 [(p_deny, h_deny)]) (text "peer"%string) p_echo h_echo m.
Proof.
  destruct (procedure_calls [] (text "svc"%string) (text "srv"%string) None sample_server [] p_echo h_echo [(p_deny, h_deny)]
              (Some stub_message) eq_refl eq_refl stub_requestable) as (op & m & Hop & _ & _ & Hw & _ & _ & _ & _ & _ & Hd).
  exists op, m; split; [exact Hop|split; [exact Hw|exact (Hd (text "peer"%string))]].
Defined.

Lemma dispatch_confined_witness :
  dispatch (attempts sample_server [(p_echo, h_echo)]) [] stub_message = Ret (Err ErrUnknownProcedure)
  \/ exists p h op, (p, h) ∈ [(p_echo, h_echo)] /\ Message_Flags stub_message = Ret op /\ ProcedureOpcode p = Ok op
     /\ dispatch (attempts sample_server [(p_echo, h_echo)]) [] stub_message
        = gated (attempts sample_server [(p_echo, h_echo)]) [] p h stub_message
     /\ forall p', procNames (attempts sample_server [(p_echo, h_echo)]) !! p' = Some op -> p' = p.
Proof.
  apply (dispatch_confined [] (text "svc"%string) (text "srv"%string) None sample_server [(p_echo, h_echo)] [] stub_message);
    [reflexivity|vm_compute; discriminate].
Defined.

Definition deny_server : Server := (Register sample_server p_deny h_deny).2.

Lemma deny_server_answers from m : forall resp, dispatch deny_server from m = Ret (Ok (Some resp)) -> well_formed resp.
Proof.
  intros resp; unfold dispatch; destruct (Message_Flags m) as [op|]; [|discriminate]; cbn [mbind outcome_bind].
  destruct (procedures deny_server !! op) as [reg|] eqn:E; [|discriminate].
  destruct (verifier deny_server _ _); [discriminate|].
  assert (handler reg = h_deny) as ->; [|discriminate].
  revert E; unfold deny_server, Register; destruct (ProcedureOpcode p_deny) as [o|]; [|done].
  change (procedures sample_server) with (∅ : gmap Z registration); rewrite lookup_empty; cbn [snd procedures].
  intros [[_ <-]|[_ Hl]]%lookup_insert_Some; [done|rewrite lookup_empty in Hl; done].
Qed.

Lemma web_call_is_dispatch_witness :
  exists m, withFlags None (default 0 (match ProcedureOpcode p_deny with Ok op => Some op | Err _ => None end)) = Ret (Some m)
  /\ web_Call (web_exchange (fun _ => text "no"%string) (fun _ => []) deny_server []) 0 p_deny None
     = (r ← dispatch deny_server (text "zapweb"%string) m; Ret (web_view (fun _ => text "no"%string) r), 1).
Proof.
  apply (web_call_is_dispatch (fun _ => text "no"%string) (fun _ => []) deny_server [] 0 p_deny
           (default 0 (match ProcedureOpcode p_deny with Ok op => Some op | Err _ => None end)) None);
    [vm_compute; reflexivity|intros m Hm; discriminate Hm|exact deny_server_answers].
Defined.

Lemma native_errors_unanswered_witness :
  serve (node_handlers sample_server) [] (fun w _ => (Ok tt, w)) (mkWriter [] false) stub_message
  = Ret (true, mkWriter [] false).
Proof. apply (native_errors_unanswered sample_server [] stub_message ErrUnknownProcedure); reflexivity. Defined.

Definition sample_peers : list Peer :=
  map (fun a => mkPeer a (text "svc"%string) a) [text "a"%string; text "b"%string; text "c"%string].

Lemma round_robin_fair_witness :
  (picks 3 4 sample_peers).1
  = map (fun p => Ret (Ok p)) (map (fun a => mkPeer a (text "svc"%string) a) [text "b"%string; text "c"%string; text "a"%string])
  /\ rotate (Z.to_nat (4 mod len sample_peers)) sample_peers ≡ₚ sample_peers.
Proof. apply (round_robin_fair sample_peers 4); vm_compute; discriminate. Defined.

Lemma static_peer_not_redialled_witness :
  exists c, Connect (text "7"%string) (Start NotExist false true true None) (mkSnapshot [] []) [] (mkSnapshot [] [])
              (text "svc"%string) [WithStaticPeers [text "h:1"%string]] = (Ok c, [NodeStart; DiscStart])
  /\ discovery (node c) = None.
Proof.
  destruct (static_peer_not_redialled (text "7"%string) (mkSnapshot [] []) [] (mkSnapshot [] []) (text "svc"%string) (text "h:1"%string)
              NotExist false true None
              (mkNode (text "client-zapclient-7"%string) 0 [] true true None ∅ false))
    as (c & p & Hc & _ & Hn & Hd & _); [discriminate|discriminate|reflexivity|].
  exists c; split; [exact Hc|rewrite Hn; exact Hd].
Defined.
