(* ===== verification/ZapTs.v ===== *)
(** * ZapTs: the browser's codec and client

    [zapweb/ts/src/zap.ts] is a second implementation of the wire format, in
    TypeScript: a builder of flat objects that defers byte fields to [finish],
    a reader, and the opcode of a procedure name. [client.ts] is the client
    that correlates replies to concurrent calls over one WebSocket. Numbers are
    integers here: the code's are below [2^53], where a JavaScript number is
    exact, and its bit operations are written out at 32 bits. A [RangeError] of
    a [DataView] or of [TypedArray.set] is [Panic]; writing an element of a
    [Uint8Array] out of range does nothing. Strings are of any type [S] with
    the platform's UTF-8 encoder. *)

From S2P Require Import Prelude Wire Builder BuilderSpec Roundtrip Envelope HsFrames NodeWire NodeLoop NodeNet Http ZapClient.
From stdpp Require Import gmap.
From Stdlib Require String.
Import String.StringSyntax.
Local Delimit Scope string_scope with string.
Local Open Scope Z_scope.

(** ** [class Builder] *)

(** [d[i] = v & 0xff] *)
Definition set_byte (d : list byte) (i v : Z) : list byte :=
  if (0 <=? i) && (i <? len d) then put d i [byte.of_Z (u8 v)] else d.

Definition ts_Builder (capacity : Z) : outcome Builder :=
  let capacity := if capacity <? HeaderSize then 256 else capacity in
  let d := zeros capacity in
  let d := set_byte d 0 0x5a in
  let d := set_byte d 1 0x41 in
  let d := set_byte d 2 0x50 in
  let d := set_byte d 3 0x00 in
  d ← store d 4 (le_bytes 2 Version2);
  Ret (mkBuilder d HeaderSize 0).

Definition ts_grow (b : Builder) (n : Z) : outcome Builder :=
  if pos b + n <=? len (buf b) then Ret b else
  let newCap := len (buf b) * 2 in
  let newCap := if newCap <? pos b + n then pos b + n else newCap in
  nb ← store (zeros newCap) 0 (sub (buf b) 0 (pos b));
  Ret (set_buf b nb).

(** [for (let i = from; i < from + n; i++) d[i] = 0] *)
Fixpoint zero_bytes (n : nat) (d : list byte) (from : Z) : list byte :=
  match n with
  | O => d
  | S n => zero_bytes n (set_byte d from 0) (from + 1)
  end.

Definition ts_align (b : Builder) (alignment : Z) : outcome Builder :=
  let padding := Z.rem (alignment - Z.rem (pos b) alignment) alignment in
  b ← ts_grow b padding;
  Ret (mkBuilder (zero_bytes (Z.to_nat padding) (buf b) (pos b)) (pos b + Z.max 0 padding) (rootOffset b)).

Definition ts_ensureAbs (b : Builder) (end_ : Z) : outcome Builder :=
  if pos b <? end_ then
    let from := pos b in
    b ← ts_grow b (end_ - pos b);
    Ret (mkBuilder (zero_bytes (Z.to_nat (end_ - from)) (buf b) from) end_ (rootOffset b))
  else Ret b.

Definition ts_append (b : Builder) (v : list byte) : outcome Builder :=
  b ← ts_grow b (len v);
  d ← store (buf b) (pos b) v;
  Ret (mkBuilder d (pos b + len v) (rootOffset b)).

(** [view.setUintN(at, v, true)], which wraps [v] to [n] bytes. *)
Definition ts_setU (n : Z) (b : Builder) (at_ v : Z) : outcome Builder :=
  d ← store (buf b) at_ (le_bytes n v); Ret (set_buf b d).

Definition ts_finish (b : Builder) : outcome (list byte * Builder) :=
  b ← ts_setU 4 b 8 (u32 (rootOffset b));
  b ← ts_setU 4 b 12 (u32 (pos b));
  Ret (sub (buf b) 0 (pos b), b).

Definition ts_finishWithFlags (b : Builder) (flags : Z) : outcome (list byte * Builder) :=
  b ← ts_setU 2 b 6 (u16 flags);
  ts_finish b.

(** ** [class ObjectBuilder] *)

Record TsObject : Type := mkTsObject {
  ts_startPos : Z;
  ts_dataSize : Z;
  deferred : list (Z * list byte)
}.

Definition ts_startObject (b : Builder) (dataSize : Z) : outcome (TsObject * Builder) :=
  b ← ts_align b Alignment;
  Ret (mkTsObject (pos b) dataSize [], b).

Definition ts_ensureField (ob : TsObject) (b : Builder) (endOffset : Z) : outcome Builder :=
  ts_ensureAbs b (ts_startPos ob + endOffset).

(** [setUint16], [setUint32] and [setUint64]. *)
Definition ts_setUintN (n : Z) (ob : TsObject) (b : Builder) (fo v : Z) : outcome (TsObject * Builder) :=
  b ← ts_ensureField ob b (fo + n);
  b ← ts_setU n b (ts_startPos ob + fo) v;
  Ret (ob, b).

Definition ts_setUint8 (ob : TsObject) (b : Builder) (fo v : Z) : outcome (TsObject * Builder) :=
  b ← ts_ensureField ob b (fo + 1);
  Ret (ob, set_buf b (set_byte (buf b) (ts_startPos ob + fo) v)).

Definition ts_setBool (ob : TsObject) (b : Builder) (fo : Z) (v : bool) : outcome (TsObject * Builder) :=
  ts_setUint8 ob b fo (if v then 1 else 0).

Definition ts_setBytes (ob : TsObject) (b : Builder) (fo : Z) (v : list byte) : outcome (TsObject * Builder) :=
  b ← ts_ensureField ob b (fo + 8);
  if len v =? 0 then
    b ← ts_setU 4 b (ts_startPos ob + fo) 0;
    b ← ts_setU 4 b (ts_startPos ob + fo + 4) 0;
    Ret (ob, b)
  else
    b ← ts_setU 4 b (ts_startPos ob + fo + 4) (len v);
    Ret (mkTsObject (ts_startPos ob) (ts_dataSize ob) (deferred ob ++ [(fo, v)]), b).

Fixpoint write_deferred (start : Z) (ds : list (Z * list byte)) (b : Builder) : outcome Builder :=
  match ds with
  | [] => Ret b
  | (fo, v) :: ds =>
      let dataPos := pos b in
      b ← ts_append b v;
      let fieldAbsPos := start + fo in
      b ← ts_setU 4 b fieldAbsPos (u32 (dataPos - fieldAbsPos));
      write_deferred start ds b
  end.

Definition ts_Object_finish (ob : TsObject) (b : Builder) : outcome (Z * Builder) :=
  b ← ts_ensureField ob b (ts_dataSize ob);
  b ← write_deferred (ts_startPos ob) (deferred ob) b;
  Ret (ts_startPos ob, b).

Definition ts_finishAsRoot (ob : TsObject) (b : Builder) : outcome (Z * Builder) :=
  x ← ts_Object_finish ob b;
  Ret (x.1, mkBuilder (buf x.2) (pos x.2) x.1).

Section codec.
Context {S : Type} (utf8_encode : S -> list byte).

(** One setter call of an object under construction. *)
Inductive ts_call : Type :=
| setBool (fo : Z) (v : bool)
| setUint8 (fo v : Z)
| setUint16 (fo v : Z)
| setUint32 (fo v : Z)
| setUint64 (fo v : Z)
| setBytes (fo : Z) (v : list byte)
| setText (fo : Z) (s : S).

Definition ts_set (ob : TsObject) (b : Builder) (c : ts_call) : outcome (TsObject * Builder) :=
  match c with
  | setBool fo v => ts_setBool ob b fo v
  | setUint8 fo v => ts_setUint8 ob b fo v
  | setUint16 fo v => ts_setUintN 2 ob b fo (u16 v)
  | setUint32 fo v => ts_setUintN 4 ob b fo (u32 v)
  | setUint64 fo v => ts_setUintN 8 ob b fo v
  | setBytes fo v => ts_setBytes ob b fo v
  | setText fo s => ts_setBytes ob b fo (utf8_encode s)
  end.

Fixpoint ts_sets (ob : TsObject) (b : Builder) (cs : list ts_call) : outcome (TsObject * Builder) :=
  match cs with
  | [] => Ret (ob, b)
  | c :: cs => x ← ts_set ob b c; ts_sets x.1 x.2 cs
  end.

(** [new Builder(capacity)], [startObject(size)], the setters, [finishAsRoot()]
    and [finishWithFlags(flags)]. *)
Definition ts_build (capacity size flags : Z) (cs : list ts_call) : outcome (list byte) :=
  b ← ts_Builder capacity;
  x ← ts_startObject b size;
  x ← ts_sets x.1 x.2 cs;
  y ← ts_finishAsRoot x.1 x.2;
  z ← ts_finishWithFlags y.2 flags;
  Ret z.1.

(** The same call on the Go side. *)
Definition go_call (c : ts_call) : Z * resolved :=
  match c with
  | setBool fo v => fBool fo v
  | setUint8 fo v => fUint8 fo v
  | setUint16 fo v => fUint16 fo v
  | setUint32 fo v => fUint32 fo v
  | setUint64 fo v => fUint64 fo v
  | setBytes fo v => fBytes fo v
  | setText fo s => fText fo (utf8_encode s)
  end.
End codec.

(** ** [class Message] and [class ZapObject] *)

Inductive ts_error : Type := TsTooSmall | TsMagic | TsVersion | TsSize.

(** [view.getUintN(at, true)] *)
Definition ts_getU (n : Z) (d : list byte) (at_ : Z) : outcome Z :=
  if (0 <=? at_) && (at_ + n <=? len d) then Ret (rd n d at_) else Panic.

(** A message is its bytes. *)
Definition ts_parse (input : list byte) : outcome (result (list byte) ts_error) :=
  if len input <? HeaderSize then Ret (Err TsTooSmall) else
  if negb (bytes_eqb (sub input 0 4) Magic) then Ret (Err TsMagic) else
  version ← ts_getU 2 input 4;
  if negb (version =? 1) && negb (version =? Version2) then Ret (Err TsVersion) else
  size ← ts_getU 4 input 12;
  if (size <? HeaderSize) || (len input <? size) then Ret (Err TsSize) else
  Ret (Ok (sub input 0 size)).

Definition ts_version (m : list byte) : outcome Z := ts_getU 2 m 4.
Definition ts_flags (m : list byte) : outcome Z := ts_getU 2 m 6.

Record ZapObject : Type := mkZapObject { z_data : list byte; z_offset : Z }.

Definition ts_root (m : list byte) : outcome ZapObject :=
  off ← ts_getU 4 m 8; Ret (mkZapObject m off).

Definition ts_isNull (o : ZapObject) : bool := z_offset o =? 0.

(** [None] is [undefined], what an index below zero reads. *)
Definition ts_uint8 (o : ZapObject) (fo : Z) : option Z :=
  let pos := z_offset o + fo in
  if len (z_data o) <=? pos then Some 0 else
  if pos <? 0 then None else byte.unsigned <$> z_data o !! Z.to_nat pos.

Definition ts_bool (o : ZapObject) (fo : Z) : bool :=
  match ts_uint8 o fo with Some v => negb (v =? 0) | None => true end.

Definition ts_uintN (n : Z) (o : ZapObject) (fo : Z) : outcome Z :=
  let pos := z_offset o + fo in
  if len (z_data o) <? pos + n then Ret 0 else ts_getU n (z_data o) pos.
Definition ts_uint16 := ts_uintN 2.
Definition ts_uint32 := ts_uintN 4.
Definition ts_uint64 := ts_uintN 8.

Definition ts_bytes (o : ZapObject) (fo : Z) : outcome (option (list byte)) :=
  let d := z_data o in
  let pos := z_offset o + fo in
  if len d <? pos + 4 then Ret None else
  relOffset ← ts_getU 4 d pos;
  if relOffset =? 0 then Ret None else
  let lenPos := pos + 4 in
  if len d <? lenPos + 4 then Ret None else
  length ← ts_getU 4 d lenPos;
  let absPos := pos + relOffset in
  if absPos <? HeaderSize then Ret None else
  if len d <? absPos + length then Ret None else
  Ret (Some (sub d absPos length)).

Definition ts_text {S : Type} (empty : S) (utf8_decode : list byte -> S) (o : ZapObject) (fo : Z) : outcome S :=
  b ← ts_bytes o fo;
  Ret (match b with None | Some [] => empty | Some b => utf8_decode b end).

(** ** [procedureOpcode] and [stampOpcode] *)

(** [h ^= b; h = Math.imul(h, 0x01000193)], both on signed 32-bit integers. *)
Definition ts_fnv (s : list byte) : Z :=
  fold_left (fun h b => s32 (s32 (Z.lxor h (byte.unsigned b)) * 0x01000193)) s 0x811c9dc5.

(** [None] is the error thrown for an empty name; [name] is given by its UTF-8
    bytes, which are empty exactly when it is. *)
Definition procedureOpcode (name : list byte) : option Z :=
  if len name =? 0 then None else
  let hu := u32 (ts_fnv name) in
  let b := hu mod 254 + 1 in
  Some (Z.land (Z.shiftl b 8) 0xffff).

Definition stampOpcode (msg : list byte) (opcode : Z) : list byte :=
  set_byte (set_byte msg 6 (Z.land opcode 0xff)) 7 (Z.land (Z.shiftr opcode 8) 0xff).

(** ** [class ZapWebClient] *)

Inductive call_error : Type :=
| TOpcode
| TSend
| TRemote (text : list byte)
| TParse (e : ts_error)
| TFlag (flag : Z)
| TClosed.

(** How a promise is settled. *)
Abbreviation settlement := (result (option (list byte)) call_error).

(** Promises are numbered in the order of the calls. *)
Record ZapWebClient : Type := mkZapWebClient {
  reqID : Z;
  pending : gmap Z nat;
  promises : nat;
  settled : gmap nat settlement;
  sent : list (list byte)
}.
Definition new_client : ZapWebClient := mkZapWebClient 0 ∅ 0 ∅ [].

(** What happens to a client: a call ([throws] tells whether [ws.send] does), a
    binary message from the server, and the end of the connection. *)
Inductive client_event : Type :=
| Called (procedure : list byte) (req : list byte) (throws : bool)
| Received (d : list byte)
| Closed.

(** The frame of a call. *)
Definition ts_frame (id : Z) (body : list byte) : outcome (list byte) :=
  let frame := zeros (corrHeader + len body) in
  frame ← store frame 0 (le_bytes 4 id);
  frame ← store frame 4 (le_bytes 4 1);
  store frame corrHeader body.

Definition ts_Call (procedure req : list byte) (throws : bool) (c : ZapWebClient) : outcome ZapWebClient :=
  let p := promises c in
  match procedureOpcode procedure with
  | None => Ret (mkZapWebClient (reqID c) (pending c) (S p) (<[p := Err TOpcode]> (settled c)) (sent c))
  | Some opcode =>
      let body := stampOpcode req opcode in
      let next := reqID c + 1 in
      let id := u32 next in
      frame ← ts_frame id body;
      let waiting := <[id := p]> (pending c) in
      Ret (if throws
           then mkZapWebClient next (delete id waiting) (S p) (<[p := Err TSend]> (settled c)) (sent c)
           else mkZapWebClient next waiting (S p) (settled c) (sent c ++ [frame]))
  end.

(** What a reply with [flag] and [payload] settles its promise to. *)
Definition ts_settle (flag : Z) (payload : list byte) : outcome settlement :=
  if flag =? 3 then Ret (Err (TRemote payload)) else
  if flag =? 2 then
    (if len payload =? 0 then Ret (Ok None) else
     x ← ts_parse payload;
     Ret (match x with Ok m => Ok (Some m) | Err e => Err (TParse e) end))
  else Ret (Err (TFlag flag)).

Definition onMessage (d : list byte) (c : ZapWebClient) : outcome ZapWebClient :=
  if len d <? corrHeader then Ret c else
  id ← ts_getU 4 d 0;
  flag ← ts_getU 4 d 4;
  match pending c !! id with
  | None => Ret c
  | Some p =>
      r ← ts_settle flag (sub d corrHeader (len d - corrHeader));
      Ret (mkZapWebClient (reqID c) (delete id (pending c)) (promises c) (<[p := r]> (settled c)) (sent c))
  end.

(** Every pending promise is rejected with [err]. *)
Definition failAll (err : call_error) (c : ZapWebClient) : ZapWebClient :=
  mkZapWebClient (reqID c) ∅ (promises c)
    (map_fold (fun _ p done => <[p := Err err]> done) (settled c) (pending c)) (sent c).

Definition client_step (e : client_event) (c : ZapWebClient) : outcome ZapWebClient :=
  match e with
  | Called p req throws => ts_Call p req throws c
  | Received d => onMessage d c
  | Closed => Ret (failAll TClosed c)
  end.

Fixpoint client_run (es : list client_event) (c : ZapWebClient) : outcome ZapWebClient :=
  match es with
  | [] => Ret c
  | e :: es => c ← client_step e c; client_run es c
  end.

(** ** The TypeScript builder holds documents *)

Lemma set_byte_put d i v : 0 <= i < len d -> set_byte d i v = put d i [byte.of_Z (u8 v)].
Proof. intros; unfold set_byte; guard_true; done. Qed.

Lemma len_set_byte d i v : len (set_byte d i v) = len d.
Proof.
  unfold set_byte; case_if; [|done]; bool_to_prop.
  apply len_put; [lia|]; change (len [byte.of_Z (u8 v)]) with 1; lia.
Qed.

Lemma zero_bytes_loop n : forall d from,
  0 <= from -> from + Z.of_nat n <= len d -> zero_loop n d from = Ret (zero_bytes n d from).
Proof.
  induction n as [|n IH]; intros d from Hf Hn; [done|]; cbn [zero_loop zero_bytes].
  assert (H1 : forall x : byte, len [x] = 1) by done.
  rewrite store_ok by (rewrite ?H1; lia); cbn [mbind outcome_bind].
  rewrite set_byte_put by lia; apply IH; [lia|rewrite len_put; rewrite ?H1; lia].
Qed.

Lemma ts_grow_eq b a n : holds b a -> ts_grow b n = grow b n.
Proof.
  intros (Hp & _ & _); unfold ts_grow, grow; case_if; [done|].
  rewrite slice_ok, Z.sub_0_r by lia; done.
Qed.

Lemma ts_Builder_holds capacity : exists b, ts_Builder capacity = Ret b /\ holds b (fresh_doc Version2).
Proof.
  destruct (newBuilder_holds capacity Version2) as (b & Hb & Hh); exists b; split; [|exact Hh].
  rewrite <-Hb; unfold ts_Builder, newBuilder.
  set (n := if capacity <? HeaderSize then 256 else capacity).
  assert (Hn : 16 <= n) by (unfold n, HeaderSize; case_if; lia).
  assert (H4 : len Magic = 4) by done.
  rewrite !set_byte_put by (rewrite ?len_set_byte, len_zeros; lia).
  rewrite (store_ok (zeros n) 0 Magic) by (rewrite ?H4, ?len_zeros; lia); cbn [mbind outcome_bind].
  do 2 f_equal; replace n with (4 + (n - 4)) by lia.
  unfold zeros; rewrite Z2Nat.inj_add, replicate_add by lia; reflexivity.
Qed.

Lemma ts_align_holds b a :
  holds b a -> exists b', ts_align b Alignment = Ret b' /\ holds b' (a_align a).
Proof.
  intros H; destruct (align_holds b a H) as (b' & Hb & Hh); exists b'; split; [|exact Hh].
  rewrite <-Hb; unfold ts_align, align; rewrite (ts_grow_eq b a) by done.
  set (p := Z.rem _ _); assert (Hp : 0 <= p).
  { unfold p, Alignment; pose proof (proj1 H); rewrite (Z.rem_mod_nonneg (pos b)) by lia.
    pose proof (Z.mod_pos_bound (pos b) 8); apply Z.rem_nonneg; lia. }
  destruct (grow_holds b a H p Hp) as (b1 & -> & H1 & Hr); cbn [mbind outcome_bind].
  rewrite zero_bytes_loop by (pose proof (proj1 H1); lia); cbn [mbind outcome_bind]; rewrite Z.max_r by lia; done.
Qed.

Lemma ts_ensureAbs_holds b a e :
  holds b a -> exists b', ts_ensureAbs b e = Ret b' /\ holds b' (a_extend a e).
Proof.
  intros H; destruct (ensureField_holds b a (mkObjectBuilder 0 0) e H) as (b' & Hb & Hh).
  exists b'; split; [|exact Hh]; rewrite <-Hb; unfold ts_ensureAbs, ensureField; cbn [startPos]; rewrite Z.add_0_l.
  case_if; [|done]; rewrite (ts_grow_eq b a) by done.
  destruct (grow_holds b a H (e - pos b) ltac:(lia)) as (b1 & -> & H1 & Hr); cbn [mbind outcome_bind].
  assert (Hpos : pos b1 = pos b) by (rewrite (holds_pos _ _ H1), (holds_pos _ _ H); done).
  rewrite <-Hpos, zero_bytes_loop by (pose proof (proj1 H1); lia); done.
Qed.

Lemma ts_append_holds b a v :
  holds b a -> exists b', ts_append b v = Ret b' /\ holds b' (a_append a v).
Proof.
  intros H; destruct (append_grown b a v H) as (b1 & d & Hg & Hs & Hp & Hh).
  unfold ts_append; rewrite (ts_grow_eq b a), Hg by done; cbn [mbind outcome_bind]; rewrite Hs; eauto.
Qed.

Lemma ts_setU_holds n b a p v :
  holds b a -> 0 <= n -> 0 <= p -> p + n <= len (bytes a) ->
  exists b', ts_setU n b p v = Ret b' /\ holds b' (a_patch a p (le_bytes n v)).
Proof.
  intros H Hn Hp Hl; destruct (patch_holds b a H p (le_bytes n v)) as [Hs Hh]; [lia|rewrite len_le_bytes; lia|].
  unfold ts_setU; rewrite Hs; eauto.
Qed.

Lemma le_bytes_u16 z : le_bytes 2 (u16 z) = le_bytes 2 z.
Proof. unfold le_bytes; rewrite (LittleEndianList.le_split_mod z); done. Qed.

Lemma ts_finishWithFlags_holds b a flags :
  holds b a -> HeaderSize <= len (bytes a) ->
  exists b', ts_finishWithFlags b flags = Ret (bytes (a_finish (a_patch a 6 (le_bytes 2 flags))), b').
Proof.
  unfold HeaderSize; intros H Hl; unfold ts_finishWithFlags, ts_finish.
  assert (Hlen : forall a p n v, 0 <= n -> 0 <= p -> p + n <= len (bytes a) -> len (bytes (a_patch a p (le_bytes n v))) = len (bytes a))
    by (intros; cbn [bytes a_patch]; apply len_put; rewrite ?len_le_bytes; lia).
  destruct (ts_setU_holds 2 b a 6 (u16 flags)) as (b1 & -> & H1); [done|lia..|]; cbn [mbind outcome_bind].
  rewrite le_bytes_u16 in H1; set (a1 := a_patch a 6 (le_bytes 2 flags)) in *.
  assert (Hl1 : len (bytes a1) = len (bytes a)) by (apply Hlen; lia).
  destruct (ts_setU_holds 4 b1 a1 8 (u32 (rootOffset b1))) as (b2 & -> & H2); [done|lia..|]; cbn [mbind outcome_bind].
  rewrite le_bytes_u32, (proj2 (proj2 H1)) in H2.
  destruct (ts_setU_holds 4 b2 _ 12 (u32 (pos b2)) H2) as (b3 & -> & H3); [lia|lia|rewrite Hlen; lia|]; cbn [mbind outcome_bind].
  rewrite le_bytes_u32, (holds_pos _ _ H2), Hlen in H3 by lia.
  eexists; rewrite (proj1 (proj2 H3)); reflexivity.
Qed.

(** ** Deferring byte fields changes nothing *)

Lemma put_app_in {A} (x y w : list A) p :
  0 <= p -> p + len w <= len x -> put x p w ++ y = put (x ++ y) p w.
Proof.
  intros Hp Hw; pose proof (len_nonneg y); apply list_eq; intros i.
  rewrite lookup_put by (rewrite ?len_app; lia); destruct (decide (Z.of_nat i < len x)) as [Hi|Hi].
  - rewrite lookup_app_l by (pose proof (len_put x p w Hp Hw) as Hl; unfold len in *; lia).
    rewrite lookup_put by lia; case_decide; [done|]; rewrite lookup_app_l by (unfold len in *; lia); done.
  - rewrite lookup_app_r by (pose proof (len_put x p w Hp Hw) as Hl; unfold len in *; lia).
    rewrite decide_False by lia; rewrite lookup_app_r by (unfold len in *; lia).
    pose proof (len_put x p w Hp Hw) as Hl; unfold len in Hl; f_equal; lia.
Qed.

Lemma put_comm {A} (l v w : list A) p q :
  0 <= p -> 0 <= q -> p + len v <= len l -> q + len w <= len l ->
  p + len v <= q \/ q + len w <= p -> put (put l p v) q w = put (put l q w) p v.
Proof.
  intros; pose proof (len_nonneg v); pose proof (len_nonneg w); apply list_eq; intros i.
  rewrite !lookup_put by (rewrite ?len_put; lia); repeat case_decide; try lia; done.
Qed.

(** The document after [write_deferred], and after [finish] of an object at
    [s] of [size] bytes. *)
Fixpoint d_deferred (s : Z) (ds : list (Z * list byte)) (d : list byte) : list byte :=
  match ds with
  | [] => d
  | (f, v) :: ds => d_deferred s ds (put (d ++ v) (s + f) (le_bytes 4 (len d - (s + f))))
  end.
Definition d_close (s size : Z) (ds : list (Z * list byte)) (d : list byte) : list byte :=
  d_deferred s ds (d ++ zeros (s + size - len d)).

(** The deferred pointers lie in the object and off the [n] bytes at [f]. *)
Definition clear_of (size f n : Z) (ds : list (Z * list byte)) : Prop :=
  Forall (fun e => 0 <= e.1 /\ e.1 + 8 <= size /\ (e.1 + 4 <= f \/ f + n <= e.1)) ds.

Lemma len_put_le4 d p z : 0 <= p -> p + 4 <= len d -> len (put d p (le_bytes 4 z)) = len d.
Proof. intros; apply len_put; rewrite ?len_le_bytes; lia. Qed.

Lemma len_d_deferred s size n ds : forall d,
  0 <= s -> s + size <= len d -> clear_of size n 0 ds -> len d <= len (d_deferred s ds d).
Proof.
  induction ds as [|[f v] ds IH]; intros d Hs Hd Hc; cbn [d_deferred]; [lia|].
  inversion_clear Hc as [|? ? (H0 & H8 & _) Hc']; cbn [fst] in *; pose proof (len_nonneg v).
  pose proof (IH (put (d ++ v) (s + f) (le_bytes 4 (len d - (s + f))))) as IH'.
  rewrite len_put_le4, len_app in IH' by (rewrite ?len_app; lia); specialize (IH' Hs ltac:(lia) Hc'); lia.
Qed.

Lemma d_deferred_put s size ds f w : forall d,
  0 <= s -> 0 <= f -> s + size <= len d -> f + len w <= size -> clear_of size f (len w) ds ->
  d_deferred s ds (put d (s + f) w) = put (d_deferred s ds d) (s + f) w.
Proof.
  induction ds as [|[f' v] ds IH]; intros d Hs Hf Hd Hw Hc; cbn [d_deferred]; [done|].
  inversion_clear Hc as [|? ? (H0 & H8 & Hdis) Hc']; cbn [fst] in *; pose proof (len_nonneg v).
  rewrite len_put, put_app_in, put_comm by (rewrite ?len_app, ?len_le_bytes; lia).
  apply IH; try done; rewrite len_put_le4, len_app by (rewrite ?len_app; lia); lia.
Qed.

Lemma zeros_split a b : 0 <= a -> 0 <= b -> zeros (a + b) = zeros a ++ zeros b.
Proof. intros; unfold zeros; rewrite Z2Nat.inj_add, replicate_add by lia; done. Qed.

Lemma d_close_put s size ds f n w d :
  0 <= s -> 0 <= f -> s <= len d <= s + size -> f + len w <= n -> n <= size -> clear_of size f (len w) ds ->
  d_close s size ds (put (d ++ zeros (s + n - len d)) (s + f) w) = put (d_close s size ds d) (s + f) w.
Proof.
  intros Hs Hf Hd Hw Hn Hc; unfold d_close; pose proof (len_nonneg w).
  rewrite len_put, len_app, len_zeros_max by (rewrite ?len_app, ?len_zeros_max; lia).
  rewrite put_app_in by (rewrite ?len_app, ?len_zeros_max; lia).
  assert (Hz : (d ++ zeros (s + n - len d)) ++ zeros (s + size - (len d + Z.max 0 (s + n - len d)))
               = d ++ zeros (s + size - len d)).
  { rewrite <-app_assoc; f_equal; destruct (Z.max_spec 0 (s + n - len d)) as [[? ->]|[? ->]].
    - rewrite <-zeros_split by lia; f_equal; lia.
    - unfold zeros at 1; replace (Z.to_nat (s + n - len d)) with 0%nat by lia; cbn [replicate app]; f_equal; lia. }
  rewrite Hz; apply (d_deferred_put s size); try done; rewrite ?len_app, ?len_zeros_max; lia.
Qed.

Lemma d_deferred_app s ds e d :
  d_deferred s (ds ++ [e]) d
  = put (d_deferred s ds d ++ e.2) (s + e.1) (le_bytes 4 (len (d_deferred s ds d) - (s + e.1))).
Proof.
  revert d; induction ds as [|[f v] ds IH]; intros d; [destruct e; done|]; cbn [app d_deferred]; apply IH.
Qed.

Lemma write_deferred_holds s size n ds : forall b a,
  0 <= s -> holds b a -> s + size <= len (bytes a) -> clear_of size n 0 ds ->
  exists b', write_deferred s ds b = Ret b' /\ holds b' (mkDoc (d_deferred s ds (bytes a)) (root a)).
Proof.
  induction ds as [|[f v] ds IH]; intros b a Hs H Hl Hc; cbn [write_deferred d_deferred].
  { exists b; split; [done|]; destruct a; exact H. }
  inversion_clear Hc as [|? ? (H0 & H8 & _) Hc']; cbn [fst] in *; pose proof (len_nonneg v) as Hv.
  destruct (ts_append_holds b a v H) as (b1 & -> & Hb1); cbn [mbind outcome_bind].
  destruct (ts_setU_holds 4 b1 _ (s + f) (u32 (pos b - (s + f))) Hb1) as (b2 & -> & Hb2);
    [lia|lia|cbn [bytes a_append]; rewrite len_app; lia|]; cbn [mbind outcome_bind].
  rewrite le_bytes_u32, (holds_pos _ _ H) in Hb2.
  destruct (IH b2 _ Hs Hb2) as (b3 & -> & H3); [|exact Hc'|exists b3; split; [done|exact H3]].
  cbn [bytes a_append a_patch]; rewrite len_put_le4, len_app by (rewrite ?len_app; lia); lia.
Qed.

(** ** Byte identity of the two builders *)

(** The bytes a TypeScript setter writes at once; the offset of a non-empty
    byte field follows in [finish]. *)
Definition cell (c : Z * resolved) : Z * Z :=
  match c.2 with
  | RBytes v => if len v =? 0 then (c.1, 8) else (c.1 + 4, 4)
  | r => (c.1, rwidth r)
  end.
Definition pointer (c : Z * resolved) : list Z :=
  match c.2 with RBytes v => if len v =? 0 then [] else [c.1] | _ => [] end.

(** Every field lies in the declared size, and no call writes over the offset
    of a byte field set before ([ptrs]). *)
Fixpoint fits (size : Z) (ptrs : list Z) (cs : list (Z * resolved)) : bool :=
  match cs with
  | [] => true
  | c :: cs =>
      (0 <=? c.1) && (c.1 + rwidth c.2 <=? size)
      && forallb (fun p => (p + 4 <=? (cell c).1) || ((cell c).1 + (cell c).2 <=? p)) ptrs
      && fits size (ptrs ++ pointer c) cs
  end.

(** The two builders in step: finishing the TypeScript object now would give
    the bytes the Go builder has. *)
Record in_step (size : Z) (ob : TsObject) (b : Builder) (gob : ObjectBuilder) (gb : Builder) : Prop := mkInStep {
  st_start : ts_startPos ob = startPos gob;
  st_size : ts_dataSize ob = size;
  st_base : HeaderSize <= startPos gob;
  st_ptrs : Forall (fun e => 0 <= e.1 /\ e.1 + 8 <= size) (deferred ob);
  st_docs : exists d ga r, holds b (mkDoc d r) /\ holds gb ga
    /\ startPos gob <= len d <= startPos gob + size
    /\ bytes ga = d_close (startPos gob) size (deferred ob) d
}.

Lemma fits_clear size f n ds :
  Forall (fun e => 0 <= e.1 /\ e.1 + 8 <= size) ds ->
  forallb (fun p => (p + 4 <=? f) || (f + n <=? p)) (map fst ds) = true -> clear_of size f n ds.
Proof.
  induction ds as [|e ds IH]; intros Hin Hall; [constructor|].
  inversion_clear Hin as [|? ? [H0 H8] Hin']; cbn [map forallb] in Hall; bool_to_prop.
  constructor; [split; [lia|split; lia]|apply IH; done].
Qed.

Lemma clear_any size ds : Forall (fun e : Z * list byte => 0 <= e.1 /\ e.1 + 8 <= size) ds -> clear_of size size 0 ds.
Proof. intros H; eapply Forall_impl; [exact H|]; cbn beta; intros e ?; lia. Qed.

Lemma d_close_len s size ds d :
  0 <= s -> s <= len d <= s + size -> Forall (fun e : Z * list byte => 0 <= e.1 /\ e.1 + 8 <= size) ds -> s + size <= len (d_close s size ds d).
Proof.
  intros Hs Hd Hin; unfold d_close.
  pose proof (len_d_deferred s size size ds (d ++ zeros (s + size - len d)) Hs) as H.
  rewrite len_app, len_zeros_max in H; specialize (H ltac:(lia) (clear_any _ _ Hin)); lia.
Qed.

(** The immediate write of a setter, on both sides. *)
Lemma ts_write_holds b d r s f n k v :
  holds b (mkDoc d r) -> 0 <= s -> 0 <= f -> 0 <= k -> f + k <= n ->
  exists b1 b2, ts_ensureAbs b (s + n) = Ret b1 /\ ts_setU k b1 (s + f) v = Ret b2
  /\ holds b2 (mkDoc (put (d ++ zeros (s + n - len d)) (s + f) (le_bytes k v)) r)
  /\ len (put (d ++ zeros (s + n - len d)) (s + f) (le_bytes k v)) = Z.max (len d) (s + n).
Proof.
  intros H Hs Hf Hk Hn; destruct (ts_ensureAbs_holds b _ (s + n) H) as (b1 & Hb1 & H1).
  destruct (ts_setU_holds k b1 _ (s + f) v H1) as (b2 & Hb2 & H2); [lia|lia|rewrite len_extend; lia|].
  exists b1, b2; split_and!; [done|done|exact H2|].
  rewrite len_put, len_app, len_zeros_max; rewrite ?len_le_bytes, ?len_app, ?len_zeros_max; lia.
Qed.

(** A scalar setter on both sides. *)
Lemma scalar_step size ob b gob gb f n v :
  in_step size ob b gob gb -> 0 <= f -> 0 <= n -> f + n <= size -> clear_of size f n (deferred ob) ->
  exists b' gb', ts_setUintN n ob b f v = Ret (ob, b') /\ SetUintN n gob gb f v = Ret gb' /\ in_step size ob b' gob gb'.
Proof.
  intros [Hst Hsz Hbase Hptr (d & ga & r & H & Hg & Hd & He)] Hf Hn Hw Hc.
  assert (Hs : 0 <= startPos gob) by (unfold HeaderSize in *; lia).
  destruct (ts_write_holds b d r (startPos gob) f (f + n) n v H) as (b1 & b2 & Hb1 & Hb2 & H2 & Hl); [lia..|].
  pose proof (d_close_len _ _ _ _ Hs Hd Hptr) as Hlen; rewrite <-He in Hlen.
  destruct (set_resolved_holds gb ga gob f (RUint n v) Hg) as (gb' & Hgb & Hg'); [done|done|done|cbn [rwidth]; lia|].
  exists b2, gb'; split; [|split; [exact Hgb|]].
  - unfold ts_setUintN, ts_ensureField; rewrite Hst, Hb1; cbn [mbind outcome_bind]; rewrite Hb2; done.
  - constructor; [done..|]; do 3 eexists; split; [exact H2|split; [exact Hg'|split; [lia|]]].
    cbn [bytes tail code]; rewrite app_nil_r, d_close_put by (rewrite ?len_le_bytes; lia || done).
    rewrite He; done.
Qed.

Lemma ts_setUint8_eq ob b d r f v :
  holds b (mkDoc d r) -> 0 <= ts_startPos ob -> 0 <= f ->
  ts_setUint8 ob b f v = ts_setUintN 1 ob b f v.
Proof.
  intros H Hs Hf; unfold ts_setUint8, ts_setUintN, ts_ensureField.
  destruct (ts_ensureAbs_holds b _ (ts_startPos ob + (f + 1)) H) as (b1 & -> & H1); cbn [mbind outcome_bind].
  pose proof (holds_pos _ _ H1) as Hp; rewrite len_extend in Hp; pose proof (proj1 H1) as Hb.
  unfold ts_setU; rewrite store_ok by (rewrite ?len_le_bytes; lia); cbn [mbind outcome_bind].
  rewrite set_byte_put by lia.
  assert (Hb1 : le_bytes 1 v = [byte.of_Z (u8 v)]); [|rewrite Hb1; done].
  unfold le_bytes; rewrite (LittleEndianList.le_split_mod v); reflexivity.
Qed.

Lemma empty_step size ob b gob gb f :
  in_step size ob b gob gb -> 0 <= f -> f + 8 <= size -> clear_of size f 8 (deferred ob) ->
  exists b' gb', ts_setBytes ob b f [] = Ret (ob, b') /\ SetBytes gob gb f [] = Ret gb' /\ in_step size ob b' gob gb'.
Proof.
  intros [Hst Hsz Hbase Hptr (d & ga & r & H & Hg & Hd & He)] Hf Hw Hc.
  assert (Hs : 0 <= startPos gob) by (unfold HeaderSize in *; lia).
  destruct (ts_write_holds b d r (startPos gob) f (f + 8) 4 0 H) as (b1 & b2 & Hb1 & Hb2 & H2 & Hl); [lia..|].
  destruct (ts_setU_holds 4 b2 _ (startPos gob + f + 4) 0 H2) as (b3 & Hb3 & H3); [lia|lia|cbn [bytes]; lia|].
  pose proof (d_close_len _ _ _ _ Hs Hd Hptr) as Hlen; rewrite <-He in Hlen.
  destruct (set_resolved_holds gb ga gob f (RBytes []) Hg) as (gb' & Hgb & Hg'); [done|done|done|cbn [rwidth]; lia|].
  exists b3, gb'; split; [|split; [exact Hgb|]].
  - unfold ts_setBytes, ts_ensureField; rewrite Hst, Hb1; cbn [mbind outcome_bind len length Z.of_nat Z.eqb].
    rewrite Hb2; cbn [mbind outcome_bind]; rewrite Hb3; done.
  - constructor; [done..|]; do 3 eexists; split; [exact H3|split; [exact Hg'|]].
    unfold a_patch; cbn [bytes root tail code]; rewrite app_nil_r.
    rewrite put_pair by (rewrite ?len_le_bytes, ?len_app, ?len_zeros_max; lia).
    change (pair_bytes _ _) with (le_bytes 4 0 ++ le_bytes 4 0).
    assert (H8 : len (le_bytes 4 0 ++ le_bytes 4 0) = 8) by done.
    rewrite len_put, len_app, len_zeros_max by (rewrite ?H8, ?len_app, ?len_zeros_max; lia).
    split; [lia|]; rewrite d_close_put by (rewrite ?H8; lia || done); rewrite He; done.
Qed.

Lemma bytes_step size ob b gob gb f v :
  in_step size ob b gob gb -> 0 <= f -> f + 8 <= size -> len v <> 0 -> clear_of size (f + 4) 4 (deferred ob) ->
  exists ob' b' gb', ts_setBytes ob b f v = Ret (ob', b') /\ SetBytes gob gb f v = Ret gb'
  /\ deferred ob' = deferred ob ++ [(f, v)] /\ in_step size ob' b' gob gb'.
Proof.
  intros [Hst Hsz Hbase Hptr (d & ga & r & H & Hg & Hd & He)] Hf Hw Hv Hc.
  assert (Hs : 0 <= startPos gob) by (unfold HeaderSize in *; lia); pose proof (len_nonneg v).
  destruct (ts_write_holds b d r (startPos gob) (f + 4) (f + 8) 4 (len v) H) as (b1 & b2 & Hb1 & Hb2 & H2 & Hl); [lia..|].
  pose proof (d_close_len _ _ _ _ Hs Hd Hptr) as Hlen; rewrite <-He in Hlen.
  destruct (set_resolved_holds gb ga gob f (RBytes v) Hg) as (gb' & Hgb & Hg'); [done|done|done|cbn [rwidth]; lia|].
  exists (mkTsObject (ts_startPos ob) (ts_dataSize ob) (deferred ob ++ [(f, v)])), b2, gb'.
  split; [|split; [exact Hgb|split; [done|]]].
  - unfold ts_setBytes, ts_ensureField; rewrite Hst, Hb1; cbn [mbind outcome_bind].
    replace (len v =? 0) with false by (symmetry; apply Z.eqb_neq; lia).
    rewrite <-Z.add_assoc, Hb2; done.
  - constructor; [done|done|done|apply Forall_app; split; [done|]; repeat constructor; cbn [fst]; lia|].
    do 3 eexists; split; [exact H2|split; [exact Hg'|split; [lia|]]]; cbn [bytes deferred tail code].
    replace (len v =? 0) with false by (symmetry; apply Z.eqb_neq; lia).
    unfold d_close at 1; rewrite d_deferred_app; cbn [fst snd]; fold (d_close (startPos gob) size (deferred ob) (put (d ++ zeros (startPos gob + (f + 8) - len d)) (startPos gob + (f + 4)) (le_bytes 4 (len v)))).
    rewrite d_close_put by (rewrite ?len_le_bytes; lia || done); rewrite <-He.
    rewrite len_put_le4, put_app_in by (rewrite ?len_le_bytes; lia).
    rewrite put_comm by (rewrite ?len_app, ?len_le_bytes; lia).
    unfold pair_bytes; rewrite Z.add_assoc.
    rewrite (put_pair (bytes ga ++ v) (startPos gob + f)) by (rewrite ?len_app, ?len_le_bytes; lia); done.
Qed.

Lemma SetUintN_mod n ob b f v w : le_bytes n v = le_bytes n w -> SetUintN n ob b f v = SetUintN n ob b f w.
Proof. intros E; unfold SetUintN; rewrite E; done. Qed.

Section identity.
Context {S : Type} (utf8_encode : S -> list byte).
Implicit Types c : @ts_call S.

Lemma call_step size ob b gob gb c :
  let g := go_call utf8_encode c in
  in_step size ob b gob gb -> 0 <= g.1 -> g.1 + rwidth g.2 <= size ->
  clear_of size (cell g).1 (cell g).2 (deferred ob) ->
  exists ob' b' gb', ts_set utf8_encode ob b c = Ret (ob', b') /\ set_resolved gob gb g.1 g.2 = Ret gb'
  /\ map fst (deferred ob') = map fst (deferred ob) ++ pointer g /\ in_step size ob' b' gob gb'.
Proof.
  intros g Hin Hf Hw Hc; unfold g in *; clear g.
  assert (Hbytes : forall f v, 0 <= f -> f + 8 <= size ->
    clear_of size (cell (fBytes f v)).1 (cell (fBytes f v)).2 (deferred ob) ->
    exists ob' b' gb', ts_setBytes ob b f v = Ret (ob', b') /\ SetBytes gob gb f v = Ret gb'
    /\ map fst (deferred ob') = map fst (deferred ob) ++ pointer (fBytes f v) /\ in_step size ob' b' gob gb').
  { unfold cell, pointer; intros f v Hf' Hw'; cbn [fBytes fst snd]; destruct (Z.eqb_spec (len v) 0) as [E|E]; cbn [fst snd]; intros Hc'.
    - destruct v; [|unfold len in E; cbn [length] in E; lia].
      destruct (empty_step size ob b gob gb f Hin Hf' Hw' Hc') as (b' & gb' & ? & ? & ?).
      exists ob, b', gb'; rewrite app_nil_r; done.
    - destruct (bytes_step size ob b gob gb f v Hin Hf' Hw' E Hc') as (ob' & b' & gb' & H1 & H2 & H3 & H4).
      exists ob', b', gb'; rewrite H3, map_app; done. }
  assert (Hscalar : forall f n v, 0 <= f -> 0 <= n -> f + n <= size -> clear_of size f n (deferred ob) ->
    exists ob' b' gb', ts_setUintN n ob b f v = Ret (ob', b') /\ SetUintN n gob gb f v = Ret gb'
    /\ map fst (deferred ob') = map fst (deferred ob) ++ [] /\ in_step size ob' b' gob gb').
  { intros f n v Hf' Hn Hw' Hc'; destruct (scalar_step size ob b gob gb f n v Hin Hf' Hn Hw' Hc') as (b' & gb' & ? & ? & ?).
    exists ob, b', gb'; rewrite app_nil_r; done. }
  assert (Hbyte : forall f v, 0 <= f -> ts_setUint8 ob b f v = ts_setUintN 1 ob b f v).
  { destruct Hin as [Hst _ Hbase _ (d & ga & r & Hh & _)]; intros; eapply ts_setUint8_eq; [exact Hh| |done].
    unfold HeaderSize in *; lia. }
  destruct c as [f v|f v|f v|f v|f v|f v|f s]; cbn [ts_set go_call fBool fUint8 fUint16 fUint32 fUint64 fst snd rwidth set_resolved] in *;
    try (apply Hbytes; done); unfold ts_setBool; rewrite ?Hbyte by done.
  - destruct v; apply Hscalar; done || lia.
  - apply Hscalar; done || lia.
  - rewrite (SetUintN_mod _ _ _ _ v (u16 v)) by (rewrite le_bytes_u16; done); apply Hscalar; done || lia.
  - rewrite (SetUintN_mod _ _ _ _ v (u32 v)) by (rewrite le_bytes_u32; done); apply Hscalar; done || lia.
  - apply Hscalar; done || lia.
Qed.

Lemma calls_step size cs : forall ob b gob gb,
  in_step size ob b gob gb -> fits size (map fst (deferred ob)) (map (go_call utf8_encode) cs) = true ->
  exists ob' b' gb', ts_sets utf8_encode ob b cs = Ret (ob', b')
  /\ set_fields gob gb (map (go_call utf8_encode) cs) = Ret gb' /\ in_step size ob' b' gob gb'.
Proof.
  induction cs as [|c cs IH]; intros ob b gob gb Hin Hfit; [exists ob, b, gb; done|].
  cbn [map fits] in Hfit; apply andb_true_iff in Hfit as [Hfit Hrest].
  apply andb_true_iff in Hfit as [Hfit Hclear]; apply andb_true_iff in Hfit as [H0 Hw].
  destruct (call_step size ob b gob gb c Hin) as (ob1 & b1 & gb1 & H1 & H2 & H3 & H4);
    [lia|lia|apply fits_clear; [apply Hin|exact Hclear]|].
  rewrite <-H3 in Hrest; destruct (IH ob1 b1 gob gb1 H4 Hrest) as (ob' & b' & gb' & H5 & H6 & H7).
  exists ob', b', gb'; cbn [ts_sets map set_fields]; rewrite H1; cbn [mbind outcome_bind fst snd]; rewrite H5.
  split; [done|split; [|done]]; destruct (go_call utf8_encode c) as [f r]; cbn [fst snd] in H2.
  rewrite H2; exact H6.
Qed.

(** C16: the TypeScript builder and the Go builder write the same bytes: for any
    sequence of setter calls within the object's declared size that do not
    write over the offset of an earlier byte field, at any initial capacities,
    both return, and they return the same message. *)
Theorem ts_builder_byte_identical capacity capacity' size flags cs :
  0 <= size -> fits size [] (map (go_call utf8_encode) cs) = true ->
  exists d, ts_build utf8_encode capacity size flags cs = Ret d
  /\ finish_flat capacity' size flags (map (go_call utf8_encode) cs) = Ret d.
Proof.
  intros Hsize Hfit; unfold ts_build, finish_flat, NewBuilder.
  destruct (ts_Builder_holds capacity) as (b0 & -> & H0); destruct (newBuilder_holds capacity' Version2) as (g0 & -> & G0).
  cbn [mbind outcome_bind]; unfold ts_startObject; destruct (ts_align_holds b0 _ H0) as (b1 & -> & H1); cbn [mbind outcome_bind].
  destruct (StartObject_holds g0 _ size G0) as (g1 & -> & G1); cbn [mbind outcome_bind fst snd].
  set (a := a_align (fresh_doc Version2)) in *; assert (Ha : len (bytes a) = 16) by done.
  change (len (bytes (fresh_doc Version2)) + a_padding (len (bytes (fresh_doc Version2)))) with 16.
  set (gob := mkObjectBuilder 16 size).
  assert (Hin : in_step size (mkTsObject (pos b1) size []) b1 gob g1).
  { constructor; [exact (eq_trans (holds_pos _ _ H1) Ha)|done|done|constructor|].
    eexists (bytes a), _, (root a); split; [exact H1|split; [exact G1|]].
    cbn [startPos gob]; split; [lia|]; unfold d_close; cbn [deferred d_deferred bytes a_append a_extend]; f_equal; f_equal; lia. }
  destruct (calls_step size cs _ b1 gob g1 Hin Hfit) as (ob & b2 & g2 & -> & -> & [Hst Hsz _ Hptr (d & ga & r & H2 & G2 & Hd & He)]).
  cbn [mbind outcome_bind fst snd startPos gob] in *.
  unfold ts_finishAsRoot, ts_Object_finish, ts_ensureField; rewrite Hst, Hsz.
  destruct (ts_ensureAbs_holds b2 _ (16 + size) H2) as (b3 & -> & H3); cbn [mbind outcome_bind].
  destruct (write_deferred_holds 16 size size (deferred ob) b3 _ ltac:(lia) H3) as (b4 & -> & H4);
    [rewrite len_extend; cbn [bytes]; lia|apply clear_any, Hptr|]; cbn [mbind outcome_bind fst snd].
  change (d_deferred 16 (deferred ob) (bytes (a_extend _ _))) with (d_close 16 size (deferred ob) d) in H4; rewrite <-He in H4.
  pose proof (d_close_len 16 size (deferred ob) d ltac:(lia) Hd Hptr) as Hlen; rewrite <-He in Hlen.
  destruct (ts_finishWithFlags_holds (mkBuilder (buf b4) (pos b4) 16) (mkDoc (bytes ga) 16) flags) as (b5 & ->);
    [destruct H4 as (? & ? & _); split; [done|split; done]|cbn [bytes]; unfold HeaderSize; lia|].
  unfold gob, FinishAsRoot, ObjectBuilder_Finish; cbn [mbind outcome_bind fst snd startPos].
  destruct (FinishWithFlags_holds (mkBuilder (buf g2) (pos g2) 16) (mkDoc (bytes ga) 16) flags) as (g3 & -> & _);
    [destruct G2 as (? & ? & _); split; [done|split; done]|cbn [bytes]; unfold HeaderSize; lia|].
  eexists; split; reflexivity.
Qed.
End identity.

(** ** The two readers agree *)

Definition go_error (e : ts_error) : zap_error :=
  match e with
  | TsTooSmall | TsSize => ErrBufferTooSmall
  | TsMagic => ErrInvalidMagic
  | TsVersion => ErrInvalidVersion
  end.

Lemma ts_getU_ok n d p : 0 <= p -> p + n <= len d -> ts_getU n d p = Ret (rd n d p).
Proof. intros; unfold ts_getU; guard_true; done. Qed.

Lemma ts_parse_agrees d :
  exists r, ts_parse d = Ret r
  /\ Parse d = Ret (match r with Ok m => Ok (mkMessage m None) | Err e => Err (go_error e) end).
Proof.
  rewrite Parse_eq; unfold ts_parse.
  destruct (Z.ltb_spec (len d) HeaderSize) as [Hl|Hl]; [eexists; done|].
  destruct (negb (bytes_eqb _ _)); [eexists; done|]; unfold HeaderSize in *.
  rewrite (ts_getU_ok 2), (ts_getU_ok 4) by lia; cbn [mbind outcome_bind]; change (rd 2 d 4 =? 1) with (rd 2 d 4 =? Version1).
  destruct (negb (rd 2 d 4 =? Version1) && negb (rd 2 d 4 =? Version2)); [eexists; done|].
  destruct ((rd 4 d 12 <? 16) || (len d <? rd 4 d 12)); eexists; done.
Qed.

(** [o] is the same object for both. *)
Definition same_object (z : ZapObject) : Object := mkObject (Some (mkMessage (z_data z) None)) (z_offset z).

Section agree.
Context (z : ZapObject) (f : Z).
Hypothesis Hpos : 0 <= z_offset z + f.
Let d := z_data z.
Let p := z_offset z + f.

Lemma ts_uint8_agrees : exists v, ts_uint8 z f = Some v /\ Object_Uint8 (same_object z) f = Ret v.
Proof.
  unfold ts_uint8, Object_Uint8, odata; cbn [same_object msg deref mbind outcome_bind offset data].
  destruct (Z.leb_spec (len (z_data z)) (z_offset z + f)); [eexists; done|].
  destruct (index_ok (z_data z) (z_offset z + f)) as (b & -> & Hb); [lia|].
  replace (z_offset z + f <? 0) with false by (symmetry; apply Z.ltb_ge; lia); rewrite Hb; eexists; done.
Qed.

Lemma ts_uintN_agrees n : 0 <= n -> ts_uintN n z f = Object_UintN n (same_object z) f.
Proof.
  intros Hn; rewrite (Object_UintN_eq (same_object z) (mkMessage (z_data z) None) f eq_refl Hpos n Hn).
  unfold ts_uintN; cbn [same_object offset data].
  destruct (Z.ltb_spec (len (z_data z)) (z_offset z + f + n)); [done|]; rewrite ts_getU_ok by lia; done.
Qed.

Lemma ts_bytes_agrees : ts_bytes z f = Object_Bytes (same_object z) f.
Proof.
  rewrite (Object_Bytes_eq (same_object z) (mkMessage (z_data z) None) f eq_refl Hpos).
  unfold ts_bytes; cbn [same_object offset data]; fold d p.
  destruct (Z.ltb_spec (len d) (p + 4)); [done|]; rewrite (ts_getU_ok 4 d p) by lia; cbn [mbind outcome_bind orb].
  destruct (rd 4 d p =? 0); [done|]; cbn [orb]; replace (p + 4 + 4) with (p + 8) by lia.
  destruct (Z.ltb_spec (len d) (p + 8)); [done|]; rewrite (ts_getU_ok 4 d (p + 4)) by lia; cbn [mbind outcome_bind orb].
  repeat case_if; try done; lia.
Qed.
End agree.


(** ** The two opcodes agree *)

Lemma u32_lxor h b : 0 <= b < 2 ^ 32 -> u32 (Z.lxor h b) = Z.lxor (u32 h) b.
Proof.
  intros Hb; unfold u32; apply Z.bits_inj'; intros n Hn.
  rewrite Z.lxor_spec, !Z.testbit_mod_pow2, Z.lxor_spec by lia.
  destruct (Z.ltb_spec n 32); [done|]; cbn [andb].
  rewrite <-(Z.mod_small b (2 ^ 32)) by lia; rewrite Z.testbit_mod_pow2 by lia.
  replace (n <? 32) with false by (symmetry; apply Z.ltb_ge; lia); done.
Qed.

Lemma u32_s32 z : u32 (s32 z) = u32 z.
Proof.
  unfold u32, s32, swrap; rewrite Zminus_mod_idemp_l; f_equal; lia.
Qed.

Lemma ts_fnv_agrees s : u32 (ts_fnv s) = fnv32a s.
Proof.
  unfold ts_fnv, fnv32a.
  assert (H : forall h g, u32 h = g ->
    u32 (fold_left (fun h b => s32 (s32 (Z.lxor h (byte.unsigned b)) * 0x01000193)) s h)
    = fold_left (fun h b => u32 (Z.lxor h (byte.unsigned b) * 16777619)) s g); [|apply H; done].
  induction s as [|x s IH]; intros h g Hg; cbn [fold_left]; [exact Hg|].
  apply IH; pose proof (byte.unsigned_range x).
  rewrite u32_s32; unfold u32 at 1; rewrite <-Zmult_mod_idemp_l; fold (u32 (s32 (Z.lxor h (byte.unsigned x)))).
  rewrite u32_s32, u32_lxor, Hg by lia; done.
Qed.

Lemma procedureOpcode_agrees name :
  procedureOpcode name = match ProcedureOpcode name with Ok op => Some op | Err _ => None end.
Proof.
  unfold procedureOpcode, ProcedureOpcode; destruct (len name =? 0); [done|].
  rewrite ts_fnv_agrees; pose proof (Z.mod_pos_bound (fnv32a name) 254 ltac:(lia)).
  unfold u8; rewrite (Z.mod_small (fnv32a name mod 254 + 1)) by lia.
  change 0xffff with (Z.ones 16); rewrite Z.land_ones by lia; done.
Qed.

(** ** The client correlates replies *)

(** What a reply settles its promise to. *)
Definition reply_value (d : list byte) : settlement :=
  match ts_settle (rd 4 d 4) (sub d corrHeader (len d - corrHeader)) with Ret r => r | Panic => Err TClosed end.

Lemma ts_settle_ret flag payload : exists r, ts_settle flag payload = Ret r.
Proof.
  unfold ts_settle; repeat case_if; try (eexists; done).
  destruct (ts_parse_agrees payload) as (r & -> & _); eexists; done.
Qed.

(** The calls among the events, and those of them that take an id. *)
Definition is_call (e : client_event) : bool := match e with Called _ _ _ => true | _ => false end.
Definition is_issued (e : client_event) : bool :=
  match e with Called p _ _ => match procedureOpcode p with Some _ => true | None => false end | _ => false end.
Definition calls (es : list client_event) : nat := length (List.filter is_call es).
Definition issued (es : list client_event) : Z := len (List.filter is_issued es).

(** How a call that was sent under [id] ends: with the first message that
    carries the id, or with the end of the connection before one came. *)
Fixpoint first_reply (id : Z) (es : list client_event) : option settlement :=
  match es with
  | [] => None
  | Received d :: es =>
      if (len d <? corrHeader) || negb (rd 4 d 0 =? id) then first_reply id es else Some (reply_value d)
  | Closed :: _ => Some (Err TClosed)
  | Called _ _ _ :: es => first_reply id es
  end.

Record client_inv (n : Z) (c : ZapWebClient) : Prop := mkClientInv {
  ci_reqID : reqID c = n;
  ci_pending : forall id p, pending c !! id = Some p -> (p < promises c)%nat /\ settled c !! p = None;
  ci_settled : forall p r, settled c !! p = Some r -> (p < promises c)%nat;
  ci_inj : forall id id' p, pending c !! id = Some p -> pending c !! id' = Some p -> id = id';
  ci_below : forall id p, pending c !! id = Some p -> id <= n
}.

(** Promises are never forgotten: what is settled stays as it is. *)
Record keeps (k : nat) (c c' : ZapWebClient) : Prop := mkKeeps {
  k_promises : promises c' = (promises c + k)%nat;
  k_settled : forall p r, settled c !! p = Some r -> settled c' !! p = Some r;
  k_sent : forall f, f ∈ sent c -> f ∈ sent c'
}.

Lemma issued_cons e es : issued (e :: es) = Z.b2z (is_issued e) + issued es.
Proof. unfold issued; cbn [List.filter]; destruct (is_issued e); rewrite ?len_cons; cbn [Z.b2z]; lia. Qed.

Lemma failAll_settled err c p :
  (forall id, pending c !! id <> Some p) -> settled (failAll err c) !! p = settled c !! p.
Proof.
  unfold failAll; cbn [settled].
  apply (map_fold_weak_ind (fun res m => (forall id, m !! id <> Some p) -> res !! p = settled c !! p)); [done|].
  intros id q m res Hm IH Hno; rewrite lookup_insert_ne.
  - apply IH; intros id' Hid; destruct (decide (id' = id)) as [->|Hne]; [congruence|].
    apply (Hno id'); rewrite lookup_insert_ne by done; exact Hid.
  - intros ->; apply (Hno id), lookup_insert_eq.
Qed.

Lemma failAll_pending err c id p : pending c !! id = Some p -> settled (failAll err c) !! p = Some (Err err).
Proof.
  unfold failAll; cbn [settled]; revert id.
  apply (map_fold_weak_ind (fun res m => forall id, m !! id = Some p -> res !! p = Some (Err err))).
  - intros id; rewrite lookup_empty; done.
  - intros id q m res Hm IH id' Hid; destruct (decide (p = q)) as [->|Hne]; [apply lookup_insert_eq|].
    rewrite lookup_insert_ne by done; apply (IH id').
    apply lookup_insert_Some in Hid as [[_ ?]|[_ Hid]]; [congruence|exact Hid].
Qed.

Lemma failAll_inv err c p r :
  settled (failAll err c) !! p = Some r -> settled c !! p = Some r \/ exists id, pending c !! id = Some p.
Proof.
  unfold failAll; cbn [settled].
  apply (map_fold_weak_ind (fun res m => res !! p = Some r -> settled c !! p = Some r \/ exists id, m !! id = Some p)); [eauto|].
  intros id q m res Hm IH [[<- _]|[_ Hl]]%lookup_insert_Some; [right; exists id; apply lookup_insert_eq|].
  destruct (IH Hl) as [|[id' Hid]]; [eauto|right; exists id'].
  rewrite lookup_insert_ne; [done|intros ->; congruence].
Qed.

Lemma ts_frame_eq id body : ts_frame id body = Ret (le_bytes 4 id ++ le_bytes 4 1 ++ body).
Proof. exact (frame_eq id 1 body). Qed.

Lemma onMessage_eq d c :
  onMessage d c =
    Ret (if len d <? corrHeader then c else
         match pending c !! rd 4 d 0 with
         | None => c
         | Some p => mkZapWebClient (reqID c) (delete (rd 4 d 0) (pending c)) (promises c)
                       (<[p := reply_value d]> (settled c)) (sent c)
         end).
Proof.
  unfold onMessage; destruct (Z.ltb_spec (len d) corrHeader) as [|Hl]; [done|]; unfold corrHeader in Hl.
  rewrite !ts_getU_ok by lia; cbn [mbind outcome_bind]; destruct (pending c !! rd 4 d 0); [|done].
  unfold reply_value; destruct (ts_settle_ret (rd 4 d 4) (sub d corrHeader (len d - corrHeader))) as [r ->]; done.
Qed.

Lemma call_inv n proc req throws c :
  client_inv n c -> 0 <= n -> n + Z.b2z (is_issued (Called proc req throws)) < 2 ^ 32 ->
  exists c', ts_Call proc req throws c = Ret c'
  /\ client_inv (n + Z.b2z (is_issued (Called proc req throws))) c' /\ keeps 1 c c'
  /\ (forall op, procedureOpcode proc = Some op ->
        if throws then settled c' !! promises c = Some (Err TSend)
        else pending c' !! (n + 1) = Some (promises c)
             /\ (le_bytes 4 (n + 1) ++ le_bytes 4 1 ++ stampOpcode req op) ∈ sent c')
  /\ (procedureOpcode proc = None -> settled c' !! promises c = Some (Err TOpcode))
  /\ (forall id p, pending c !! id = Some p -> pending c' !! id = Some p).
Proof.
  intros [Hn Hp Hs Hi Hle] H0 Hlt; cbn [is_issued] in *; unfold ts_Call.
  destruct (procedureOpcode proc) as [op|] eqn:E; cbn [Z.b2z] in *.
  2: { eexists; split; [reflexivity|]; rewrite Z.add_0_r.
       split; [|split; [|split; [done|split; [intros _; apply lookup_insert_eq|done]]]]; constructor; cbn [reqID pending promises settled sent]; try done.
       - intros id p Hl; destruct (Hp _ _ Hl); split; [lia|]; rewrite lookup_insert_ne by lia; done.
       - intros p r [[<- _]|[_ Hl]]%lookup_insert_Some; [lia|apply Hs in Hl; lia].
       - lia.
       - intros p r Hl; rewrite lookup_insert_ne; [done|apply Hs in Hl; lia]. }
  assert (Hid : u32 (reqID c + 1) = n + 1) by (unfold u32; rewrite Hn; apply Z.mod_small; lia).
  assert (Hnone : pending c !! (n + 1) = None)
    by (destruct (pending c !! (n + 1)) as [q|] eqn:Eq; [apply Hle in Eq; lia|done]).
  rewrite ts_frame_eq, Hid; cbn [mbind outcome_bind]; destruct throws; eexists; (split; [reflexivity|]).
  - rewrite delete_insert_id by done.
    split; [|split; [|split; [intros ? [= <-]; apply lookup_insert_eq|split; [done|done]]]]; constructor; cbn [reqID pending promises settled sent]; try done.
    + lia.
    + intros id p Hl; destruct (Hp _ _ Hl); split; [lia|]; rewrite lookup_insert_ne by lia; done.
    + intros p r [[<- _]|[_ Hl]]%lookup_insert_Some; [lia|apply Hs in Hl; lia].
    + intros id p Hl; apply Hle in Hl; lia.
    + lia.
    + intros p r Hl; rewrite lookup_insert_ne; [done|apply Hs in Hl; lia].
  - split; [|split; [|split; [intros ? [= <-]; split; [apply lookup_insert_eq|cbn [sent]; apply elem_of_app; right; apply list_elem_of_singleton; done]|split; [done|]]]].
    2: { constructor; cbn [promises settled sent]; [lia|done|]; intros f Hf; apply elem_of_app; left; done. }
    2: { cbn [pending]; intros id p Hl; rewrite lookup_insert_ne; [done|apply Hle in Hl; lia]. }
    constructor; cbn [reqID pending promises settled].
    + lia.
    + intros id p [[<- <-]|[_ Hl]]%lookup_insert_Some; [split; [lia|]|destruct (Hp _ _ Hl); split; [lia|done]].
      destruct (settled c !! promises c) as [r|] eqn:Er; [apply Hs in Er; lia|done].
    + intros p r Hl; apply Hs in Hl; lia.
    + intros id id' p [[<- <-]|[? Hl]]%lookup_insert_Some [[<- Heq]|[? Hl']]%lookup_insert_Some; try done.
      * apply Hp in Hl' as [? _]; lia.
      * rewrite <-Heq in Hl; apply Hp in Hl as [? _]; lia.
      * eapply Hi; done.
    + intros id p [[<- _]|[_ Hl]]%lookup_insert_Some; [lia|apply Hle in Hl; lia].
Qed.

Lemma message_inv n d c :
  client_inv n c ->
  exists c', onMessage d c = Ret c' /\ client_inv n c' /\ keeps 0 c c'
  /\ forall id p, pending c !! id = Some p ->
       if (len d <? corrHeader) || negb (rd 4 d 0 =? id) then pending c' !! id = Some p
       else settled c' !! p = Some (reply_value d).
Proof.
  intros Hinv; pose proof Hinv as [Hn Hp Hs Hi Hle]; rewrite onMessage_eq; eexists; split; [reflexivity|].
  assert (Hk : keeps 0 c c) by (constructor; [lia|done|done]).
  destruct (len d <? corrHeader); cbn [orb]; [done|].
  destruct (pending c !! rd 4 d 0) as [p|] eqn:E.
  2: { split; [exact Hinv|split; [exact Hk|]]; intros id p Hl.
       destruct (Z.eqb_spec (rd 4 d 0) id) as [Heq|]; cbn [negb]; [rewrite Heq in E; congruence|done]. }
  split; [|split].
  - constructor; cbn [reqID pending promises settled]; [done| | | |].
    + intros id q [Hne Hl]%lookup_delete_Some; destruct (Hp _ _ Hl); split; [done|].
      rewrite lookup_insert_ne; [done|]; intros ->; apply Hne; eapply Hi; done.
    + intros q r [[<- _]|[_ Hl]]%lookup_insert_Some; [apply (Hp _ _ E)|apply Hs in Hl; done].
    + intros id id' q [_ Hl]%lookup_delete_Some [_ Hl']%lookup_delete_Some; eapply Hi; done.
    + intros id q [_ Hl]%lookup_delete_Some; eapply Hle, Hl.
  - constructor; cbn [promises settled sent]; [lia| |done].
    intros q r Hl; rewrite lookup_insert_ne; [done|intros ->; apply Hp in E as [_ E]; congruence].
  - intros id q Hl; cbn [pending settled]; destruct (Z.eqb_spec (rd 4 d 0) id) as [Heq|Hne]; cbn [negb].
    + rewrite <-Heq, E in Hl; injection Hl as ->; apply lookup_insert_eq.
    + rewrite lookup_delete_ne; done.
Qed.

Lemma close_inv n c : client_inv n c -> client_inv n (failAll TClosed c) /\ keeps 0 c (failAll TClosed c).
Proof.
  intros [Hn Hp Hs Hi Hle]; split.
  - constructor; [done|intros id p; cbn [failAll pending]; rewrite lookup_empty; done| |intros id id' p; cbn [failAll pending]; rewrite lookup_empty; done
                 |intros id p; cbn [failAll pending]; rewrite lookup_empty; done].
    intros p r [Hl|[id Hid]]%failAll_inv; cbn [failAll promises]; [eapply Hs, Hl|apply (Hp _ _ Hid)].
  - constructor; [cbn [failAll promises]; lia| |done].
    intros p r Hl; rewrite failAll_settled; [done|]; intros id [_ Hid]%Hp; congruence.
Qed.

Lemma new_client_inv : client_inv 0 new_client.
Proof.
  constructor; [done|..]; cbn [new_client pending settled]; intros *; rewrite lookup_empty; done.
Qed.

Lemma keeps_trans j k c c' c'' : keeps j c c' -> keeps k c' c'' -> keeps (j + k) c c''.
Proof. intros [Hp Hs Ht] [Hp' Hs' Ht']; constructor; [lia|eauto|eauto]. Qed.

Lemma calls_cons e es : calls (e :: es) = ((if is_call e then 1 else 0) + calls es)%nat.
Proof. unfold calls; cbn [List.filter]; destruct (is_call e); done. Qed.

Lemma web_step_inv n e c :
  client_inv n c -> 0 <= n -> n + Z.b2z (is_issued e) < 2 ^ 32 ->
  exists c', client_step e c = Ret c' /\ client_inv (n + Z.b2z (is_issued e)) c'
  /\ keeps (if is_call e then 1 else 0) c c'.
Proof.
  intros Hinv H0 Hlt; destruct e as [proc req throws|d|]; cbn [client_step is_call].
  - destruct (call_inv n proc req throws c Hinv H0 Hlt) as (c' & ? & ? & ? & _); eauto.
  - destruct (message_inv n d c Hinv) as (c' & ? & ? & ? & _); cbn [is_issued Z.b2z]; rewrite Z.add_0_r; eauto.
  - cbn [is_issued Z.b2z]; rewrite Z.add_0_r; eexists; split; [reflexivity|]; apply close_inv, Hinv.
Qed.

Lemma issued_nonneg es : 0 <= issued es.
Proof. apply len_nonneg. Qed.

Lemma web_run_inv es : forall n c,
  client_inv n c -> 0 <= n -> n + issued es < 2 ^ 32 ->
  exists c', client_run es c = Ret c' /\ client_inv (n + issued es) c' /\ keeps (calls es) c c'.
Proof.
  induction es as [|e es IH]; intros n c Hinv H0 Hlt.
  { exists c; unfold issued, calls; cbn [List.filter length]; rewrite len_nil, Z.add_0_r; split; [done|split; [done|]].
    constructor; [lia|done|done]. }
  pose proof (issued_nonneg es) as Hpos; rewrite issued_cons in Hlt |- *; rewrite calls_cons.
  destruct (web_step_inv n e c Hinv H0 ltac:(lia)) as (c1 & H1 & Hi1 & Hk1).
  assert (Hb : 0 <= Z.b2z (is_issued e)) by (destruct (is_issued e); done).
  destruct (IH _ c1 Hi1 ltac:(lia) ltac:(lia)) as (c2 & H2 & Hi2 & Hk2).
  exists c2; cbn [client_run]; rewrite H1; split; [exact H2|].
  rewrite Z.add_assoc; split; [exact Hi2|exact (keeps_trans _ _ _ _ _ Hk1 Hk2)].
Qed.

Lemma run_waits es : forall n c id p c',
  client_inv n c -> 0 <= n -> n + issued es < 2 ^ 32 -> pending c !! id = Some p ->
  client_run es c = Ret c' -> settled c' !! p = first_reply id es.
Proof.
  induction es as [|e es IH]; intros n c id p c' Hinv H0 Hlt Hp Hrun.
  { injection Hrun as <-; apply (ci_pending _ _ Hinv _ _ Hp). }
  pose proof (issued_nonneg es) as Hpos; rewrite issued_cons in Hlt; cbn [client_run] in Hrun.
  assert (Hb : 0 <= Z.b2z (is_issued e)) by (destruct (is_issued e); done).
  destruct (web_step_inv n e c Hinv H0 ltac:(lia)) as (c1 & H1 & Hi1 & _); rewrite H1 in Hrun; cbn [mbind outcome_bind] in Hrun.
  assert (Hdone : forall r, settled c1 !! p = Some r -> settled c' !! p = Some r).
  { destruct (web_run_inv es _ c1 Hi1 ltac:(lia) ltac:(lia)) as (c2 & H2 & _ & [_ Hk _]).
    rewrite H2 in Hrun; injection Hrun as <-; apply Hk. }
  destruct e as [proc req throws|d|]; cbn [client_step first_reply] in *.
  - destruct (call_inv n proc req throws c Hinv H0 ltac:(lia)) as (c2 & H2 & _ & _ & _ & _ & Hkeep).
    rewrite H1 in H2; injection H2 as <-; eapply (IH _ c1); [exact Hi1|lia|lia|apply Hkeep, Hp|exact Hrun].
  - destruct (message_inv n d c Hinv) as (c2 & H2 & _ & _ & Hd); rewrite H1 in H2; injection H2 as <-.
    specialize (Hd _ _ Hp); destruct ((len d <? corrHeader) || negb (rd 4 d 0 =? id)); [|apply Hdone, Hd].
    eapply (IH _ c1); [exact Hi1|lia|lia|exact Hd|exact Hrun].
  - injection H1 as <-; apply Hdone; eapply failAll_pending, Hp.
Qed.

Lemma client_run_app es es' c : client_run (es ++ es') c = (c ← client_run es c; client_run es' c).
Proof.
  revert c; induction es as [|e es IH]; intros c; [done|]; cbn [app client_run].
  destruct (client_step e c); [apply IH|done].
Qed.

Lemma call_outcome pre proc req throws post :
  issued (pre ++ Called proc req throws :: post) < 2 ^ 32 ->
  exists c, client_run (pre ++ Called proc req throws :: post) new_client = Ret c
  /\ settled c !! calls pre
     = match procedureOpcode proc with
       | None => Some (Err TOpcode)
       | Some _ => if throws then Some (Err TSend) else first_reply (issued pre + 1) post
       end
  /\ forall op, procedureOpcode proc = Some op -> throws = false ->
       (le_bytes 4 (issued pre + 1) ++ le_bytes 4 1 ++ stampOpcode req op) ∈ sent c.
Proof.
  intros Hlt; assert (Happ : issued (pre ++ Called proc req throws :: post)
    = issued pre + (Z.b2z (is_issued (Called proc req throws)) + issued post)).
  { rewrite <-issued_cons; unfold issued; rewrite List.filter_app, len_app; done. }
  pose proof (issued_nonneg pre) as Hpre; pose proof (issued_nonneg post) as Hpost.
  assert (Hb : 0 <= Z.b2z (is_issued (Called proc req throws))) by (destruct (is_issued _); done).
  destruct (web_run_inv pre 0 new_client new_client_inv) as (c1 & H1 & Hi1 & [Hp1 _ _]); [lia|lia|]; rewrite Z.add_0_l in Hi1.
  cbn [new_client promises Nat.add] in Hp1.
  destruct (call_inv _ proc req throws c1 Hi1) as (c2 & H2 & Hi2 & Hk2 & Hc & Hn & _); [lia|lia|].
  destruct (web_run_inv post _ c2 Hi2) as (c3 & H3 & _ & [_ Hs3 Ht3]); [lia|lia|].
  exists c3; rewrite client_run_app, H1; cbn [mbind outcome_bind client_run client_step]; rewrite H2; cbn [mbind outcome_bind].
  split; [exact H3|]; rewrite <-Hp1; destruct (procedureOpcode proc) as [op|].
  - specialize (Hc _ eq_refl); split.
    + destruct throws; [apply Hs3, Hc|]; destruct Hc as [Hc _].
      eapply run_waits; [exact Hi2|lia|lia|exact Hc|exact H3].
    + intros op' [= <-] ->; apply Ht3, Hc.
  - split; [apply Hs3, Hn; done|done].
Qed.

(** C22: the client correlates: whatever calls, messages and closings come in
    whatever order, as long as fewer than [2^32] calls were made, the promise
    of a call is settled by the first later message that carries its id, or by
    the closing of the connection before one, and by nothing else; a call with
    an empty name or whose send throws is rejected at once. Nothing throws. *)
Theorem ts_calls_correlated pre proc req throws post :
  issued (pre ++ Called proc req throws :: post) < 2 ^ 32 ->
  exists c, client_run (pre ++ Called proc req throws :: post) new_client = Ret c
  /\ settled c !! calls pre
     = match procedureOpcode proc with
       | None => Some (Err TOpcode)
       | Some _ => if throws then Some (Err TSend) else first_reply (issued pre + 1) post
       end
  /\ forall op, procedureOpcode proc = Some op -> throws = false ->
       (le_bytes 4 (issued pre + 1) ++ le_bytes 4 1 ++ stampOpcode req op) ∈ sent c.
Proof. apply call_outcome. Qed.

(** A call made after the connection closed is never settled: [ws.send] does
    not throw on a closed socket, no message comes any more, and [failAll] has
    already run. *)
Theorem ts_call_after_close_hangs pre proc req later :
  issued (pre ++ Closed :: Called proc req false :: later) < 2 ^ 32 ->
  Forall (fun e => is_call e = true) later -> is_issued (Called proc req false) = true ->
  exists c, client_run (pre ++ Closed :: Called proc req false :: later) new_client = Ret c
  /\ settled c !! calls (pre ++ [Closed]) = None.
Proof.
  intros Hlt Hlater Hop.
  assert (Hsplit : pre ++ Closed :: Called proc req false :: later = (pre ++ [Closed]) ++ Called proc req false :: later)
    by (rewrite <-app_assoc; done).
  rewrite Hsplit in *; destruct (call_outcome (pre ++ [Closed]) proc req false later Hlt) as (c & Hc & Hs & _).
  exists c; split; [exact Hc|]; rewrite Hs; cbn [is_issued] in Hop; destruct (procedureOpcode proc); [|discriminate].
  clear - Hlater; induction Hlater as [|e es He Hes IH]; [done|]; destruct e; try discriminate He; exact IH.
Qed.

(** ** A browser's call is the native dispatch *)

Lemma stampOpcode_retag d op : HeaderSize <= len d -> 0 <= op < 2 ^ 16 -> stampOpcode d op = retag d op.
Proof.
  intros Hl Hop; assert (Hs : set_flags d op = Ret (stampOpcode d op)); [|rewrite set_flags_eq in Hs by done; congruence].
  unfold set_flags, stampOpcode, HeaderSize in *; assert (H1 : forall x : byte, len [x] = 1) by done.
  assert (Hland : forall z, Z.land z 0xff = u8 z) by (intros z; change 0xff with (Z.ones 8); apply Z.land_ones; lia).
  assert (Hu : forall z, u8 (u8 z) = u8 z) by (intros z; unfold u8; apply Z.mod_mod; lia).
  rewrite !Hland, !set_byte_put by (rewrite ?len_set_byte; lia); rewrite !Hu.
  rewrite store_ok by (rewrite ?H1; lia); cbn [mbind outcome_bind].
  rewrite store_ok by (rewrite ?len_put; rewrite ?H1; lia); done.
Qed.

(** How the browser sees a dispatch. *)
Definition ts_view (Error : client_error -> str) (r : result (option Message) client_error) : settlement :=
  match r with
  | Ok (Some m) => Ok (Some (data m))
  | Ok None => Ok None
  | Err e => Err (TRemote (Error e))
  end.

Lemma reply_value_frame id flag body :
  0 <= id < 2 ^ 32 -> 0 <= flag < 2 ^ 32 ->
  let d := le_bytes 4 id ++ le_bytes 4 flag ++ body in
  rd 4 d 0 = id /\ (len d <? corrHeader) = false
  /\ ts_settle flag body = Ret (reply_value d).
Proof.
  intros Hi Hg d; destruct (frame_parts id flag body Hi Hg) as (Hl & Hid & Hf & Hb); fold d in Hl, Hid, Hf, Hb.
  apply Z.ltb_ge in Hl as Hl'; unfold corrHeader in Hl'.
  rewrite slice_ok in Hid, Hf by lia; cbn [mbind outcome_bind] in Hid, Hf.
  rewrite le_uint_sub in Hid, Hf by lia; injection Hid as Hid; injection Hf as Hf.
  rewrite slice_from_ok in Hb by (unfold corrHeader; lia); injection Hb as Hb.
  split; [exact Hid|split; [exact Hl|]]; unfold reply_value.
  assert (Hf' : rd 4 d 4 = flag) by exact Hf; rewrite Hf', Hb.
  destruct (ts_settle_ret flag body) as [r ->]; done.
Qed.

Lemma reply_settles Error id r :
  (forall resp, r = Ok (Some resp) -> well_formed resp) ->
  exists flag body, (match r with Err e => encodeErr id (Error e) | Ok resp => encodeResp id resp end)
    = Ret (le_bytes 4 id ++ le_bytes 4 flag ++ body)
  /\ 0 <= flag < 2 ^ 32 /\ ts_settle flag body = Ret (ts_view Error r).
Proof.
  intros Hw; destruct r as [[resp|]|e]; unfold encodeResp, encodeErr; rewrite frame_eq; do 2 eexists;
    (split; [reflexivity|split; [unfold ReqFlagResp, FlagErr; lia|]]); try reflexivity.
  specialize (Hw _ eq_refl); destruct (well_formed_inv _ Hw) as (Hl & _); unfold HeaderSize, Message_Bytes in *.
  unfold ts_settle; cbn [Z.eqb ReqFlagResp Pos.eqb].
  replace (len (data resp) =? 0) with false by (symmetry; apply Z.eqb_neq; lia).
  destruct (ts_parse_agrees (data resp)) as (r & -> & Hp); unfold well_formed in Hw; rewrite Hw in Hp.
  destruct r as [m|e]; [injection Hp as <-; done|discriminate].
Qed.


(** Outside the contract of [ts_builder_byte_identical] the builders differ:
    clearing a byte field that was set leaves a pointer in the TypeScript
    message, with an empty field that is present, where Go's has none. *)
Theorem ts_cleared_field_differs :
  let cs := [@setBytes unit 0 [Byte.x61]; setBytes 0 []] in
  exists d g, ts_build (fun _ => []) 64 8 0 cs = Ret d
  /\ finish_flat 64 8 0 (map (go_call (fun _ => [])) cs) = Ret g
  /\ ts_bytes (mkZapObject d 16) 0 = Ret (Some []) /\ Object_Bytes (same_object (mkZapObject g 16)) 0 = Ret None.
Proof. do 2 eexists; split; [|split; [|split]]; vm_compute; reflexivity. Qed.

(** ** Witnesses *)

(** The test vector V5: a byte, a word and a text. *)
Lemma ts_builder_byte_identical_witness :
  exists d, ts_build (fun s : list byte => s) 256 16 0
              [setUint8 0 1; setUint32 4 0xdeadbeef; setText 8 [Byte.x68; Byte.x69]] = Ret d
  /\ finish_flat 64 16 0 [fUint8 0 1; fUint32 4 0xdeadbeef; fText 8 [Byte.x68; Byte.x69]] = Ret d.
Proof.
  apply (ts_builder_byte_identical (fun s : list byte => s) 256 64 16 0
           [setUint8 0 1; setUint32 4 0xdeadbeef; setText 8 [Byte.x68; Byte.x69]]); [lia|reflexivity].
Defined.

Lemma ts_calls_correlated_witness :
  exists c, client_run ([Called p_echo stub_bytes false] ++ Called p_deny stub_bytes false :: [Closed]) new_client = Ret c
  /\ settled c !! 1%nat = Some (Err TClosed).
Proof.
  destruct (ts_calls_correlated [Called p_echo stub_bytes false] p_deny stub_bytes false [Closed]) as (c & Hc & Hs & _);
    [vm_compute; reflexivity|].
  exists c; split; [exact Hc|]; etransitivity; [exact Hs|vm_compute; reflexivity].
Defined.

Lemma ts_call_after_close_hangs_witness :
  exists c, client_run ([] ++ Closed :: Called p_echo stub_bytes false :: []) new_client = Ret c
  /\ settled c !! calls ([] ++ [Closed]) = None.
Proof.
  apply (ts_call_after_close_hangs [] p_echo stub_bytes []); [vm_compute; reflexivity|constructor|vm_compute; reflexivity].
Defined.


