(* ===== verification/Schema.v ===== *)
(** * Schema: struct layouts and the EVM field types

    Models [schema.go] and [evm.go]: the schema records, [TypeSize], the
    [StructBuilder] that lays fields out, the fixed-size EVM fields on objects
    and builders, their hexadecimal form, and the three message schemas the
    package defines. Names are byte strings; a field's default value, which no
    code sets, is left out. *)

From S2P Require Import Prelude Wire Builder BuilderSpec Roundtrip HsLabels.
From stdpp Require Import gmap.
From Stdlib Require String.
Import String.StringSyntax.
Local Delimit Scope string_scope with string.
Local Open Scope Z_scope.

(** ** Schemas *)

Inductive Ty : Type :=
| TypeVoid | TypeBool | TypeInt8 | TypeInt16 | TypeInt32 | TypeInt64
| TypeUint8 | TypeUint16 | TypeUint32 | TypeUint64 | TypeFloat32 | TypeFloat64
| TypeText | TypeBytes | TypeList | TypeStruct | TypeEnum | TypeUnion.

Record Field : Type := mkField {
  f_Name : list byte;
  f_Type : Ty;
  f_Offset : Z;
  f_ListElem : Ty;
  f_StructName : list byte
}.

Record Struct : Type := mkStruct {
  s_Name : list byte;
  s_Size : Z;
  s_Fields : list Field
}.

Record Enum : Type := mkEnum {
  en_Name : list byte;
  en_Type : Ty;
  en_Values : gmap (list byte) Z
}.

Record Schema : Type := mkSchema {
  sc_Name : list byte;
  sc_Structs : gmap (list byte) Struct;
  sc_Enums : gmap (list byte) Enum
}.

Definition NewSchema (name : list byte) : Schema := mkSchema name ∅ ∅.
Definition AddStruct (s : Schema) (st : Struct) : Schema :=
  mkSchema (sc_Name s) (<[s_Name st := st]> (sc_Structs s)) (sc_Enums s).
Definition AddEnum (s : Schema) (e : Enum) : Schema :=
  mkSchema (sc_Name s) (sc_Structs s) (<[en_Name e := e]> (sc_Enums s)).

Definition TypeSize (t : Ty) : Z :=
  match t with
  | TypeBool | TypeInt8 | TypeUint8 => 1
  | TypeInt16 | TypeUint16 => 2
  | TypeInt32 | TypeUint32 | TypeFloat32 => 4
  | TypeInt64 | TypeUint64 | TypeFloat64 => 8
  | TypeText | TypeBytes => 8
  | TypeList => 8
  | TypeStruct => 4
  | _ => 0
  end.

(** ** The struct builder *)

Record StructBuilder : Type := mkSB {
  sb_s : Struct;
  sb_offset : Z
}.

Definition NewStructBuilder (name : list byte) : StructBuilder := mkSB (mkStruct name 0 []) 0.

(** [(offset + n - 1) &^ (n - 1)]. *)
Definition sb_align (sb : StructBuilder) (n : Z) : StructBuilder :=
  mkSB (sb_s sb) (Z.ldiff (sb_offset sb + n - 1) (n - 1)).

(** [append(sb.s.Fields, Field{...})] at the current offset, then [sb.offset += w]. *)
Definition sb_add (sb : StructBuilder) (name : list byte) (t elem : Ty) (sname : list byte) (w : Z)
  : StructBuilder :=
  mkSB (mkStruct (s_Name (sb_s sb)) (s_Size (sb_s sb))
          (s_Fields (sb_s sb) ++ [mkField name t (sb_offset sb) elem sname]))
       (sb_offset sb + w).

Definition AddressSize : Z := 20.
Definition HashSize : Z := 32.
Definition SignatureSize : Z := 65.
Definition BloomSize : Z := 256.

Definition sb_Bool sb name := sb_add sb name TypeBool TypeVoid [] 1.
Definition sb_Int32 sb name := sb_add (sb_align sb 4) name TypeInt32 TypeVoid [] 4.
Definition sb_Int64 sb name := sb_add (sb_align sb 8) name TypeInt64 TypeVoid [] 8.
Definition sb_Uint32 sb name := sb_add (sb_align sb 4) name TypeUint32 TypeVoid [] 4.
Definition sb_Uint64 sb name := sb_add (sb_align sb 8) name TypeUint64 TypeVoid [] 8.
Definition sb_Float64 sb name := sb_add (sb_align sb 8) name TypeFloat64 TypeVoid [] 8.
Definition sb_Text sb name := sb_add (sb_align sb 4) name TypeText TypeVoid [] 8.
Definition sb_Bytes sb name := sb_add (sb_align sb 4) name TypeBytes TypeVoid [] 8.
Definition sb_List sb name elem := sb_add (sb_align sb 4) name TypeList elem [] 8.
Definition sb_Struct sb name sname := sb_add (sb_align sb 4) name TypeStruct TypeVoid sname 4.
Definition sb_Address sb name := sb_add (sb_align sb 1) name TypeBytes TypeVoid [] AddressSize.
Definition sb_Hash sb name := sb_add (sb_align sb 1) name TypeBytes TypeVoid [] HashSize.
Definition sb_Signature sb name := sb_add (sb_align sb 1) name TypeBytes TypeVoid [] SignatureSize.

Definition sb_Build (sb : StructBuilder) : Struct :=
  let sb := sb_align sb 8 in
  mkStruct (s_Name (sb_s sb)) (sb_offset sb) (s_Fields (sb_s sb)).

(** ** EVM fields *)

(** An array read at a field, zero when it does not fit. *)
Definition Object_Fixed (size : Z) (o : Object) (fieldOffset : Z) : outcome (list byte) :=
  let pos := offset o + fieldOffset in
  d ← odata o;
  if len d <? pos + size then Ret (zeros size) else
  slice d pos (pos + size).
Definition Object_Address := Object_Fixed AddressSize.
Definition Object_Hash := Object_Fixed HashSize.
Definition Object_Signature := Object_Fixed SignatureSize.

(** The view of it, [nil] when it does not fit. *)
Definition Object_FixedSlice (size : Z) (o : Object) (fieldOffset : Z) : outcome (option (list byte)) :=
  let pos := offset o + fieldOffset in
  d ← odata o;
  if len d <? pos + size then Ret None else
  s ← slice d pos (pos + size); Ret (Some s).
Definition Object_AddressSlice := Object_FixedSlice AddressSize.
Definition Object_HashSlice := Object_FixedSlice HashSize.

(** [copy(ob.b.buf[ob.startPos+fieldOffset:], v)] behind [ensureField], which
    makes room for all of [v]. *)
Definition SetFixed (ob : ObjectBuilder) (b : Builder) (fieldOffset : Z) (v : list byte) : outcome Builder :=
  b ← ensureField ob b (fieldOffset + len v);
  d ← store (buf b) (startPos ob + fieldOffset) v;
  Ret (set_buf b d).
Definition SetAddress (ob : ObjectBuilder) (b : Builder) (f : Z) (addr : list byte) := SetFixed ob b f addr.
Definition SetHash (ob : ObjectBuilder) (b : Builder) (f : Z) (h : list byte) := SetFixed ob b f h.
Definition SetSignature (ob : ObjectBuilder) (b : Builder) (f : Z) (sig : list byte) := SetFixed ob b f sig.

Definition List_Fixed (size : Z) (l : List) (i : Z) : outcome (list byte) :=
  if (i <? 0) || (llength l <=? i) then Ret (zeros size) else
  let pos := loffset l + i * size in
  d ← ldata l;
  if len d <? pos + size then Ret (zeros size) else
  slice d pos (pos + size).
Definition List_Address := List_Fixed AddressSize.
Definition List_Hash := List_Fixed HashSize.

(** ** Hexadecimal *)

Definition hex_char (n : Z) : byte :=
  if n <? 10 then byte.of_Z (48 + n) else byte.of_Z (87 + n).
(** [hex.EncodeToString]. *)
Definition hexEncode (l : list byte) : list byte :=
  concat (map (fun b => [hex_char (Z.shiftr (byte.unsigned b) 4); hex_char (Z.land (byte.unsigned b) 15)]) l).

Definition fromHexChar (c : byte) : option Z :=
  let n := byte.unsigned c in
  if (48 <=? n) && (n <=? 57) then Some (n - 48) else
  if (97 <=? n) && (n <=? 102) then Some (n - 87) else
  if (65 <=? n) && (n <=? 70) then Some (n - 55) else None.
(** [hex.Decode] of a string of even length: what it has decoded, and whether
    it got through. *)
Fixpoint hexDecode (l : list byte) : list byte * bool :=
  match l with
  | a :: b :: l =>
      match fromHexChar a, fromHexChar b with
      | Some x, Some y => let '(r, ok) := hexDecode l in (byte.of_Z (Z.lor (Z.shiftl x 4) y) :: r, ok)
      | _, _ => ([], false)
      end
  | _ => ([], true)
  end.

(** The optional prefix [0x] or [0X]. *)
Definition strip_0x (s : list byte) : list byte :=
  match s with
  | a :: b :: r => if bool_decide (a = Byte.x30) && (bool_decide (b = Byte.x78) || bool_decide (b = Byte.x58))
                   then r else s
  | _ => s
  end.

(** The array, with what was decoded before an error in it, and whether there
    was none. *)
Definition FixedFromHex (size : Z) (s : list byte) : list byte * bool :=
  let s := strip_0x s in
  if negb (len s =? size * 2) then (zeros size, false) else
  let '(r, ok) := hexDecode s in (r ++ zeros (size - len r), ok).
Definition AddressFromHex := FixedFromHex AddressSize.
Definition HashFromHex := FixedFromHex HashSize.

Definition Address_Hex (a : list byte) : list byte := [Byte.x30; Byte.x78] ++ hexEncode a.
Definition Hash_Hex (h : list byte) : list byte := [Byte.x30; Byte.x78] ++ hexEncode h.
Definition Address_IsZero (a : list byte) : bool := bytes_eqb a (zeros AddressSize).
Definition Hash_IsZero (h : list byte) : bool := bytes_eqb h (zeros HashSize).

(** ** The message schemas *)

Definition nm (s : String.string) : list byte := ascii s.

Definition TransactionSchema : Struct :=
  let sb := NewStructBuilder (nm "Transaction"%string) in
  let sb := sb_Hash sb (nm "hash"%string) in
  let sb := sb_Uint64 sb (nm "nonce"%string) in
  let sb := sb_Address sb (nm "from"%string) in
  let sb := sb_Address sb (nm "to"%string) in
  let sb := sb_Bytes sb (nm "value"%string) in
  let sb := sb_Bytes sb (nm "data"%string) in
  let sb := sb_Uint64 sb (nm "gas"%string) in
  let sb := sb_Bytes sb (nm "gasPrice"%string) in
  let sb := sb_Uint64 sb (nm "chainId"%string) in
  let sb := sb_Signature sb (nm "signature"%string) in
  sb_Build sb.

Definition BlockHeaderSchema : Struct :=
  let sb := NewStructBuilder (nm "BlockHeader"%string) in
  let sb := sb_Hash sb (nm "parentHash"%string) in
  let sb := sb_Hash sb (nm "uncleHash"%string) in
  let sb := sb_Address sb (nm "coinbase"%string) in
  let sb := sb_Hash sb (nm "stateRoot"%string) in
  let sb := sb_Hash sb (nm "transactionsRoot"%string) in
  let sb := sb_Hash sb (nm "receiptsRoot"%string) in
  let sb := sb_Bytes sb (nm "logsBloom"%string) in
  let sb := sb_Uint64 sb (nm "difficulty"%string) in
  let sb := sb_Uint64 sb (nm "number"%string) in
  let sb := sb_Uint64 sb (nm "gasLimit"%string) in
  let sb := sb_Uint64 sb (nm "gasUsed"%string) in
  let sb := sb_Uint64 sb (nm "timestamp"%string) in
  let sb := sb_Bytes sb (nm "extraData"%string) in
  let sb := sb_Hash sb (nm "mixHash"%string) in
  let sb := sb_Uint64 sb (nm "nonce"%string) in
  sb_Build sb.

Definition LogSchema : Struct :=
  let sb := NewStructBuilder (nm "Log"%string) in
  let sb := sb_Address sb (nm "address"%string) in
  let sb := sb_List sb (nm "topics"%string) TypeBytes in
  let sb := sb_Bytes sb (nm "data"%string) in
  let sb := sb_Uint64 sb (nm "blockNumber"%string) in
  let sb := sb_Hash sb (nm "txHash"%string) in
  let sb := sb_Uint32 sb (nm "txIndex"%string) in
  let sb := sb_Hash sb (nm "blockHash"%string) in
  let sb := sb_Uint32 sb (nm "logIndex"%string) in
  let sb := sb_Bool sb (nm "removed"%string) in
  sb_Build sb.

(** ** Layouts *)

(** One call of the builder, the width and the alignment of its field. *)
Inductive sb_call : Type :=
| SBool (name : list byte) | SInt32 (name : list byte) | SInt64 (name : list byte)
| SUint32 (name : list byte) | SUint64 (name : list byte) | SFloat64 (name : list byte)
| SText (name : list byte) | SBytes (name : list byte) | SList (name : list byte) (elem : Ty)
| SStruct (name sname : list byte)
| SAddress (name : list byte) | SHash (name : list byte) | SSignature (name : list byte).

Definition call (sb : StructBuilder) (c : sb_call) : StructBuilder :=
  match c with
  | SBool n => sb_Bool sb n | SInt32 n => sb_Int32 sb n | SInt64 n => sb_Int64 sb n
  | SUint32 n => sb_Uint32 sb n | SUint64 n => sb_Uint64 sb n | SFloat64 n => sb_Float64 sb n
  | SText n => sb_Text sb n | SBytes n => sb_Bytes sb n | SList n e => sb_List sb n e
  | SStruct n s => sb_Struct sb n s
  | SAddress n => sb_Address sb n | SHash n => sb_Hash sb n | SSignature n => sb_Signature sb n
  end.

Definition width (c : sb_call) : Z :=
  match c with
  | SBool _ => 1
  | SInt32 _ | SUint32 _ | SStruct _ _ => 4
  | SInt64 _ | SUint64 _ | SFloat64 _ | SText _ | SBytes _ | SList _ _ => 8
  | SAddress _ => 20 | SHash _ => 32 | SSignature _ => 65
  end.
Definition alignment (c : sb_call) : Z :=
  match c with
  | SInt64 _ | SUint64 _ | SFloat64 _ => 8
  | SInt32 _ | SUint32 _ | SText _ | SBytes _ | SList _ _ | SStruct _ _ => 4
  | _ => 1
  end.
Definition field_name (c : sb_call) : list byte :=
  match c with
  | SBool n | SInt32 n | SInt64 n | SUint32 n | SUint64 n | SFloat64 n | SText n
  | SBytes n | SList n _ | SStruct n _ | SAddress n | SHash n | SSignature n => n
  end.

(** [&^] rounds up to the alignment. *)
Lemma align_up x k :
  0 <= k -> let n := 2 ^ k in
  let y := Z.ldiff (x + n - 1) (n - 1) in x <= y < x + n /\ y mod n = 0.
Proof.
  intros Hk n y; assert (Hn : 0 < n) by (apply Z.pow_pos_nonneg; lia).
  assert (Hy : y = (x + n - 1) / n * n).
  { unfold y; replace (n - 1) with (Z.ones k) by (rewrite Z.ones_equiv; lia).
    rewrite Z.ldiff_ones_r, Z.shiftl_mul_pow2, Z.shiftr_div_pow2 by done; done. }
  rewrite Hy, Z_mod_mult; split; [|done].
  pose proof (Z.div_mod (x + n - 1) n ltac:(lia)); pose proof (Z.mod_pos_bound (x + n - 1) n Hn); lia.
Qed.

(** A call puts its field at the next aligned offset and goes on behind it. *)
Lemma call_spec sb c :
  exists t e sn off, call sb c
    = mkSB (mkStruct (s_Name (sb_s sb)) (s_Size (sb_s sb))
              (s_Fields (sb_s sb) ++ [mkField (field_name c) t off e sn])) (off + width c)
    /\ sb_offset sb <= off < sb_offset sb + alignment c /\ off mod alignment c = 0 /\ 0 < width c.
Proof.
  pose proof (align_up (sb_offset sb) 0 ltac:(lia)) as H1; pose proof (align_up (sb_offset sb) 2 ltac:(lia)) as H4.
  pose proof (align_up (sb_offset sb) 3 ltac:(lia)) as H8; cbv zeta in H1, H4, H8.
  change (2 ^ 0) with 1 in H1; change (2 ^ 2) with 4 in H4; change (2 ^ 3) with 8 in H8.
  destruct c; cbn [call width alignment field_name];
    (eexists _, _, _, _; split; [reflexivity|cbn [sb_align sb_offset]; split; [|split; [|lia]]]);
    tauto || (rewrite ?Z.mod_1_r; lia).
Qed.

(** The layout so far: the fields of the calls in order, each behind the one
    before, aligned, and below the offset. *)
Definition laid_out (cs : list sb_call) (fs : list Field) (limit : Z) : Prop :=
  length fs = length cs
  /\ (forall i c f, cs !! i = Some c -> fs !! i = Some f ->
        f_Name f = field_name c /\ f_Offset f mod alignment c = 0 /\ 0 <= f_Offset f
        /\ f_Offset f + width c <= limit)
  /\ (forall i j c f g, (i < j)%nat -> cs !! i = Some c -> fs !! i = Some f -> fs !! j = Some g ->
        f_Offset f + width c <= f_Offset g).

Lemma laid_out_snoc cs fs limit c f :
  laid_out cs fs limit -> f_Name f = field_name c -> f_Offset f mod alignment c = 0 ->
  0 <= limit <= f_Offset f -> 0 < width c -> laid_out (cs ++ [c]) (fs ++ [f]) (f_Offset f + width c).
Proof.
  intros (Hl & Hf & Hlt) Hn Ha Ho Hw; split; [rewrite !length_app; simpl; lia|split].
  - intros i c' f' Hc Hf'; apply lookup_snoc_Some in Hc as [[Hi Hc]|[Hi <-]], Hf' as [[Hi' Hf']|[Hi' <-]];
      try lia; [|split_and!; done || lia].
    destruct (Hf i c' f' Hc Hf') as (? & ? & ? & ?); split_and!; done || lia.
  - intros i j c' f' g Hij Hc Hf' Hg; apply lookup_snoc_Some in Hc as [[Hi Hc]|[Hi <-]],
      Hf' as [[Hi' Hf']|[Hi' <-]], Hg as [[Hj Hg]|[Hj <-]]; try lia; [eauto|].
    destruct (Hf i c' f' Hc Hf') as (_ & _ & _ & ?); lia.
Qed.

Lemma calls_laid_out name cs :
  let sb := fold_left call cs (NewStructBuilder name) in
  laid_out cs (s_Fields (sb_s sb)) (sb_offset sb) /\ 0 <= sb_offset sb /\ s_Name (sb_s sb) = name.
Proof.
  induction cs as [|c cs IH] using rev_ind; [split; [split_and!; done|done]|].
  rewrite fold_left_app; cbn [fold_left]; cbv zeta in IH; destruct IH as (Hlay & Ho & Hn).
  set (sb := fold_left call cs (NewStructBuilder name)) in *.
  destruct (call_spec sb c) as (t & e & sn & off & -> & Hoff & Ha & Hw); cbn [sb_s s_Fields sb_offset s_Name].
  split; [|split; [lia|done]].
  apply (laid_out_snoc cs _ (sb_offset sb) c (mkField (field_name c) t off e sn)); try done; cbn [f_Offset]; lia.
Qed.

(** ** Properties *)

(** Struct layouts are sound. Whatever fields are added in whatever order,
    the struct [Build] returns has one field per call, in order and under its
    name, at a non-negative offset that is a multiple of its alignment; the
    bytes of different fields do not overlap, all lie inside the struct's size,
    and the size is a multiple of eight. *)
Theorem struct_layout_sound name cs :
  let st := sb_Build (fold_left call cs (NewStructBuilder name)) in
  s_Name st = name /\ length (s_Fields st) = length cs /\ s_Size st mod 8 = 0
  /\ (forall i c f, cs !! i = Some c -> s_Fields st !! i = Some f ->
        f_Name f = field_name c /\ f_Offset f mod alignment c = 0 /\ 0 <= f_Offset f
        /\ f_Offset f + width c <= s_Size st)
  /\ (forall i j c f g, (i < j)%nat -> cs !! i = Some c -> s_Fields st !! i = Some f ->
        s_Fields st !! j = Some g -> f_Offset f + width c <= f_Offset g).
Proof.
  destruct (calls_laid_out name cs) as ((Hl & Hf & Hlt) & Ho & Hn); cbv zeta.
  set (sb := fold_left call cs (NewStructBuilder name)) in *.
  destruct (align_up (sb_offset sb) 3 ltac:(lia)) as [H8 Hm]; change (2 ^ 3) with 8 in H8, Hm.
  cbn [sb_Build sb_align sb_s sb_offset s_Name s_Size s_Fields]; split_and!; try done.
  intros i c f Hc Hfi; destruct (Hf i c f Hc Hfi) as (? & ? & ? & ?); split_and!; done || lia.
Qed.

(** ** Hexadecimal round trip *)

Lemma hex_byte b :
  fromHexChar (hex_char (Z.shiftr (byte.unsigned b) 4)) = Some (Z.shiftr (byte.unsigned b) 4)
  /\ fromHexChar (hex_char (Z.land (byte.unsigned b) 15)) = Some (Z.land (byte.unsigned b) 15)
  /\ byte.of_Z (Z.lor (Z.shiftl (Z.shiftr (byte.unsigned b) 4) 4) (Z.land (byte.unsigned b) 15)) = b.
Proof. destruct b; vm_compute; done. Qed.

Lemma hexDecode_Encode l : hexDecode (hexEncode l) = (l, true).
Proof.
  induction l as [|b l IH]; [done|]; unfold hexEncode; cbn [map concat app]; fold (hexEncode l).
  destruct (hex_byte b) as (H1 & H2 & H3); cbn [hexDecode]; rewrite H1, H2, IH, H3; done.
Qed.

Lemma len_hexEncode l : len (hexEncode l) = len l * 2.
Proof.
  induction l as [|b l IH]; [done|]; unfold hexEncode; cbn [map concat app]; fold (hexEncode l).
  rewrite !len_cons, IH; lia.
Qed.

(** An address or a hash parses back from the text it prints, with and without
    the prefix. *)
Lemma fixed_hex_roundtrip size v :
  len v = size -> FixedFromHex size ([Byte.x30; Byte.x78] ++ hexEncode v) = (v, true).
Proof.
  intros Hl; unfold FixedFromHex; change (strip_0x _) with (hexEncode v).
  rewrite len_hexEncode, Hl, Z.eqb_refl; cbn [negb]; rewrite hexDecode_Encode, Hl, Z.sub_diag.
  unfold zeros; rewrite app_nil_r; done.
Qed.

Lemma address_hex_roundtrip a : len a = AddressSize -> AddressFromHex (Address_Hex a) = (a, true).
Proof. apply fixed_hex_roundtrip. Qed.
Lemma hash_hex_roundtrip h : len h = HashSize -> HashFromHex (Hash_Hex h) = (h, true).
Proof. apply fixed_hex_roundtrip. Qed.

(** A fixed field set on an object is in the document at its place. *)
Lemma SetFixed_holds b a ob f v :
  holds b a -> field_ok ob f = true -> exists b', SetFixed ob b f v = Ret b'
    /\ holds b' (a_patch (a_extend a (startPos ob + (f + len v))) (startPos ob + f) v).
Proof.
  intros H Hf; pose proof (len_nonneg v); unfold SetFixed.
  destruct (ensureField_holds b a ob (f + len v) H) as (b1 & -> & Hh); cbn [mbind outcome_bind].
  unfold field_ok, HeaderSize in Hf; apply andb_true_iff in Hf as [H1 H2].
  destruct (patch_holds _ _ Hh (startPos ob + f) v) as [-> Hp]; [lia|rewrite len_extend; lia|]; eauto.
Qed.
