(* ===== verification/V1View.v ===== *)
(** * V1View: typed views over messages

    Models the package [v1]: schemas, views and how they are wrapped, field
    reads and writes, inline lists, nested objects and lists of them, the
    iterator combinators, the pool and the registry. A type parameter [S] that
    implements [Schema] is a value of the record [Schema]; what the compiler
    checks about them is not modelled. A value of a field type is its bit
    pattern. A [View] and a [Raw] have one layout and are one type here. *)

From S2P Require Import Prelude Wire Builder BuilderSpec Roundtrip Envelope.
From stdpp Require Import gmap.
From Stdlib Require String.
Import String.StringSyntax.
Local Delimit Scope string_scope with string.
Local Open Scope Z_scope.

(** ** Schemas *)

Record Schema : Type := mkSchema { Kind : Z; Size : Z; Name : list byte }.

Inductive v1_error : Type :=
| ZapError (e : zap_error)
| SchemaError (want got : Z) (name : list byte).

Definition hex : list byte := String.list_byte_of_string "0123456789abcdef"%string.
Definition hexByte (b : Z) : list byte :=
  String.list_byte_of_string "0x"%string
  ++ [nth (Z.to_nat (Z.shiftr b 4)) hex Byte.x00; nth (Z.to_nat (Z.land b 15)) hex Byte.x00].

(** [SchemaError.Error]. *)
Definition SchemaError_Error (want got : Z) (name : list byte) : list byte :=
  String.list_byte_of_string "zapv1: schema mismatch: want "%string ++ name
  ++ String.list_byte_of_string " (kind="%string ++ hexByte want
  ++ String.list_byte_of_string "), got kind="%string ++ hexByte got.

(** ** Views *)

(** [data] is nil in the zero view. *)
Record View : Type := mkView { vdata : option (list byte); payload : list byte; rootOff : Z }.
Definition View_zero : View := mkView None [] 0.

Definition IsZero (v : View) : bool := match vdata v with None => true | Some _ => false end.
Definition View_Bytes (v : View) : option (list byte) := vdata v.
Definition AsView (r : View) : View := r.

(** [View{data, data[rootOff:end:end], int32(rootOff)}] *)
Definition RawFromSlices (d : list byte) (root end_ : Z) : outcome View :=
  p ← slice d root end_; Ret (mkView (Some d) p (s32 root)).

Definition newSchemaError (want got : Z) (name : list byte) : v1_error := SchemaError want got name.

Definition WrapRaw (b : list byte) (wantKind size : Z) (name : list byte) : outcome (result View v1_error) :=
  h ← ParseHeader b;
  match h with
  | Err e => Ret (Err (ZapError e))
  | Ok (d, root) =>
      let end_ := root + size in
      if (root <? 0) || (len d <? end_) then Ret (Err (ZapError ErrOutOfBounds)) else
      got ← index d root;
      if negb (byte.unsigned got =? wantKind)
      then Ret (Err (newSchemaError wantKind (byte.unsigned got) name)) else
      v ← RawFromSlices d root end_; Ret (Ok v)
  end.

Definition parseUnchecked (b : list byte) (size : Z) : outcome (result (list byte * Z * Z) v1_error) :=
  h ← ParseHeader b;
  match h with
  | Err e => Ret (Err (ZapError e))
  | Ok (d, root) =>
      if (root <? 0) || (len d <=? root) then Ret (Err (ZapError ErrOutOfBounds)) else
      let end_ := root + size in
      if len d <? end_ then Ret (Err (ZapError ErrOutOfBounds)) else
      Ret (Ok (d, root, end_))
  end.

Definition WrapRawUnchecked (b : list byte) (size : Z) : outcome (result View v1_error) :=
  h ← ParseHeader b;
  match h with
  | Err e => Ret (Err (ZapError e))
  | Ok (d, root) =>
      if (root <? 0) || (len d <=? root) then Ret (Err (ZapError ErrOutOfBounds)) else
      let end_ := root + size in
      if len d <? end_ then Ret (Err (ZapError ErrOutOfBounds)) else
      v ← RawFromSlices d root end_; Ret (Ok v)
  end.

Definition parseAndCheck (b : list byte) (wantKind size : Z) (name : list byte)
  : outcome (result (list byte * Z * Z) v1_error) :=
  h ← ParseHeader b;
  match h with
  | Err e => Ret (Err (ZapError e))
  | Ok (d, root) =>
      if (root <? 0) || (len d <=? root) then Ret (Err (ZapError ErrOutOfBounds)) else
      got ← index d root;
      if negb (byte.unsigned got =? wantKind)
      then Ret (Err (SchemaError wantKind (byte.unsigned got) name)) else
      let end_ := root + size in
      if len d <? end_ then Ret (Err (ZapError ErrOutOfBounds)) else
      Ret (Ok (d, root, end_))
  end.

Definition Wrap (s : Schema) (b : list byte) : outcome (result View v1_error) :=
  x ← parseAndCheck b (Kind s) (Size s) (Name s);
  match x with
  | Err e => Ret (Err e)
  | Ok (d, root, end_) => v ← RawFromSlices d root end_; Ret (Ok v)
  end.

Definition WrapUnchecked (s : Schema) (b : list byte) : outcome (result View v1_error) :=
  x ← parseUnchecked b (Size s);
  match x with
  | Err e => Ret (Err e)
  | Ok (d, root, end_) => v ← RawFromSlices d root end_; Ret (Ok v)
  end.

Definition viewAt (d : list byte) (off size : Z) : outcome View :=
  let end_ := off + size in
  if (off <? 0) || (len d <? end_) then Ret View_zero else RawFromSlices d off end_.

(** The object at the root of a view; a nil buffer reads as an empty one. *)
Definition asObject (v : View) : Object := RootObjectAt (WrapBuffer (default [] (vdata v))) (rootOff v).

(** ** Fields *)

(** [ReadPayload] of a field of [n] bytes: a little-endian load behind a check. *)
Definition ReadPayload (n : Z) (p : list byte) (off : Z) : outcome Z :=
  if (off <? 0) || (len p <? off + n) then Ret 0 else
  s ← slice_from p off; le_uint n s.
Definition Read (n : Z) (v : View) (off : Z) : outcome Z := ReadPayload n (payload v) off.

(** The shared write, by the size of the value. *)
Definition writeAt (n : Z) (ob : ObjectBuilder) (b : Builder) (off val : Z) : outcome Builder :=
  if n =? 1 then SetUint8 ob b off (u8 val)
  else if n =? 2 then SetUint16 ob b off (u16 val)
  else if n =? 4 then SetUint32 ob b off (u32 val)
  else if n =? 8 then SetUint64 ob b off (u64 val)
  else Ret b.

(** ** Building *)

(** A function over a [Setter]: it has the object and changes the builder. *)
Definition Setter : Type := ObjectBuilder -> Builder -> outcome Builder.

Definition Write (n off val : Z) : Setter := fun ob b => writeAt n ob b off val.
Definition WriteString (off : Z) (v : list byte) : Setter := fun ob b => SetText ob b off v.
Definition WriteBytes (off : Z) (v : list byte) : Setter := fun ob b => SetBytes ob b off v.

Definition startBuild (size kind : Z) : outcome (Builder * ObjectBuilder) :=
  b ← NewBuilder (HeaderSize + size);
  x ← StartObject b size;
  b ← SetUint8 x.1 x.2 0 kind;
  Ret (b, x.1).

Definition finishBuild (b : Builder) (ob : ObjectBuilder) (size : Z) : outcome (View * list byte) :=
  let '(root, b) := FinishAsRoot ob b in
  x ← Builder_Finish b;
  v ← RawFromSlices x.1 root (root + size);
  Ret (v, x.1).

Definition Build (s : Schema) (init : Setter) : outcome (View * list byte) :=
  b ← NewBuilder (HeaderSize + Size s);
  x ← StartObject b (Size s);
  b ← SetUint8 x.1 x.2 0 (Kind s);
  b ← init x.1 b;
  let '(root, b) := FinishAsRoot x.1 b in
  y ← Builder_Finish b;
  v ← viewAt y.1 root (Size s);
  Ret (v, y.1).

(** The imperative form: [NewBuilderFor], the writes, [Builder.Finish]. *)
Definition NewBuilderFor (s : Schema) : outcome (Builder * ObjectBuilder) := startBuild (Size s) (Kind s).
Definition Finish (s : Schema) (b : Builder) (ob : ObjectBuilder) : outcome (View * list byte) :=
  x ← finishBuild b ob (Size s); Ret (AsView x.1, x.2).

(** ** Iterators *)

(** [iter.Seq]: a loop over a consumer with state [S] that says whether to go on. *)
Definition Seq (T : Type) : Type :=
  forall S : Type, (S -> T -> outcome (bool * S)) -> S -> outcome S.

Definition Take {T} (src : Seq T) (n : Z) : Seq T := fun S yield s =>
  if n <=? 0 then Ret s else
  x ← src (Z * S)%type (fun st v =>
        y ← yield st.2 v;
        if negb y.1 then Ret (false, (st.1, y.2)) else
        let i := st.1 + 1 in
        Ret (negb (n <=? i), (i, y.2))) (0, s);
  Ret x.2.

Definition Filter {T} (src : Seq T) (pred : T -> bool) : Seq T := fun S yield s =>
  src S (fun s v => if pred v then yield s v else Ret (true, s)) s.

Definition Map {T U} (src : Seq T) (f : T -> U) : Seq U := fun S yield s =>
  src S (fun s v => yield s (f v)) s.

Definition Count {T} (src : Seq T) : outcome Z := src Z (fun n _ => Ret (true, n + 1)) 0.
Definition Collect {T} (src : Seq T) : outcome (list T) := src (list T) (fun out v => Ret (true, out ++ [v])) [].

(** ** Inline lists *)

Record VList : Type := mkVList { l_data : option (list byte); l_offset : Z; l_length : Z }.
Definition VList_zero : VList := mkVList None 0 0.

Definition VList_Len (l : VList) : Z := l_length l.
Definition VList_IsZero (l : VList) : bool := match l_data l with None => true | Some _ => false end.

Definition At (e : Schema) (l : VList) (i : Z) : outcome View :=
  match l_data l with
  | None => Ret View_zero
  | Some d =>
      if (i <? 0) || (l_length l <=? i) then Ret View_zero else
      viewAt d (l_offset l + i * Size e) (Size e)
  end.

(** The loop [All], [Payloads] and [Indexed] share, from [i]: [item] makes what
    is yielded out of the index and the element's view. *)
Fixpoint each_elem {T} (item : Z -> View -> T) (e : Schema) (l : VList) (d : list byte) (fuel : nat) (i : Z)
  (S : Type) (yield : S -> T -> outcome (bool * S)) (s : S) : outcome S :=
  match fuel with
  | O => Ret s
  | Datatypes.S fuel =>
      let off := l_offset l + i * Size e in
      let end_ := off + Size e in
      if len d <? end_ then Ret s else
      v ← RawFromSlices d off end_;
      y ← yield s (item i v);
      if negb y.1 then Ret y.2 else each_elem item e l d fuel (i + 1) S yield y.2
  end.

Definition elems_of {T} (item : Z -> View -> T) (e : Schema) (l : VList) : Seq T := fun S yield s =>
  match l_data l with
  | None => Ret s
  | Some d => each_elem item e l d (Z.to_nat (l_length l)) 0 S yield s
  end.
Definition All (e : Schema) (l : VList) : Seq View := elems_of (fun _ v => v) e l.
Definition Payloads (e : Schema) (l : VList) : Seq (list byte) := elems_of (fun _ v => payload v) e l.
Definition Indexed (e : Schema) (l : VList) : Seq (Z * View) := elems_of (fun i v => (i, v)) e l.

Definition rawListOffset (l : List) : Z :=
  if List_Len l =? 0 then 0 else Object_Offset (List_Object l 0 1).

Definition ListAt (e : Schema) (v : View) (off : Z) : outcome VList :=
  match vdata v with
  | None => Ret VList_zero
  | Some d =>
      raw ← Object_ListStride (asObject v) off (u32 (Size e));
      if List_IsNull raw then Ret VList_zero else
      Ret (mkVList (Some d) (s32 (rawListOffset raw)) (s32 (List_Len raw)))
  end.

(** [ElemSetter]: how many elements, and where the first is. *)
Record ElemSetter : Type := mkElems { e_count : Z; e_startPos : Z }.

Definition ElemSetter_Append (e : Schema) (init : Setter) (es : ElemSetter) (b : Builder)
  : outcome (ElemSetter * Builder) :=
  x ← StartObject b (Size e);
  b ← init x.1 x.2;
  let pos := ObjectBuilder_Finish x.1 in
  Ret (mkElems (e_count es + 1) (if e_count es =? 0 then pos else e_startPos es), b).

Fixpoint append_each (e : Schema) (inits : list Setter) (es : ElemSetter) (b : Builder)
  : outcome (ElemSetter * Builder) :=
  match inits with
  | [] => Ret (es, b)
  | init :: inits => x ← ElemSetter_Append e init es b; append_each e inits x.1 x.2
  end.

(** [WriteList] with an [each] that appends one element per [init]. *)
Definition WriteList (parent e : Schema) (off : Z) (inits : list Setter) : Setter := fun ob b =>
  b ← ReserveFixed ob b (Size parent);
  x ← append_each e inits (mkElems 0 0) b;
  let '(es, b) := x in
  if e_count es =? 0 then SetList ob b off 0 0 else SetList ob b off (e_startPos es) (e_count es).

(** ** Nested objects *)

Definition NestedAt (n : Schema) (v : View) (off : Z) : outcome View :=
  match vdata v with
  | None => Ret View_zero
  | Some d =>
      nested ← Object_Object (asObject v) off;
      if Object_IsNull nested then Ret View_zero else
      let o := Object_Offset nested in
      let end_ := o + Size n in
      if (o <? 0) || (len d <? end_) then Ret View_zero else RawFromSlices d o end_
  end.

Definition WriteNested (parent n : Schema) (off : Z) (init : Setter) : Setter := fun ob b =>
  b ← ReserveFixed ob b (Size parent);
  x ← StartObject b (Size n);
  b ← init x.1 x.2;
  SetObject ob b off (ObjectBuilder_Finish x.1).

(** ** Lists of nested objects *)

Definition objPtrStride : Z := 4.

(** [end < target] can hold only when the sum wraps, which it does not here. *)
Definition ListNested_At (n : Schema) (l : VList) (i : Z) : outcome View :=
  match l_data l with
  | None => Ret View_zero
  | Some d =>
      if (i <? 0) || (l_length l <=? i) then Ret View_zero else
      let slotPos := l_offset l + i * objPtrStride in
      if (slotPos <? 0) || (len d <? slotPos + objPtrStride) then Ret View_zero else
      s ← slice_from d slotPos; raw ← le_uint 4 s;
      let rel := s32 raw in
      if rel =? 0 then Ret View_zero else
      let target := slotPos + rel in
      let end_ := target + Size n in
      if (target <? HeaderSize) || (len d <? end_) || (end_ <? target) then Ret View_zero else
      RawFromSlices d target end_
  end.

Fixpoint each_nested (n : Schema) (l : VList) (fuel : nat) (i : Z)
  (S : Type) (yield : S -> View -> outcome (bool * S)) (s : S) : outcome S :=
  match fuel with
  | O => Ret s
  | Datatypes.S fuel =>
      v ← ListNested_At n l i;
      y ← yield s v;
      if negb y.1 then Ret y.2 else each_nested n l fuel (i + 1) S yield y.2
  end.
Definition ListNested_All (n : Schema) (l : VList) : Seq View := fun S yield s =>
  match l_data l with
  | None => Ret s
  | Some _ => each_nested n l (Z.to_nat (l_length l)) 0 S yield s
  end.

Definition ListNestedAt (v : View) (off : Z) : outcome VList :=
  match vdata v with
  | None => Ret VList_zero
  | Some d =>
      raw ← Object_ListStride (asObject v) off objPtrStride;
      if List_IsNull raw then Ret VList_zero else
      Ret (mkVList (Some d) (s32 (rawListOffset raw)) (s32 (List_Len raw)))
  end.

(** [NestedElemSetter.Append] for each [init]: the positions of the objects. *)
Fixpoint nested_each (n : Schema) (inits : list Setter) (b : Builder) : outcome (list Z * Builder) :=
  match inits with
  | [] => Ret ([], b)
  | init :: inits =>
      x ← StartObject b (Size n);
      b ← init x.1 x.2;
      y ← nested_each n inits b;
      Ret (ObjectBuilder_Finish x.1 :: y.1, y.2)
  end.

Definition WriteListNested (parent n : Schema) (off : Z) (inits : list Setter) : Setter := fun ob b =>
  b ← ReserveFixed ob b (Size parent);
  x ← nested_each n inits b;
  let '(positions, b) := x in
  if len positions =? 0 then SetList ob b off 0 0 else
  y ← StartList b objPtrStride;
  z ← add_pointers y.1 y.2 positions;
  let '(listOffset, length) := ListBuilder_Finish z.1 in
  SetList ob z.2 off listOffset length.

(** ** Registry *)

(** An entry: its [Wrap] closes over these three. *)
Record Entry : Type := mkEntry { en_Kind : Z; en_Name : list byte; en_size : Z }.
Definition Registry : Type := gmap Z Entry.
Definition NewRegistry : Registry := ∅.

Definition Register (s : Schema) (r : Registry) : outcome Registry :=
  match (r : gmap Z Entry) !! Kind s with
  | Some existing =>
      if negb (bytes_eqb (en_Name existing) (Name s)) then Panic
      else Ret (<[Kind s := mkEntry (Kind s) (Name s) (Size s)]> (r : gmap Z Entry))
  | None => Ret (<[Kind s := mkEntry (Kind s) (Name s) (Size s)]> (r : gmap Z Entry))
  end.

Definition Entry_Wrap (en : Entry) (b : list byte) : outcome (result (list byte * Z) v1_error) :=
  h ← ParseHeader b;
  match h with
  | Err e => Ret (Err (ZapError e))
  | Ok (d, root) =>
      if (root <? 0) || (len d <=? root) then Ret (Err (ZapError ErrOutOfBounds)) else
      got ← index d root;
      if negb (byte.unsigned got =? en_Kind en)
      then Ret (Err (SchemaError (en_Kind en) (byte.unsigned got) (en_Name en))) else
      if len d <? root + en_size en then Ret (Err (ZapError ErrOutOfBounds)) else
      Ret (Ok (d, root))
  end.

Definition Lookup (r : Registry) (kind : Z) : option Entry := (r : gmap Z Entry) !! kind.
Definition Entries (r : Registry) : list Entry := (map_to_list (r : gmap Z Entry)).*2.

Definition PeekKind (b : list byte) : outcome (result Z v1_error) :=
  h ← ParseHeader b;
  match h with
  | Err e => Ret (Err (ZapError e))
  | Ok (d, root) =>
      if (root <? 0) || (len d <=? root) then Ret (Err (ZapError ErrOutOfBounds)) else
      got ← index d root; Ret (Ok (byte.unsigned got))
  end.

Definition WrapAs (s : Schema) (b : list byte) : outcome (result View v1_error) := Wrap s b.

(** ** Pool *)

(** [Pool.Get]: a kept value, if the pool hands one out, or a new one. *)
Definition Pool_Get {T} (new : T) (pick : option nat) (p : list T) : T * list T :=
  match (i ← pick; v ← p !! i; Some (v, delete i p)) with
  | Some x => x
  | None => (new, p)
  end.
Definition Pool_Put {T} (t : option T) (p : list T) : list T :=
  match t with None => p | Some t => t :: p end.

(** ** Wrapping *)

Lemma ParseHeader_cases b :
  (exists e, ParseHeader b = Ret (Err e))
  \/ exists d root, ParseHeader b = Ret (Ok (d, root)) /\ HeaderSize <= len d <= len b
       /\ 0 <= root < 2 ^ 32 /\ d = sub b 0 (len d)
       /\ Parse b = Ret (Ok (WrapBuffer d)) /\ Message_Root (WrapBuffer d) = Ret (obj d root).
Proof.
  rewrite ParseHeader_mirrors_Parse; destruct (Parse b) as [[m|e]|] eqn:Hp; cbn [mbind outcome_bind].
  - right; pose proof (Parse_Ok_inv _ _ Hp) as (Hs & _ & _ & ->); pose proof (Parse_Ok_data _ _ Hp) as Hl.
    cbn [data] in Hl; unfold Message_Root; cbn [data]; unfold HeaderSize in *; set (d := sub b 0 _) in *.
    rewrite slice_ok by lia; cbn [mbind outcome_bind]; rewrite le_uint_sub by lia; cbn [mbind outcome_bind].
    exists d, (rd 4 d 8); split; [done|split; [lia|]]; split; [apply (rd_range 4); lia|].
    split; [unfold d; rewrite len_sub by lia; done|split; [done|]]; cbn [data WrapBuffer].
    rewrite slice_ok by lia; cbn [mbind outcome_bind]; rewrite le_uint_sub by lia; done.
  - left; eauto.
  - rewrite Parse_eq in Hp; discriminate.
Qed.

Lemma index_rd d p : 0 <= p < len d -> exists x, index d p = Ret x /\ byte.unsigned x = rd 1 d p.
Proof.
  intros Hp; destruct (index_ok d p) as (x & Hx & Hl); [lia|]; exists x; split; [done|].
  unfold rd, sub; rewrite (drop_S _ _ _ Hl); simpl; rewrite le_combine_1; done.
Qed.

(** The buffer holds an object of the schema at its root. *)
Definition wraps (s : Schema) (b d : list byte) (root : Z) : Prop :=
  ParseHeader b = Ret (Ok (d, root)) /\ root + Size s <= len d /\ rd 1 d root = Kind s.

Definition view_of (d : list byte) (root size : Z) : View := mkView (Some d) (sub d root size) (s32 root).

Lemma RawFromSlices_ok d root size :
  0 <= root -> 0 <= size -> root + size <= len d -> RawFromSlices d root (root + size) = Ret (view_of d root size).
Proof.
  intros; unfold RawFromSlices; rewrite slice_ok by lia; cbn [mbind outcome_bind]; unfold view_of.
  by replace (root + size - root) with size by lia.
Qed.

Lemma Wrap_total s b :
  1 <= Size s ->
  (exists e, Wrap s b = Ret (Err e) /\ forall d root, ~ wraps s b d root)
  \/ exists d root, wraps s b d root /\ 0 <= root /\ Wrap s b = Ret (Ok (view_of d root (Size s))).
Proof.
  intros Hs; unfold Wrap, parseAndCheck, wraps.
  destruct (ParseHeader_cases b) as [[e ->]|(d & root & -> & Hl & Hr & _)]; cbn [mbind outcome_bind].
  { left; eexists; split; [done|]; intros d root (? & _); discriminate. }
  case_if.
  { left; eexists; split; [done|]; intros d' root' (Hd & Hb & _); injection Hd as <- <-; lia. }
  destruct (index_rd d root) as (x & -> & Hx); [lia|]; cbn [mbind outcome_bind]; rewrite Hx.
  destruct (Z.eqb_spec (rd 1 d root) (Kind s)) as [Hk|Hk]; cbn [negb mbind outcome_bind].
  2: { left; eexists; split; [done|]; intros d' root' (Hd & _ & Hk'); injection Hd as <- <-; done. }
  case_if; cbn [mbind outcome_bind].
  { left; eexists; split; [done|]; intros d' root' (Hd & Hb & _); injection Hd as <- <-; lia. }
  right; exists d, root; rewrite RawFromSlices_ok by lia; done.
Qed.

(** The raw wrap, the generic one and the registry's accept the same buffers
    and give the same view: those whose frame is valid, whose root object has
    the schema's size inside the frame, and whose kind byte is the schema's.
    None panics. They may refuse with different errors. *)
Theorem v1_wrap_equiv s b :
  1 <= Size s ->
  let raw := WrapRaw b (Kind s) (Size s) (Name s) in
  let entry := Entry_Wrap (mkEntry (Kind s) (Name s) (Size s)) b in
  is_ret (Wrap s b) /\ is_ret raw /\ is_ret entry
  /\ (forall v, Wrap s b = Ret (Ok v) <-> exists d root, wraps s b d root /\ v = view_of d root (Size s))
  /\ (forall v, raw = Ret (Ok v) <-> Wrap s b = Ret (Ok v))
  /\ (forall d root, entry = Ret (Ok (d, root)) <-> wraps s b d root).
Proof.
  intros Hs raw entry.
  assert (Hraw : match Wrap s b with Ret (Ok v) => raw = Ret (Ok v) | _ => exists e, raw = Ret (Err e) end
    /\ match Wrap s b with Ret (Ok v) => exists d root, wraps s b d root /\ entry = Ret (Ok (d, root)) /\ v = view_of d root (Size s)
       | _ => exists e, entry = Ret (Err e) end).
  { unfold raw, entry, WrapRaw, Entry_Wrap, Wrap, parseAndCheck, wraps; cbn [en_Kind en_size en_Name].
    destruct (ParseHeader_cases b) as [[e ->]|(d & root & -> & Hl & Hr & _)]; cbn [mbind outcome_bind]; [eauto|].
    destruct (Z.leb_spec (len d) root) as [Hroot|Hroot].
    { rewrite orb_true_r; cbn [mbind outcome_bind]; guard_true; eauto. }
    replace (root <? 0) with false by lia; cbn [orb].
    destruct (index_rd d root) as (x & -> & Hx); [lia|]; cbn [mbind outcome_bind]; rewrite Hx.
    destruct (Z.eqb_spec (rd 1 d root) (Kind s)) as [Hk|Hk]; cbn [negb mbind outcome_bind]; [|case_if; eauto].
    destruct (Z.ltb_spec (len d) (root + Size s)); cbn [mbind outcome_bind]; [eauto|].
    rewrite RawFromSlices_ok by lia; cbn [mbind outcome_bind]; eauto 10. }
  destruct Hraw as [Hraw Hentry].
  destruct (Wrap_total s b Hs) as [(e & He & Hno)|(d & root & Hw & Hr & He)]; rewrite He in *.
  - destruct Hraw as [e1 ->], Hentry as [e2 ->]; unfold is_ret.
    split; [eauto|split; [eauto|split; [eauto|split; [|split]]]].
    + intros v; split; [discriminate|]; intros (d & root & Hw & _); by destruct (Hno d root).
    + done.
    + intros d root; split; [discriminate|]; intros Hw; by destruct (Hno d root).
  - destruct Hentry as (d' & root' & Hw' & -> & Hv); rewrite Hraw; unfold is_ret.
    split; [eauto|split; [eauto|split; [eauto|split; [|split]]]].
    + intros v; split; [intros [= <-]; eauto|].
      intros (d1 & r1 & (Hp & _) & ->); destruct Hw as (Hp' & _); rewrite Hp in Hp'; by injection Hp' as -> ->.
    + done.
    + intros d1 r1; split; [by intros [= <- <-]|]; intros (Hp & _); destruct Hw' as (Hp' & _).
      rewrite Hp in Hp'; by injection Hp' as -> ->.
Qed.

(** With a schema of no bytes the raw wrap has no byte to compare: on a buffer
    whose root is its end it panics, where [Wrap] reports an error. *)
Theorem wrapraw_empty_schema_panics :
  let b := Magic ++ le_bytes 2 Version2 ++ le_bytes 2 0 ++ le_bytes 4 16 ++ le_bytes 4 16 in
  WrapRaw b 0 0 [] = Panic /\ Wrap (mkSchema 0 0 []) b = Ret (Err (ZapError ErrOutOfBounds)).
Proof. vm_compute; split; reflexivity. Qed.

(** ** Iterators are lists *)

(** Feeding a list to a consumer until it has enough. *)
Fixpoint feed {T S} (yield : S -> T -> outcome (bool * S)) (l : list T) (s : S) : outcome S :=
  match l with
  | [] => Ret s
  | x :: l => y ← yield s x; if negb y.1 then Ret y.2 else feed yield l y.2
  end.
Definition yields {T} (src : Seq T) (l : list T) : Prop := forall S yield s, src S yield s = feed yield l s.

Lemma feed_bind {T S R} (yield : S -> T -> outcome (bool * S)) l s (k : S -> outcome R) :
  (x ← feed yield l s; k x)
  = match l with
    | [] => k s
    | a :: l => y ← yield s a; if negb y.1 then k y.2 else (x ← feed yield l y.2; k x)
    end.
Proof. destruct l as [|a l]; cbn [feed]; [done|]; destruct (yield s a) as [[[] s']|]; done. Qed.

Lemma Take_yields {T} (src : Seq T) l n : yields src l -> yields (Take src n) (take (Z.to_nat n) l).
Proof.
  intros Hsrc S yield s; unfold Take; destruct (Z.leb_spec n 0) as [Hn|Hn].
  { by replace (Z.to_nat n) with O by lia. }
  rewrite Hsrc; clear Hsrc src; assert (Hi : 0 <= 0 < n) by lia.
  replace (Z.to_nat n) with (Z.to_nat (n - 0)) by lia; revert s Hi; generalize 0 as i.
  induction l as [|a l IH]; intros i s Hi; [by rewrite take_nil|]; rewrite feed_bind; cbn [snd fst].
  replace (Z.to_nat (n - i)) with (Datatypes.S (Z.to_nat (n - (i + 1)))) by lia; cbn [take feed].
  destruct (yield s a) as [[[] s']|]; cbn [mbind outcome_bind negb fst snd]; [|done..].
  destruct (Z.leb_spec n (i + 1)); cbn [negb].
  - by replace (Z.to_nat (n - (i + 1))) with O by lia; rewrite take_0.
  - apply IH; lia.
Qed.

Lemma Filter_yields {T} (src : Seq T) l pred : yields src l -> yields (Filter src pred) (List.filter pred l).
Proof.
  intros Hsrc S yield s; unfold Filter; rewrite Hsrc; clear; revert s; induction l as [|a l IH]; intros s; [done|].
  cbn [feed List.filter]; destruct (pred a); cbn [feed mbind outcome_bind negb fst snd]; [|apply IH].
  destruct (yield s a) as [[[] s']|]; cbn; [apply IH|done..].
Qed.

Lemma Map_yields {T U} (src : Seq T) l (f : T -> U) : yields src l -> yields (Map src f) (f <$> l).
Proof.
  intros Hsrc S yield s; unfold Map; rewrite Hsrc; clear; revert s; induction l as [|a l IH]; intros s; [done|].
  cbn; destruct (yield s (f a)) as [[[] s']|]; cbn; [apply IH|done..].
Qed.

Lemma Count_yields {T} (src : Seq T) l : yields src l -> Count src = Ret (len l).
Proof.
  intros Hsrc; unfold Count; rewrite Hsrc; clear; rewrite <- (Z.add_0_l (len l)); generalize 0 as n.
  induction l as [|a l IH]; intros n; cbn; [by rewrite len_nil, Z.add_0_r|].
  rewrite IH, len_cons; f_equal; lia.
Qed.

Lemma Collect_yields {T} (src : Seq T) l : yields src l -> Collect src = Ret l.
Proof.
  intros Hsrc; unfold Collect; rewrite Hsrc; clear.
  assert (H : forall out, feed (fun out v => Ret (true, out ++ [v])) l out = Ret (out ++ l)); [|apply (H [])].
  induction l as [|a l IH]; intros out; cbn; [by rewrite app_nil_r|]; by rewrite IH, <- app_assoc.
Qed.

(** The combinators are the list functions they are named after, for every
    consumer, also one that stops early or panics. *)
Theorem v1_iterators_are_lists {T U} (src : Seq T) l n pred (f : T -> U) :
  yields src l ->
  yields (Take src n) (take (Z.to_nat n) l) /\ yields (Filter src pred) (List.filter pred l)
  /\ yields (Map src f) (f <$> l) /\ Count src = Ret (len l) /\ Collect src = Ret l.
Proof. auto 10 using Take_yields, Filter_yields, Map_yields, Count_yields, Collect_yields. Qed.

(** ** Views a reader can reach *)

Lemma s32_small z : - 2 ^ 31 <= z < 2 ^ 31 -> s32 z = z.
Proof. intros; unfold s32, swrap; rewrite Z.mod_small; lia. Qed.

Lemma asObject_view d root size : 0 <= root < 2 ^ 31 -> asObject (view_of d root size) = obj d root.
Proof. intros; unfold asObject, view_of; cbn; by rewrite s32_small by lia. Qed.

Lemma ReadPayload_eq n p off :
  0 <= n -> ReadPayload n p off = Ret (if (off <? 0) || (len p <? off + n) then 0 else rd n p off).
Proof.
  intros Hn; unfold ReadPayload, rd; case_if; [done|]; unfold slice_from; rewrite slice_ok by lia.
  cbn [mbind outcome_bind]; rewrite le_uint_sub by lia; done.
Qed.

Lemma Read_view d root size n off :
  0 <= n -> 0 <= root -> 0 <= size -> root + size <= len d ->
  Read n (view_of d root size) off
  = Ret (if (off <? 0) || (size <? off + n) then 0 else rd n d (root + off)).
Proof.
  intros; unfold Read; rewrite ReadPayload_eq by done; cbn [payload view_of]; rewrite len_sub by lia.
  case_if; [done|]; unfold rd; rewrite sub_sub by lia; done.
Qed.

(** A view of the buffer [b], for an object of [size] bytes. *)
Definition view_ok (b : list byte) (size : Z) (v : View) : Prop :=
  v = View_zero
  \/ exists d root, v = view_of d root size /\ 0 <= root /\ root + size <= len d /\ d = sub b 0 (len d).

Definition list_ok (b : list byte) (stride : Z) (l : VList) : Prop :=
  l = VList_zero
  \/ exists d p k, l = mkVList (Some d) p k /\ 0 <= p /\ 0 <= k < 2 ^ 31 /\ p + k * stride <= len d
       /\ (0 < k -> HeaderSize <= p) /\ d = sub b 0 (len d).

Lemma prefix_len (b d : list byte) : d = sub b 0 (len d) -> len d <= len b.
Proof.
  intros Hd; apply (f_equal len) in Hd; unfold sub, len in *; rewrite length_take, length_drop in Hd; lia.
Qed.

Lemma viewAt_ok b d off size :
  0 <= size -> d = sub b 0 (len d) -> gives (viewAt d off size) (view_ok b size).
Proof.
  intros Hs Hd; unfold viewAt; case_if; [apply gives_ret; by left|]; rewrite RawFromSlices_ok by lia.
  apply gives_ret; right; exists d, off; split_and!; try done; lia.
Qed.

(** The list pointer both list readers follow. *)
Lemma list_pointer b d root off stride :
  len b < 2 ^ 31 -> d = sub b 0 (len d) -> 0 <= root < len d -> 0 <= off -> 0 <= stride < 2 ^ 32 ->
  gives (raw ← Object_ListStride (obj d root) off stride;
         if List_IsNull raw then Ret VList_zero else
         Ret (mkVList (Some d) (s32 (rawListOffset raw)) (s32 (List_Len raw)))) (list_ok b stride).
Proof.
  intros Hb Hd Hr Ho Hs; pose proof (prefix_len _ _ Hd) as Hl.
  rewrite (Object_ListStride_eq (obj d root) (WrapBuffer d) off eq_refl) by (cbn; lia); cbv zeta.
  cbn [data WrapBuffer offset obj mbind outcome_bind]; set (p := root + off); set (k := rd 4 d (p + 4)).
  pose proof (rd_range 4 d (p + 4) ltac:(lia)) as Hk; fold k in Hk; set (abs := p + s32 (rd 4 d p)).
  destruct ((len d <? p + 8) || _ || _ || _ || _) eqn:E; [apply gives_ret; by left|]; bool_to_prop; unfold HeaderSize in *.
  cbn [List_IsNull lmsg List_Len llength]; apply gives_ret; right; unfold rawListOffset, List_Len, List_Object, out_of_list.
  cbn [llength]; assert (Hkd : k <= len d /\ abs + k * stride <= len d).
  { destruct (Z.ltb_spec 0 stride); [nia|]; assert (stride = 0) as -> by lia; lia. }
  destruct (Z.eqb_spec k 0) as [->|Hne].
  - exists d, 0, 0; rewrite !s32_small by lia; split_and!; try done; lia.
  - replace ((0 <? 0) || (k <=? 0)) with false by lia; cbn [Object_Offset offset loffset].
    exists d, abs, k; rewrite !s32_small by lia; split_and!; try done; try lia.
    by rewrite Z.mul_0_l, Z.add_0_r.
Qed.

Lemma ListAt_ok b e s v off :
  len b < 2 ^ 31 -> view_ok b s v -> 1 <= s -> 0 <= off -> 0 <= Size e < 2 ^ 32 ->
  gives (ListAt e v off) (list_ok b (Size e)).
Proof.
  intros Hb [->|(d & root & -> & Hr & Hl & Hd)] Hs Ho He; [apply gives_ret; by left|].
  pose proof (prefix_len _ _ Hd); unfold ListAt; cbn [vdata view_of]; fold (view_of d root s).
  rewrite asObject_view by lia; unfold u32; rewrite Z.mod_small by lia; apply list_pointer; try done; lia.
Qed.

Lemma ListNestedAt_ok b s v off :
  len b < 2 ^ 31 -> view_ok b s v -> 1 <= s -> 0 <= off -> gives (ListNestedAt v off) (list_ok b objPtrStride).
Proof.
  intros Hb [->|(d & root & -> & Hr & Hl & Hd)] Hs Ho; [apply gives_ret; by left|].
  pose proof (prefix_len _ _ Hd); unfold ListNestedAt; cbn [vdata view_of]; fold (view_of d root s).
  rewrite asObject_view by lia; apply list_pointer; unfold objPtrStride; try done; lia.
Qed.

Lemma At_ok b e l i : list_ok b (Size e) l -> 0 <= Size e -> gives (At e l i) (view_ok b (Size e)).
Proof.
  intros [->|(d & p & k & -> & Hp & Hk & Hl & _ & Hd)] He; unfold At; cbn [l_data l_length l_offset].
  - apply gives_ret; by left.
  - case_if; [apply gives_ret; by left|by apply viewAt_ok].
Qed.

Lemma NestedAt_ok b n s v off :
  len b < 2 ^ 31 -> view_ok b s v -> 1 <= s -> 0 <= off -> 0 <= Size n ->
  gives (NestedAt n v off) (view_ok b (Size n)).
Proof.
  intros Hb [->|(d & root & -> & Hr & Hl & Hd)] Hs Ho Hn; [apply gives_ret; by left|].
  pose proof (prefix_len _ _ Hd); unfold NestedAt; cbn [vdata view_of]; fold (view_of d root s).
  rewrite asObject_view by lia; rewrite (Object_Object_eq (obj d root) (WrapBuffer d) off eq_refl) by (cbn; lia).
  cbv zeta; cbn [mbind outcome_bind].
  match goal with |- context [if ?c then Object_zero else _] => destruct c eqn:E end; [apply gives_ret; by left|].
  bool_to_prop; cbn [data WrapBuffer offset obj] in *; unfold HeaderSize in *.
  match goal with |- context [mkObject _ ?a] => set (abs := a) end; cbn [Object_IsNull offset Object_Offset].
  case_if; [apply gives_ret; by left|]; case_if; [apply gives_ret; by left|].
  rewrite RawFromSlices_ok by lia; apply gives_ret; right; exists d, abs; split_and!; try done; lia.
Qed.

Lemma ListNested_At_ok b n l i :
  list_ok b objPtrStride l -> 0 <= Size n -> gives (ListNested_At n l i) (view_ok b (Size n)).
Proof.
  intros [->|(d & p & k & -> & Hp & Hk & Hl & _ & Hd)] Hn; unfold ListNested_At; cbn [l_data l_length l_offset].
  { apply gives_ret; by left. }
  case_if; [apply gives_ret; by left|]; case_if; [apply gives_ret; by left|]; unfold objPtrStride in *.
  unfold slice_from; rewrite slice_ok by lia; cbn [mbind outcome_bind]; rewrite le_uint_sub by lia; cbn [mbind outcome_bind].
  case_if; [apply gives_ret; by left|]; unfold HeaderSize; case_if; [apply gives_ret; by left|].
  rewrite RawFromSlices_ok by lia; apply gives_ret; right; eexists d, _; split_and!; try done; lia.
Qed.

(** A view obtained from the buffer by wrapping it and then following nested
    objects and list elements, at any offsets and for any schemas. *)
Inductive v1_reach (b : list byte) : Z -> View -> Prop :=
| vr_wrap s v : 1 <= Size s -> Wrap s b = Ret (Ok v) -> v1_reach b (Size s) v
| vr_nested s v n off v' :
    v1_reach b s v -> 0 <= off -> 1 <= Size n < 2 ^ 32 -> NestedAt n v off = Ret v' -> v1_reach b (Size n) v'
| vr_elem s v e off l i v' :
    v1_reach b s v -> 0 <= off -> 1 <= Size e < 2 ^ 32 -> ListAt e v off = Ret l -> At e l i = Ret v' ->
    v1_reach b (Size e) v'
| vr_nested_elem s v n off l i v' :
    v1_reach b s v -> 0 <= off -> 1 <= Size n < 2 ^ 32 -> ListNestedAt v off = Ret l -> ListNested_At n l i = Ret v' ->
    v1_reach b (Size n) v'.

Lemma gives_inv {A} (x : outcome A) P a : gives x P -> x = Ret a -> P a.
Proof. intros (a' & -> & H) [= <-]; done. Qed.

Lemma v1_reach_ok b s v : len b < 2 ^ 31 -> v1_reach b s v -> 1 <= s /\ view_ok b s v.
Proof.
  intros Hb; induction 1 as [s v Hs Hw|s v n off v' _ [Hs IH] Ho Hn Hv|s v e off l i v' _ [Hs IH] Ho He Hl Hv
    |s v n off l i v' _ [Hs IH] Ho Hn Hl Hv]; (split; [lia|]).
  - destruct (Wrap_total s b Hs) as [(e & He & _)|(d & root & (Hp & Hl & _) & Hr & He)]; rewrite Hw in He; [discriminate|].
    injection He as ->; right; exists d, root; destruct (ParseHeader_cases b) as [[e Hp']|(d' & r' & Hp' & _ & _ & Hd & _)];
      rewrite Hp in Hp'; [discriminate|]; injection Hp' as <- <-; done.
  - eapply gives_inv; [|exact Hv]; eapply NestedAt_ok; try done; lia.
  - eapply gives_inv; [|exact Hv]; apply At_ok; [|lia].
    eapply gives_inv; [|exact Hl]; eapply ListAt_ok; try done; lia.
  - eapply gives_inv; [|exact Hv]; apply ListNested_At_ok; [|lia].
    eapply gives_inv; [|exact Hl]; eapply ListNestedAt_ok; try done; lia.
Qed.

Lemma gives_is_ret {A} (x : outcome A) P : gives x P -> is_ret x.
Proof. intros (a & -> & _); eexists; done. Qed.


(** A typed read is the untyped one: wrapping a buffer and reading a field that
    lies inside the schema is parsing it and reading that offset of its root
    object. A field that does not fit reads as zero. *)
Theorem v1_reads_equiv s b v :
  1 <= Size s -> len b < 2 ^ 31 -> Wrap s b = Ret (Ok v) ->
  exists m o, Parse b = Ret (Ok m) /\ Message_Root m = Ret o
    /\ forall n off, n = 1 \/ n = 2 \/ n = 4 \/ n = 8 -> 0 <= off ->
         Read n v off = if Size s <? off + n then Ret 0 else read_uint n o off.
Proof.
  intros Hs Hb Hw; destruct (Wrap_total s b Hs) as [(e & He & _)|(d & root & (Hp & Hl & _) & Hr & He)];
    rewrite Hw in He; [discriminate|]; injection He as ->.
  destruct (ParseHeader_cases b) as [[e Hp']|(d' & r' & Hp' & _ & _ & Hd & Hparse & Hroot)];
    rewrite Hp in Hp'; [discriminate|]; injection Hp' as <- <-.
  exists (WrapBuffer d), (obj d root); split; [done|split; [done|]]; intros n off Hn Ho.
  rewrite Read_view by lia; replace (off <? 0) with false by lia; cbn [orb]; case_if; [done|].
  unfold read_uint, Object_Uint16, Object_Uint32, Object_Uint64.
  destruct Hn as [-> | [-> | [-> | ->]]]; simpl Z.eqb; cbv iota;
    first [rewrite (Object_Uint8_eq (obj d root) (WrapBuffer d) off eq_refl) by (cbn; lia)
          |rewrite (Object_UintN_eq (obj d root) (WrapBuffer d) off eq_refl) by (cbn; lia)];
    cbn [data WrapBuffer offset obj]; guard_false; done.
Qed.

(** *** Lists *)

Definition elem_views (d : list byte) (p size : Z) (from k : nat) : list View :=
  (fun i => view_of d (p + Z.of_nat i * size) size) <$> seq from k.

Lemma each_elem_feed {T} (item : Z -> View -> T) e p kk d fuel : forall from S yield (s : S),
  1 <= Size e -> 0 <= p -> p + Z.of_nat (from + fuel) * Size e <= len d ->
  each_elem item e (mkVList (Some d) p kk) d fuel (Z.of_nat from) S yield s
  = feed yield (zip_with item (Z.of_nat <$> seq from fuel) (elem_views d p (Size e) from fuel)) s.
Proof.
  induction fuel as [|fuel IH]; intros from S yield s He Hp Hl; [done|]; cbn [each_elem l_offset].
  unfold elem_views; cbn [seq fmap list_fmap zip_with feed]; guard_false.
  rewrite RawFromSlices_ok by nia; cbn [mbind outcome_bind].
  destruct (yield s _) as [[[] s']|]; cbn [negb fst snd]; [|done..].
  replace (Z.of_nat from + 1) with (Z.of_nat (Datatypes.S from)) by lia; apply IH; nia.
Qed.

Lemma elems_of_yields {T} (item : Z -> View -> T) e d p k :
  1 <= Size e -> 0 <= p -> 0 <= k -> p + k * Size e <= len d ->
  yields (elems_of item e (mkVList (Some d) p k))
    (zip_with item (Z.of_nat <$> seq 0 (Z.to_nat k)) (elem_views d p (Size e) 0 (Z.to_nat k))).
Proof.
  intros He Hp Hk Hl S yield s; unfold elems_of; cbn [l_data l_length].
  apply (each_elem_feed item e p k d (Z.to_nat k) 0); nia.
Qed.

Lemma zip_with_second {A B} (l : list A) (k : list B) : length l = length k -> zip_with (fun _ y => y) l k = k.
Proof. revert k; induction l; intros [|] H; cbn in *; try done; f_equal; auto. Qed.
Lemma zip_with_payload {A} (l : list A) (k : list View) :
  length l = length k -> zip_with (fun _ y => payload y) l k = payload <$> k.
Proof. revert k; induction l; intros [|] H; cbn in *; try done; f_equal; auto. Qed.

(** Indexing and iterating a list agree. A list read from any reachable view has
    as many elements as its length says, each inside the buffer and never the
    zero view; [At] gives the element at each index and the zero view outside;
    [All], [Payloads] and [Indexed] yield exactly these, in order. *)
Theorem v1_list_iteration b s v e off l :
  len b < 2 ^ 31 -> v1_reach b s v -> 0 <= off -> 1 <= Size e < 2 ^ 32 -> ListAt e v off = Ret l ->
  exists vs, len vs = VList_Len l
    /\ (forall (i : nat) x, vs !! i = Some x ->
          At e l (Z.of_nat i) = Ret x /\ IsZero x = false /\ len (payload x) = Size e)
    /\ (forall i, i < 0 \/ VList_Len l <= i -> At e l i = Ret View_zero)
    /\ yields (All e l) vs /\ yields (Payloads e l) (payload <$> vs)
    /\ yields (Indexed e l) (zip_with pair (Z.of_nat <$> seq 0 (length vs)) vs).
Proof.
  intros Hb Hreach Ho He Hl; destruct (v1_reach_ok b s v Hb Hreach) as [Hs Hok].
  pose proof (gives_inv _ _ _ (ListAt_ok b e s v off Hb Hok Hs Ho ltac:(lia)) Hl) as Hlok.
  destruct Hlok as [->|(d & p & k & -> & Hp & Hk & Hlen & _ & Hd)].
  { exists []; split; [done|split; [done|split; [done|]]]; split; [|split]; intros S yield s'; done. }
  assert (Hn : length (elem_views d p (Size e) 0 (Z.to_nat k)) = Z.to_nat k).
  { unfold elem_views; by rewrite length_fmap, length_seq. }
  assert (Hi : length (Z.of_nat <$> seq 0 (Z.to_nat k)) = Z.to_nat k) by (by rewrite length_fmap, length_seq).
  pose proof (prefix_len _ _ Hd); exists (elem_views d p (Size e) 0 (Z.to_nat k)).
  split; [unfold len; rewrite Hn; cbn [VList_Len l_length]; lia|split; [|split]].
  - intros i x Hx; unfold elem_views in Hx; apply list_lookup_fmap_Some in Hx as (j & -> & Hj).
    apply lookup_seq in Hj as [-> Hlt]; cbn [Nat.add]; unfold At; cbn [l_data l_length l_offset].
    replace ((Z.of_nat i <? 0) || (k <=? Z.of_nat i)) with false by lia; unfold viewAt.
    assert (p + Z.of_nat i * Size e + Size e <= len d) by nia; guard_false; rewrite RawFromSlices_ok by nia.
    split; [done|split; [done|]]; cbn [payload view_of]; apply len_sub; nia.
  - intros i Hio; unfold At; cbn [l_data l_length VList_Len] in *; by replace ((i <? 0) || (k <=? i)) with true by lia.
  - split; [|split]; intros S yield s'.
    + unfold All; rewrite elems_of_yields by nia; by rewrite zip_with_second by congruence.
    + unfold Payloads; rewrite elems_of_yields by nia; by rewrite zip_with_payload by congruence.
    + unfold Indexed; rewrite elems_of_yields by nia; by rewrite Hn.
Qed.

(** *** Registry *)

Fixpoint register_all (ss : list Schema) (r : Registry) : outcome Registry :=
  match ss with [] => Ret r | s :: ss => r ← Register s r; register_all ss r end.

(** Every entry is the one of a registered schema, under its kind. *)
Definition registry_ok (ss : list Schema) (r : gmap Z Entry) : Prop :=
  (forall k en, r !! k = Some en -> exists s, s ∈ ss /\ Kind s = k /\ en = mkEntry k (Name s) (Size s))
  /\ forall s, s ∈ ss -> exists en, r !! Kind s = Some en /\ en_Name en = Name s.

Lemma registry_Register_ok ss r s r' : registry_ok ss r -> Register s r = Ret r' -> registry_ok (ss ++ [s]) r'.
Proof.
  intros [Hent Hreg] H.
  assert (Hname : (forall en, r !! Kind s = Some en -> en_Name en = Name s)
    /\ r' = <[Kind s := mkEntry (Kind s) (Name s) (Size s)]> r).
  { unfold Register in H; destruct (r !! Kind s) as [en|]; [|injection H as <-; done].
    destruct (bytes_eqb (en_Name en) (Name s)) eqn:E; [|discriminate]; injection H as <-.
    apply bool_decide_eq_true in E; split; [by intros ? [= <-]|done]. }
  destruct Hname as [Hname ->]; split.
  - intros k en Hk; apply lookup_insert_Some in Hk as [[<- <-]|[_ Hk]].
    + exists s; split; [apply elem_of_app; right; by apply list_elem_of_singleton|done].
    + destruct (Hent k en Hk) as (x & Hx & ? & ?); exists x; split; [apply elem_of_app; by left|done].
  - intros x Hx; apply elem_of_app in Hx as [Hx|Hx].
    2: { apply list_elem_of_singleton in Hx as ->; eexists; rewrite lookup_insert_eq; done. }
    destruct (Hreg x Hx) as (en & Hen & Hn); destruct (decide (Kind x = Kind s)) as [Heq|Hne].
    + eexists; rewrite Heq, lookup_insert_eq; split; [done|]; cbn; rewrite <- Hn; symmetry; apply Hname; by rewrite <- Heq.
    + exists en; by rewrite lookup_insert_ne.
Qed.

Lemma register_all_ok ss : forall pre r0 r,
  registry_ok pre r0 -> register_all ss r0 = Ret r -> registry_ok (pre ++ ss) r.
Proof.
  induction ss as [|s ss IH]; intros pre r0 r Hr0 Hr; cbn [register_all] in Hr.
  { injection Hr as <-; by rewrite app_nil_r. }
  destruct (Register s r0) as [r1|] eqn:E; [|discriminate]; cbn [mbind outcome_bind] in Hr.
  change (s :: ss) with ([s] ++ ss); rewrite app_assoc; apply (IH (pre ++ [s]) r1); [by eapply registry_Register_ok|done].
Qed.

(** Dispatch by kind. Once a set of schemas is registered, no two of them share
    a kind under different names; the entry found under the kind byte of a
    buffer never reports a kind mismatch on it, and it is the entry of one of
    the schemas. *)
Theorem registry_dispatch ss r :
  register_all ss NewRegistry = Ret r ->
  (forall s t, s ∈ ss -> t ∈ ss -> Kind s = Kind t -> Name s = Name t)
  /\ (forall s, s ∈ ss -> is_Some (Lookup r (Kind s)))
  /\ forall b k en, PeekKind b = Ret (Ok k) -> Lookup r k = Some en ->
       (exists s, s ∈ ss /\ en = mkEntry (Kind s) (Name s) (Size s) /\ Kind s = k)
       /\ exists d root, ParseHeader b = Ret (Ok (d, root)) /\ Entry_Wrap en b
            = Ret (if len d <? root + en_size en then Err (ZapError ErrOutOfBounds) else Ok (d, root)).
Proof.
  intros H; assert (Hok : registry_ok ss r).
  { apply (register_all_ok ss [] ∅ r); [|exact H]; split.
    - intros k en Hk; by rewrite lookup_empty in Hk.
    - intros s Hs; by apply not_elem_of_nil in Hs. }
  destruct Hok as [Hent Hreg]; split; [|split].
  - intros s t Hs Ht Hk; destruct (Hreg s Hs) as (en & He & Hn); destruct (Hreg t Ht) as (en' & He' & Hn').
    rewrite Hk, He' in He; injection He as <-; congruence.
  - intros s Hs; destruct (Hreg s Hs) as (en & He & _); unfold Lookup; rewrite He; eauto.
  - intros b k en Hpk Hen; destruct (Hent k en Hen) as (s & Hs & Hk & ->); split; [exists s; by rewrite Hk|].
    unfold PeekKind in Hpk; unfold Entry_Wrap; cbn [en_Kind en_size en_Name].
    destruct (ParseHeader_cases b) as [[e Hp]|(d & root & Hp & _)]; rewrite Hp in *; [discriminate|].
    cbn [mbind outcome_bind] in *; exists d, root; split; [done|].
    destruct (_ || _); [discriminate|]; destruct (index d root) as [x|]; cbn [mbind outcome_bind] in *; [|discriminate].
    injection Hpk as ->; rewrite Z.eqb_refl; cbn [negb]; by destruct (_ <? _).
Qed.

(** ** Samples *)

(** The batch of [v1/examples]: a kind byte, an id and a list of 16-byte items. *)
Definition BatchSchema : Schema := mkSchema 0x20 17 (String.list_byte_of_string "BatchTx"%string).
Definition ItemSchema : Schema := mkSchema 0x21 16 (String.list_byte_of_string "BatchItem"%string).
Definition item (id value : Z) : Setter := fun ob b => b ← Write 8 0 id ob b; Write 8 8 value ob b.
Definition sample_batch : list byte :=
  match Build BatchSchema (fun ob b => b ← Write 8 1 77 ob b; WriteList BatchSchema ItemSchema 9 [item 1 10; item 2 20] ob b) with
  | Ret (_, d) => d
  | Panic => []
  end.
Definition sample_view : View := match Wrap BatchSchema sample_batch with Ret (Ok v) => v | _ => View_zero end.
Definition sample_items : VList := match ListAt ItemSchema sample_view 9 with Ret l => l | Panic => VList_zero end.

Lemma v1_wrap_equiv_witness : is_ret (WrapRaw sample_batch 0x20 17 []).
Proof.
  destruct (v1_wrap_equiv (mkSchema 0x20 17 []) sample_batch ltac:(vm_compute; discriminate)) as (_ & H & _); exact H.
Defined.

Definition sample_seq : Seq Z := fun S yield s => feed yield [1; 2; 3] s.
Lemma v1_iterators_are_lists_witness :
  yields (Take sample_seq 2) [1; 2] /\ yields (Filter sample_seq Z.even) [2]
  /\ yields (Map sample_seq Z.opp) [-1; -2; -3] /\ Count sample_seq = Ret 3 /\ Collect sample_seq = Ret [1; 2; 3].
Proof. exact (v1_iterators_are_lists sample_seq [1; 2; 3] 2 Z.even Z.opp (fun _ _ _ => eq_refl)). Defined.

Lemma sample_reach : v1_reach sample_batch 17 sample_view.
Proof. apply (vr_wrap sample_batch BatchSchema sample_view); [vm_compute; discriminate|vm_compute; reflexivity]. Qed.


Lemma v1_reads_equiv_witness :
  exists m o, Parse sample_batch = Ret (Ok m) /\ Message_Root m = Ret o /\ Read 8 sample_view 1 = read_uint 8 o 1.
Proof.
  destruct (v1_reads_equiv BatchSchema sample_batch sample_view) as (m & o & Hp & Hr & H);
    [vm_compute; discriminate|vm_compute; reflexivity|vm_compute; reflexivity|].
  exists m, o; split; [exact Hp|split; [exact Hr|]]; apply (H 8 1); [auto|discriminate].
Defined.

Lemma v1_list_iteration_witness : exists vs, len vs = 2 /\ yields (All ItemSchema sample_items) vs.
Proof.
  destruct (v1_list_iteration sample_batch 17 sample_view ItemSchema 9 sample_items) as (vs & Hl & _ & _ & Hy & _);
    [vm_compute; reflexivity|exact sample_reach|discriminate|vm_compute; split; [discriminate|reflexivity]|vm_compute; reflexivity|].
  exists vs; split; [rewrite Hl; vm_compute; reflexivity|exact Hy].
Defined.

Lemma registry_dispatch_witness :
  exists r, register_all [BatchSchema; ItemSchema] NewRegistry = Ret r /\ is_Some (Lookup r 0x20).
Proof.
  eexists; split; [reflexivity|].
  match goal with |- is_Some (Lookup ?r _) =>
    destruct (registry_dispatch [BatchSchema; ItemSchema] r eq_refl) as (_ & H & _) end.
  apply (H BatchSchema); left.
Defined.
