(* ===== verification/V1Build.v ===== *)
(** * V1Build: what the typed writers store is what the typed readers find

    Objects with nested objects, lists of them and inline lists, to any depth,
    written with the package [v1]'s writers over the builder and read back with
    its views. The last theorem is about inline elements whose size is not a
    multiple of the alignment. *)

From S2P Require Import Prelude Wire Builder BuilderSpec Roundtrip Envelope V1View.
From stdpp Require Import gmap.
Local Open Scope Z_scope.

(** ** Typed values *)

(** An element of an inline list: offset, width and value of its fields. *)
Definition velem : Type := list (Z * (Z * Z)).

Inductive vfield (A : Type) : Type :=
| VUint (n v : Z)
| VText (v : list byte)
| VNested (a : A)
| VNestedList (size : Z) (l : list A)
| VInline (stride : Z) (l : list velem).
Arguments VUint {_} _ _.
Arguments VText {_} _.
Arguments VNested {_} _.
Arguments VNestedList {_} _ _.
Arguments VInline {_} _ _.

#[warnings="-register-all"]
Inductive vobj : Type := VObj (size : Z) (fields : list (Z * vfield vobj)).
Definition osize (t : vobj) : Z := match t with VObj size _ => size end.
Definition plain (size : Z) : Schema := mkSchema 0 size [].

(** ** Writing them *)

(** The fields of an object, one write each. *)
Definition set_all {X} (w : Z -> X -> Setter) : list (Z * X) -> Setter :=
  fix go fs ob b :=
    match fs with
    | [] => Ret b
    | (off, x) :: fs => b ← w off x ob b; go fs ob b
    end.

Definition set_elem (e : velem) : Setter := set_all (fun off c => Write c.1 off c.2) e.

Definition write_field {A} (set : A -> Setter) (size_of : A -> Z) (parent off : Z) (x : vfield A) : Setter :=
  match x with
  | VUint n v => Write n off v
  | VText v => WriteString off v
  | VNested a => WriteNested (plain parent) (plain (size_of a)) off (set a)
  | VNestedList size l => WriteListNested (plain parent) (plain size) off (map set l)
  | VInline stride l => WriteList (plain parent) (plain stride) off (map set_elem l)
  end.

Fixpoint set_obj (t : vobj) : Setter :=
  match t with VObj size fs => set_all (write_field set_obj osize size) fs end.

(** ** Well-formed values *)

Definition vwidth {A} (x : vfield A) : Z :=
  match x with VUint n _ => n | VNested _ => 4 | _ => 8 end.

(** Cells inside [size] bytes that do not overlap. *)
Fixpoint cells_ok (size : Z) (cs : list (Z * Z)) : Prop :=
  match cs with
  | [] => True
  | c :: cs =>
      0 <= c.1 /\ 0 <= c.2 /\ c.1 + c.2 <= size
      /\ all (fun c' => c.1 + c.2 <= c'.1 \/ c'.1 + c'.2 <= c.1) cs /\ cells_ok size cs
  end.

Definition scalar_wf (n v : Z) : Prop := (n = 1 \/ n = 2 \/ n = 4 \/ n = 8) /\ 0 <= v < 2 ^ (8 * n).

Definition elem_wf (stride : Z) (e : velem) : Prop :=
  cells_ok stride (map (fun p => (p.1, p.2.1)) e) /\ all (fun p => scalar_wf p.2.1 p.2.2) e.

(** The stride of an inline list is a multiple of the alignment. *)
Definition field_wf {A} (wf : A -> Prop) (size_of : A -> Z) (x : vfield A) : Prop :=
  match x with
  | VUint n v => scalar_wf n v
  | VText v => True
  | VNested a => wf a
  | VNestedList size l => all (fun a => wf a /\ size_of a = size) l
  | VInline stride l => 1 <= stride < 2 ^ 32 /\ stride mod Alignment = 0 /\ all (elem_wf stride) l
  end.

Definition field_cells {A} (fs : list (Z * vfield A)) : list (Z * Z) := map (fun p => (p.1, vwidth p.2)) fs.

Fixpoint obj_wf (t : vobj) : Prop :=
  match t with
  | VObj size fs =>
      1 <= size < 2 ^ 32 /\ cells_ok size (field_cells fs) /\ all (fun p => field_wf obj_wf osize p.2) fs
  end.

(** ** Where they are stored *)

Definition elem_stored (d : list byte) (s : Z) (e : velem) : Prop :=
  all (fun p => sub d (s + p.1) p.2.1 = le_bytes p.2.1 p.2.2) e.

(** Field [x] at [f] of the object at [s]; all it refers to lies from [lim] on. *)
Definition vcell {A} (stored : list byte -> Z -> A -> Prop) (d : list byte) (s lim f : Z) (x : vfield A) : Prop :=
  match x with
  | VUint n v => sub d (s + f) n = le_bytes n v
  | VText v =>
      exists p, lim <= p /\ p + len v <= len d /\ sub d p (len v) = v
        /\ sub d (s + f) 8 = pair_bytes (if len v =? 0 then 0 else p - (s + f)) (len v)
  | VNested a =>
      exists p, lim <= p /\ sub d (s + f) 4 = le_bytes 4 (p - (s + f)) /\ stored d p a
  | VNestedList size l =>
      exists p offs, lim <= p /\ p + 4 * len l <= len d /\ len offs = len l
        /\ sub d (s + f) 8 = list_pair (s + f) p (len l) /\ sub d p (4 * len l) = pointers p offs
        /\ all2 (fun o a => lim <= o < p /\ stored d o a) offs l
  | VInline stride l =>
      exists p, lim <= p /\ p + len l * stride <= len d
        /\ sub d (s + f) 8 = list_pair (s + f) p (len l)
        /\ forall (i : nat) e, l !! i = Some e -> elem_stored d (p + Z.of_nat i * stride) e
  end.

Fixpoint vstored (d : list byte) (s : Z) (t : vobj) {struct t} : Prop :=
  match t with
  | VObj size fs =>
      HeaderSize <= s /\ s + size <= len d
      /\ all (fun p => vcell vstored d s (s + size) p.1 p.2) fs
  end.

(** ** Induction and frames *)

Definition vfield_all {A} (P : A -> Prop) (x : vfield A) : Prop :=
  match x with
  | VNested a => P a
  | VNestedList _ l => all P l
  | _ => True
  end.

Fixpoint vobj_rect_all (P : vobj -> Prop)
  (H : forall size fs, all (fun p => vfield_all P p.2) fs -> P (VObj size fs))
  (t : vobj) {struct t} : P t.
Proof.
  destruct t as [size fs]; apply H.
  induction fs as [|[f x] fs IH]; simpl; [exact I|]; split; [|exact IH].
  destruct x as [| |t|size' ts|]; simpl; try exact I; [apply vobj_rect_all; exact H|].
  induction ts as [|t ts IHts]; simpl; [exact I|]; split; [|exact IHts].
  apply vobj_rect_all; exact H.
Defined.

(** [d'] still has the bytes of [d] from [s] on. *)
Definition agree (s : Z) (d d' : list byte) : Prop :=
  len d <= len d' /\ forall lo n, s <= lo -> lo + n <= len d -> sub d' lo n = sub d lo n.

Lemma agree_le s s' d d' : agree s d d' -> s <= s' -> agree s' d d'.
Proof. intros [Hl H] Hs; split; [done|]; intros; apply H; lia. Qed.

Lemma all2_impl {A B} (P Q : A -> B -> Prop) : forall k l,
  all (fun y => forall x, P x y -> Q x y) k -> all2 P l k -> all2 Q l k.
Proof. induction k as [|y k IH]; intros [|x l]; simpl; intuition auto. Qed.

Lemma elem_stored_frame stride d d' s e :
  elem_wf stride e -> agree s d d' -> s + stride <= len d -> elem_stored d s e -> elem_stored d' s e.
Proof.
  intros [Hc _] [_ Ha] Hl; unfold elem_stored; induction e as [|[f [n v]] e IH]; simpl in *; [done|].
  destruct Hc as (? & ? & ? & ? & Hc); intros [He Hes]; split; [|by apply IH].
  rewrite Ha by lia; exact He.
Qed.

(** A cell depends on its own bytes and on those from [lim] on. *)
Lemma vcell_frame d d' s lim f (x : vfield vobj) :
  vfield_all (fun a => forall p, agree p d d' -> vstored d p a -> vstored d' p a) x ->
  field_wf obj_wf osize x -> 0 <= lim -> agree lim d d' ->
  sub d' (s + f) (vwidth x) = sub d (s + f) (vwidth x) ->
  vcell vstored d s lim f x -> vcell vstored d' s lim f x.
Proof.
  intros Hx Hwf Hlim Ha Hs; pose proof (proj1 Ha) as Hl; destruct x as [n v|v|a|size l|stride l]; cbn [vcell vwidth vfield_all] in *.
  - congruence.
  - intros (p & Hp & Hpl & Hv & Hc); exists p; split_and!; [done|lia|rewrite (proj2 Ha) by lia; done|congruence].
  - intros (p & Hp & Hc & Hst); exists p; split_and!; [done|congruence|].
    apply Hx; [by apply (agree_le lim)|done].
  - intros (p & offs & Hp & Hpl & Hlo & Hc & Hptr & Hall); exists p, offs.
    split_and!; [done|lia|done|congruence|rewrite (proj2 Ha) by lia; done|].
    eapply all2_impl; [|exact Hall]; eapply all_mono; [|exact Hx]; intros a IH o [Ho Hst]; split; [done|].
    apply IH; [apply (agree_le lim); [done|lia]|done].
  - destruct Hwf as (Hst & _ & Hwf).
    intros (p & Hp & Hpl & Hc & Hall); exists p; split_and!; [done|lia|congruence|].
    intros i e Hi; assert (Hil : Z.of_nat i < len l) by (apply lookup_lt_Some in Hi; unfold len; lia).
    apply (elem_stored_frame stride d); [by eapply all_lookup|apply (agree_le lim); [done|nia]|nia|by apply Hall].
Qed.

Lemma vstored_frame t : forall d d' s,
  obj_wf t -> agree s d d' -> vstored d s t -> vstored d' s t.
Proof.
  induction t as [size fs IH] using vobj_rect_all; intros d d' s Hwf Ha; cbn [vstored obj_wf] in *.
  destruct Hwf as (Hsz & Hc & Hwf); intros (Hs & Hl & Hall); pose proof (proj1 Ha).
  split; [done|split; [lia|]].
  induction fs as [|[f x] fs IHfs]; cbn [all field_cells map cells_ok fst snd] in *; [done|].
  destruct IH as [IHx IH], Hc as (Hf & Hw & Hfw & _ & Hc), Hwf as [Hwx Hwf], Hall as [Hcx Hall].
  unfold HeaderSize in *; split; [|by apply IHfs].
  apply (vcell_frame d); [|done|lia|apply (agree_le s); [done|lia]|apply (proj2 Ha); lia|done].
  clear - IHx Hwx; destruct x as [| |a|sz l|]; cbn [vfield_all field_wf] in *; try done.
  - intros p; by apply IHx.
  - induction l as [|a l IHl]; cbn [all] in *; [done|]; destruct IHx, Hwx as [[? ?] ?]; split; [|by apply IHl].
    by intros p; apply H.
Qed.

(** ** The writers store their values *)

Lemma touches_agree d d' s cs lim :
  touches d d' s cs -> 0 <= lim -> all (fun c => s + c.1 + c.2 <= lim) cs -> agree lim d d'.
Proof.
  intros [Hl H] Hlim Hcs; split; [done|]; intros lo n Hlo Hn; apply H; [lia|done|].
  eapply all_mono; [|exact Hcs]; simpl; lia.
Qed.

(** Appending first changes none of the bytes that were there. *)
Lemma touches_append d1 d2 d3 s cs : touches d1 d2 0 [] -> touches d2 d3 s cs -> touches d1 d3 s cs.
Proof.
  intros [Hl H] [Hl' H']; split; [lia|]; intros lo n Hlo Hn Hcs; rewrite H', H by first [done|lia]; done.
Qed.

(** A setter that fills [size] bytes of an object, possibly appends, and leaves
    [P] of the object's position. *)
Definition fills (f : Setter) (size : Z) (P : list byte -> Z -> Prop) : Prop :=
  forall b a ob, holds b a -> HeaderSize <= startPos ob -> startPos ob + size <= len (bytes a) ->
  exists b' a', f ob b = Ret b' /\ holds b' a' /\ root a' = root a
    /\ touches (bytes a) (bytes a') (startPos ob) [(0, size)] /\ P (bytes a') (startPos ob).

(** A setter of the field at [off]. *)
Definition fills_field (f : Setter) (size off w : Z) (P : list byte -> Z -> Prop) : Prop :=
  forall b a ob, holds b a -> HeaderSize <= startPos ob -> startPos ob + size <= len (bytes a) ->
  exists b' a', f ob b = Ret b' /\ holds b' a' /\ root a' = root a
    /\ touches (bytes a) (bytes a') (startPos ob) [(off, w)] /\ P (bytes a') (startPos ob).

Lemma aligned_le n : n <= n + a_padding n.
Proof. pose proof (Z.mod_pos_bound (8 - n mod 8) 8); unfold a_padding; lia. Qed.

(** Starting an object and filling it. *)
Lemma start_fills f size P b a :
  fills f size P -> holds b a -> HeaderSize <= len (bytes a) -> 0 <= size ->
  let s := len (bytes a) + a_padding (len (bytes a)) in
  exists b1 b' a', StartObject b size = Ret (mkObjectBuilder s size, b1)
    /\ f (mkObjectBuilder s size) b1 = Ret b' /\ holds b' a' /\ root a' = root a
    /\ touches (bytes a) (bytes a') 0 [] /\ P (bytes a') s.
Proof.
  intros Hf H Ha Hsz s; destruct (StartObject_holds b a size H) as (b1 & E1 & H1); fold s in E1.
  pose proof (aligned_le (len (bytes a))) as Hpad.
  set (a1 := a_append (a_align a) (zeros size)) in *.
  assert (Hl1 : len (bytes a1) = s + size).
  { unfold a1, a_align, a_append; cbn [bytes]; rewrite !len_app, !len_zeros by lia; unfold s; lia. }
  destruct (Hf b1 a1 (mkObjectBuilder s size) H1) as (b' & a' & E & H' & Hr & Ht & HP);
    [cbn [startPos]; unfold s; lia|cbn [startPos]; lia|].
  exists b1, b', a'; split_and!; try done.
  destruct Ht as [Hl Ht]; split; [lia|]; intros lo n Hlo Hn _; rewrite Ht; [|done|unfold s in *; lia|cbn [all startPos fst snd]; split; [unfold s; lia|done]].
  unfold a1, a_align, a_append; cbn [bytes]; rewrite <- app_assoc; apply sub_app_l; lia.
Qed.

(** One resolved field, as a setter. *)
Lemma resolved_fills f size off r :
  (forall ob b, f ob b = set_resolved ob b off r) -> resolved_wf r -> 0 <= off -> off + rwidth r <= size ->
  fills_field f size off (rwidth r) (fun d s => rcell d s (s + size) off r).
Proof.
  intros Hf Hwf Ho Hw b a ob H Hs Hl; rewrite Hf.
  destruct (set_resolved_holds b a ob off r H Hs Ho Hwf ltac:(lia)) as (b' & E & H').
  eexists b', _; split; [exact E|split; [exact H'|split; [done|]]]; cbn [bytes]; apply and_comm.
  apply set_cell; unfold HeaderSize in *; try done; lia.
Qed.

Lemma Write_resolved n off v ob b : scalar_wf n v -> Write n off v ob b = set_resolved ob b off (RUint n v).
Proof.
  intros [[-> | [-> | [-> | ->]]] Hv]; unfold Write, writeAt, u8, u16, u32, u64; cbn [Z.eqb Pos.eqb];
    rewrite Z.mod_small by done; done.
Qed.

(** The elements of inline lists change nothing but their own bytes. *)
Lemma set_elem_resolved e ob : forall b,
  all (fun p => scalar_wf p.2.1 p.2.2) e ->
  set_elem e ob b = set_fields ob b (map (fun p => (p.1, RUint p.2.1 p.2.2)) e).
Proof.
  induction e as [|[f [n v]] e IH]; intros b Hwf; [done|]; destruct Hwf as [Hv Hwf].
  cbn [set_elem set_all map set_fields fst snd]; rewrite Write_resolved by done.
  destruct (set_resolved ob b f (RUint n v)); cbn [mbind outcome_bind]; [by apply IH|done].
Qed.

Lemma elem_rlayout stride e :
  elem_wf stride e -> rlayout stride (map (fun p => (p.1, RUint p.2.1 p.2.2)) e).
Proof.
  intros [Hc Hwf]; induction e as [|[f [n v]] e IH]; cbn [map cells_ok rlayout all rwidth resolved_wf fst snd] in *; [done|].
  destruct Hc as (? & ? & ? & Hd & Hc), Hwf as [? ?]; split_and!; try done; [|by apply IH].
  unfold cells; rewrite map_map; exact Hd.
Qed.

Lemma set_elem_holds stride e b a ob :
  elem_wf stride e -> holds b a -> HeaderSize <= startPos ob -> 0 <= stride -> startPos ob + stride <= len (bytes a) ->
  exists b' a', set_elem e ob b = Ret b' /\ holds b' a' /\ root a' = root a /\ len (bytes a') = len (bytes a)
    /\ touches (bytes a) (bytes a') (startPos ob) [(0, stride)] /\ elem_stored (bytes a') (startPos ob) e.
Proof.
  intros Hwf H Hs Hst Hl; pose proof (elem_rlayout _ _ Hwf) as Hlay; rewrite set_elem_resolved by apply Hwf.
  set (rs := map _ e) in *.
  destruct (set_fields_holds ob stride rs b a H Hs Hlay Hst Hl) as (b' & a' & E & H' & Hr & Ht & Hall).
  exists b', a'; split_and!; try done.
  - rewrite <- (holds_pos _ _ H'), (set_fields_length ob stride rs b a b') by done.
    enough (tails rs = 0) by lia; subst rs; clear; induction e as [|x e IH]; [done|exact IH].
  - destruct Ht as [Hle Ht]; split; [done|]; intros lo n Hlo Hn [Hd _]; apply Ht; [done|done|]; cbn in Hd.
    clear - Hd Hlay; induction rs as [|[f r] rs IH]; cbn in *; [done|]; destruct Hlay as (? & ? & ? & ? & ?).
    split; [lia|by apply IH].
  - clear - Hall; unfold rs, elem_stored in *; induction e as [|[f [n v]] e IH]; cbn in *; [done|].
    destruct Hall as [(? & Hc & _) ?]; split; [exact Hc|by apply IH].
Qed.

Lemma reserve_holds b a ob size :
  holds b a -> startPos ob + size <= len (bytes a) -> exists b', ReserveFixed ob b size = Ret b' /\ holds b' a.
Proof.
  intros H Hl; destruct (ensureField_holds b a ob size H) as (b' & E & H'); rewrite a_extend_id in H' by done; eauto.
Qed.

(** After the parts behind the object are written, the field is set. *)
Lemma then_field b a ob size off r :
  holds b a -> HeaderSize <= startPos ob -> startPos ob + size <= len (bytes a) ->
  resolved_wf r -> 0 <= off -> off + rwidth r <= size ->
  exists b' a', set_resolved ob b off r = Ret b' /\ holds b' a' /\ root a' = root a
    /\ touches (bytes a) (bytes a') (startPos ob) [(off, rwidth r)]
    /\ agree (startPos ob + size) (bytes a) (bytes a')
    /\ exists n, sub (bytes a') (startPos ob + off) (rwidth r) = code n (startPos ob + off) r.
Proof.
  intros H Hs Hl Hwf Ho Hw.
  destruct (resolved_fills (fun ob b => set_resolved ob b off r) size off r) with (b := b) (a := a) (ob := ob)
    as (b' & a' & E & H' & Hr & Htc & (n & Hc & _)); try done.
  exists b', a'; split_and!; try done; [|by exists n].
  eapply touches_agree; [exact Htc|unfold HeaderSize in *; pose proof (len_nonneg (bytes a)); destruct r; cbn in *; lia|].
  cbn; lia.
Qed.

Definition obj_fills (t : vobj) : Prop := fills (set_obj t) (osize t) (fun d s => vstored d s t).

Lemma osize_pos t : obj_wf t -> 1 <= osize t < 2 ^ 32.
Proof. destruct t; cbn; intuition auto. Qed.

Lemma vstored_inside t d s : obj_wf t -> vstored d s t -> HeaderSize <= s /\ s + osize t <= len d /\ s < len d.
Proof. destruct t; cbn; intuition lia. Qed.

Lemma vnested_fills t size off :
  obj_fills t -> obj_wf t -> 0 <= size -> 0 <= off -> off + 4 <= size ->
  fills_field (WriteNested (plain size) (plain (osize t)) off (set_obj t)) size off 4
    (fun d s => vcell vstored d s (s + size) off (VNested t)).
Proof.
  intros Hf Hwf Hsz Ho Hw b a ob H Hs Hl; unfold WriteNested; cbn [V1View.Size plain]; pose proof (osize_pos t Hwf) as Hot.
  destruct (reserve_holds b a ob size H Hl) as (b0 & -> & H0); cbn [mbind outcome_bind].
  destruct (start_fills _ _ _ b0 a Hf H0) as (b1 & b2 & a2 & -> & E & H2 & Hr2 & Ht2 & Hst); [unfold HeaderSize in *; lia..|].
  cbn [mbind outcome_bind fst snd]; rewrite E; cbn [mbind outcome_bind ObjectBuilder_Finish startPos].
  pose proof (aligned_le (len (bytes a))) as Hp; set (p := _ + a_padding _) in *; pose proof (proj1 Ht2) as Hl2.
  destruct (then_field b2 a2 ob size off (RObject p) H2 Hs) as (b' & a' & E' & H' & Hr & Ht & Ha & (n & Hc)); try done; [lia|].
  cbn [set_resolved rwidth code] in *; exists b', a'; split_and!; [done|done|congruence| |].
  - exact (touches_append _ _ _ _ _ Ht2 Ht).
  - exists p; replace (p =? 0) with false in Hc by (unfold HeaderSize in *; lia); split_and!; [lia|done|].
    apply (vstored_frame t (bytes a2)); [done| |done]; eapply agree_le; [exact Ha|lia].
Qed.

Lemma all2_length {A B} (P : A -> B -> Prop) : forall k l, all2 P l k -> len l = len k.
Proof. induction k as [|y k IH]; intros [|x l]; cbn [all2]; try done; intros [_ ?]; rewrite !len_cons; f_equal; auto. Qed.

Lemma nested_each_holds sz ts : forall b a,
  all obj_fills ts -> all (fun t => obj_wf t /\ osize t = sz) ts -> holds b a -> HeaderSize <= len (bytes a) ->
  exists offs b' a', nested_each (plain sz) (map set_obj ts) b = Ret (offs, b') /\ holds b' a' /\ root a' = root a
    /\ touches (bytes a) (bytes a') 0 [] /\ all2 (fun o t => len (bytes a) <= o /\ vstored (bytes a') o t) offs ts.
Proof.
  induction ts as [|t ts IH]; intros b a Hf Hwf H Hl; cbn [nested_each map].
  { exists [], b, a; split_and!; done. }
  destruct Hf as [Hft Hf], Hwf as [[Hwt <-] Hwf]; cbn [V1View.Size plain]; pose proof (osize_pos t Hwt) as Hot.
  destruct (start_fills _ _ _ b a Hft H Hl) as (b1 & b2 & a2 & -> & E & H2 & Hr2 & Ht2 & Hst); [lia|].
  cbn [mbind outcome_bind fst snd]; rewrite E; cbn [mbind outcome_bind ObjectBuilder_Finish startPos].
  pose proof (aligned_le (len (bytes a))) as Hp; set (p := _ + a_padding _) in *; pose proof (proj1 Ht2) as Hl2.
  destruct (IH b2 a2) as (offs & b' & a' & -> & H' & Hr & Ht & Hall); [done|done|done|lia|].
  exists (p :: offs), b', a'; split_and!; [done|done|congruence|exact (touches_append _ _ _ _ _ Ht2 Ht)|].
  split; [split; [done|]|].
  - apply (vstored_frame t (bytes a2)); [done| |done]; eapply touches_agree; [exact Ht|unfold HeaderSize in *; lia|done].
  - eapply all2_impl; [|exact Hall]; clear - Hl2; induction ts; cbn; [done|]; split; [|done].
    intros x [? ?]; split; [lia|done].
Qed.

Lemma vnested_list_fills sz ts size off :
  all obj_fills ts -> all (fun t => obj_wf t /\ osize t = sz) ts -> 0 <= size -> 0 <= off -> off + 8 <= size ->
  fills_field (WriteListNested (plain size) (plain sz) off (map set_obj ts)) size off 8
    (fun d s => vcell vstored d s (s + size) off (VNestedList sz ts)).
Proof.
  intros Hf Hwf Hsz Ho Hw b a ob H Hs Hl; unfold WriteListNested; cbn [V1View.Size plain]; unfold HeaderSize in Hs.
  destruct (reserve_holds b a ob size H Hl) as (b0 & -> & H0); cbn [mbind outcome_bind].
  destruct (nested_each_holds sz ts b0 a Hf Hwf H0) as (offs & b1 & a1 & -> & H1 & Hr1 & Ht1 & Hall); [unfold HeaderSize; lia|].
  cbn [mbind outcome_bind]; pose proof (all2_length _ _ _ Hall) as Hlo; rewrite Hlo; pose proof (proj1 Ht1) as Hl1.
  destruct (Z.eqb_spec (len ts) 0) as [Hz|Hz].
  { destruct (then_field b1 a1 ob size off (RList 0 0) H1 Hs) as (b' & a' & E' & H' & Hr & Ht & Ha & (n & Hc)); try done; [lia|].
    cbn [set_resolved rwidth code] in *; exists b', a'; split_and!; [done|done|congruence|exact (touches_append _ _ _ _ _ Ht1 Ht)|].
    exists (startPos ob + size), offs; rewrite Hz, Z.mul_0_r; destruct Ht; split_and!; try lia.
    - rewrite Hc; unfold list_pair; by destruct (startPos ob + size =? 0).
    - destruct offs; [done|rewrite len_cons in Hlo; pose proof (len_nonneg offs); lia].
    - destruct ts; [by destruct offs|rewrite len_cons in Hz; pose proof (len_nonneg ts); lia]. }
  destruct (StartList_holds b1 a1 objPtrStride H1) as (b2 & -> & H2); cbn [mbind outcome_bind fst snd].
  pose proof (aligned_le (len (bytes a1))) as Hp; pose proof (len_align a1) as Hla; set (p := _ + a_padding _) in *.
  destruct (add_pointers_holds offs (mkListBuilder p 0) b2 _ H2) as (b3 & -> & H3).
  cbn [mbind outcome_bind fst snd ListBuilder_Finish lstartPos count]; rewrite Hla in H3; rewrite Z.add_0_l, Hlo.
  set (a3 := a_append (a_align a1) (pointers p offs)) in *.
  assert (Ht3 : touches (bytes a1) (bytes a3) 0 []).
  { split; [unfold a3, a_align, a_append; cbn [bytes]; rewrite !len_app; pose proof (len_nonneg (pointers p offs));
      pose proof (len_nonneg (zeros (a_padding (len (bytes a1))))); lia|].
    intros lo n Hlo' Hn _; unfold a3, a_align, a_append; cbn [bytes]; rewrite <- app_assoc; apply sub_app_l; lia. }
  assert (Hl3 : len (bytes a3) = p + 4 * len ts) by (unfold a3, a_append; cbn [bytes]; rewrite len_app, len_pointers, Hla; lia).
  assert (Hptr : sub (bytes a3) p (4 * len ts) = pointers p offs).
  { unfold a3, a_append; cbn [bytes]; rewrite sub_app_r, Hla, Z.sub_diag by lia; apply sub_all; rewrite len_pointers; lia. }
  pose proof (len_nonneg ts).
  destruct (then_field b3 a3 ob size off (RList p (len ts)) H3 Hs) as (b' & a' & E' & H' & Hr & Ht & Ha & (n & Hc)); try done; [lia|].
  cbn [set_resolved rwidth code] in *; exists b', a'; split_and!; [done|done|cbn in *; congruence|..].
  { exact (touches_append _ _ _ _ _ Ht1 (touches_append _ _ _ _ _ Ht3 Ht)). }
  exists p, offs; destruct Ht as [Hl' _]; split_and!; try done; [lia|lia|rewrite (proj2 Ha) by lia; done|].
  eapply all2_impl; [|exact Hall]; clear - Hwf Ha Ht3 Hl Hs Hsz Hp; induction ts as [|t ts IH]; cbn [all] in *; [done|].
  destruct Hwf as [[Hwt _] Hwf]; split; [|by apply IH]; intros o [Ho Hst]; split.
  { pose proof (vstored_inside _ _ _ Hwt Hst); lia. }
  apply (vstored_frame t (bytes a3)); [done|eapply agree_le; [exact Ha|lia]|].
  apply (vstored_frame t (bytes a1)); [done|eapply touches_agree; [exact Ht3|lia|done]|done].
Qed.

Lemma a_padding_0 n : n mod 8 = 0 -> a_padding n = 0.
Proof. intros H; unfold a_padding; rewrite H; done. Qed.

Lemma aligned_mod n : (n + a_padding n) mod 8 = 0.
Proof. unfold a_padding; Z.div_mod_to_equations; lia. Qed.

(** The elements are a stride apart, since a multiple of the alignment leaves
    nothing to pad. *)
Lemma append_each_holds stride es p : forall i q b a,
  holds b a -> HeaderSize <= len (bytes a) -> 1 <= stride -> stride mod 8 = 0 -> all (elem_wf stride) es ->
  0 <= i -> len (bytes a) + a_padding (len (bytes a)) = p + i * stride -> (0 < i -> q = p) ->
  exists q' b' a',
    append_each (plain stride) (map set_elem es) (mkElems i q) b = Ret (mkElems (i + len es) q', b')
    /\ holds b' a' /\ root a' = root a /\ touches (bytes a) (bytes a') 0 [] /\ (0 < i + len es -> q' = p)
    /\ (0 < len es -> p + (i + len es) * stride <= len (bytes a'))
    /\ forall (j : nat) e, es !! j = Some e -> elem_stored (bytes a') (p + (i + Z.of_nat j) * stride) e.
Proof.
  induction es as [|e es IH]; intros i q b a H Hl Hst Hmod Hwf Hi Hp Hq; cbn [append_each map].
  { exists q, b, a; rewrite len_nil, Z.add_0_r; split_and!; try done; lia. }
  destruct Hwf as [Hwe Hwf]; unfold ElemSetter_Append; cbn [V1View.Size plain].
  destruct (StartObject_holds b a stride H) as (b1 & -> & H1); cbn [mbind outcome_bind fst snd].
  pose proof (aligned_le (len (bytes a))); pose proof (aligned_mod (len (bytes a))) as Hv; set (v := _ + a_padding _) in *.
  set (a1 := a_append (a_align a) (zeros stride)) in *.
  assert (Hl1 : len (bytes a1) = v + stride).
  { unfold a1, a_append; cbn [bytes]; rewrite len_app, len_align, len_zeros by lia; done. }
  destruct (set_elem_holds stride e b1 a1 (mkObjectBuilder v stride) Hwe H1) as (b2 & a2 & -> & H2 & Hr2 & Hl2 & Ht2 & He);
    cbn [startPos] in *; [lia..|].
  cbn [mbind outcome_bind e_count e_startPos ObjectBuilder_Finish startPos fst snd].
  assert (Ht : touches (bytes a) (bytes a2) 0 []).
  { split; [lia|]; intros lo n Hlo Hn _; rewrite (proj2 Ht2); [|done|lia|cbn; lia].
    unfold a1, a_align, a_append; cbn [bytes]; rewrite <- app_assoc; apply sub_app_l; lia. }
  assert (Hv2 : (v + stride) mod 8 = 0) by (rewrite Z.add_mod, Hv, Hmod by done; done).
  destruct (IH (i + 1) (if i =? 0 then v else q) b2 a2) as (q' & b' & a' & -> & H' & Hr & Ht' & Hq' & Hle & Hall); try done.
  { unfold HeaderSize in *; lia. }
  { lia. }
  { rewrite Hl2, Hl1, a_padding_0 by done; lia. }
  { intros _; destruct (Z.eqb_spec i 0) as [->|]; [lia|apply Hq; lia]. }
  rewrite len_cons; pose proof (len_nonneg es); exists q', b', a'.
  split; [f_equal; f_equal; f_equal; lia|split; [done|split; [rewrite Hr, Hr2; done|]]].
  split; [exact (touches_append _ _ _ _ _ Ht Ht')|split; [intros; apply Hq'; lia|split]].
  - intros _; destruct (Z.eq_dec (len es) 0) as [Hz|]; [destruct Ht'; rewrite Hz; nia|].
    replace (i + (1 + len es)) with (i + 1 + len es) by lia; apply Hle; lia.
  - intros [|j] x Hj; cbn in Hj.
    + injection Hj as <-; rewrite Z.add_0_r, <- Hp; apply (elem_stored_frame stride (bytes a2)); try done; [|lia].
      eapply touches_agree; [exact Ht'|unfold HeaderSize in *; lia|done].
    + replace (i + Z.of_nat (S j)) with (i + 1 + Z.of_nat j) by lia; by apply Hall.
Qed.

Lemma vinline_fills stride es size off :
  1 <= stride -> stride mod Alignment = 0 -> all (elem_wf stride) es -> 0 <= size -> 0 <= off -> off + 8 <= size ->
  fills_field (WriteList (plain size) (plain stride) off (map set_elem es)) size off 8
    (fun d s => vcell vstored d s (s + size) off (VInline stride es)).
Proof.
  intros Hst Hmod Hwf Hsz Ho Hw b a ob H Hs Hl; unfold WriteList; cbn [V1View.Size plain]; unfold HeaderSize in Hs.
  destruct (reserve_holds b a ob size H Hl) as (b0 & -> & H0); cbn [mbind outcome_bind].
  pose proof (aligned_le (len (bytes a))) as Hp; set (p := _ + a_padding _) in *.
  destruct (append_each_holds stride es p 0 0 b0 a) as (q & b1 & a1 & -> & H1 & Hr1 & Ht1 & Hq & Hle & Hall);
    try done; unfold HeaderSize; try lia.
  cbn [mbind outcome_bind e_count e_startPos]; rewrite Z.add_0_l in *; pose proof (proj1 Ht1) as Hl1.
  pose proof (len_nonneg es) as Hnn.
  assert (Hset : (if len es =? 0 then SetList ob b1 off 0 0 else SetList ob b1 off q (len es))
    = set_resolved ob b1 off (RList (if len es =? 0 then 0 else p) (len es))).
  { cbn [set_resolved]; destruct (Z.eqb_spec (len es) 0) as [Hz|]; [by rewrite Hz|by rewrite Hq by lia]. }
  rewrite Hset; destruct (then_field b1 a1 ob size off (RList (if len es =? 0 then 0 else p) (len es)) H1 Hs)
    as (b' & a' & E' & H' & Hr & Ht & Ha & (n & Hc)); try done; [lia|].
  cbn [rwidth code] in *; exists b', a'; split_and!; [done|done|congruence|exact (touches_append _ _ _ _ _ Ht1 Ht)|].
  exists (if len es =? 0 then startPos ob + size else p); destruct Ht as [Hl' _].
  destruct (Z.eqb_spec (len es) 0) as [Hz|Hz]; [rewrite Hz in *|].
  - split_and!; [lia|lia|rewrite Hc; unfold list_pair; by destruct (startPos ob + size =? 0)|].
    destruct es; [done|rewrite len_cons in Hz; pose proof (len_nonneg es); lia].
  - split_and!; [lia|specialize (Hle ltac:(lia)); lia|done|].
    intros i e Hi; apply (elem_stored_frame stride (bytes a1)); [by eapply all_lookup|eapply agree_le; [exact Ha|nia]| |by apply Hall].
    apply lookup_lt_Some in Hi; specialize (Hle ltac:(lia)).
    assert (Z.of_nat i + 1 <= len es) by (unfold len; lia); nia.
Qed.

Lemma fills_field_mono f size off w (P Q : list byte -> Z -> Prop) :
  (forall d s, P d s -> Q d s) -> fills_field f size off w P -> fills_field f size off w Q.
Proof.
  intros HPQ Hf b a ob H Hs Hl; destruct (Hf b a ob H Hs Hl) as (b' & a' & ? & ? & ? & ? & ?); exists b', a'; auto 6.
Qed.

Lemma field_fills x size off :
  vfield_all obj_fills x -> field_wf obj_wf osize x -> 0 <= size -> 0 <= off -> off + vwidth x <= size ->
  fills_field (write_field set_obj osize size off x) size off (vwidth x)
    (fun d s => vcell vstored d s (s + size) off x).
Proof.
  intros Hx Hwf Hsz Ho Hw; destruct x as [n v|v|t|sz l|stride l]; cbn [vfield_all field_wf vwidth write_field] in *.
  - apply (fills_field_mono _ _ _ _ (fun d s => rcell d s (s + size) off (RUint n v))).
    { intros d s (? & Hc & _); exact Hc. }
    apply (resolved_fills _ size off (RUint n v)); [intros; by apply Write_resolved|destruct Hwf; cbn; lia|done|done].
  - apply (fills_field_mono _ _ _ _ (fun d s => rcell d s (s + size) off (RBytes v))).
    { intros d s (p & Hc & Hp & Hl & Hv); exists p; done. }
    by apply (resolved_fills _ size off (RBytes v)).
  - by apply vnested_fills.
  - by apply vnested_list_fills.
  - destruct Hwf as (? & ? & ?); apply vinline_fills; try done; lia.
Qed.

Lemma field_frames d d' (x : vfield vobj) :
  field_wf obj_wf osize x -> vfield_all (fun a => forall p, agree p d d' -> vstored d p a -> vstored d' p a) x.
Proof.
  destruct x as [| |t|sz l|]; cbn [field_wf vfield_all]; try done; [intros Hwf p; by apply vstored_frame|].
  apply all_mono; intros t [Hwf _] p; by apply vstored_frame.
Qed.

Lemma cells_inside size cs : cells_ok size cs -> all (fun c => c.1 + c.2 <= size) cs.
Proof. induction cs as [|c cs IH]; cbn; intuition auto. Qed.

Lemma set_all_fills size fs : forall b a ob,
  all (fun p => vfield_all obj_fills p.2) fs -> all (fun p => field_wf obj_wf osize p.2) fs ->
  cells_ok size (field_cells fs) -> 0 <= size ->
  holds b a -> HeaderSize <= startPos ob -> startPos ob + size <= len (bytes a) ->
  exists b' a', set_all (write_field set_obj osize size) fs ob b = Ret b' /\ holds b' a' /\ root a' = root a
    /\ touches (bytes a) (bytes a') (startPos ob) (field_cells fs)
    /\ all (fun p => vcell vstored (bytes a') (startPos ob) (startPos ob + size) p.1 p.2) fs.
Proof.
  induction fs as [|[f x] fs IH]; intros b a ob Hx Hwf Hc Hsz H Hs Hl; cbn [set_all].
  { exists b, a; split_and!; done. }
  destruct Hx as [Hxx Hx], Hwf as [Hwx Hwf], Hc as (Hf & Hw0 & Hw & Hd & Hc); cbn [fst snd] in *.
  destruct (field_fills x size f Hxx Hwx Hsz Hf Hw b a ob H Hs Hl) as (b1 & a1 & -> & H1 & Hr1 & Ht1 & Hcx).
  cbn [mbind outcome_bind]; pose proof (proj1 Ht1).
  destruct (IH b1 a1 ob) as (b' & a' & E & H' & Hr & Ht & Hall); try done; [lia|].
  exists b', a'; split_and!; [exact E|done|congruence|apply (touches_trans _ _ _ _ [_] _ Ht1 Ht)|].
  unfold HeaderSize in *; split; [|exact Hall].
  apply (vcell_frame (bytes a1)); [by apply field_frames|done|lia| | |done].
  - eapply touches_agree; [exact Ht|lia|]; eapply all_mono; [|apply (cells_inside size _ Hc)]; simpl; lia.
  - apply (proj2 Ht); [cbn [fst]; lia|cbn [fst snd]; lia|]; eapply all_mono; [|exact Hd]; cbn [fst snd]; lia.
Qed.

Lemma set_obj_fills t : obj_wf t -> obj_fills t.
Proof.
  induction t as [size fs IH] using vobj_rect_all; intros (Hsz & Hc & Hwf) b a ob H Hs Hl; cbn [osize] in *.
  destruct (set_all_fills size fs b a ob) as (b' & a' & E & H' & Hr & Ht & Hall); try done; [|lia|].
  - clear - IH Hwf; induction fs as [|[f x] fs IHfs]; cbn [all] in *; [done|]; destruct IH as [Hx IH], Hwf as [Hwx Hwf].
    split; [|by apply IHfs]; destruct x as [| |t|sz l|]; cbn in *; try done; [by apply Hx|].
    eapply all_impl; [|exact Hwx]; eapply all_mono; [|exact Hx]; cbn; intuition auto.
  - exists b', a'; split_and!; [exact E|done|done| |].
    + destruct Ht as [Hle Ht]; split; [done|]; intros lo n Hlo Hn [Hd _]; apply Ht; [done|done|]; cbn in Hd.
      clear - Hd Hc; induction (field_cells fs) as [|c cs IHc]; cbn in *; [done|]; destruct Hc as (? & ? & ? & ? & ?).
      split; [lia|by apply IHc].
    + destruct Ht; split_and!; [done|lia|exact Hall].
Qed.

(** ** Reading them back *)

Definition elem_reads (x : View) (e : velem) : Prop := all (fun p => Read p.2.1 x p.1 = Ret p.2.2) e.

(** What the accessors of a view give for the field [x] at [off]. *)
Definition field_reads {A} (reads : View -> A -> Prop) (size_of : A -> Z) (v : View) (off : Z) (x : vfield A) : Prop :=
  match x with
  | VUint n u => Read n v off = Ret u
  | VText t => Object_Text (asObject v) off = Ret t
  | VNested a => exists v', NestedAt (plain (size_of a)) v off = Ret v' /\ reads v' a
  | VNestedList size l =>
      exists lst vs, ListNestedAt v off = Ret lst /\ VList_Len lst = len l
        /\ yields (ListNested_All (plain size) lst) vs /\ all2 reads vs l
  | VInline stride l =>
      exists lst vs, ListAt (plain stride) v off = Ret lst /\ VList_Len lst = len l
        /\ yields (All (plain stride) lst) vs /\ all2 elem_reads vs l
  end.

Fixpoint vreads (v : View) (t : vobj) {struct t} : Prop :=
  match t with VObj _ fs => IsZero v = false /\ all (fun p => field_reads vreads osize v p.1 p.2) fs end.

Section pointers.
Context (d : list byte) (s f : Z).
Hypothesis Hd : len d < 2 ^ 31.
Hypothesis Hs : HeaderSize <= s.
Hypothesis Hf : 0 <= f.

Lemma nested_pointer size n p :
  s + f + 4 <= p -> 1 <= n -> p + n <= len d -> 0 <= size ->
  sub d (s + f) 4 = le_bytes 4 (p - (s + f)) ->
  NestedAt (plain n) (view_of d s size) f = Ret (view_of d p n).
Proof.
  intros Hp Hn Hl Hsz Hc; unfold NestedAt; cbn [vdata view_of]; fold (view_of d s size); unfold HeaderSize in *.
  apply rd_le_bytes in Hc; [|lia]; change (2 ^ (8 * 4)) with (2 ^ 32) in Hc.
  rewrite asObject_view by lia; rewrite (Object_Object_eq (obj d s) (WrapBuffer d) f eq_refl) by (cbn; lia).
  cbv zeta; cbn [data WrapBuffer offset obj mbind outcome_bind]; rewrite Hc; fold (u32 (p - (s + f))).
  rewrite s32_u32 by lia; rewrite Zplus_minus; unfold HeaderSize; guard_false.
  unfold Object_IsNull, Object_Offset; cbn [offset V1View.Size plain].
  guard_false; guard_false; apply RawFromSlices_ok; lia.
Qed.

Lemma stride_pointer stride p k :
  1 <= stride < 2 ^ 32 -> 0 <= k -> s + f + 8 <= p -> p + k * stride <= len d ->
  sub d (s + f) 8 = list_pair (s + f) p k ->
  (raw ← Object_ListStride (obj d s) f stride;
   if List_IsNull raw then Ret VList_zero else
   Ret (mkVList (Some d) (s32 (rawListOffset raw)) (s32 (List_Len raw))))
  = Ret (if k =? 0 then VList_zero else mkVList (Some d) p k).
Proof.
  intros Hst Hk Hp Hl Hc; unfold list_pair in Hc; unfold HeaderSize in *.
  rewrite (Object_ListStride_eq (obj d s) (WrapBuffer d) f eq_refl) by (cbn; lia); cbv zeta.
  cbn [data WrapBuffer offset obj mbind outcome_bind]; apply rd_pair in Hc as [H1 H2]; [|lia]; rewrite H1, H2.
  destruct (Z.eqb_spec k 0) as [->|Hz]; cbn [orb].
  - rewrite orb_true_r; change (s32 (u32 0)) with 0; rewrite Z.eqb_refl, orb_true_r; done.
  - replace (p =? 0) with false by lia; assert (Hks : k <= k * stride) by nia.
    cbn [orb]; rewrite s32_u32 by lia; unfold u32; rewrite (Z.mod_small k), Zplus_minus by lia; unfold HeaderSize.
    replace (0 <? stride) with true by lia; guard_false; cbn [List_IsNull lmsg List_Len llength]; unfold rawListOffset, List_Len, List_Object, out_of_list.
    cbn [llength loffset]; replace (k =? 0) with false by lia; replace ((0 <? 0) || (k <=? 0)) with false by lia.
    cbn [Object_Offset offset]; rewrite Z.mul_0_l, Z.add_0_r, !s32_small by lia; done.
Qed.
End pointers.

Lemma elem_stored_reads d s stride e :
  0 <= s -> 0 <= stride -> s + stride <= len d -> elem_wf stride e -> elem_stored d s e ->
  elem_reads (view_of d s stride) e.
Proof.
  intros Hs Hst Hl [Hc Hwf]; unfold elem_stored, elem_reads.
  induction e as [|[f [n v]] e IH]; cbn [all map cells_ok fst snd] in *; [done|].
  destruct Hc as (? & ? & ? & _ & Hc), Hwf as [[Hn Hv] Hwf]; intros [Hx Hxs]; split; [|by apply IH].
  rewrite Read_view by lia; guard_false; apply rd_le_bytes in Hx; [|lia]; by rewrite Hx, Z.mod_small.
Qed.

(** A pointer list yields the objects its slots point to. *)
Lemma nested_slot d p k n (i : nat) o :
  len d < 2 ^ 31 -> HeaderSize <= o < p -> 1 <= n -> o + n <= len d -> Z.of_nat i < k -> p + 4 * k <= len d ->
  sub d (p + Z.of_nat i * 4) 4 = le_bytes 4 (o - (p + Z.of_nat i * 4)) ->
  ListNested_At (plain n) (mkVList (Some d) p k) (Z.of_nat i) = Ret (view_of d o n).
Proof.
  intros Hd Ho Hn Hl Hi Hk Hc; unfold ListNested_At, objPtrStride; cbn [l_data l_length l_offset V1View.Size plain].
  unfold HeaderSize in *; guard_false; guard_false; unfold slice_from; rewrite slice_ok by lia; cbn [mbind outcome_bind].
  rewrite le_uint_sub by lia; cbn [mbind outcome_bind]; apply rd_le_bytes in Hc; [|lia].
  unfold rd in Hc; change (2 ^ (8 * 4)) with (2 ^ 32) in Hc; rewrite Hc; fold (u32 (o - (p + Z.of_nat i * 4))).
  rewrite s32_u32 by lia; rewrite Zplus_minus; unfold HeaderSize; guard_false; guard_false; apply RawFromSlices_ok; lia.
Qed.

Lemma each_nested_feed n d p k vs : forall (i : nat) S yield (s : S),
  (forall j x, vs !! j = Some x -> ListNested_At n (mkVList (Some d) p k) (Z.of_nat (i + j)) = Ret x) ->
  each_nested n (mkVList (Some d) p k) (length vs) (Z.of_nat i) S yield s = feed yield vs s.
Proof.
  induction vs as [|x vs IH]; intros i S yield s H; cbn [each_nested length feed]; [done|].
  rewrite <- (Nat.add_0_r i) at 1; rewrite (H 0%nat x eq_refl); cbn [mbind outcome_bind].
  destruct (yield s x) as [[[] s']|]; cbn [negb fst snd]; [|done..].
  replace (Z.of_nat i + 1) with (Z.of_nat (Datatypes.S i)) by lia; apply IH; intros j y Hj.
  rewrite <- (H (Datatypes.S j) y Hj); do 2 f_equal; lia.
Qed.

Lemma nested_all_yields n d p k vs :
  len vs = k -> (forall (j : nat) x, vs !! j = Some x -> ListNested_At n (mkVList (Some d) p k) (Z.of_nat j) = Ret x) ->
  yields (ListNested_All n (mkVList (Some d) p k)) vs.
Proof.
  intros Hk H S yield s; unfold ListNested_All; cbn [l_data l_length]; rewrite <- Hk; unfold len; rewrite Nat2Z.id.
  rewrite <- Hk in H; by apply (each_nested_feed n d p (len vs) vs 0).
Qed.

Lemma all2_fmap {A B C} (f : A -> C) (P : C -> B -> Prop) : forall (k : list B) (l : list A),
  all2 (fun x y => P (f x) y) l k -> all2 P (f <$> l) k.
Proof. induction k as [|y k IH]; intros [|x l]; cbn; intuition auto. Qed.

Lemma all2_lookup {A B} (P : A -> B -> Prop) : forall (k : list B) (l : list A) (i : nat) x,
  all2 P l k -> l !! i = Some x -> exists y, k !! i = Some y /\ P x y.
Proof.
  induction k as [|y k IH]; intros [|z l] i x; cbn [all2]; try done; intros [Hz Hall] Hi.
  destruct i as [|i]; cbn in *; [injection Hi as ->; eauto|by apply (IH l)].
Qed.

Lemma all2_from_lookup {A B} (P : A -> B -> Prop) : forall (k : list B) (l : list A),
  length l = length k -> (forall (i : nat) x y, l !! i = Some x -> k !! i = Some y -> P x y) -> all2 P l k.
Proof.
  induction k as [|y k IH]; intros [|x l] Hl H; cbn in *; try done.
  split; [by apply (H 0%nat)|]; apply IH; [lia|]; intros i; apply (H (S i)).
Qed.

Lemma inline_reads d s f size stride p (l : list velem) :
  len d < 2 ^ 31 -> HeaderSize <= s -> 0 <= f -> 0 <= size -> s + size <= p -> s + f + 8 <= p ->
  1 <= stride < 2 ^ 32 -> all (elem_wf stride) l -> p + len l * stride <= len d ->
  sub d (s + f) 8 = list_pair (s + f) p (len l) ->
  (forall (i : nat) e, l !! i = Some e -> elem_stored d (p + Z.of_nat i * stride) e) ->
  field_reads vreads osize (view_of d s size) f (VInline stride l).
Proof.
  intros Hd Hs Hf Hsz Hps Hpf Hst Hwf Hl Hc Hall; pose proof (len_nonneg l) as Hnn; unfold HeaderSize in *.
  cbn [field_reads]; unfold ListAt; cbn [vdata view_of V1View.Size plain]; fold (view_of d s size).
  rewrite asObject_view by nia; unfold u32; rewrite (Z.mod_small stride) by lia.
  rewrite (stride_pointer d s f Hd Hs Hf stride p (len l)) by done; destruct (Z.eqb_spec (len l) 0) as [Hz|Hz].
  { exists VList_zero, []; split; [done|split; [done|split; [intros S yield s'; done|]]].
    destruct l; [done|rewrite len_cons in Hz; pose proof (len_nonneg l); lia]. }
  exists (mkVList (Some d) p (len l)), (elem_views d p stride 0 (length l)); split; [done|split; [done|]].
  assert (Hn : length (elem_views d p stride 0 (length l)) = length l) by (unfold elem_views; by rewrite length_fmap, length_seq).
  split.
  - intros S yield s'; unfold All; rewrite elems_of_yields by (cbn [V1View.Size plain]; lia).
    cbn [V1View.Size plain]; unfold len; rewrite Nat2Z.id, zip_with_second; [done|by rewrite length_fmap, length_seq].
  - apply all2_from_lookup; [done|]; intros i x e Hx He; unfold elem_views in Hx.
    apply list_lookup_fmap_Some in Hx as (j & -> & Hj); apply lookup_seq in Hj as [-> Hlt]; cbn [Nat.add].
    assert (Z.of_nat i + 1 <= len l) by (unfold len; lia).
    apply elem_stored_reads; [nia|lia|nia|by eapply all_lookup|by apply Hall].
Qed.

Lemma nested_list_reads d s f size sz p offs (l : list vobj) :
  len d < 2 ^ 31 -> HeaderSize <= s -> 0 <= f -> 0 <= size -> s + size <= p -> s + f + 8 <= p ->
  all (fun t => obj_wf t /\ osize t = sz) l -> p + 4 * len l <= len d -> len offs = len l ->
  sub d (s + f) 8 = list_pair (s + f) p (len l) -> sub d p (4 * len l) = pointers p offs ->
  all2 (fun o t => o < p /\ HeaderSize <= o /\ o + osize t <= len d /\ vreads (view_of d o (osize t)) t) offs l ->
  field_reads vreads osize (view_of d s size) f (VNestedList sz l).
Proof.
  intros Hd Hs Hf Hsz Hps Hpf Hwf Hl Hlo Hc Hptr Hall; pose proof (len_nonneg l) as Hnn; unfold HeaderSize in *.
  cbn [field_reads]; unfold ListNestedAt; cbn [vdata view_of]; fold (view_of d s size); rewrite asObject_view by lia.
  rewrite (stride_pointer d s f Hd Hs Hf objPtrStride p (len l)) by (unfold objPtrStride; first [done|lia]).
  destruct (Z.eqb_spec (len l) 0) as [Hz|Hz].
  { exists VList_zero, []; split; [done|split; [done|split; [intros S yield s'; done|]]].
    destruct l; [done|rewrite len_cons in Hz; pose proof (len_nonneg l); lia]. }
  exists (mkVList (Some d) p (len l)), ((fun o => view_of d o sz) <$> offs); split; [done|split; [done|split]].
  - apply nested_all_yields; [unfold len in *; by rewrite length_fmap|].
    intros j x Hx; apply list_lookup_fmap_Some in Hx as (o & -> & Ho).
    destruct (all2_lookup _ _ _ _ _ Hall Ho) as (t & Ht & Hop & Hoh & Hol & _).
    destruct (all_lookup _ _ _ _ Hwf Ht) as [Hwt <-]; pose proof (osize_pos t Hwt); rewrite <- Hlo in Hptr.
    apply nested_slot; unfold HeaderSize; try lia; [|apply (sub_pointers d p offs); try done; lia].
    apply lookup_lt_Some in Ho; unfold len in *; lia.
  - apply (all2_fmap (fun o => view_of d o sz)); eapply all2_impl; [|exact Hall].
    eapply all_mono; [|exact Hwf]; intros t [_ <-] o (_ & _ & _ & Hr); exact Hr.
Qed.

Lemma vcell_reads d s f size (x : vfield vobj) :
  len d < 2 ^ 31 -> HeaderSize <= s -> 0 <= f -> f + vwidth x <= size -> s + size <= len d ->
  vfield_all (fun t => forall p, obj_wf t -> vstored d p t -> vreads (view_of d p (osize t)) t) x ->
  field_wf obj_wf osize x -> vcell vstored d s (s + size) f x ->
  field_reads vreads osize (view_of d s size) f x.
Proof.
  intros Hd Hs Hf Hw Hl IH Hwf; unfold HeaderSize in *.
  destruct x as [n v|v|t|sz l|stride l]; cbn [vwidth vcell vfield_all field_wf] in *.
  - destruct Hwf as [Hn Hv]; intros Hc; cbn [field_reads]; rewrite Read_view by lia; guard_false.
    apply rd_le_bytes in Hc; [|lia]; by rewrite Hc, Z.mod_small.
  - intros (p & Hp & Hpl & Hv & Hc); cbn [field_reads]; rewrite asObject_view by lia.
    apply (read_bytes_cell d s f Hd Hs Hf v p); try done; lia.
  - intros (p & Hp & Hc & Hst); pose proof (osize_pos t Hwf); exists (view_of d p (osize t)).
    destruct (vstored_inside t d p Hwf Hst) as (_ & Hin & _).
    split; [apply nested_pointer; try done; lia|by apply IH].
  - intros (p & offs & Hp & Hpl & Hlo & Hc & Hptr & Hall); apply (nested_list_reads d s f size sz p offs l); try done; try lia.
    eapply all2_impl; [|exact Hall]; eapply all_impl; [|exact Hwf]; eapply all_mono; [|exact IH].
    intros t IHt [Hwt _] o [[Ho Hop] Hst]; destruct (vstored_inside t d o Hwt Hst) as (Hoh & Hin & _).
    split_and!; [done|done|done|by apply IHt].
  - destruct Hwf as (Hst & _ & Hwf); intros (p & Hp & Hpl & Hc & Hall).
    apply (inline_reads d s f size stride p l); try done; lia.
Qed.

Lemma vstored_reads t : forall d s,
  len d < 2 ^ 31 -> obj_wf t -> vstored d s t -> vreads (view_of d s (osize t)) t.
Proof.
  induction t as [size fs IH] using vobj_rect_all; intros d s Hd (Hsz & Hc & Hwf) (Hs & Hl & Hall); cbn [vreads osize].
  split; [done|]; induction fs as [|[f x] fs IHfs]; cbn [all field_cells map cells_ok fst snd] in *; [done|].
  destruct IH as [IHx IH], Hc as (Hf & Hw & Hfw & _ & Hc), Hwf as [Hwx Hwf], Hall as [Hcx Hall].
  split; [|by apply IHfs]; apply vcell_reads; try done.
  destruct x as [| |t|sz l|]; cbn [vfield_all] in *; try done; [intros p; by apply IHx|].
  eapply all_mono; [|exact IHx]; intros t Ht p; by apply Ht.
Qed.

(** ** Properties *)

(** A finished document wraps as the object at its root. *)
Lemma finished_wraps s a :
  HeaderSize <= root a -> root a + V1View.Size s <= len (bytes a) -> len (bytes a) < 2 ^ 31 -> 1 <= V1View.Size s ->
  sub (bytes a) 0 6 = sub (bytes (fresh_doc Version2)) 0 6 ->
  let d := bytes (a_finish a) in
  rd 1 d (root a) = Kind s ->
  Wrap s d = Ret (Ok (view_of d (root a) (V1View.Size s))) /\ PeekKind d = Ret (Ok (Kind s)).
Proof.
  intros Hr Hl Hd Hs Hh d Hk; unfold HeaderSize in *.
  assert (Hld : len d = len (bytes a)) by (apply len_finish; unfold HeaderSize; lia).
  destruct (finish_parses a Version2) as [Hp Hroot]; [unfold HeaderSize; lia|lia|done|by right|]; fold d in Hp, Hroot.
  assert (Hph : ParseHeader d = Ret (Ok (d, root a))).
  { rewrite ParseHeader_mirrors_Parse, Hp; cbn [mbind outcome_bind]; by rewrite Hroot. }
  split.
  - destruct (Wrap_total s d Hs) as [(e & _ & Hno)|(d' & r' & (Hp' & _) & _ & ->)].
    + destruct (Hno d (root a)); split_and!; [done|lia|done].
    + rewrite Hph in Hp'; by injection Hp' as <- <-.
  - unfold PeekKind; rewrite Hph; cbn [mbind outcome_bind]; guard_false.
    destruct (index_rd d (root a)) as (x & -> & Hx); [lia|]; cbn [mbind outcome_bind]; by rewrite Hx, Hk.
Qed.

(** Both forms of building, from what the builder does in each. *)
Lemma build_forms s init b0 b1 b2 b3 b4 d :
  let ob := mkObjectBuilder HeaderSize (V1View.Size s) in
  NewBuilder (HeaderSize + V1View.Size s) = Ret b0 -> StartObject b0 (V1View.Size s) = Ret (ob, b1) ->
  SetUint8 ob b1 0 (Kind s) = Ret b2 -> init ob b2 = Ret b3 ->
  Builder_Finish (mkBuilder (buf b3) (pos b3) HeaderSize) = Ret (d, b4) ->
  0 <= V1View.Size s -> HeaderSize + V1View.Size s <= len d ->
  let v := view_of d HeaderSize (V1View.Size s) in
  Build s init = Ret (v, d) /\ (x ← NewBuilderFor s; b ← init x.2 x.1; Finish s b x.2) = Ret (v, d).
Proof.
  intros ob E0 E1 E2 E3 E4 Hs Hl v; unfold HeaderSize in Hl.
  assert (Hraw : RawFromSlices d HeaderSize (HeaderSize + V1View.Size s) = Ret v) by (apply RawFromSlices_ok; unfold HeaderSize; lia).
  unfold Build, NewBuilderFor, startBuild, Finish, finishBuild, viewAt; rewrite E0; cbn [mbind outcome_bind]; rewrite E1.
  cbn [mbind outcome_bind fst snd]; rewrite E2; cbn [mbind outcome_bind fst snd]; rewrite E3; cbn [mbind outcome_bind].
  unfold FinishAsRoot, ObjectBuilder_Finish; cbn [startPos ob]; rewrite E4; cbn [mbind outcome_bind fst snd].
  unfold HeaderSize in *; guard_false; by rewrite Hraw.
Qed.

(** The buffer a builder finishes with has the whole value at its root. *)
Lemma build_stored s fs :
  let t := VObj (V1View.Size s) ((0, VUint 1 (Kind s)) :: fs) in
  let init := set_all (write_field set_obj osize (V1View.Size s)) fs in
  obj_wf t ->
  exists a, root a = HeaderSize /\ vstored (bytes a) HeaderSize t
    /\ sub (bytes a) 0 6 = sub (bytes (fresh_doc Version2)) 0 6
    /\ let d := bytes (a_finish a) in
       let v := view_of d HeaderSize (V1View.Size s) in
       Build s init = Ret (v, d) /\ (x ← NewBuilderFor s; b ← init x.2 x.1; Finish s b x.2) = Ret (v, d).
Proof.
  intros t init Hwf; destruct (newBuilder_holds (HeaderSize + V1View.Size s) Version2) as (b0 & Hb0 & H0).
  pose proof (len_fresh Version2) as Hl0; set (size := V1View.Size s) in *; pose proof (osize_pos t Hwf) as Hsz; cbn [osize t] in Hsz.
  destruct (start_fills (set_obj t) size (fun d s => vstored d s t) b0 (fresh_doc Version2)) as (b1 & b3 & a & Es & E & H & Hr & Ht & Hst);
    [exact (set_obj_fills t Hwf)|done|lia|lia|]; rewrite Hl0 in *.
  change (HeaderSize + a_padding HeaderSize) with HeaderSize in *; set (ob := mkObjectBuilder HeaderSize size) in *.
  destruct (vstored_inside t _ _ Hwf Hst) as (_ & Hin & _); cbn [osize t] in Hin; set (a' := mkDoc (bytes a) HeaderSize).
  assert (Hl : HeaderSize <= len (bytes a')) by (cbn [bytes a']; lia).
  destruct (Finish_holds (mkBuilder (buf b3) (pos b3) HeaderSize) a') as (b4 & E4 & _); [|done|].
  { destruct H as (? & ? & _); split; [done|split; done]. }
  cbn [set_obj t set_all write_field] in E; fold init in E.
  rewrite Write_resolved in E by (destruct Hwf as (_ & _ & Hk & _); exact Hk).
  destruct (set_resolved ob b1 0 (RUint 1 (Kind s))) as [b2|] eqn:E2; [|discriminate]; cbn [mbind outcome_bind] in E.
  exists a'; split; [done|split; [done|split]].
  - apply (proj2 Ht); [lia|rewrite Hl0; unfold HeaderSize; lia|done].
  - apply (build_forms s init b0 b1 b2 b3 b4); try done; fold size; [lia|rewrite len_finish by done; exact Hin].
Qed.

(** C14: what the typed writers build, the typed readers read. For every schema and
    every value that fits it (integers, text, nested objects, lists of nested
    objects and inline lists whose stride is a multiple of the alignment, to any
    depth, at disjoint offsets that leave the kind byte alone), [Build] and the
    imperative builder give the same buffer and view without panic; when the
    buffer is shorter than 2 GiB, [Wrap] on it gives that view, [PeekKind] the
    schema's kind, and the accessors every field of every nested object. *)
Theorem v1_roundtrip s fs :
  let t := VObj (V1View.Size s) ((0, VUint 1 (Kind s)) :: fs) in
  let init := set_all (write_field set_obj osize (V1View.Size s)) fs in
  obj_wf t ->
  exists v d, Build s init = Ret (v, d)
    /\ (x ← NewBuilderFor s; b ← init x.2 x.1; Finish s b x.2) = Ret (v, d)
    /\ (len d < 2 ^ 31 -> Wrap s d = Ret (Ok v) /\ PeekKind d = Ret (Ok (Kind s)) /\ vreads v t).
Proof.
  intros t init Hwf; destruct (build_stored s fs Hwf) as (a & Hr & Hst & H6 & Hb & Hb'); fold t init in Hst, Hb, Hb'.
  destruct (vstored_inside t _ _ Hwf Hst) as (_ & Hin & _); cbn [osize t] in Hin; pose proof (osize_pos t Hwf) as Hsz; cbn [osize t] in Hsz.
  eexists _, _; split; [exact Hb|split; [exact Hb'|]]; rewrite len_finish by lia; intros Hlen.
  assert (Hst' : vstored (bytes (a_finish a)) HeaderSize t).
  { apply (vstored_frame t (bytes a)); [done| |done]; destruct (keeps_finish a) as [Hle Hk]; [lia|].
    split; [done|]; intros lo n Hlo Hn; apply Hk; [by left|done]. }
  assert (Hk : rd 1 (bytes (a_finish a)) (root a) = Kind s).
  { destruct Hst' as (_ & _ & Hkind & _), Hwf as (_ & _ & [_ Hk] & _); cbn [vcell fst snd] in Hkind.
    rewrite Hr, <- (Z.add_0_r HeaderSize); apply rd_le_bytes in Hkind; [|lia]; rewrite Hkind; by apply Z.mod_small. }
  destruct (finished_wraps s a) as [Hw Hpk]; try done; rewrite ?Hr in *; try lia.
  split; [exact Hw|split; [exact Hpk|]]; apply (vstored_reads t); [by rewrite len_finish by lia|done|done].
Qed.

(** An element of an inline list starts at a multiple of the alignment, but the
    reader takes the schema's size for the distance between elements. With
    elements of twelve bytes the second one, written as 2, reads as 0. *)
Theorem v1_inline_list_misaligned :
  let s := mkSchema 1 16 [] in
  let init := WriteList s (plain 12) 8 [Write 4 0 1; Write 4 0 2] in
  (x ← Build s init; l ← ListAt (plain 12) x.1 8;
   a ← At (plain 12) l 0; b ← At (plain 12) l 1; ra ← Read 4 a 0; rb ← Read 4 b 0;
   Ret (VList_Len l, ra, rb)) = Ret (2, 1, 0).
Proof. vm_compute; reflexivity. Qed.

(** ** Witness *)

Definition leaf (x : Z) : vobj := VObj 12 [(0, VUint 4 x); (4, VText [Byte.x61; Byte.x62])].
Definition sample_schema : Schema := mkSchema 7 40 [].
Definition sample_fields : list (Z * vfield vobj) :=
  [(1, VUint 1 9); (8, VText []); (4, VNested (leaf 3)); (16, VNestedList 12 [leaf 5; leaf 6]);
   (24, VInline 8 [[(0, (4, 1)); (4, (2, 2))]; [(0, (8, 2 ^ 63))]]); (32, VInline 16 [])].

Lemma v1_roundtrip_witness :
  exists v d, Build sample_schema (set_all (write_field set_obj osize 40) sample_fields) = Ret (v, d)
    /\ Wrap sample_schema d = Ret (Ok v) /\ vreads v (VObj 40 ((0, VUint 1 7) :: sample_fields)).
Proof.
  destruct (v1_roundtrip sample_schema sample_fields) as (v & d & Hb & _ & H).
  - simpl; unfold elem_wf; simpl; split_and!; first [exact I|reflexivity|unfold scalar_wf; lia].
  - change (V1View.Size sample_schema) with 40 in Hb; exists v, d; split; [exact Hb|].
    assert (Hl : (x ← Build sample_schema (set_all (write_field set_obj osize 40) sample_fields); Ret (len x.2 <? 2 ^ 31)) = Ret true)
      by (vm_compute; reflexivity).
    rewrite Hb in Hl; cbn [mbind outcome_bind snd] in Hl; injection Hl as Hl; apply Z.ltb_lt in Hl.
    destruct (H Hl) as (Hw & _ & Hr); split; [exact Hw|exact Hr].
Defined.
