(* ===== verification/DexWire.v ===== *)
(** * DexWire: the envelopes of [dexsession]

    [wire.go], [wire_intent.go] and the frames of [v4route.go]: the values of
    the DEX session protocol, how each is laid out in a message, and the
    identifiers derived from them. A Go array [[n]byte] is a byte list; [is_ID]
    and [is_Account] say that it has the array's length. *)

From S2P Require Import Prelude Wire Builder BuilderSpec Roundtrip Envelope Sha256.
From Stdlib Require String.
Import String.StringSyntax.
Local Delimit Scope string_scope with string.

Definition Account : Type := list byte.
Definition ID : Type := list byte.
Definition is_Account (a : Account) : Prop := len a = 20.
Definition is_ID (i : ID) : Prop := len i = 32.
Definition ZeroID : ID := zeros 32.

(** ** Message types *)

Definition MsgQuote : Z := 0xA0.
Definition MsgGetState : Z := 0xA1.
Definition MsgPrepare : Z := 0xA2.
Definition MsgNotify : Z := 0xA3.
Definition MsgWatchPoll : Z := 0xA4.
Definition MsgImport : Z := 0xA5.
Definition MsgPipeline : Z := 0xA6.
Definition MsgAdminHalt : Z := 0xA7.
Definition MsgWatchPush : Z := 0xA8.
Definition MsgRoutePrepare : Z := 0xA9.
Definition MsgRouteStatus : Z := 0xAA.

(** ** Quotes *)

Record QuoteRequest : Type := mkQuoteRequest {
  qReq_MarketID : ID;
  qReq_AmountIn : Z;
  qReq_ZeroForOne : bool
}.

Definition qReqMarket := 0.
Definition qReqAmount := 32.
Definition qReqZForOne := 40.
Definition qReqSize := 48.
#[export] Hint Unfold is_ID is_Account qReqMarket qReqAmount qReqZForOne qReqSize : wire.

Definition buildQuoteRequest (r : QuoteRequest) : outcome (result Message zap_error) :=
  build_flat (qReqSize + 40) qReqSize (tag MsgQuote)
    [fFixed qReqMarket (qReq_MarketID r);
     fUint64 qReqAmount (qReq_AmountIn r);
     fBool qReqZForOne (qReq_ZeroForOne r)].

Definition readQuoteRequest (m : Message) : outcome QuoteRequest :=
  r ← Message_Root m;
  market ← copyFixed r qReqMarket 32;
  amountIn ← Object_Uint64 r qReqAmount;
  zeroForOne ← Object_Bool r qReqZForOne;
  Ret (mkQuoteRequest market amountIn zeroForOne).

Definition QuoteRequest_env : Envelope QuoteRequest := {|
  typed r := is_ID (qReq_MarketID r) /\ 0 <= qReq_AmountIn r < 2 ^ 64;
  build := buildQuoteRequest;
  read := readQuoteRequest;
  norm r := r;
  env_flags := tag MsgQuote;
  env_size r := 16 + qReqSize
|}.

#[export] Hint Unfold buildQuoteRequest readQuoteRequest QuoteRequest_env : envelope.
#[export] Instance QuoteRequest_laws : EnvelopeLaws QuoteRequest_env.
Proof. envelope. Qed.

Record QuoteResult : Type := mkQuoteResult {
  qRes_MarketID : ID;
  qRes_AmountIn : Z;
  qRes_AmountOut : Z;
  qRes_BestPricePx : Z;
  qRes_Liquid : bool
}.

Definition qResMarket := 0.
Definition qResIn := 32.
Definition qResOut := 40.
Definition qResPrice := 48.
Definition qResLiquid := 56.
Definition qResSize := 64.
#[export] Hint Unfold qResMarket qResIn qResOut qResPrice qResLiquid qResSize : wire.

Definition buildQuoteResult (r : QuoteResult) : outcome (result Message zap_error) :=
  build_flat (qResSize + 40) qResSize (tag MsgQuote)
    [fFixed qResMarket (qRes_MarketID r);
     fUint64 qResIn (qRes_AmountIn r);
     fUint64 qResOut (qRes_AmountOut r);
     fUint64 qResPrice (qRes_BestPricePx r);
     fBool qResLiquid (qRes_Liquid r)].

Definition readQuoteResult (m : Message) : outcome QuoteResult :=
  r ← Message_Root m;
  market ← copyFixed r qResMarket 32;
  amountIn ← Object_Uint64 r qResIn;
  amountOut ← Object_Uint64 r qResOut;
  bestPricePx ← Object_Uint64 r qResPrice;
  liquid ← Object_Bool r qResLiquid;
  Ret (mkQuoteResult market amountIn amountOut bestPricePx liquid).

Definition QuoteResult_env : Envelope QuoteResult := {|
  typed r := is_ID (qRes_MarketID r) /\ 0 <= qRes_AmountIn r < 2 ^ 64
    /\ 0 <= qRes_AmountOut r < 2 ^ 64 /\ 0 <= qRes_BestPricePx r < 2 ^ 64;
  build := buildQuoteResult;
  read := readQuoteResult;
  norm r := r;
  env_flags := tag MsgQuote;
  env_size r := 16 + qResSize
|}.

#[export] Hint Unfold buildQuoteResult readQuoteResult QuoteResult_env : envelope.
#[export] Instance QuoteResult_laws : EnvelopeLaws QuoteResult_env.
Proof. envelope. Qed.

(** ** State queries *)

Definition StateMarket : Z := 0.
Definition StateBalance : Z := 1.
Definition StateIntent : Z := 2.

Record StateRequest : Type := mkStateRequest {
  sReq_Kind : Z;
  sReq_MarketID : ID;
  sReq_Account : Account;
  sReq_Asset : ID;
  sReq_IntentID : ID
}.

Record StateResult : Type := mkStateResult {
  sRes_Kind : Z;
  sRes_Exists : bool;
  sRes_BaseID : ID;
  sRes_QuoteID : ID;
  sRes_Available : Z;
  sRes_Known : bool
}.

Definition sReqKind := 0.
Definition sReqMarket := 8.
Definition sReqAccount := 40.
Definition sReqAsset := 60.
Definition sReqIntent := 92.
Definition sReqSize := 124.
#[export] Hint Unfold sReqKind sReqMarket sReqAccount sReqAsset sReqIntent sReqSize : wire.

Definition buildStateRequest (r : StateRequest) : outcome (result Message zap_error) :=
  build_flat (sReqSize + 128) sReqSize (tag MsgGetState)
    [fUint8 sReqKind (sReq_Kind r);
     fFixed sReqMarket (sReq_MarketID r);
     fFixed sReqAccount (sReq_Account r);
     fFixed sReqAsset (sReq_Asset r);
     fFixed sReqIntent (sReq_IntentID r)].

Definition readStateRequest (m : Message) : outcome StateRequest :=
  r ← Message_Root m;
  kind ← Object_Uint8 r sReqKind;
  market ← copyFixed r sReqMarket 32;
  account ← copyFixed r sReqAccount 20;
  asset ← copyFixed r sReqAsset 32;
  intent ← copyFixed r sReqIntent 32;
  Ret (mkStateRequest kind market account asset intent).

Definition StateRequest_env : Envelope StateRequest := {|
  typed r := 0 <= sReq_Kind r < 2 ^ 8 /\ is_ID (sReq_MarketID r)
    /\ is_Account (sReq_Account r) /\ is_ID (sReq_Asset r) /\ is_ID (sReq_IntentID r);
  build := buildStateRequest;
  read := readStateRequest;
  norm r := r;
  env_flags := tag MsgGetState;
  env_size r := 16 + sReqSize
|}.

#[export] Hint Unfold buildStateRequest readStateRequest StateRequest_env : envelope.
#[export] Instance StateRequest_laws : EnvelopeLaws StateRequest_env.
Proof. envelope. Qed.

Definition sResKind := 0.
Definition sResExists := 1.
Definition sResKnown := 2.
Definition sResAvail := 8.
Definition sResBase := 16.
Definition sResQuote := 48.
Definition sResSize := 80.
#[export] Hint Unfold sResKind sResExists sResKnown sResAvail sResBase sResQuote sResSize : wire.

Definition buildStateResult (r : StateResult) : outcome (result Message zap_error) :=
  build_flat (sResSize + 80) sResSize (tag MsgGetState)
    [fUint8 sResKind (sRes_Kind r);
     fBool sResExists (sRes_Exists r);
     fBool sResKnown (sRes_Known r);
     fUint64 sResAvail (sRes_Available r);
     fFixed sResBase (sRes_BaseID r);
     fFixed sResQuote (sRes_QuoteID r)].

Definition readStateResult (m : Message) : outcome StateResult :=
  r ← Message_Root m;
  kind ← Object_Uint8 r sResKind;
  exists_ ← Object_Bool r sResExists;
  known ← Object_Bool r sResKnown;
  available ← Object_Uint64 r sResAvail;
  base ← copyFixed r sResBase 32;
  quote ← copyFixed r sResQuote 32;
  Ret (mkStateResult kind exists_ base quote available known).

Definition StateResult_env : Envelope StateResult := {|
  typed r := 0 <= sRes_Kind r < 2 ^ 8 /\ is_ID (sRes_BaseID r) /\ is_ID (sRes_QuoteID r)
    /\ 0 <= sRes_Available r < 2 ^ 64;
  build := buildStateResult;
  read := readStateResult;
  norm r := r;
  env_flags := tag MsgGetState;
  env_size r := 16 + sResSize
|}.

#[export] Hint Unfold buildStateResult readStateResult StateResult_env : envelope.
#[export] Instance StateResult_laws : EnvelopeLaws StateResult_env.
Proof. envelope. Qed.

(** ** Swap intents *)

Record SwapIntentRequest : Type := mkSwapIntentRequest {
  sir_NetworkID : Z;
  sir_CChainID : ID;
  sir_DChainID : ID;
  sir_Account : Account;
  sir_AssetIn : ID;
  sir_AssetInAddr : Account;
  sir_AmountIn : Z;
  sir_MarketID : ID;
  sir_MinAmountOut : Z;
  sir_Recipient : Account;
  sir_Deadline : Z;
  sir_Nonce : Z
}.

Record PreparedIntent : Type := mkPreparedIntent {
  pi_To : Account;
  pi_Calldata : list byte;
  pi_HookData : list byte;
  pi_IntentID : ID;
  pi_QuotedOut : Z;
  pi_DChainID : ID;
  pi_CChainID : ID;
  pi_Account : Account;
  pi_Recipient : Account;
  pi_AssetIn : ID;
  pi_AmountIn : Z;
  pi_MarketID : ID
}.

Definition piTo := 0.
Definition piIntent := 20.
Definition piQuoted := 52.
Definition piAmountIn := 60.
Definition piDChain := 68.
Definition piCChain := 100.
Definition piAccount := 132.
Definition piRecipient := 152.
Definition piAssetIn := 172.
Definition piMarket := 204.
Definition piCalldata := 236.
Definition piHookData := 244.
Definition piSize := 252.
#[export] Hint Unfold piTo piIntent piQuoted piAmountIn piDChain piCChain piAccount piRecipient piAssetIn piMarket piCalldata piHookData piSize : wire.

(** The same payload travels under [MsgPrepare] and [MsgNotify]. *)
Definition buildPreparedIntent (r : PreparedIntent) (msgType : Z) : outcome (result Message zap_error) :=
  build_flat (piSize + len (pi_Calldata r) + len (pi_HookData r) + 256) piSize (tag msgType)
    [fFixed piTo (pi_To r);
     fFixed piIntent (pi_IntentID r);
     fUint64 piQuoted (pi_QuotedOut r);
     fUint64 piAmountIn (pi_AmountIn r);
     fFixed piDChain (pi_DChainID r);
     fFixed piCChain (pi_CChainID r);
     fFixed piAccount (pi_Account r);
     fFixed piRecipient (pi_Recipient r);
     fFixed piAssetIn (pi_AssetIn r);
     fFixed piMarket (pi_MarketID r);
     fBytes piCalldata (pi_Calldata r);
     fBytes piHookData (pi_HookData r)].

Definition readPreparedIntent (m : Message) : outcome PreparedIntent :=
  r ← Message_Root m;
  to_ ← copyFixed r piTo 20;
  intentID_ ← copyFixed r piIntent 32;
  quotedOut_ ← Object_Uint64 r piQuoted;
  amountIn_ ← Object_Uint64 r piAmountIn;
  dChainID_ ← copyFixed r piDChain 32;
  cChainID_ ← copyFixed r piCChain 32;
  account_ ← copyFixed r piAccount 20;
  recipient_ ← copyFixed r piRecipient 20;
  assetIn_ ← copyFixed r piAssetIn 32;
  marketID_ ← copyFixed r piMarket 32;
  calldata_ ← copyBytes r piCalldata;
  hookData_ ← copyBytes r piHookData;
  Ret (mkPreparedIntent to_ calldata_ hookData_ intentID_ quotedOut_ dChainID_ cChainID_
    account_ recipient_ assetIn_ amountIn_ marketID_).

Definition PreparedIntent_env (msgType : Z) : Envelope PreparedIntent := {|
  typed r := is_Account (pi_To r) /\ is_ID (pi_IntentID r) /\ 0 <= pi_QuotedOut r < 2 ^ 64
    /\ is_ID (pi_DChainID r) /\ is_ID (pi_CChainID r) /\ is_Account (pi_Account r)
    /\ is_Account (pi_Recipient r) /\ is_ID (pi_AssetIn r) /\ 0 <= pi_AmountIn r < 2 ^ 64
    /\ is_ID (pi_MarketID r);
  build r := buildPreparedIntent r msgType;
  read := readPreparedIntent;
  norm r := r;
  env_flags := tag msgType;
  env_size r := 16 + piSize + len (pi_Calldata r) + len (pi_HookData r)
|}.
#[export] Hint Unfold buildPreparedIntent readPreparedIntent PreparedIntent_env : envelope.

#[export] Instance PreparedIntent_laws msgType : EnvelopeLaws (PreparedIntent_env msgType).
Proof. envelope. Qed.

Definition sirNet := 0.
Definition sirAmountIn := 8.
Definition sirMinOut := 16.
Definition sirDeadline := 24.
Definition sirNonce := 32.
Definition sirCChain := 40.
Definition sirDChain := 72.
Definition sirAccount := 104.
Definition sirAssetIn := 124.
Definition sirAssetAddr := 156.
Definition sirMarket := 176.
Definition sirRecipient := 208.
Definition sirSize := 228.
#[export] Hint Unfold sirNet sirAmountIn sirMinOut sirDeadline sirNonce sirCChain sirDChain sirAccount sirAssetIn sirAssetAddr sirMarket sirRecipient sirSize : wire.

Definition buildSwapIntentRequest (r : SwapIntentRequest) : outcome (result Message zap_error) :=
  build_flat (sirSize + 256) sirSize (tag MsgPrepare)
    [fUint32 sirNet (sir_NetworkID r);
     fUint64 sirAmountIn (sir_AmountIn r);
     fUint64 sirMinOut (sir_MinAmountOut r);
     fUint64 sirDeadline (sir_Deadline r);
     fUint64 sirNonce (sir_Nonce r);
     fFixed sirCChain (sir_CChainID r);
     fFixed sirDChain (sir_DChainID r);
     fFixed sirAccount (sir_Account r);
     fFixed sirAssetIn (sir_AssetIn r);
     fFixed sirAssetAddr (sir_AssetInAddr r);
     fFixed sirMarket (sir_MarketID r);
     fFixed sirRecipient (sir_Recipient r)].

Definition readSwapIntentRequest (m : Message) : outcome SwapIntentRequest :=
  r ← Message_Root m;
  networkID_ ← Object_Uint32 r sirNet;
  amountIn_ ← Object_Uint64 r sirAmountIn;
  minAmountOut_ ← Object_Uint64 r sirMinOut;
  deadline_ ← Object_Uint64 r sirDeadline;
  nonce_ ← Object_Uint64 r sirNonce;
  cChainID_ ← copyFixed r sirCChain 32;
  dChainID_ ← copyFixed r sirDChain 32;
  account_ ← copyFixed r sirAccount 20;
  assetIn_ ← copyFixed r sirAssetIn 32;
  assetInAddr_ ← copyFixed r sirAssetAddr 20;
  marketID_ ← copyFixed r sirMarket 32;
  recipient_ ← copyFixed r sirRecipient 20;
  Ret (mkSwapIntentRequest networkID_ cChainID_ dChainID_ account_ assetIn_ assetInAddr_
    amountIn_ marketID_ minAmountOut_ recipient_ deadline_ nonce_).

Definition SwapIntentRequest_env : Envelope SwapIntentRequest := {|
  typed r := 0 <= sir_NetworkID r < 2 ^ 32 /\ is_ID (sir_CChainID r)
    /\ is_ID (sir_DChainID r) /\ is_Account (sir_Account r) /\ is_ID (sir_AssetIn r)
    /\ is_Account (sir_AssetInAddr r) /\ 0 <= sir_AmountIn r < 2 ^ 64
    /\ is_ID (sir_MarketID r) /\ 0 <= sir_MinAmountOut r < 2 ^ 64
    /\ is_Account (sir_Recipient r) /\ 0 <= sir_Deadline r < 2 ^ 64
    /\ 0 <= sir_Nonce r < 2 ^ 64;
  build := buildSwapIntentRequest;
  read := readSwapIntentRequest;
  norm r := r;
  env_flags := tag MsgPrepare;
  env_size r := 16 + sirSize
|}.
#[export] Hint Unfold buildSwapIntentRequest readSwapIntentRequest SwapIntentRequest_env : envelope.

#[export] Instance SwapIntentRequest_laws : EnvelopeLaws SwapIntentRequest_env.
Proof. envelope. Qed.

(** ** The export pointer *)

Record DExportRef : Type := mkDExportRef {
  der_SourceChainID : ID;
  der_SourceTxID : ID;
  der_OutputIndex : Z;
  der_IntentID : ID
}.

Definition derIndex := 0.
Definition derChain := 8.
Definition derTx := 40.
Definition derIntent := 72.
Definition derSize := 104.
#[export] Hint Unfold derIndex derChain derTx derIntent derSize : wire.

Definition buildDExportRef (r : DExportRef) : outcome (result Message zap_error) :=
  build_flat (derSize + 120) derSize (tag MsgImport)
    [fUint32 derIndex (der_OutputIndex r);
     fFixed derChain (der_SourceChainID r);
     fFixed derTx (der_SourceTxID r);
     fFixed derIntent (der_IntentID r)].

Definition readDExportRef (m : Message) : outcome DExportRef :=
  r ← Message_Root m;
  outputIndex_ ← Object_Uint32 r derIndex;
  sourceChainID_ ← copyFixed r derChain 32;
  sourceTxID_ ← copyFixed r derTx 32;
  intentID_ ← copyFixed r derIntent 32;
  Ret (mkDExportRef sourceChainID_ sourceTxID_ outputIndex_ intentID_).

Definition DExportRef_env : Envelope DExportRef := {|
  typed r := is_ID (der_SourceChainID r) /\ is_ID (der_SourceTxID r)
    /\ 0 <= der_OutputIndex r < 2 ^ 32 /\ is_ID (der_IntentID r);
  build := buildDExportRef;
  read := readDExportRef;
  norm r := r;
  env_flags := tag MsgImport;
  env_size r := 16 + derSize
|}.
#[export] Hint Unfold buildDExportRef readDExportRef DExportRef_env : envelope.

#[export] Instance DExportRef_laws : EnvelopeLaws DExportRef_env.
Proof. envelope. Qed.

(** ** Watches *)

Definition PhasePending : Z := 0.
Definition PhaseMatching : Z := 1.
Definition PhaseCommitted : Z := 2.
Definition PhaseRejected : Z := 3.
Definition PhaseUnknown : Z := 4.

Record IntentStatus : Type := mkIntentStatus {
  is_IntentID : ID;
  is_Phase : Z;
  is_Ref : DExportRef;
  is_Reason : list byte;
  is_MatchedOut : Z
}.

Definition isPhase := 0.
Definition isIndex := 4.
Definition isIntent := 8.
Definition isChain := 40.
Definition isTx := 72.
Definition isMatched := 104.
Definition isReason := 112.
Definition isSize := 120.
#[export] Hint Unfold isPhase isIndex isIntent isChain isTx isMatched isReason isSize : wire.

Definition buildIntentStatus (s : IntentStatus) : outcome (result Message zap_error) :=
  build_flat (isSize + len (is_Reason s) + 160) isSize (tag MsgWatchPoll)
    [fUint8 isPhase (is_Phase s);
     fUint32 isIndex (der_OutputIndex (is_Ref s));
     fFixed isIntent (is_IntentID s);
     fFixed isChain (der_SourceChainID (is_Ref s));
     fFixed isTx (der_SourceTxID (is_Ref s));
     fUint64 isMatched (is_MatchedOut s);
     fText isReason (is_Reason s)].

(** The reference's intent is the status's. *)
Definition readIntentStatus (m : Message) : outcome IntentStatus :=
  r ← Message_Root m;
  phase ← Object_Uint8 r isPhase;
  intent ← copyFixed r isIntent 32;
  index ← Object_Uint32 r isIndex;
  chain ← copyFixed r isChain 32;
  tx ← copyFixed r isTx 32;
  matched ← Object_Uint64 r isMatched;
  reason ← Object_Text r isReason;
  Ret (mkIntentStatus intent phase (mkDExportRef chain tx index intent) reason matched).

Definition typed_ref (r : DExportRef) : Prop := typed DExportRef_env r.
#[export] Hint Unfold typed_ref : envelope.

(** A reference that names the intent [i]. *)
Definition rebind (r : DExportRef) (i : ID) : DExportRef :=
  mkDExportRef (der_SourceChainID r) (der_SourceTxID r) (der_OutputIndex r) i.

Definition IntentStatus_env : Envelope IntentStatus := {|
  typed s := is_ID (is_IntentID s) /\ 0 <= is_Phase s < 2 ^ 8 /\ typed_ref (is_Ref s)
    /\ 0 <= is_MatchedOut s < 2 ^ 64;
  build := buildIntentStatus;
  read := readIntentStatus;
  norm s := mkIntentStatus (is_IntentID s) (is_Phase s) (rebind (is_Ref s) (is_IntentID s))
              (is_Reason s) (is_MatchedOut s);
  env_flags := tag MsgWatchPoll;
  env_size s := 16 + isSize + len (is_Reason s)
|}.
#[export] Hint Unfold buildIntentStatus readIntentStatus IntentStatus_env : envelope.

#[export] Instance IntentStatus_laws : EnvelopeLaws IntentStatus_env.
Proof. envelope. Qed.

Record IntentWatchRef : Type := mkIntentWatchRef { iw_IntentID : ID }.

Definition iwIntent := 0.
Definition iwSize := 32.
#[export] Hint Unfold iwIntent iwSize : wire.

Definition buildIntentWatchRef (w : IntentWatchRef) : outcome (result Message zap_error) :=
  build_flat (iwSize + 40) iwSize (tag MsgNotify) [fFixed iwIntent (iw_IntentID w)].

Definition readIntentWatchRef (m : Message) : outcome IntentWatchRef :=
  r ← Message_Root m;
  id ← copyFixed r iwIntent 32;
  Ret (mkIntentWatchRef id).

Definition IntentWatchRef_env : Envelope IntentWatchRef := {|
  typed w := is_ID (iw_IntentID w);
  build := buildIntentWatchRef;
  read := readIntentWatchRef;
  norm w := w;
  env_flags := tag MsgNotify;
  env_size w := 16 + iwSize
|}.
#[export] Hint Unfold buildIntentWatchRef readIntentWatchRef IntentWatchRef_env : envelope.

#[export] Instance IntentWatchRef_laws : EnvelopeLaws IntentWatchRef_env.
Proof. envelope. Qed.

Definition buildWatchPollRequest (intentID : ID) : outcome (result Message zap_error) :=
  build_flat (iwSize + 40) iwSize (tag MsgWatchPoll) [fFixed iwIntent intentID].

Definition readWatchPollRequest (m : Message) : outcome ID :=
  r ← Message_Root m;
  id ← copyFixed r iwIntent 32;
  Ret id.

Definition WatchPollRequest_env : Envelope ID := {|
  typed i := is_ID i;
  build := buildWatchPollRequest;
  read := readWatchPollRequest;
  norm i := i;
  env_flags := tag MsgWatchPoll;
  env_size i := 16 + iwSize
|}.
#[export] Hint Unfold buildWatchPollRequest readWatchPollRequest WatchPollRequest_env : envelope.

#[export] Instance WatchPollRequest_laws : EnvelopeLaws WatchPollRequest_env.
Proof. envelope. Qed.

(** ** Settlement results *)

Definition SettleCalldata : Z := 0.
Definition SettleSubmitted : Z := 1.

Record SettlementSubmitResult : Type := mkSettlementSubmitResult {
  ss_Mode : Z;
  ss_To : Account;
  ss_Calldata : list byte;
  ss_ObjectKey : ID;
  ss_CTxHash : ID
}.

Definition ssMode := 0.
Definition ssTo := 8.
Definition ssObjKey := 28.
Definition ssCTx := 60.
Definition ssCall := 92.
Definition ssSize := 100.
#[export] Hint Unfold ssMode ssTo ssObjKey ssCTx ssCall ssSize : wire.

Definition buildSettlementResult (r : SettlementSubmitResult) : outcome (result Message zap_error) :=
  build_flat (ssSize + len (ss_Calldata r) + 120) ssSize (tag MsgImport)
    [fUint8 ssMode (ss_Mode r);
     fFixed ssTo (ss_To r);
     fFixed ssObjKey (ss_ObjectKey r);
     fFixed ssCTx (ss_CTxHash r);
     fBytes ssCall (ss_Calldata r)].

Definition readSettlementResult (m : Message) : outcome SettlementSubmitResult :=
  r ← Message_Root m;
  mode_ ← Object_Uint8 r ssMode;
  to_ ← copyFixed r ssTo 20;
  objectKey_ ← copyFixed r ssObjKey 32;
  cTxHash_ ← copyFixed r ssCTx 32;
  calldata_ ← copyBytes r ssCall;
  Ret (mkSettlementSubmitResult mode_ to_ calldata_ objectKey_ cTxHash_).

Definition SettlementSubmitResult_env : Envelope SettlementSubmitResult := {|
  typed r := 0 <= ss_Mode r < 2 ^ 8 /\ is_Account (ss_To r) /\ is_ID (ss_ObjectKey r)
    /\ is_ID (ss_CTxHash r);
  build := buildSettlementResult;
  read := readSettlementResult;
  norm r := r;
  env_flags := tag MsgImport;
  env_size r := 16 + ssSize + len (ss_Calldata r)
|}.
#[export] Hint Unfold buildSettlementResult readSettlementResult SettlementSubmitResult_env : envelope.

#[export] Instance SettlementSubmitResult_laws : EnvelopeLaws SettlementSubmitResult_env.
Proof. envelope. Qed.

(** ** Routes *)

Record RouteRequest : Type := mkRouteRequest {
  rr_NetworkID : Z;
  rr_CChainID : ID;
  rr_DChainID : ID;
  rr_Account : Account;
  rr_AssetIn : ID;
  rr_AssetInAddr : Account;
  rr_AmountIn : Z;
  rr_Path : list ID;
  rr_MinAmountOut : Z;
  rr_Recipient : Account;
  rr_Deadline : Z;
  rr_CallIndex : Z
}.

Definition firstMarket (r : RouteRequest) : option ID := head (rr_Path r).

Definition RoutePending : Z := 0.
Definition RouteHopping : Z := 1.
Definition RouteCommitted : Z := 2.
Definition RouteRefunded : Z := 3.
Definition RouteRejected : Z := 4.
Definition RouteUnknown : Z := 5.

Record RouteStatus : Type := mkRouteStatus {
  rs_IntentID : ID;
  rs_Phase : Z;
  rs_HopIndex : Z;
  rs_HopCount : Z;
  rs_HopAmountOut : Z;
  rs_FinalOut : Z;
  rs_Ref : DExportRef;
  rs_Reason : list byte
}.

Definition rrNet := 0.
Definition rrCallIdx := 4.
Definition rrHopCount := 8.
Definition rrAmountIn := 16.
Definition rrMinOut := 24.
Definition rrDeadline := 32.
Definition rrCChain := 40.
Definition rrDChain := 72.
Definition rrAccount := 104.
Definition rrAssetIn := 124.
Definition rrAssetAddr := 156.
Definition rrRecipient := 176.
Definition rrPath := 196.
Definition rrSize := 204.
#[export] Hint Unfold rrNet rrCallIdx rrHopCount rrAmountIn rrMinOut rrDeadline rrCChain rrDChain rrAccount rrAssetIn rrAssetAddr rrRecipient rrPath rrSize : wire.

(** The path is the markets one after the other, and their number. *)
Definition buildRouteRequest (r : RouteRequest) : outcome (result Message zap_error) :=
  let pathBytes := concat (rr_Path r) in
  build_flat (rrSize + len pathBytes + 128) rrSize (tag MsgRoutePrepare)
    [fUint32 rrNet (rr_NetworkID r);
     fUint32 rrCallIdx (rr_CallIndex r);
     fUint32 rrHopCount (u32 (len (rr_Path r)));
     fUint64 rrAmountIn (rr_AmountIn r);
     fUint64 rrMinOut (rr_MinAmountOut r);
     fUint64 rrDeadline (rr_Deadline r);
     fFixed rrCChain (rr_CChainID r);
     fFixed rrDChain (rr_DChainID r);
     fFixed rrAccount (rr_Account r);
     fFixed rrAssetIn (rr_AssetIn r);
     fFixed rrAssetAddr (rr_AssetInAddr r);
     fFixed rrRecipient (rr_Recipient r);
     fBytes rrPath pathBytes].

(** [for i := 0; i < hopCount; i++ { copy(out.Path[i][:], pathBytes[i*32:(i+1)*32]) }] *)
Fixpoint read_path (hopCount : nat) (i : Z) (pathBytes : list byte) : outcome (list ID) :=
  match hopCount with
  | O => Ret []
  | S n =>
      s ← slice pathBytes (i * 32) ((i + 1) * 32);
      rest ← read_path n (i + 1) pathBytes;
      Ret (to_array 32 s :: rest)
  end.

(** The declared hop count is cut to what the bytes carry. *)
Definition readRouteRequest (m : Message) : outcome RouteRequest :=
  r ← Message_Root m;
  net ← Object_Uint32 r rrNet;
  callIndex ← Object_Uint32 r rrCallIdx;
  hopCount ← Object_Uint32 r rrHopCount;
  amountIn ← Object_Uint64 r rrAmountIn;
  minOut ← Object_Uint64 r rrMinOut;
  deadline ← Object_Uint64 r rrDeadline;
  cChain ← copyFixed r rrCChain 32;
  dChain ← copyFixed r rrDChain 32;
  account ← copyFixed r rrAccount 20;
  assetIn ← copyFixed r rrAssetIn 32;
  assetAddr ← copyFixed r rrAssetAddr 20;
  recipient ← copyFixed r rrRecipient 20;
  pathBytes ← copyBytes r rrPath;
  let hopCount := if Z.quot (len pathBytes) 32 <? hopCount then Z.quot (len pathBytes) 32
                  else hopCount in
  path ← read_path (Z.to_nat hopCount) 0 pathBytes;
  Ret (mkRouteRequest net cChain dChain account assetIn assetAddr amountIn path minOut
         recipient deadline callIndex).

Definition RouteRequest_env : Envelope RouteRequest := {|
  typed r := 0 <= rr_NetworkID r < 2 ^ 32 /\ is_ID (rr_CChainID r) /\ is_ID (rr_DChainID r)
    /\ is_Account (rr_Account r) /\ is_ID (rr_AssetIn r) /\ is_Account (rr_AssetInAddr r)
    /\ 0 <= rr_AmountIn r < 2 ^ 64 /\ Forall is_ID (rr_Path r)
    /\ 0 <= rr_MinAmountOut r < 2 ^ 64 /\ is_Account (rr_Recipient r)
    /\ 0 <= rr_Deadline r < 2 ^ 64 /\ 0 <= rr_CallIndex r < 2 ^ 32;
  build := buildRouteRequest;
  read := readRouteRequest;
  norm r := r;
  env_flags := tag MsgRoutePrepare;
  env_size r := 16 + rrSize + 32 * len (rr_Path r)
|}.
#[export] Hint Unfold buildRouteRequest readRouteRequest RouteRequest_env : envelope.

Lemma len_concat_ids path : Forall is_ID path -> len (concat path) = 32 * len path.
Proof.
  induction 1 as [|p path Hp _ IH]; simpl; [done|].
  rewrite len_app, IH, len_cons; unfold is_ID in Hp; lia.
Qed.

(** The loop reads the markets behind the first [i] back. *)
Lemma read_path_concat path pre : forall i,
  Forall is_ID path -> len pre = i * 32 -> 0 <= i ->
  read_path (length path) i (pre ++ concat path) = Ret path.
Proof.
  revert pre; induction path as [|p path IH]; intros pre i Hp Hpre Hi; simpl; [done|].
  apply Forall_cons in Hp as [Hp Hps]; unfold is_ID in Hp.
  pose proof (len_nonneg (concat path)).
  rewrite slice_ok by (rewrite ?len_app; lia); cbn [mbind outcome_bind].
  replace ((i + 1) * 32 - i * 32) with 32 by lia.
  rewrite <- Hpre, sub_app_r, Z.sub_diag, sub_app_hd by (done || lia).
  rewrite app_assoc, IH by (done || (rewrite ?len_app; lia)); cbn [mbind outcome_bind].
  rewrite to_array_id; done.
Qed.

(** Whatever the bytes, the loop over what they carry returns markets. *)
Lemma read_path_gives n : forall i pathBytes,
  0 <= i -> (i + Z.of_nat n) * 32 <= len pathBytes ->
  gives (read_path n i pathBytes) (Forall is_ID).
Proof.
  induction n as [|n IH]; intros i pathBytes Hi Hl; simpl; [apply gives_ret; constructor|].
  rewrite slice_ok by lia; cbn [mbind outcome_bind].
  eapply gives_bind; [apply IH; lia|]; intros rest Hrest; apply gives_ret.
  constructor; [apply len_to_array; lia|done].
Qed.

Lemma cut_hops n k :
  0 <= n -> 0 <= k -> 0 <= (if Z.quot n 32 <? k then Z.quot n 32 else k) * 32 <= n.
Proof.
  intros; pose proof (Z.quot_pos n 32); pose proof (Z.mul_quot_le n 32).
  case_match; lia.
Qed.

#[export] Instance RouteRequest_laws : EnvelopeLaws RouteRequest_env.
Proof.
  split.
  - intros r Ht Hsz; open_envelope; destruct_and? Ht.
    match goal with H : Forall is_ID _ |- _ =>
      pose proof (len_concat_ids _ H) as Hc; pose proof (len_nonneg (rr_Path r)) end.
    assert (Hu : u32 (len (rr_Path r)) = len (rr_Path r)) by (apply Z.mod_small; autounfold with wire in *; lia).
    rewrite Hu; env_roundtrip_tac.
    rewrite Hc, (Z.mul_comm 32), Z.quot_mul, Z.ltb_irrefl by lia.
    unfold len at 1; rewrite Nat2Z.id.
    pose proof (read_path_concat (rr_Path r) [] 0 ltac:(done) eq_refl ltac:(lia)) as Hrp.
    cbn [app] in Hrp; rewrite Hrp; destruct r; done.
  - intros d m Hp; open_envelope; env_total_tac d m Hp.
    match goal with |- gives (read_path (Z.to_nat (if Z.quot (len ?p) 32 <? ?k then _ else _)) _ _ ≫= _) _ =>
      pose proof (cut_hops (len p) k (len_nonneg p) ltac:(lia)) as Hcut end.
    eapply gives_bind; [apply read_path_gives; lia|intros path Hpath].
    apply gives_ret; cbn; split; [split_and?; first [assumption|lia]|done].
Qed.

Definition rsPhase := 0.
Definition rsHopIndex := 4.
Definition rsHopCount := 8.
Definition rsRefIndex := 12.
Definition rsHopOut := 16.
Definition rsFinalOut := 24.
Definition rsIntent := 32.
Definition rsRefChain := 64.
Definition rsRefTx := 96.
Definition rsReason := 128.
Definition rsSize := 136.
#[export] Hint Unfold rsPhase rsHopIndex rsHopCount rsRefIndex rsHopOut rsFinalOut rsIntent rsRefChain rsRefTx rsReason rsSize : wire.

Definition buildRouteStatus (s : RouteStatus) : outcome (result Message zap_error) :=
  build_flat (rsSize + len (rs_Reason s) + 160) rsSize (tag MsgRouteStatus)
    [fUint8 rsPhase (rs_Phase s);
     fUint32 rsHopIndex (rs_HopIndex s);
     fUint32 rsHopCount (rs_HopCount s);
     fUint32 rsRefIndex (der_OutputIndex (rs_Ref s));
     fUint64 rsHopOut (rs_HopAmountOut s);
     fUint64 rsFinalOut (rs_FinalOut s);
     fFixed rsIntent (rs_IntentID s);
     fFixed rsRefChain (der_SourceChainID (rs_Ref s));
     fFixed rsRefTx (der_SourceTxID (rs_Ref s));
     fText rsReason (rs_Reason s)].

Definition DExportRef_zero : DExportRef := mkDExportRef ZeroID ZeroID 0 ZeroID.

(** A reference outside the two terminal phases is dropped. *)
Definition readRouteStatus (m : Message) : outcome RouteStatus :=
  r ← Message_Root m;
  phase ← Object_Uint8 r rsPhase;
  hopIndex ← Object_Uint32 r rsHopIndex;
  hopCount ← Object_Uint32 r rsHopCount;
  index ← Object_Uint32 r rsRefIndex;
  hopOut ← Object_Uint64 r rsHopOut;
  finalOut ← Object_Uint64 r rsFinalOut;
  intent ← copyFixed r rsIntent 32;
  chain ← copyFixed r rsRefChain 32;
  tx ← copyFixed r rsRefTx 32;
  reason ← Object_Text r rsReason;
  let ref := mkDExportRef chain tx index intent in
  let ref := if negb (phase =? RouteCommitted) && negb (phase =? RouteRefunded)
             then DExportRef_zero else ref in
  Ret (mkRouteStatus intent phase hopIndex hopCount hopOut finalOut ref reason).

(** What a reader makes of the reference of a status. *)
Definition route_ref (s : RouteStatus) : DExportRef :=
  if negb (rs_Phase s =? RouteCommitted) && negb (rs_Phase s =? RouteRefunded)
  then DExportRef_zero else rebind (rs_Ref s) (rs_IntentID s).

Definition RouteStatus_env : Envelope RouteStatus := {|
  typed s := is_ID (rs_IntentID s) /\ 0 <= rs_Phase s < 2 ^ 8 /\ 0 <= rs_HopIndex s < 2 ^ 32
    /\ 0 <= rs_HopCount s < 2 ^ 32 /\ 0 <= rs_HopAmountOut s < 2 ^ 64
    /\ 0 <= rs_FinalOut s < 2 ^ 64 /\ typed_ref (rs_Ref s);
  build := buildRouteStatus;
  read := readRouteStatus;
  norm s := mkRouteStatus (rs_IntentID s) (rs_Phase s) (rs_HopIndex s) (rs_HopCount s)
              (rs_HopAmountOut s) (rs_FinalOut s) (route_ref s) (rs_Reason s);
  env_flags := tag MsgRouteStatus;
  env_size s := 16 + rsSize + len (rs_Reason s)
|}.
#[export] Hint Unfold buildRouteStatus readRouteStatus RouteStatus_env : envelope.

#[export] Instance RouteStatus_laws : EnvelopeLaws RouteStatus_env.
Proof.
  envelope; unfold route_ref, typed_ref; cbn.
  case_match; cbn; split_and?; first [done|assumption|lia].
Qed.

Definition buildRouteWatchPoll (intentID : ID) : outcome (result Message zap_error) :=
  build_flat (iwSize + 40) iwSize (tag MsgRouteStatus) [fFixed iwIntent intentID].

Definition readRouteWatchPoll (m : Message) : outcome ID :=
  r ← Message_Root m;
  id ← copyFixed r iwIntent 32;
  Ret id.

Definition RouteWatchPoll_env : Envelope ID := {|
  typed i := is_ID i;
  build := buildRouteWatchPoll;
  read := readRouteWatchPoll;
  norm i := i;
  env_flags := tag MsgRouteStatus;
  env_size i := 16 + iwSize
|}.
#[export] Hint Unfold buildRouteWatchPoll readRouteWatchPoll RouteWatchPoll_env : envelope.

#[export] Instance RouteWatchPoll_laws : EnvelopeLaws RouteWatchPoll_env.
Proof. envelope. Qed.

(** ** The value boundary *)

Definition exportedObjectSize : Z := 20 + 32 + 8.

Definition EncodeAtomicObject (owner : Account) (asset : ID) (amount : Z) : list byte :=
  let v := zeros exportedObjectSize in
  let v := put v 0 owner in
  let v := put v 20 asset in
  put v 52 (be_bytes 8 amount).

(** A value of any other width is refused. *)
Definition DecodeAtomicObject (v : list byte) : Account * ID * Z * bool :=
  if negb (len v =? exportedObjectSize) then (zeros 20, zeros 32, 0, false) else
  (to_array 20 (sub v 0 20), to_array 32 (sub v 20 32), be_rd 8 v 52, true).

Definition nativeIntentDomain : list byte := ascii "lux.dex.native.intent.v1"%string.

(** The bytes [DeriveIntentID] hashes. *)
Definition intent_input (networkID : Z) (cChainID dChainID : ID) (account : Account)
  (assetIn : ID) (amountIn : Z) (marketID : ID) (nonce : Z) : list byte :=
  nativeIntentDomain ++ be_bytes 4 networkID ++ cChainID ++ dChainID ++ account
    ++ assetIn ++ be_bytes 8 amountIn ++ marketID ++ be_bytes 8 nonce.

Definition DeriveIntentID (networkID : Z) (cChainID dChainID : ID) (account : Account)
  (assetIn : ID) (amountIn : Z) (marketID : ID) (nonce : Z) : ID :=
  to_array 32
    (sha256 (intent_input networkID cChainID dChainID account assetIn amountIn marketID nonce)).

(** The bytes [DeriveUTXOID] hashes. *)
Definition utxo_input (sourceTxID : ID) (outputIndex : Z) : list byte :=
  put (put (zeros 36) 0 sourceTxID) 32 (be_bytes 4 outputIndex).

Definition DeriveUTXOID (sourceTxID : ID) (outputIndex : Z) : ID :=
  sha256 (utxo_input sourceTxID outputIndex).

Definition ObjectKey (r : DExportRef) : ID := DeriveUTXOID (der_SourceTxID r) (der_OutputIndex r).

Lemma DeriveIntentID_ID net c d a asset am mk nonce :
  is_ID (DeriveIntentID net c d a asset am mk nonce).
Proof. apply len_to_array; lia. Qed.

Lemma DeriveUTXOID_ID tx i : is_ID (DeriveUTXOID tx i).
Proof. apply len_sha256. Qed.

Lemma put_end {A} (l k : list A) n v :
  len l = n -> len v = len k -> put (l ++ k) n v = l ++ v.
Proof.
  intros Hl Hv; rewrite (put_skip l k v n Hl), put_0, drop_ge, app_nil_r; [done|].
  unfold len in Hv; lia.
Qed.

Lemma utxo_input_eq tx i : is_ID tx -> utxo_input tx i = tx ++ be_bytes 4 i.
Proof.
  intros Htx; unfold is_ID in Htx; unfold utxo_input.
  rewrite (put_0 (zeros 36)); apply put_end; [done|rewrite len_be_bytes by lia].
  unfold len in *; rewrite length_drop; vm_compute (length (zeros 36)); lia.
Qed.

Lemma EncodeAtomicObject_eq owner asset amount :
  is_Account owner -> is_ID asset ->
  EncodeAtomicObject owner asset amount = owner ++ asset ++ be_bytes 8 amount.
Proof.
  unfold is_Account, is_ID; intros Ho Ha; unfold EncodeAtomicObject.
  rewrite (put_0 (zeros _)), (put_skip owner _ _ 20 Ho), put_0, drop_drop, !app_assoc.
  apply put_end; [rewrite len_app; lia|rewrite len_be_bytes by lia].
  unfold len in *; rewrite length_drop; vm_compute (length (zeros exportedObjectSize)); lia.
Qed.

(** ** Properties *)

(** Building gives a message that parses to itself, has the size and the flags
    of its type, and reads back as the value. *)
Definition roundtrips {T} (e : Envelope T) : Prop :=
  forall x, typed e x -> env_size e x < 2 ^ 31 ->
  exists d, build e x = Ret (Ok (WrapBuffer d)) /\ Parse d = Ret (Ok (WrapBuffer d))
    /\ len d = env_size e x /\ Message_Flags (WrapBuffer d) = Ret (env_flags e)
    /\ read e (WrapBuffer d) = Ret (norm e x).

(** Reading any message that parses returns a well-typed value. *)
Definition reads_typed {T} (e : Envelope T) : Prop :=
  forall d m, Parse d = Ret (Ok m) -> gives (read e m) (fun x => typed e x /\ norm e x = x).

(** C19: every message of the DEX session protocol round-trips: for each of the
    fourteen envelopes and every well-typed value (byte arrays of their length,
    integers of their width) whose message stays below 2 GiB, the builder returns
    a message of the computed size, tagged with the type's flags, that [Parse]
    accepts and from which the reader recovers the value. A status comes back
    with its reference bound to the status's own intent, and a route status
    outside its terminal phases without a reference. *)
Theorem dex_envelopes_roundtrip msgType :
  roundtrips QuoteRequest_env /\ roundtrips QuoteResult_env
  /\ roundtrips StateRequest_env /\ roundtrips StateResult_env
  /\ roundtrips (PreparedIntent_env msgType) /\ roundtrips SwapIntentRequest_env
  /\ roundtrips DExportRef_env /\ roundtrips IntentStatus_env
  /\ roundtrips IntentWatchRef_env /\ roundtrips WatchPollRequest_env
  /\ roundtrips SettlementSubmitResult_env /\ roundtrips RouteRequest_env
  /\ roundtrips RouteStatus_env /\ roundtrips RouteWatchPoll_env.
Proof. split_and!; intros x; apply env_roundtrip. Qed.


(** The cross-chain value object is a bijection between its fields and the
    byte strings of its width: decoding an encoded object gives the fields back,
    a decoded byte string re-encodes to itself, and exactly the strings of
    [exportedObjectSize] bytes are accepted. *)
Theorem atomic_object_bijection :
  (forall owner asset amount, is_Account owner -> is_ID asset -> 0 <= amount < 2 ^ 64 ->
     DecodeAtomicObject (EncodeAtomicObject owner asset amount) = (owner, asset, amount, true))
  /\ (forall v owner asset amount ok, DecodeAtomicObject v = (owner, asset, amount, ok) ->
        ok = bool_decide (len v = exportedObjectSize)
        /\ is_Account owner /\ is_ID asset /\ 0 <= amount < 2 ^ 64
        /\ (ok = true -> EncodeAtomicObject owner asset amount = v)).
Proof.
  split.
  - intros owner asset amount Ho Ha Hm; rewrite EncodeAtomicObject_eq by done.
    unfold is_Account, is_ID, DecodeAtomicObject, exportedObjectSize in *.
    pose proof (len_be_bytes 8 amount ltac:(lia)) as Hb.
    replace (len _ =? _) with true by (rewrite !len_app; lia); simpl negb; cbv iota.
    rewrite sub_app_hd, to_array_id by done; rewrite sub_app_r by lia; rewrite Ho, Z.sub_diag.
    rewrite sub_app_hd, to_array_id by done; do 2 f_equal.
    rewrite (be_rd_be_bytes 8 _ _ amount), Z.mod_small by
      (lia || rewrite !sub_app_r by lia; rewrite Ho, Ha; simpl; rewrite sub_all by lia; done); done.
  - intros v owner asset amount ok; unfold DecodeAtomicObject, exportedObjectSize.
    destruct (Z.eqb_spec (len v) (20 + 32 + 8)) as [Hl|Hl]; simpl negb; cbv iota;
      intros [= <- <- <- <-]; [|rewrite bool_decide_eq_false_2 by done; split_and!; done].
    rewrite bool_decide_eq_true_2 by done; unfold is_Account, is_ID.
    split; [done|split; [apply len_to_array; lia|split; [apply len_to_array; lia|]]].
    split; [apply (be_rd_range 8); lia|intros _].
    rewrite !to_array_id by (rewrite len_sub; lia).
    rewrite EncodeAtomicObject_eq by (unfold is_Account, is_ID; rewrite len_sub; lia).
    rewrite be_bytes_be_rd by lia; rewrite (sub_join _ 20 32 52 8), (sub_join _ 0 20 20 40) by lia.
    apply sub_all; lia.
Qed.

(** Two intent identifiers are equal only if all eight inputs are. *)
Lemma intent_input_inj net c d a asset am mk nonce net' c' d' a' asset' am' mk' nonce' :
  is_ID c -> is_ID d -> is_Account a -> is_ID asset -> is_ID mk ->
  is_ID c' -> is_ID d' -> is_Account a' -> is_ID asset' -> is_ID mk' ->
  0 <= net < 2 ^ 32 -> 0 <= net' < 2 ^ 32 -> 0 <= am < 2 ^ 64 -> 0 <= am' < 2 ^ 64 ->
  0 <= nonce < 2 ^ 64 -> 0 <= nonce' < 2 ^ 64 ->
  intent_input net c d a asset am mk nonce = intent_input net' c' d' a' asset' am' mk' nonce' ->
  (net, c, d, a, asset, am, mk, nonce) = (net', c', d', a', asset', am', mk', nonce').
Proof.
  unfold is_ID, is_Account, intent_input; intros.
  repeat match goal with
    | H : _ ++ _ = _ ++ _ |- _ =>
        apply app_eq_len in H as [? H]; [|rewrite ?len_be_bytes by lia; congruence]
    end.
  repeat match goal with
    | H : be_bytes ?n ?v = be_bytes ?n ?w |- _ => apply be_bytes_inj in H; [|simpl; lia..] end.
  congruence.
Qed.

Lemma len_intent_input net c d a asset am mk nonce :
  is_ID c -> is_ID d -> is_Account a -> is_ID asset -> is_ID mk ->
  len (intent_input net c d a asset am mk nonce) = 192.
Proof.
  unfold is_ID, is_Account, intent_input; intros.
  rewrite !len_app, !len_be_bytes by lia; change (len nativeIntentDomain) with 24; lia.
Qed.

(** The identifiers of the protocol bind what they name, up to a SHA-256
    collision of the two byte strings involved: two equal intent ids have equal
    network, chains, account, asset, amount, market and nonce; two equal object
    keys have equal transaction and output index; and an intent id never equals
    an object key. *)
Theorem dex_ids_bind :
  (forall net c d a asset am mk nonce net' c' d' a' asset' am' mk' nonce',
     typed SwapIntentRequest_env (mkSwapIntentRequest net c d a asset a am mk 0 a 0 nonce) ->
     typed SwapIntentRequest_env (mkSwapIntentRequest net' c' d' a' asset' a' am' mk' 0 a' 0 nonce') ->
     DeriveIntentID net c d a asset am mk nonce
     = DeriveIntentID net' c' d' a' asset' am' mk' nonce' ->
     (net, c, d, a, asset, am, mk, nonce) = (net', c', d', a', asset', am', mk', nonce')
     \/ collides sha256 (intent_input net c d a asset am mk nonce)
          (intent_input net' c' d' a' asset' am' mk' nonce'))
  /\ (forall r r', typed_ref r -> typed_ref r' -> ObjectKey r = ObjectKey r' ->
        (der_SourceTxID r, der_OutputIndex r) = (der_SourceTxID r', der_OutputIndex r')
        \/ collides sha256 (utxo_input (der_SourceTxID r) (der_OutputIndex r))
             (utxo_input (der_SourceTxID r') (der_OutputIndex r')))
  /\ (forall net c d a asset am mk nonce r,
        typed SwapIntentRequest_env (mkSwapIntentRequest net c d a asset a am mk 0 a 0 nonce) ->
        typed_ref r -> DeriveIntentID net c d a asset am mk nonce = ObjectKey r ->
        collides sha256 (intent_input net c d a asset am mk nonce)
          (utxo_input (der_SourceTxID r) (der_OutputIndex r))).
Proof.
  split; [|split].
  - intros until nonce'; cbn; intros H H' He; destruct_and? H; destruct_and? H'.
    unfold DeriveIntentID in He; rewrite !to_array_id in He by apply len_sha256.
    apply hash_eq in He as [He|He]; [left|auto]; apply intent_input_inj in He; done || lia.
  - intros r r' Hr Hr' He; cbn in Hr, Hr'; destruct_and? Hr; destruct_and? Hr'.
    apply hash_eq in He as [He|He]; [left|auto]; rewrite !utxo_input_eq in He by done.
    apply app_eq_len in He as [? He]; [|unfold is_ID in *; congruence].
    apply be_bytes_inj in He; [congruence|lia..].
  - intros net c d a asset am mk nonce r H Hr He; cbn in H, Hr; destruct_and? H; destruct_and? Hr.
    unfold DeriveIntentID in He; rewrite !to_array_id in He by apply len_sha256.
    split; [|exact He]; intros Heq; apply (f_equal len) in Heq.
    rewrite len_intent_input, utxo_input_eq, len_app, len_be_bytes in Heq by (done || lia).
    unfold is_ID in *; lia.
Qed.

(** ** Witnesses *)

Definition sample_prepared : PreparedIntent :=
  mkPreparedIntent (rep 20 Byte.x99) [Byte.xf3; Byte.xcd] [Byte.x44] (rep 32 Byte.x01) 7
    (rep 32 Byte.x0d) (rep 32 Byte.x0c) (rep 20 Byte.x02) (rep 20 Byte.x03) ZeroID (2 ^ 64 - 1)
    (rep 32 Byte.x04).

Lemma dex_envelopes_roundtrip_witness :
  exists d, buildPreparedIntent sample_prepared MsgNotify = Ret (Ok (WrapBuffer d))
    /\ len d = 271 /\ Message_Flags (WrapBuffer d) = Ret 0xA300
    /\ readPreparedIntent (WrapBuffer d) = Ret sample_prepared.
Proof.
  destruct (dex_envelopes_roundtrip MsgNotify) as (_ & _ & _ & _ & H & _).
  destruct (H sample_prepared) as (d & Hb & _ & Hl & Hf & Hr);
    [cbn; unfold is_ID, is_Account, len; simpl; lia|vm_compute; reflexivity|].
  exists d; split; [exact Hb|split; [exact Hl|split; [exact Hf|exact Hr]]].
Defined.


Lemma atomic_object_bijection_witness :
  DecodeAtomicObject (EncodeAtomicObject (rep 20 Byte.x01) (rep 32 Byte.x02) 5)
  = (rep 20 Byte.x01, rep 32 Byte.x02, 5, true).
Proof. apply (proj1 atomic_object_bijection); [reflexivity|reflexivity|lia]. Defined.

Lemma dex_ids_bind_witness :
  ObjectKey (mkDExportRef ZeroID (rep 32 Byte.x01) 0 ZeroID)
  <> ObjectKey (mkDExportRef ZeroID (rep 32 Byte.x01) 1 ZeroID)
  /\ ((rep 32 Byte.x01, 0) = (rep 32 Byte.x01, 0)
      \/ collides sha256 (utxo_input (rep 32 Byte.x01) 0) (utxo_input (rep 32 Byte.x01) 0)).
Proof.
  split; [vm_compute; discriminate|].
  set (r := mkDExportRef ZeroID (rep 32 Byte.x01) 0 ZeroID).
  apply (proj1 (proj2 dex_ids_bind) r r); [cbn; unfold is_ID, len; simpl; lia..|reflexivity].
Defined.
