(* ===== verification/DexCall.v ===== *)
(** * DexCall: the calldata a session hands to a wallet

    [calldata.go] and [v4liquidity.go]: the hook data of the two phases, the
    32-byte words of the Solidity ABI and the calldata of the two entry points,
    against a decoder written from the ABI's rules. *)

From S2P Require Import Prelude Wire Builder BuilderSpec Roundtrip Envelope Sha256 DexWire.
From Stdlib Require String.
Import String.StringSyntax.
Local Delimit Scope string_scope with string.

Definition SelectorSwap : Z := 0xF3CD914C.
Definition SelectorModifyLiquidity : Z := 0x5A6BCFDA.

(** ** Hook data *)

Definition intentPhaseTag : list byte := ascii "DI01"%string.
Definition settlementPhaseTag : list byte := ascii "DS01"%string.
Definition settlementBodyLen : Z := 32 + 32 + 32.

(** [var w [32]byte; PutUint64(w[24:32], v)] *)
Definition wordU256FromU64 (v : Z) : list byte := put (zeros 32) 24 (be_bytes 8 v).

Definition EncodeIntentHookData (deadline nonce : Z) : list byte :=
  if (deadline =? 0) && (nonce =? 0) then to_array 4 intentPhaseTag else
  let d := wordU256FromU64 deadline in
  if nonce =? 0 then intentPhaseTag ++ d else
  let n := wordU256FromU64 nonce in
  intentPhaseTag ++ d ++ n.

Definition EncodeSettlementHookData (outputID : ID) (amount : Z) (intentID : ID) : list byte :=
  let amt := wordU256FromU64 amount in
  settlementPhaseTag ++ outputID ++ amt ++ intentID.

(** ** Words *)

Definition wordAddr (a : Account) : list byte := put (zeros 32) 12 a.

Definition wordU24 (v : Z) : list byte :=
  put (put (put (zeros 32) 29 [byte.of_Z (Z.shiftr v 16)])
         30 [byte.of_Z (Z.shiftr v 8)]) 31 [byte.of_Z v].

(** [for i := from; i < from+n; i++ { w[31-i] = b(i) }] *)
Fixpoint word_loop (n : nat) (from : Z) (b : Z -> byte) (w : list byte) : list byte :=
  match n with
  | O => w
  | S n => word_loop n (from + 1) b (put w (31 - from) [b from])
  end.

Definition wordI24 (v : Z) : list byte :=
  let u := u64 v in
  let w := word_loop 8 0 (fun i => byte.of_Z (Z.shiftr u (8 * i))) (zeros 32) in
  if v <? 0 then word_loop 24 8 (fun _ => Byte.xff) w else w.

Definition wordBool (b : bool) : list byte :=
  if b then put (zeros 32) 31 [Byte.x01] else zeros 32.

(** [for i := 31; i >= 0; i--]: invert and add the carry; [n] is [i + 1]. *)
Fixpoint neg_loop (n : nat) (w : list byte) (carry : Z) : list byte :=
  match n with
  | O => w
  | S i =>
      let s := u16 (255 - byte.unsigned (byte_at w (Z.of_nat i)) + carry) in
      neg_loop i (put w (Z.of_nat i) [byte.of_Z s]) (Z.shiftr s 8)
  end.

Definition new256Neg (v : Z) : list byte :=
  neg_loop 32 (put (zeros 32) 24 (be_bytes 8 v)) 1.

Definition wordI256FromNegU64 (v : Z) : list byte :=
  let neg := new256Neg v in put (zeros 32) 0 neg.

Definition wordU160Zero : list byte := zeros 32.

(** [for i := 0; i < n; i++ { w[i] = 0xff }] *)
Fixpoint fill_ff (n : nat) (i : Z) (w : list byte) : list byte :=
  match n with
  | O => w
  | S n => fill_ff n (i + 1) (put w i [Byte.xff])
  end.

Definition wordI256FromInt64 (v : Z) : list byte :=
  let u := u64 v in
  let w := put (zeros 32) 24 (be_bytes 8 u) in
  if v <? 0 then fill_ff 24 0 w else w.

(** ** Calldata *)

Record PoolKeyArgs : Type := mkPoolKeyArgs {
  Currency0 : Account;
  Currency1 : Account;
  Fee : Z;
  TickSpacing : Z;
  Hooks : Account
}.

Record ModifyLiquidityArgs : Type := mkModifyLiquidityArgs {
  TickLower : Z;
  TickUpper : Z;
  LiquidityDelta : Z;
  Salt : ID
}.

Definition encodeDynamicBytes (b : list byte) : list byte :=
  let padded := Z.quot (len b + 31) 32 * 32 in
  let out := zeros (32 + padded) in
  let out := put out 24 (be_bytes 8 (u64 (len b))) in
  put out 32 b.

(** The closure [put] of the encoders: the head and the offset it captures. *)
Definition put_word (s : list byte * Z) (w : list byte) : list byte * Z :=
  (put s.1 s.2 w, s.2 + 32).

Definition EncodeSwapCalldata (pk : PoolKeyArgs) (zeroForOne : bool) (amountIn : Z)
  (hookData : list byte) : list byte :=
  let headWords := 5 + 3 + 1 in
  let head := zeros (4 + headWords * 32) in
  let head := put head 0 (be_bytes 4 SelectorSwap) in
  let s := foldl put_word (head, 4)
    [wordAddr (Currency0 pk); wordAddr (Currency1 pk); wordU24 (Fee pk);
     wordI24 (TickSpacing pk); wordAddr (Hooks pk);
     wordBool zeroForOne; wordI256FromNegU64 amountIn; wordU160Zero;
     wordU256FromU64 (headWords * 32)] in
  let tail := encodeDynamicBytes hookData in
  s.1 ++ tail.

Definition EncodeModifyLiquidityCalldata (pk : PoolKeyArgs) (args : ModifyLiquidityArgs)
  (hookData : list byte) : list byte :=
  let headWords := 5 + 4 + 1 in
  let head := zeros (4 + headWords * 32) in
  let head := put head 0 (be_bytes 4 SelectorModifyLiquidity) in
  let s := foldl put_word (head, 4)
    [wordAddr (Currency0 pk); wordAddr (Currency1 pk); wordU24 (Fee pk);
     wordI24 (TickSpacing pk); wordAddr (Hooks pk);
     wordI24 (TickLower args); wordI24 (TickUpper args);
     wordI256FromInt64 (LiquidityDelta args); Salt args;
     wordU256FromU64 (headWords * 32)] in
  let tail := encodeDynamicBytes hookData in
  s.1 ++ tail.

(** ** The hash of a route's path *)

Definition route_path_input (path : list ID) : list byte :=
  ascii "lux.dex.v4.routepath.v1"%string ++ be_bytes 4 (u32 (len path)) ++ concat path.

Definition DeriveRoutePathHash (path : list ID) : ID :=
  to_array 32 (sha256 (route_path_input path)).

(** ** The value of a word *)

(** A byte string as a big-endian number. *)
Definition val (w : list byte) : Z := le_combine (rev w).

(** Disjoint bits add. *)
Lemma lor_shiftl a b n : 0 <= n -> 0 <= a < 2 ^ n -> Z.lor a (Z.shiftl b n) = a + b * 2 ^ n.
Proof.
  intros Hn Ha; rewrite <- Z.shiftl_mul_pow2, <- Z.add_lor_land by lia.
  replace (Z.land a (Z.shiftl b n)) with 0; [lia|]; symmetry; apply Z.bits_inj'; intros i Hi.
  rewrite Z.land_spec, Z.shiftl_spec, Z.bits_0 by lia.
  destruct (Z.lt_ge_cases i n); [rewrite (Z.testbit_neg_r b), andb_false_r by lia; done|].
  rewrite <- (Z.mod_small a (2 ^ n)), Z.mod_pow2_bits_high by lia; done.
Qed.

Lemma le_combine_cons b l : le_combine (b :: l) = byte.unsigned b + 256 * le_combine l.
Proof.
  change (le_combine (b :: l)) with (Z.lor (byte.unsigned b) (Z.shiftl (le_combine l) 8)).
  pose proof (byte.unsigned_range b).
  rewrite lor_shiftl by lia; change (2 ^ 8) with 256; lia.
Qed.

Lemma val_app x y : val (x ++ y) = val x * 2 ^ (8 * len y) + val y.
Proof.
  unfold val; rewrite rev_app_distr, le_combine_app, length_rev.
  pose proof (le_combine_range (rev y)) as Hr; unfold len in *; rewrite length_rev in Hr.
  rewrite (Z.mul_comm (Z.of_nat _)), lor_shiftl by lia; lia.
Qed.

Lemma val_range w : 0 <= val w < 2 ^ (8 * len w).
Proof. unfold val; pose proof (le_combine_range (rev w)) as H; unfold len in *; rewrite length_rev in H; done. Qed.

Lemma val_zeros n : val (zeros n) = 0.
Proof.
  unfold val, zeros; induction (Z.to_nat n) as [|k IH]; [done|].
  rewrite replicate_S_end, rev_app_distr; cbn [rev app]; rewrite le_combine_cons, IH; done.
Qed.

Lemma val_be_bytes n v : 0 <= n -> val (be_bytes n v) = v mod 2 ^ (8 * n).
Proof.
  intros; unfold val, be_bytes; rewrite rev_involutive, le_combine_split; do 2 f_equal; lia.
Qed.

(** A word of [n] bytes is its value's encoding. *)
Lemma be_bytes_val n w v :
  len w = n -> 0 <= n -> val w = v mod 2 ^ (8 * n) -> w = be_bytes n v.
Proof.
  intros Hl Hn Hv; rewrite <- (rev_involutive w), <- (rev_involutive (be_bytes n v)); f_equal.
  apply le_combine_inj; [rewrite !length_rev; pose proof (len_be_bytes n v Hn); unfold len in *; lia|].
  fold (val w) (val (be_bytes n v)); rewrite val_be_bytes by done; done.
Qed.

Lemma be_rd_val n d p : be_rd n d p = val (sub d p n).
Proof. done. Qed.

(** A number that fits 64 bits, sign-extended. *)
Lemma val_sign_extended hi v :
  - 2 ^ 63 <= v < 2 ^ 64 -> hi = (if v <? 0 then rep 24 Byte.xff else zeros 24) ->
  hi ++ be_bytes 8 v = be_bytes 32 v.
Proof.
  intros Hv ->; apply be_bytes_val; [|lia|].
  - rewrite len_app, len_be_bytes by lia; case_match; done.
  - rewrite val_app, len_be_bytes, val_be_bytes by lia.
    change (2 ^ (8 * 8)) with (2 ^ 64); change (2 ^ (8 * 32)) with (2 ^ 256).
    destruct (Z.ltb_spec v 0).
    + change (val _) with (2 ^ 192 - 1).
      rewrite <- (Z.mod_unique v (2 ^ 64) (-1) (v + 2 ^ 64)) by lia.
      rewrite <- (Z.mod_unique v (2 ^ 256) (-1) (v + 2 ^ 256)) by lia; lia.
    + change (val _) with 0; rewrite !Z.mod_small by lia; lia.
Qed.

Lemma be_bytes_8 u :
  be_bytes 8 u = map (fun i => byte.of_Z (Z.shiftr u (8 * i))) [7; 6; 5; 4; 3; 2; 1; 0].
Proof. unfold be_bytes; simpl; rewrite !Z.shiftr_shiftr, Z.shiftr_0_r by lia; done. Qed.

Lemma be_bytes_u64 v : be_bytes 8 (u64 v) = be_bytes 8 v.
Proof.
  apply be_bytes_val; [apply len_be_bytes; lia|lia|].
  rewrite val_be_bytes by lia; apply Z.mod_mod; lia.
Qed.

Lemma wordU256_abi v : 0 <= v < 2 ^ 64 -> wordU256FromU64 v = be_bytes 32 v.
Proof.
  intros Hv; rewrite <- (val_sign_extended (zeros 24) v); [|lia|].
  - apply (put_end (zeros 24) (zeros 8)); [done|rewrite len_be_bytes by lia; done].
  - destruct (Z.ltb_spec v 0); [lia|done].
Qed.

Lemma wordI24_abi v : - 2 ^ 31 <= v < 2 ^ 31 -> wordI24 v = be_bytes 32 v.
Proof.
  intros Hv; rewrite <- (val_sign_extended _ v) by (lia || done).
  rewrite <- (be_bytes_u64 v), be_bytes_8; unfold wordI24; generalize (u64 v) as u; intros u.
  destruct (v <? 0); reflexivity.
Qed.

Lemma wordI256_abi v : - 2 ^ 63 <= v < 2 ^ 63 -> wordI256FromInt64 v = be_bytes 32 v.
Proof.
  intros Hv; rewrite <- (val_sign_extended _ v) by (lia || done).
  rewrite <- (be_bytes_u64 v), be_bytes_8; unfold wordI256FromInt64; rewrite be_bytes_8.
  generalize (u64 v) as u; intros u; destruct (v <? 0); reflexivity.
Qed.

Lemma wordU24_abi v : 0 <= v < 2 ^ 24 -> wordU24 v = be_bytes 32 v.
Proof.
  intros Hv; apply be_bytes_val; [reflexivity|lia|].
  change (wordU24 v) with (zeros 29 ++ [byte.of_Z (Z.shiftr v 16); byte.of_Z (Z.shiftr v 8); byte.of_Z v]).
  replace [byte.of_Z (Z.shiftr v 16); byte.of_Z (Z.shiftr v 8); byte.of_Z v] with (be_bytes 3 v)
    by (unfold be_bytes; simpl; rewrite !Z.shiftr_shiftr by lia; done).
  rewrite val_app, val_zeros, val_be_bytes, Z.mul_0_l, Z.add_0_l by lia.
  rewrite !Z.mod_small by (simpl; lia); done.
Qed.

Lemma wordBool_abi b : wordBool b = be_bytes 32 (Z.b2z b).
Proof. destruct b; reflexivity. Qed.

Lemma wordAddr_eq a : is_Account a -> wordAddr a = zeros 12 ++ a.
Proof. intros Ha; apply (put_end (zeros 12) (zeros 20)); [done|rewrite Ha; done]. Qed.

(** ** Negation *)

(** The loop on the reversed word. *)
Fixpoint neg_le (l : list byte) (carry : Z) : list byte :=
  match l with
  | [] => []
  | b :: l =>
      let s := u16 (255 - byte.unsigned b + carry) in
      byte.of_Z s :: neg_le l (Z.shiftr s 8)
  end.

Lemma neg_loop_le l : forall r c,
  neg_loop (length l) (rev l ++ r) c = rev (neg_le l c) ++ r.
Proof.
  induction l as [|b l IH]; intros r c; [done|].
  cbn [length neg_loop neg_le rev]; rewrite <- app_assoc.
  assert (Hl : len (rev l) = Z.of_nat (length l)) by (unfold len; rewrite length_rev; done).
  assert (Hb : byte_at (rev l ++ [b] ++ r) (Z.of_nat (length l)) = b).
  { unfold byte_at; rewrite Nat2Z.id, lookup_app_r, length_rev, Nat.sub_diag by (rewrite length_rev; lia).
    done. }
  rewrite Hb, (put_skip (rev l) _ _ _ Hl), put_0; cbn [app length drop].
  rewrite IH, <- app_assoc; done.
Qed.

Lemma neg_le_combine l : forall c, 0 <= c <= 1 ->
  le_combine (neg_le l c) = (c - 1 - le_combine l) mod 2 ^ (8 * len l) /\ len (neg_le l c) = len l.
Proof.
  induction l as [|b l IH]; intros c Hc; [split; [rewrite Z.mod_1_r; done|done]|].
  cbn [neg_le le_combine]; pose proof (byte.unsigned_range b) as Hb.
  assert (Hs : u16 (255 - byte.unsigned b + c) = 255 - byte.unsigned b + c)
    by (apply Z.mod_small; lia).
  rewrite Hs; set (s := 255 - byte.unsigned b + c).
  assert (Hsr : Z.shiftr s 8 = s / 256) by (rewrite Z.shiftr_div_pow2 by lia; done).
  assert (Hq : 0 <= s / 256 <= 1)
    by (split; [apply Z.div_pos; lia|apply Z.lt_succ_r, Z.div_lt_upper_bound; lia]).
  destruct (IH (Z.shiftr s 8) ltac:(rewrite Hsr; done)) as [IH1 IH2].
  split; [|rewrite !len_cons, IH2; done].
  rewrite !le_combine_cons, IH1, Hsr, byte.unsigned_of_Z, len_cons; unfold byte.wrap.
  pose proof (len_nonneg l) as Hl.
  replace (8 * (1 + len l)) with (8 + 8 * len l) by lia; rewrite Z.pow_add_r by lia.
  assert (HP : 0 < 2 ^ (8 * len l)) by (apply Z.pow_pos_nonneg; lia).
  set (P := 2 ^ (8 * len l)) in *; change (2 ^ 8) with 256; set (Y := s / 256 - 1 - le_combine l).
  pose proof (Z.div_mod Y P ltac:(lia)) as HY; pose proof (Z.mod_pos_bound Y P HP).
  pose proof (Z.div_mod s 256 ltac:(lia)) as HsE; pose proof (Z.mod_pos_bound s 256 ltac:(lia)).
  apply (Z.mod_unique _ (256 * P) (Y / P)); [left; nia|]; unfold Y in *; nia.
Qed.

Lemma wordNeg_abi v : 0 <= v < 2 ^ 64 -> wordI256FromNegU64 v = be_bytes 32 (- v).
Proof.
  intros Hv; unfold wordI256FromNegU64, new256Neg; fold (wordU256FromU64 v).
  rewrite wordU256_abi by done.
  pose proof (len_be_bytes 32 v ltac:(lia)) as Hl; set (l := rev (be_bytes 32 v)).
  assert (Hll : len l = 32) by (unfold l, len in *; rewrite length_rev; done).
  pose proof (neg_loop_le l [] 1) as Hn; unfold l in Hn at 2; rewrite rev_involutive, !app_nil_r in Hn.
  replace (length l) with 32%nat in Hn by (unfold len in Hll; lia); rewrite Hn.
  destruct (neg_le_combine l 1 ltac:(lia)) as [Hc Hn2].
  assert (Hlr : len (rev (neg_le l 1)) = 32) by (unfold len in *; rewrite length_rev; lia).
  rewrite put_0, drop_ge, app_nil_r by (unfold len in Hlr; vm_compute (length (zeros 32)); lia).
  apply be_bytes_val; [done|lia|]; unfold val; rewrite rev_involutive, Hc, Hll.
  change (le_combine l) with (val (be_bytes 32 v)); rewrite val_be_bytes by lia.
  rewrite (Z.mod_small v) by (simpl; lia); f_equal; lia.
Qed.

(** ** A reader of the Solidity ABI

    The argument words of a call, the static types in them and the dynamic
    [bytes] behind an offset word, each refused when it is out of range. *)

Definition arg (d : list byte) (i : Z) : list byte := sub d (4 + 32 * i) 32.

Definition abi_uint (bits : Z) (w : list byte) : option Z :=
  if val w <? 2 ^ bits then Some (val w) else None.
Definition abi_int (bits : Z) (w : list byte) : option Z :=
  let v := if val w <? 2 ^ 255 then val w else val w - 2 ^ 256 in
  if (- 2 ^ (bits - 1) <=? v) && (v <? 2 ^ (bits - 1)) then Some v else None.
Definition abi_bool (w : list byte) : option bool :=
  if val w =? 0 then Some false else if val w =? 1 then Some true else None.
Definition abi_address (w : list byte) : option Account :=
  if val w <? 2 ^ 160 then Some (sub w 12 20) else None.
Definition abi_bytes (d : list byte) (i : Z) : option (list byte) :=
  let at_ := 4 + val (arg d i) in
  let n := val (sub d at_ 32) in
  if at_ + 32 + n <=? len d then Some (sub d (at_ + 32) n) else None.

(** [swap((address,address,uint24,int24,address),(bool,int256,uint160),bytes)] *)
Definition decode_swap (d : list byte) : option (PoolKeyArgs * bool * Z * Z * list byte) :=
  if negb (val (sub d 0 4) =? SelectorSwap) then None else
  currency0 ← abi_address (arg d 0); currency1 ← abi_address (arg d 1);
  fee ← abi_uint 24 (arg d 2); tickSpacing ← abi_int 24 (arg d 3);
  hooks ← abi_address (arg d 4);
  zeroForOne ← abi_bool (arg d 5); amountSpecified ← abi_int 256 (arg d 6);
  sqrtPriceLimit ← abi_uint 160 (arg d 7); hookData ← abi_bytes d 8;
  Some (mkPoolKeyArgs currency0 currency1 fee tickSpacing hooks, zeroForOne, amountSpecified,
        sqrtPriceLimit, hookData).

(** [modifyLiquidity((address,address,uint24,int24,address),(int24,int24,int256,bytes32),bytes)] *)
Definition decode_modifyLiquidity (d : list byte)
  : option (PoolKeyArgs * ModifyLiquidityArgs * list byte) :=
  if negb (val (sub d 0 4) =? SelectorModifyLiquidity) then None else
  currency0 ← abi_address (arg d 0); currency1 ← abi_address (arg d 1);
  fee ← abi_uint 24 (arg d 2); tickSpacing ← abi_int 24 (arg d 3);
  hooks ← abi_address (arg d 4);
  tickLower ← abi_int 24 (arg d 5); tickUpper ← abi_int 24 (arg d 6);
  liquidityDelta ← abi_int 256 (arg d 7); hookData ← abi_bytes d 9;
  Some (mkPoolKeyArgs currency0 currency1 fee tickSpacing hooks,
        mkModifyLiquidityArgs tickLower tickUpper liquidityDelta (arg d 8), hookData).

(** A pool key whose fields have their Solidity types. *)
Definition typed_pool (pk : PoolKeyArgs) : Prop :=
  is_Account (Currency0 pk) /\ is_Account (Currency1 pk) /\ 0 <= Fee pk < 2 ^ 24
  /\ - 2 ^ 23 <= TickSpacing pk < 2 ^ 23 /\ is_Account (Hooks pk).

Lemma abi_uint_word bits v :
  0 <= v < 2 ^ bits -> 0 <= bits <= 256 -> abi_uint bits (be_bytes 32 v) = Some v.
Proof.
  intros Hv Hb; assert (2 ^ bits <= 2 ^ 256) by (apply Z.pow_le_mono_r; lia).
  unfold abi_uint; rewrite val_be_bytes, Z.mod_small by (change (8 * 32) with 256; lia).
  replace (v <? 2 ^ bits) with true by lia; done.
Qed.

Lemma abi_int_word bits v :
  - 2 ^ (bits - 1) <= v < 2 ^ (bits - 1) -> 1 <= bits <= 256 ->
  abi_int bits (be_bytes 32 v) = Some v.
Proof.
  intros Hv Hb; assert (2 ^ (bits - 1) <= 2 ^ 255) by (apply Z.pow_le_mono_r; lia).
  unfold abi_int; rewrite val_be_bytes by lia; change (8 * 32) with 256.
  change (2 ^ 256) with (2 * 2 ^ 255); set (P := 2 ^ 255) in *; assert (0 < P) by done.
  replace (if _ <? P then _ else _) with v.
  { replace (_ && _) with true by lia; done. }
  destruct (Z.lt_ge_cases v 0).
  - rewrite <- (Z.mod_unique v (2 * P) (-1) (v + 2 * P)) by lia; case_match; lia.
  - rewrite Z.mod_small by lia; case_match; lia.
Qed.

Lemma abi_address_word a : is_Account a -> abi_address (wordAddr a) = Some a.
Proof.
  intros Ha; rewrite wordAddr_eq by done; unfold is_Account in Ha; unfold abi_address.
  pose proof (val_range a) as Hr; rewrite Ha in Hr.
  rewrite val_app, val_zeros, Z.mul_0_l, Z.add_0_l.
  replace (val a <? 2 ^ 160) with true by (symmetry; apply Z.ltb_lt; lia).
  rewrite sub_app_r, sub_all by (rewrite ?Ha; vm_compute; discriminate || done).
  done.
Qed.

Lemma abi_bool_word b : abi_bool (wordBool b) = Some b.
Proof. destruct b; reflexivity. Qed.

(** ** What the encoders write *)

Lemma put_words ws : forall pre,
  Forall (fun w => len w = 32) ws ->
  foldl put_word (pre ++ zeros (32 * len ws), len pre) ws
  = (pre ++ concat ws, len pre + 32 * len ws).
Proof.
  induction ws as [|w ws IH]; intros pre Hws; cbn [foldl concat].
  { change (zeros (32 * len [])) with (@nil byte); rewrite !app_nil_r; f_equal; change (len (@nil (list byte))) with 0; lia. }
  apply Forall_cons in Hws as [Hw Hws]; pose proof (len_nonneg ws).
  rewrite len_cons; replace (zeros (32 * (1 + len ws))) with (zeros 32 ++ zeros (32 * len ws)).
  2: { unfold zeros; rewrite <- replicate_add; f_equal; lia. }
  unfold put_word at 2; cbn [fst snd]; rewrite (put_skip pre _ _ _ eq_refl), put_0.
  rewrite drop_app_length' by (unfold len in Hw; vm_compute (length (zeros 32)); lia).
  specialize (IH (pre ++ w) Hws); rewrite len_app, Hw, <- app_assoc in IH; rewrite IH.
  rewrite <- app_assoc; f_equal; lia.
Qed.

Lemma len_words (ws : list (list byte)) : Forall (fun w => len w = 32) ws -> len (concat ws) = 32 * len ws.
Proof.
  induction 1 as [|w ws Hw _ IH]; [done|]; cbn [concat]; rewrite len_app, IH, len_cons; lia.
Qed.

Lemma arg_words (ws : list (list byte)) : forall sel t (i : nat) w,
  len sel = 4 -> Forall (fun w => len w = 32) ws -> ws !! i = Some w ->
  arg (sel ++ concat ws ++ t) (Z.of_nat i) = w.
Proof.
  unfold arg; intros sel t i w Hsel Hws Hi; rewrite sub_app_r, Hsel by lia.
  replace (4 + 32 * Z.of_nat i - 4) with (32 * Z.of_nat i) by lia.
  revert i Hi; induction Hws as [|w' ws Hw' Hws IH]; intros i Hi; [done|].
  cbn [concat]; rewrite <- app_assoc; destruct i as [|i]; simpl in Hi.
  - injection Hi as ->; apply sub_app_hd; done.
  - rewrite sub_app_r by lia; rewrite Hw'.
    replace (32 * Z.of_nat (S i) - 32) with (32 * Z.of_nat i) by lia; apply IH; done.
Qed.

Lemma encodeDynamicBytes_eq b :
  len b < 2 ^ 63 ->
  exists k, encodeDynamicBytes b = be_bytes 32 (len b) ++ b ++ zeros k
    /\ 0 <= k < 32 /\ (len b + k) mod 32 = 0.
Proof.
  intros Hb; pose proof (len_nonneg b); unfold encodeDynamicBytes.
  set (padded := Z.quot (len b + 31) 32 * 32).
  assert (Hp : len b <= padded < len b + 32).
  { unfold padded; rewrite Z.quot_div_nonneg by lia.
    pose proof (Z.div_mod (len b + 31) 32 ltac:(lia)).
    pose proof (Z.mod_pos_bound (len b + 31) 32 ltac:(lia)); lia. }
  exists (padded - len b); split; [|split; [lia|]].
  - replace (zeros (32 + padded)) with (zeros 24 ++ (zeros 8 ++ zeros padded)).
    2: { unfold zeros; rewrite <- !replicate_add; f_equal; lia. }
    rewrite put_skip, put_0 by done.
    pose proof (len_be_bytes 8 (u64 (len b)) ltac:(lia)) as H8.
    rewrite drop_app_length' by (change (length (zeros 8)) with 8%nat; unfold len at 1 in H8; lia).
    rewrite app_assoc; unfold u64; rewrite Z.mod_small by lia.
    rewrite (val_sign_extended (zeros 24)) by
      (lia || (destruct (Z.ltb_spec (len b) 0); [lia|done])).
    rewrite put_skip, put_0 by (apply len_be_bytes; lia); f_equal; f_equal.
    unfold zeros; rewrite drop_replicate; f_equal; unfold len; lia.
  - replace (len b + (padded - len b)) with padded by lia; apply Z.mod_mul; lia.
Qed.

Definition is_word (w : list byte) : Prop := len w = 32.

Lemma is_word_be v : is_word (be_bytes 32 v).
Proof. apply len_be_bytes; lia. Qed.
Lemma is_word_addr a : is_Account a -> is_word (wordAddr a).
Proof. intros Ha; unfold is_word; rewrite wordAddr_eq, len_app, Ha by done; done. Qed.

(** The static words of the pool key, as the reader sees them. *)
Definition pool_words (pk : PoolKeyArgs) : list (list byte) :=
  [wordAddr (Currency0 pk); wordAddr (Currency1 pk); be_bytes 32 (Fee pk);
   be_bytes 32 (TickSpacing pk); wordAddr (Hooks pk)].

Lemma pool_words_len pk : typed_pool pk -> Forall is_word (pool_words pk).
Proof. intros (? & ? & _ & _ & ?); repeat constructor; auto using is_word_be, is_word_addr. Qed.

Lemma swap_calldata_shape pk z am hook :
  typed_pool pk -> 0 <= am < 2 ^ 64 ->
  EncodeSwapCalldata pk z am hook
  = be_bytes 4 SelectorSwap
    ++ concat (pool_words pk ++ [wordBool z; be_bytes 32 (- am); be_bytes 32 0; be_bytes 32 288])
    ++ encodeDynamicBytes hook.
Proof.
  intros Hpk Ham; pose proof (pool_words_len pk Hpk) as Hws.
  destruct Hpk as (? & ? & ? & ? & ?); unfold EncodeSwapCalldata.
  rewrite wordU24_abi, wordI24_abi, wordNeg_abi by lia.
  change (wordU256FromU64 _) with (be_bytes 32 288); change wordU160Zero with (be_bytes 32 0).
  set (ws := pool_words pk ++ _).
  pose proof (put_words ws (be_bytes 4 SelectorSwap)) as Hf.
  change (put _ 0 _) with (be_bytes 4 SelectorSwap ++ zeros (32 * len ws)); cbv zeta.
  rewrite app_assoc; f_equal.
  exact (f_equal fst (Hf ltac:(apply Forall_app; split; [exact Hws|
    rewrite wordBool_abi; repeat constructor; apply is_word_be]))).
Qed.

Lemma modify_calldata_shape pk args hook :
  typed_pool pk -> - 2 ^ 23 <= TickLower args < 2 ^ 23 -> - 2 ^ 23 <= TickUpper args < 2 ^ 23 ->
  - 2 ^ 63 <= LiquidityDelta args < 2 ^ 63 -> is_ID (Salt args) ->
  EncodeModifyLiquidityCalldata pk args hook
  = be_bytes 4 SelectorModifyLiquidity
    ++ concat (pool_words pk ++ [be_bytes 32 (TickLower args); be_bytes 32 (TickUpper args);
         be_bytes 32 (LiquidityDelta args); Salt args; be_bytes 32 320])
    ++ encodeDynamicBytes hook.
Proof.
  intros Hpk Hlo Hup Hd Hs; pose proof (pool_words_len pk Hpk) as Hws.
  destruct Hpk as (? & ? & ? & ? & ?); unfold EncodeModifyLiquidityCalldata.
  rewrite wordU24_abi, !wordI24_abi, wordI256_abi by lia.
  change (wordU256FromU64 _) with (be_bytes 32 320).
  set (ws := pool_words pk ++ _).
  pose proof (put_words ws (be_bytes 4 SelectorModifyLiquidity)) as Hf.
  change (put _ 0 _) with (be_bytes 4 SelectorModifyLiquidity ++ zeros (32 * len ws)); cbv zeta.
  rewrite app_assoc; f_equal.
  exact (f_equal fst (Hf ltac:(apply Forall_app; split; [exact Hws|
    repeat constructor; auto using is_word_be]))).
Qed.

(** The dynamic argument of a call with [k] words. *)
Lemma abi_bytes_tail sel ws hook (i : nat) :
  len sel = 4 -> Forall is_word ws -> len hook < 2 ^ 63 -> len ws < 2 ^ 32 ->
  ws !! i = Some (be_bytes 32 (32 * len ws)) ->
  abi_bytes (sel ++ concat ws ++ encodeDynamicBytes hook) (Z.of_nat i) = Some hook.
Proof.
  intros Hsel Hws Hh Hn Hi; unfold abi_bytes.
  rewrite (arg_words ws sel _ i _ Hsel Hws Hi); pose proof (len_nonneg ws); pose proof (len_nonneg hook).
  rewrite val_be_bytes, Z.mod_small by (change (8 * 32) with 256; lia).
  destruct (encodeDynamicBytes_eq hook Hh) as (k & -> & Hk & _).
  pose proof (len_words ws Hws) as Hlw; pose proof (len_be_bytes 32 (len hook) ltac:(lia)) as Hl.
  assert (Hlz : len (zeros k) = k) by (apply len_zeros; lia).
  rewrite app_assoc; assert (Hpre : len (sel ++ concat ws) = 4 + 32 * len ws) by (rewrite len_app; lia).
  rewrite (sub_app_r _ _ (4 + 32 * len ws)) by lia; rewrite Hpre, Z.sub_diag, sub_app_hd by done.
  rewrite val_be_bytes, Z.mod_small by (change (8 * 32) with 256; lia).
  replace (_ <=? _) with true by (rewrite !len_app in *; lia).
  do 2 rewrite sub_app_r by lia; rewrite Hpre, Hl.
  replace (_ - _ - 32) with 0 by lia; rewrite sub_app_hd; done.
Qed.

(** Replaces the arguments of a call by its words. *)
Ltac read_args ws Hw ns :=
  lazymatch ns with
  | ?i :: ?ns =>
      rewrite (arg_words ws _ _ i _ ltac:(apply len_be_bytes; lia) Hw eq_refl); read_args ws Hw ns
  | _ => idtac
  end.

(** ** Hook data, read back *)

Inductive hook : Type :=
| IntentHook (deadline nonce : Z)
| SettlementHook (outputID : ID) (amount : Z) (intentID : ID).

(** The phases as the comments of [calldata.go] describe them: nothing or the
    intent tag with a body of no, one or two words; or the settlement tag with
    a body of three words. *)
Definition decode_hook (h : list byte) : option hook :=
  if len h =? 0 then Some (IntentHook 0 0) else
  let body := drop 4 h in
  if bytes_eqb (sub h 0 4) intentPhaseTag then
    if len body =? 0 then Some (IntentHook 0 0) else
    if len body =? 32 then
      deadline ← abi_uint 64 body; Some (IntentHook deadline 0) else
    if len body =? 64 then
      deadline ← abi_uint 64 (sub body 0 32); nonce ← abi_uint 64 (sub body 32 32);
      Some (IntentHook deadline nonce) else None
  else if bytes_eqb (sub h 0 4) settlementPhaseTag && (len body =? settlementBodyLen) then
    amount ← abi_uint 64 (sub body 32 32);
    Some (SettlementHook (sub body 0 32) amount (sub body 64 32))
  else None.

(** ** Reading back *)

Lemma swap_decodes pk z am hook :
  typed_pool pk -> 0 <= am < 2 ^ 64 -> len hook < 2 ^ 63 ->
  decode_swap (EncodeSwapCalldata pk z am hook) = Some (pk, z, - am, 0, hook).
Proof.
  intros Hpk Ham Hh; pose proof (pool_words_len pk Hpk) as Hws.
  rewrite swap_calldata_shape by done; set (ws := pool_words pk ++ _).
  assert (Hw : Forall is_word ws) by (apply Forall_app; split; [done|
    rewrite wordBool_abi; repeat constructor; apply is_word_be]).
  unfold decode_swap; rewrite sub_app_hd by (apply len_be_bytes; lia).
  rewrite (abi_bytes_tail _ ws hook 8) by done; read_args ws Hw [0; 1; 2; 3; 4; 5; 6; 7]%nat.
  destruct Hpk as (? & ? & ? & ? & ?); rewrite !abi_address_word, !abi_uint_word, abi_bool_word by (done || lia).
  rewrite !abi_int_word by (simpl; lia); destruct pk; done.
Qed.

Lemma modify_decodes pk args hook :
  typed_pool pk -> len hook < 2 ^ 63 ->
  - 2 ^ 23 <= TickLower args < 2 ^ 23 -> - 2 ^ 23 <= TickUpper args < 2 ^ 23 ->
  - 2 ^ 63 <= LiquidityDelta args < 2 ^ 63 -> is_ID (Salt args) ->
  decode_modifyLiquidity (EncodeModifyLiquidityCalldata pk args hook) = Some (pk, args, hook).
Proof.
  intros Hpk Hh Hlo Hup Hld Hs; pose proof (pool_words_len pk Hpk) as Hws.
  rewrite modify_calldata_shape by done; set (ws := pool_words pk ++ _).
  assert (Hw : Forall is_word ws)
    by (apply Forall_app; split; [done|repeat constructor; auto using is_word_be]).
  unfold decode_modifyLiquidity; rewrite sub_app_hd by (apply len_be_bytes; lia).
  rewrite (abi_bytes_tail _ ws hook 9) by done; read_args ws Hw [0; 1; 2; 3; 4; 5; 6; 7; 8]%nat.
  destruct Hpk as (? & ? & ? & ? & ?); rewrite !abi_address_word, !abi_uint_word by (done || lia).
  rewrite !abi_int_word by (simpl; lia); destruct pk, args; done.
Qed.

Lemma intent_hook_decodes deadline nonce :
  0 <= deadline < 2 ^ 64 -> 0 <= nonce < 2 ^ 64 ->
  decode_hook (EncodeIntentHookData deadline nonce) = Some (IntentHook deadline nonce).
Proof.
  intros Hd Hn; unfold EncodeIntentHookData; rewrite !wordU256_abi by done.
  pose proof (is_word_be deadline) as Hwd; pose proof (is_word_be nonce) as Hwn; unfold is_word in *.
  destruct (Z.eqb_spec nonce 0) as [->|Hn0].
  - destruct (Z.eqb_spec deadline 0) as [->|Hd0]; cbn [andb]; [reflexivity|].
    unfold decode_hook; rewrite len_app, Hwd, sub_app_hd, drop_app_length' by done.
    rewrite Hwd, abi_uint_word by lia; done.
  - rewrite andb_false_r; unfold decode_hook.
    rewrite !len_app, Hwd, Hwn, sub_app_hd, drop_app_length', len_app, Hwd, Hwn by done.
    rewrite sub_app_hd, sub_app_r, Hwd, Z.sub_diag, sub_all, !abi_uint_word by lia; done.
Qed.

Lemma settlement_hook_decodes outputID amount intentID :
  0 <= amount < 2 ^ 64 -> is_ID outputID -> is_ID intentID ->
  decode_hook (EncodeSettlementHookData outputID amount intentID)
  = Some (SettlementHook outputID amount intentID).
Proof.
  unfold is_ID; intros Ha Ho Hi; unfold EncodeSettlementHookData; rewrite wordU256_abi by done.
  pose proof (is_word_be amount) as Hw; unfold is_word in Hw; unfold decode_hook.
  rewrite !len_app, Hw, Ho, Hi, sub_app_hd, drop_app_length', !len_app, Hw, Ho, Hi by done.
  change (bytes_eqb settlementPhaseTag intentPhaseTag) with false.
  change (bytes_eqb settlementPhaseTag settlementPhaseTag) with true; cbn -[abi_uint sub].
  rewrite sub_app_hd by done; rewrite !sub_app_r by lia; rewrite Ho, Hw.
  rewrite sub_app_hd, abi_uint_word, sub_all by (done || lia); done.
Qed.

(** ** Properties *)

(** The calldata a session builds is the standard ABI encoding of the call
    it names. For every pool key of the Solidity types, direction, 64-bit amount
    and hook data, a reader of the ABI recovers from the swap calldata exactly
    that pool, that direction, the negated amount (exact input; the carry loop of
    [new256Neg] is a 256-bit negation), no price limit and that hook data; and
    likewise the ticks, the signed liquidity delta and the salt from the
    calldata of [modifyLiquidity]. *)
Theorem calldata_is_abi pk z am args hook :
  typed_pool pk -> 0 <= am < 2 ^ 64 -> len hook < 2 ^ 63 ->
  - 2 ^ 23 <= TickLower args < 2 ^ 23 -> - 2 ^ 23 <= TickUpper args < 2 ^ 23 ->
  - 2 ^ 63 <= LiquidityDelta args < 2 ^ 63 -> is_ID (Salt args) ->
  decode_swap (EncodeSwapCalldata pk z am hook) = Some (pk, z, - am, 0, hook)
  /\ decode_modifyLiquidity (EncodeModifyLiquidityCalldata pk args hook) = Some (pk, args, hook).
Proof. intros; split; [apply swap_decodes|apply modify_decodes]; done. Qed.

(** Hook data round-trips and selects its phase. Whatever the deadline and
    the nonce, the intent encoder's minimal form (tag only, one word, two words)
    reads back as an intent with that deadline and nonce; the settlement encoder's
    form reads back as a settlement with that object, amount and intent; so no
    intent is ever read as a settlement nor the other way round. *)
Theorem hook_data_decodes deadline nonce outputID amount intentID :
  0 <= deadline < 2 ^ 64 -> 0 <= nonce < 2 ^ 64 -> 0 <= amount < 2 ^ 64 ->
  is_ID outputID -> is_ID intentID ->
  decode_hook (EncodeIntentHookData deadline nonce) = Some (IntentHook deadline nonce)
  /\ decode_hook (EncodeSettlementHookData outputID amount intentID)
     = Some (SettlementHook outputID amount intentID).
Proof. intros; split; [apply intent_hook_decodes|apply settlement_hook_decodes]; done. Qed.

(** ** Witnesses *)

Definition sample_pool : PoolKeyArgs :=
  mkPoolKeyArgs (zeros 20) (rep 20 Byte.x01) 3000 (-60) (zeros 20).

Lemma calldata_is_abi_witness :
  decode_swap (EncodeSwapCalldata sample_pool true 1000 [Byte.x44])
  = Some (sample_pool, true, -1000, 0, [Byte.x44]).
Proof.
  assert (Hpk : typed_pool sample_pool) by (unfold typed_pool; cbn; split_and?; try lia; reflexivity).
  apply (calldata_is_abi sample_pool true 1000 (mkModifyLiquidityArgs (-1) 1 (-5) ZeroID) [Byte.x44] Hpk);
    first [reflexivity|cbn; lia].
Defined.

Lemma hook_data_decodes_witness :
  decode_hook (EncodeIntentHookData 0 9) = Some (IntentHook 0 9)
  /\ decode_hook (EncodeSettlementHookData (rep 32 Byte.x01) 5 ZeroID)
     = Some (SettlementHook (rep 32 Byte.x01) 5 ZeroID).
Proof.
  apply (hook_data_decodes 0 9 (rep 32 Byte.x01) 5 ZeroID); first [reflexivity|lia].
Defined.
