(* ===== verification/DexCap.v ===== *)
(** * DexCap: capabilities of a DEX session

    [capability.go], the grant table of [session.go] and [v4scope.go]: what a
    token authorizes, and the scope a capability is confined to. The grant table
    is a finite map from tokens; the random token is an argument of the
    operation that draws it. *)

From S2P Require Import Prelude Wire Builder BuilderSpec Roundtrip Envelope Sha256 DexWire DexCall.
From stdpp Require Import gmap.
From Stdlib Require String.
Import String.StringSyntax.
Local Delimit Scope string_scope with string.
Local Open Scope Z_scope.

(** ** Authority *)

Definition Authority : Type := Z.
Definition AuthQuote : Authority := Z.shiftl 1 0.
Definition AuthIntent : Authority := Z.shiftl 1 1.
Definition AuthWatch : Authority := Z.shiftl 1 2.
Definition AuthSettlement : Authority := Z.shiftl 1 3.
Definition AuthAdmin : Authority := Z.shiftl 1 4.
Definition AuthorityPublic : Authority :=
  Z.lor (Z.lor (Z.lor AuthQuote AuthIntent) AuthWatch) AuthSettlement.
Definition AuthorityReadOnly : Authority := AuthQuote.

(** [a&need == need] *)
Definition permits (a need : Authority) : bool := Z.land a need =? need.

(** The errors of the package, without their text. *)
Inductive dex_error : Type :=
| ErrNoAuthority
| ErrRevoked
| ErrScopeMismatch
| ErrScopeUnset
| ErrBuild (e : zap_error)         (** a message that could not be built *)
| ErrCall                          (** the transport failed *)
| ErrCtx                           (** the context ended *)
| ErrNilWatch
| ErrZeroAmount
| ErrUnknownMarket (market : ID)
| ErrEmptyPath
| ErrDelta                         (** a liquidity delta of the wrong sign *)
| ErrRejected (reason : list byte)
| ErrNoSender
| ErrSend.

(** ** The grant table *)

Abbreviation token := (list byte) (only parsing).
Definition zero_token : token := zeros 32.

Record grant : Type := mkGrant { bits : Authority; revoked : bool }.
Abbreviation grants := (gmap token grant).

(** A capability core; its session is the one whose table is passed along. *)
Record capCore : Type := mkCapCore { tok : token; core_bits : Authority }.

(** [issue], with the token the random generator gave. *)
Definition issue (session_grant : Authority) (t : token) (b : Authority) (g : grants)
  : result capCore dex_error * grants :=
  if negb (permits session_grant b) then (Err ErrNoAuthority, g) else
  if bool_decide (t = zero_token) then (Err ErrNoAuthority, g) else
  (Ok (mkCapCore t b), <[t := mkGrant b false]> g).

Definition checkGrant (g : grants) (t : token) (need : Authority) : result unit dex_error :=
  match g !! t with
  | None => Err ErrNoAuthority
  | Some r =>
      if revoked r then Err ErrRevoked else
      if negb (permits (bits r) need) then Err ErrNoAuthority else Ok tt
  end.

Definition Revoke (t : token) (g : grants) : grants :=
  match g !! t with
  | Some r => <[t := mkGrant (bits r) true]> g
  | None => g
  end.

(** A nil core authorizes nothing. *)
Definition authorize (c : option capCore) (g : grants) (need : Authority) : result unit dex_error :=
  match c with
  | None => Err ErrNoAuthority
  | Some c =>
      if negb (permits (core_bits c) need) then Err ErrNoAuthority else
      checkGrant g (tok c) need
  end.

(** Capabilities of one class each. *)
Definition QuoteCap (sg : Authority) (t : token) := issue sg t AuthQuote.
Definition IntentCap (sg : Authority) (t : token) := issue sg t AuthIntent.
Definition WatchCap (sg : Authority) (t : token) := issue sg t AuthWatch.
Definition SettlementCap (sg : Authority) (t : token) := issue sg t AuthSettlement.
Definition AdminCap (sg : Authority) (t : token) := issue sg t AuthAdmin.

(** The session-level gate. *)
Definition requireGrant (session_grant need : Authority) : result unit dex_error :=
  if negb (permits session_grant need) then Err ErrNoAuthority else Ok tt.

(** ** Scopes *)

Inductive V4Action : Type :=
| ActionSwap
| ActionRoute
| ActionModifyLiquidity
| ActionCollect
| ActionCancel
| ActionState.

#[export] Instance V4Action_eq_dec : EqDecision V4Action.
Proof. solve_decision. Defined.

Definition action_byte (a : V4Action) : byte :=
  match a with
  | ActionSwap => Byte.x00
  | ActionRoute => Byte.x01
  | ActionModifyLiquidity => Byte.x02
  | ActionCollect => Byte.x03
  | ActionCancel => Byte.x04
  | ActionState => Byte.x05
  end.

Definition V4Action_String (a : V4Action) : list byte :=
  match a with
  | ActionSwap => ascii "swap"%string
  | ActionRoute => ascii "route"%string
  | ActionModifyLiquidity => ascii "modifyLiquidity"%string
  | ActionCollect => ascii "collect"%string
  | ActionCancel => ascii "cancel"%string
  | ActionState => ascii "state"%string
  end.

Record V4ActionScope : Type := mkV4ActionScope {
  sc_NetworkID : Z;
  sc_CChainID : ID;
  sc_DChainID : ID;
  sc_Addr9999 : Account;
  sc_Account : Account;
  sc_PoolKeyHash : ID;
  sc_ParamsHash : ID;
  sc_Kind : V4Action;
  sc_IntentID : ID
}.

Definition v4ScopeDomain : list byte := ascii "lux.dex.v4.session.v1"%string.

(** The bytes [DeriveSessionID] hashes. *)
Definition scope_input (s : V4ActionScope) : list byte :=
  v4ScopeDomain ++ be_bytes 4 (sc_NetworkID s) ++ sc_CChainID s ++ sc_DChainID s
    ++ sc_Addr9999 s ++ sc_Account s ++ sc_PoolKeyHash s ++ sc_ParamsHash s
    ++ [action_byte (sc_Kind s)] ++ sc_IntentID s.

Definition DeriveSessionID (s : V4ActionScope) : ID := to_array 32 (sha256 (scope_input s)).

Definition pool_input (pk : PoolKeyArgs) : list byte :=
  ascii "lux.dex.v4.poolkey.v1"%string ++ Currency0 pk ++ Currency1 pk
    ++ be_bytes 4 (Fee pk) ++ be_bytes 4 (u32 (TickSpacing pk)) ++ Hooks pk.

Definition DerivePoolKeyHash (pk : PoolKeyArgs) : ID := to_array 32 (sha256 (pool_input pk)).

Definition swap_params_input (zeroForOne : bool) (amountIn : Z) : list byte :=
  let b := zeros 9 in
  let b := if zeroForOne then put b 0 [Byte.x01] else b in
  ascii "lux.dex.v4.swapparams.v1"%string ++ put b 1 (be_bytes 8 amountIn).

Definition DeriveSwapParamsHash (zeroForOne : bool) (amountIn : Z) : ID :=
  to_array 32 (sha256 (swap_params_input zeroForOne amountIn)).

Definition lp_params_input (tickLower tickUpper liquidityDelta : Z) (salt : ID) : list byte :=
  ascii "lux.dex.v4.lpparams.v1"%string ++ be_bytes 4 (u32 tickLower) ++ be_bytes 4 (u32 tickUpper)
    ++ be_bytes 8 (u64 liquidityDelta) ++ salt.

Definition DeriveLiquidityParamsHash (tickLower tickUpper liquidityDelta : Z) (salt : ID) : ID :=
  to_array 32 (sha256 (lp_params_input tickLower tickUpper liquidityDelta salt)).

(** A capability confined to one action. *)
Record scopedCap : Type := mkScopedCap {
  core : option capCore;
  scope : V4ActionScope;
  sessionID : ID
}.

Definition newScopedCap (c : capCore) (s : V4ActionScope) : scopedCap :=
  mkScopedCap (Some c) s (DeriveSessionID s).

Definition authorizeScoped (s : option scopedCap) (g : grants) (need : Authority)
  (want : V4ActionScope) : result unit dex_error :=
  match s with
  | None => Err ErrNoAuthority
  | Some s =>
      match core s with
      | None => Err ErrNoAuthority
      | Some c =>
          if bool_decide (sessionID s = ZeroID) then Err ErrScopeUnset else
          match authorize (Some c) g need with
          | Err e => Err e
          | Ok _ =>
              if negb (bool_decide (DeriveSessionID want = sessionID s)) then Err ErrScopeMismatch
              else Ok tt
          end
      end
  end.

Definition authorizeSelf (s : scopedCap) (g : grants) (need : Authority) : result unit dex_error :=
  authorizeScoped (Some s) g need (scope s).

Definition scopedCap_Authority (s : option scopedCap) : Authority :=
  match s with
  | None => 0
  | Some s => match core s with None => 0 | Some c => core_bits c end
  end.

(** ** What a token authorizes *)

(** What happens to a session's table. *)
Inductive event : Type :=
| EIssue (t : token) (b : Authority)
| ERevoke (t : token).

Definition apply_event (sg : Authority) (g : grants) (e : event) : grants :=
  match e with
  | EIssue t b => (issue sg t b g).2
  | ERevoke t => Revoke t g
  end.

Definition run (sg : Authority) (h : list event) : grants := foldl (apply_event sg) ∅ h.

(** The event hands out token [t] with authority [b]. *)
Definition hands_out (sg : Authority) (t : token) (b : Authority) (e : event) : Prop :=
  e = EIssue t b /\ permits sg b = true /\ t <> zero_token.

(** The event leaves token [t] alone. *)
Definition leaves (sg : Authority) (t : token) (e : event) : Prop :=
  e <> ERevoke t /\ forall b, ~ hands_out sg t b e.

#[export] Instance event_eq_dec : EqDecision event.
Proof. solve_decision. Defined.

Lemma permits_trans a b c : permits a b = true -> permits b c = true -> permits a c = true.
Proof.
  unfold permits; rewrite !Z.eqb_eq; intros Hab Hbc.
  rewrite <- Hbc, Z.land_assoc, Hab; done.
Qed.

Lemma lookup_hands_out sg t b e g :
  hands_out sg t b e -> apply_event sg g e !! t = Some (mkGrant b false).
Proof.
  intros (-> & Hp & Ht); simpl; unfold issue; rewrite Hp; simpl.
  rewrite bool_decide_eq_false_2 by done; simpl; apply lookup_insert_eq.
Qed.

Lemma lookup_leaves sg t e g : leaves sg t e -> apply_event sg g e !! t = g !! t.
Proof.
  intros [Hr Hi]; destruct e as [t' b|t']; simpl.
  - unfold issue; destruct (permits sg b) eqn:Hp; simpl; [|done].
    case_bool_decide; [done|]; simpl; apply lookup_insert_ne; intros ->.
    apply (Hi b); split_and!; done.
  - unfold Revoke; destruct (g !! t') eqn:E; [|done].
    apply lookup_insert_ne; intros ->; done.
Qed.

Lemma lookup_revoke sg t g : apply_event sg g (ERevoke t) !! t = (fun r => mkGrant (bits r) true) <$> g !! t.
Proof.
  simpl; unfold Revoke; destruct (g !! t) eqn:E; [rewrite lookup_insert_eq; done|rewrite E; done].
Qed.

Lemma event_cases sg t e :
  (exists b, hands_out sg t b e) \/ e = ERevoke t \/ leaves sg t e.
Proof.
  destruct (decide (e = ERevoke t)) as [|Hr]; [auto|].
  destruct e as [t' b|t'].
  - destruct (decide (t' = t)) as [->|]; [|right; right; split; [done|]; intros ? (? & _); simplify_eq].
    destruct (permits sg b) eqn:Hp.
    + destruct (decide (t = zero_token)) as [|Ht]; [right; right; split; [done|]; intros ? (_ & _ & ?); done|].
      left; exists b; split_and!; done.
    + right; right; split; [done|]; intros b' (? & Hp' & _); simplify_eq; congruence.
  - right; right; split; [done|]; intros ? (? & _); simplify_eq.
Qed.

(** The token's last handing-out, with nothing about it afterwards. *)
Definition live (sg : Authority) (h : list event) (t : token) (b : Authority) : Prop :=
  exists h1 e h2, h = h1 ++ e :: h2 /\ hands_out sg t b e /\ Forall (leaves sg t) h2.

Lemma run_leaves sg t h2 : forall g,
  Forall (leaves sg t) h2 -> foldl (apply_event sg) g h2 !! t = g !! t.
Proof.
  induction h2 as [|e h2 IH]; intros g Hf; [done|]; apply Forall_cons in Hf as [He Hf].
  simpl; rewrite IH by done; apply lookup_leaves; done.
Qed.

Lemma run_live sg h t b : run sg h !! t = Some (mkGrant b false) <-> live sg h t b.
Proof.
  split.
  - induction h as [|e h IH] using rev_ind; [done|].
    unfold run; rewrite foldl_snoc; fold (run sg h); intros Hl.
    destruct (event_cases sg t e) as [[b' He]|[->|He]].
    + rewrite (lookup_hands_out _ _ _ _ _ He) in Hl; simplify_eq.
      exists h, e, []; split_and!; [done|done|constructor].
    + rewrite lookup_revoke in Hl; destruct (run sg h !! t); done.
    + rewrite (lookup_leaves _ _ _ _ He) in Hl; destruct (IH Hl) as (h1 & e' & h2 & -> & He' & Hf).
      exists h1, e', (h2 ++ [e]); split_and!; [rewrite <- app_assoc; done|done|].
      apply Forall_app; split; [done|constructor; [done|constructor]].
  - intros (h1 & e & h2 & -> & He & Hf); unfold run; rewrite foldl_app; simpl.
    rewrite run_leaves by done; apply lookup_hands_out; done.
Qed.

(** Authority does not come back without a new handing-out. *)
Lemma run_quiet sg t h : forall g b,
  (forall b e, e ∈ h -> ~ hands_out sg t b e) -> (forall b', g !! t <> Some (mkGrant b' false)) ->
  foldl (apply_event sg) g h !! t <> Some (mkGrant b false).
Proof.
  induction h as [|e h IH]; intros g b Hq Hg; simpl; [auto|].
  apply IH; [intros b' e' He'; apply Hq; set_solver|]; intros b'.
  destruct (event_cases sg t e) as [[b'' He]|[->|He]].
  - destruct (Hq b'' e ltac:(set_solver) He).
  - rewrite lookup_revoke; destruct (g !! t); done.
  - rewrite (lookup_leaves _ _ _ _ He); auto.
Qed.

Lemma checkGrant_Ok g t need :
  checkGrant g t need = Ok tt <-> exists b, g !! t = Some (mkGrant b false) /\ permits b need = true.
Proof.
  unfold checkGrant; split.
  - destruct (g !! t) as [[b []]|] eqn:E; simpl; try done.
    destruct (permits b need) eqn:Hp; [|done]; intros _; exists b; done.
  - intros (b & -> & Hp); simpl; rewrite Hp; done.
Qed.

(** ** What a session id binds *)

Definition typed_scope (s : V4ActionScope) : Prop :=
  0 <= sc_NetworkID s < 2 ^ 32 /\ is_ID (sc_CChainID s) /\ is_ID (sc_DChainID s)
  /\ is_Account (sc_Addr9999 s) /\ is_Account (sc_Account s) /\ is_ID (sc_PoolKeyHash s)
  /\ is_ID (sc_ParamsHash s) /\ is_ID (sc_IntentID s).

Lemma action_byte_inj : Inj (=) (=) action_byte.
Proof. intros [] []; done. Qed.

(** Splits an equality of concatenations of fixed-width fields. *)
Ltac split_fields :=
  repeat match goal with
    | H : _ ++ _ = _ ++ _ |- _ =>
        apply app_eq_len in H as [? H]; [|rewrite ?len_be_bytes by lia; reflexivity || congruence]
    | H : action_byte _ :: _ = action_byte _ :: _ |- _ => injection H as ? H
    end;
  repeat match goal with
    | H : be_bytes ?n ?v = be_bytes ?n ?w |- _ => apply be_bytes_inj in H; [|simpl; lia..] end.

Lemma scope_input_inj s s' :
  typed_scope s -> typed_scope s' -> scope_input s = scope_input s' -> s = s'.
Proof.
  destruct s, s'; unfold typed_scope, scope_input, is_ID, is_Account; cbn; intros H H' He.
  destruct_and? H; destruct_and? H'; split_fields.
  assert (sc_Kind0 = sc_Kind1) by (apply action_byte_inj; congruence); congruence.
Qed.

Lemma u32_inj x y : - 2 ^ 31 <= x < 2 ^ 31 -> - 2 ^ 31 <= y < 2 ^ 31 -> u32 x = u32 y -> x = y.
Proof. intros Hx Hy He; rewrite <- (s32_u32 x Hx), He; apply s32_u32; done. Qed.

Lemma u64_inj x y : - 2 ^ 63 <= x < 2 ^ 63 -> - 2 ^ 63 <= y < 2 ^ 63 -> u64 x = u64 y -> x = y.
Proof.
  unfold u64; intros Hx Hy He.
  pose proof (Z.div_mod x (2 ^ 64) ltac:(lia)); pose proof (Z.div_mod y (2 ^ 64) ltac:(lia)).
  pose proof (Z.mod_pos_bound x (2 ^ 64) ltac:(lia)); pose proof (Z.mod_pos_bound y (2 ^ 64) ltac:(lia)).
  lia.
Qed.

Lemma u32_range z : 0 <= u32 z < 2 ^ 32.
Proof. apply Z.mod_pos_bound; lia. Qed.
Lemma u64_range z : 0 <= u64 z < 2 ^ 64.
Proof. apply Z.mod_pos_bound; lia. Qed.

Lemma pool_input_inj pk pk' :
  typed_pool pk -> typed_pool pk' -> pool_input pk = pool_input pk' -> pk = pk'.
Proof.
  destruct pk as [c0 c1 fee t h], pk' as [c0' c1' fee' t' h'].
  unfold typed_pool, pool_input, is_Account; cbn; intros H H' He.
  destruct_and? H; destruct_and? H'.
  pose proof (u32_range t); pose proof (u32_range t'); split_fields.
  assert (t = t') by (apply u32_inj; lia || done); congruence.
Qed.

Lemma swap_params_eq z am :
  swap_params_input z am
  = ascii "lux.dex.v4.swapparams.v1"%string ++ [if z then Byte.x01 else Byte.x00] ++ be_bytes 8 am.
Proof.
  pose proof (len_be_bytes 8 am ltac:(lia)) as Hl.
  unfold swap_params_input; f_equal; destruct z.
  - exact (put_end [Byte.x01] (zeros 8) 1 (be_bytes 8 am) eq_refl Hl).
  - exact (put_end [Byte.x00] (zeros 8) 1 (be_bytes 8 am) eq_refl Hl).
Qed.

Lemma swap_params_inj z am z' am' :
  0 <= am < 2 ^ 64 -> 0 <= am' < 2 ^ 64 ->
  swap_params_input z am = swap_params_input z' am' -> z = z' /\ am = am'.
Proof.
  intros Ha Ha'; rewrite !swap_params_eq; intros He; split_fields.
  split; [destruct z, z'; done|done].
Qed.

Lemma lp_params_inj lo up d salt lo' up' d' salt' :
  - 2 ^ 31 <= lo < 2 ^ 31 -> - 2 ^ 31 <= lo' < 2 ^ 31 ->
  - 2 ^ 31 <= up < 2 ^ 31 -> - 2 ^ 31 <= up' < 2 ^ 31 ->
  - 2 ^ 63 <= d < 2 ^ 63 -> - 2 ^ 63 <= d' < 2 ^ 63 ->
  lp_params_input lo up d salt = lp_params_input lo' up' d' salt' ->
  (lo, up, d, salt) = (lo', up', d', salt').
Proof.
  intros; unfold lp_params_input in *.
  pose proof (u32_range lo); pose proof (u32_range lo'); pose proof (u32_range up);
  pose proof (u32_range up'); pose proof (u64_range d); pose proof (u64_range d'); split_fields.
  assert (lo = lo') by (apply u32_inj; done); assert (up = up') by (apply u32_inj; done).
  assert (d = d') by (apply u64_inj; done); congruence.
Qed.

Lemma route_path_inj p p' :
  Forall is_ID p -> Forall is_ID p' -> len p < 2 ^ 32 -> len p' < 2 ^ 32 ->
  route_path_input p = route_path_input p' -> p = p'.
Proof.
  intros Hp Hp' Hl Hl'; unfold route_path_input; intros He.
  pose proof (u32_range (len p)); pose proof (u32_range (len p')); split_fields.
  clear -Hp Hp' He; revert p' Hp' He; induction Hp as [|i p Hi Hp IH]; intros p' Hp' He.
  - destruct Hp' as [|i' p' Hi' _]; [done|]; apply (f_equal len) in He.
    unfold is_ID in Hi'; cbn [concat] in He; rewrite len_app, Hi' in He.
    pose proof (len_nonneg (concat p')); change (len (@nil byte)) with 0 in He; lia.
  - destruct Hp' as [|i' p' Hi' Hp']; unfold is_ID in Hi; cbn [concat] in He.
    { apply (f_equal len) in He; rewrite len_app, Hi in He.
      pose proof (len_nonneg (concat p)); change (len (@nil byte)) with 0 in He; lia. }
    apply app_eq_len in He as [-> He]; [f_equal; auto|unfold is_ID in Hi'; congruence].
Qed.

(** The digests of pools, parameters and paths bind what they are taken of. *)
Lemma param_hashes_bind :
  (forall pk pk', typed_pool pk -> typed_pool pk' -> DerivePoolKeyHash pk = DerivePoolKeyHash pk' ->
     pk = pk' \/ collides sha256 (pool_input pk) (pool_input pk'))
  /\ (forall z am z' am', 0 <= am < 2 ^ 64 -> 0 <= am' < 2 ^ 64 ->
        DeriveSwapParamsHash z am = DeriveSwapParamsHash z' am' ->
        (z, am) = (z', am') \/ collides sha256 (swap_params_input z am) (swap_params_input z' am'))
  /\ (forall p p', Forall is_ID p -> Forall is_ID p' -> len p < 2 ^ 32 -> len p' < 2 ^ 32 ->
        DeriveRoutePathHash p = DeriveRoutePathHash p' ->
        p = p' \/ collides sha256 (route_path_input p) (route_path_input p')).
Proof.
  unfold DerivePoolKeyHash, DeriveSwapParamsHash, DeriveRoutePathHash; split_and!; intros *.
  - intros Hp Hp' He; rewrite !to_array_id in He by apply len_sha256.
    apply hash_eq in He as [He|He]; auto using pool_input_inj.
  - intros Ha Ha' He; rewrite !to_array_id in He by apply len_sha256.
    apply hash_eq in He as [He|He]; [left|auto].
    apply swap_params_inj in He as [-> ->]; done.
  - intros Hp Hp' Hl Hl' He; rewrite !to_array_id in He by apply len_sha256.
    apply hash_eq in He as [He|He]; auto using route_path_inj.
Qed.

(** ** Properties *)

(** A token authorizes exactly what it was handed out for. After any history
    of issues and revocations, the check of token [t] for [need] succeeds iff the
    session handed [t] out with authority that covers [need], and neither revoked
    it nor handed it out anew since; no token ever authorizes more than the
    session's own grant; and a revoked token stays refused until it is handed out
    again. *)
Theorem capability_exact sg h t need :
  (checkGrant (run sg h) t need = Ok tt <-> exists b, live sg h t b /\ permits b need = true)
  /\ (checkGrant (run sg h) t need = Ok tt -> permits sg need = true)
  /\ (forall h', (forall b e, e ∈ h' -> ~ hands_out sg t b e) ->
        checkGrant (run sg (h ++ ERevoke t :: h')) t need <> Ok tt).
Proof.
  assert (Hiff : checkGrant (run sg h) t need = Ok tt <-> exists b, live sg h t b /\ permits b need = true).
  { rewrite checkGrant_Ok; setoid_rewrite run_live; done. }
  split; [done|split].
  - rewrite Hiff; intros (b & (h1 & e & h2 & _ & (_ & Hp & _) & _) & Hb); eauto using permits_trans.
  - intros h' Hq (b & Hl & _)%checkGrant_Ok; unfold run in Hl; rewrite foldl_app in Hl; cbn [foldl] in Hl.
    eapply run_quiet in Hl; [done|exact Hq|].
    intros b'; rewrite (lookup_revoke sg); destruct (foldl _ ∅ h !! t); done.
Qed.

(** A scoped capability acts on its own action only. When the combined gate
    lets a capability bound to scope [s] act on scope [want], the core holds the
    authority at the session's table, and [want] is [s] in every field (network,
    chains, settlement address, account, pool, parameters, kind, intent) unless
    the two scopes are a SHA-256 collision; acting on its own scope needs the
    core's authority and nothing else. *)
Theorem scope_confines c s want g need :
  typed_scope s -> typed_scope want ->
  (authorizeScoped (Some (newScopedCap c s)) g need want = Ok tt ->
     authorize (Some c) g need = Ok tt
     /\ (want = s \/ collides sha256 (scope_input want) (scope_input s)))
  /\ (DeriveSessionID s <> ZeroID ->
      authorizeSelf (newScopedCap c s) g need = authorize (Some c) g need).
Proof.
  intros Hs Hw; split.
  - unfold authorizeScoped; cbn [core newScopedCap sessionID]; case_bool_decide; [done|].
    destruct (authorize (Some c) g need) as [[]|] eqn:Ha; [|done].
    case_bool_decide as Hid; [|done]; intros _; split; [done|].
    unfold DeriveSessionID in Hid; rewrite !to_array_id in Hid by apply len_sha256.
    apply hash_eq in Hid as [He|He]; auto using scope_input_inj.
  - intros Hz; unfold authorizeSelf, authorizeScoped; cbn [core newScopedCap sessionID scope].
    rewrite bool_decide_eq_false_2 by done; destruct (authorize (Some c) g need) as [[]|]; [|done].
    rewrite bool_decide_eq_true_2 by done; done.
Qed.

(** ** Witnesses *)

Lemma capability_exact_witness :
  let t := rep 32 Byte.x07 in
  checkGrant (run AuthorityPublic [EIssue t (Z.lor AuthIntent AuthWatch)]) t AuthWatch = Ok tt
  /\ checkGrant (run AuthorityPublic ([EIssue t AuthWatch] ++ ERevoke t :: [])) t AuthWatch <> Ok tt
  /\ permits AuthorityPublic AuthAdmin = false.
Proof.
  intros t; split; [vm_compute; reflexivity|split; [|reflexivity]].
  destruct (capability_exact AuthorityPublic [EIssue t AuthWatch] t AuthWatch) as (_ & _ & H).
  apply H; intros b e He; destruct (not_elem_of_nil e He).
Defined.

Definition sample_scope (kind : V4Action) : V4ActionScope :=
  mkV4ActionScope 1 ZeroID ZeroID (rep 20 Byte.x99) (rep 20 Byte.x01) (rep 32 Byte.x02)
    (rep 32 Byte.x03) kind (rep 32 Byte.x04).

Lemma scope_confines_witness :
  let c := mkCapCore (rep 32 Byte.x07) AuthWatch in
  let g := run AuthorityPublic [EIssue (rep 32 Byte.x07) AuthWatch] in
  authorizeSelf (newScopedCap c (sample_scope ActionSwap)) g AuthWatch = Ok tt
  /\ authorizeScoped (Some (newScopedCap c (sample_scope ActionSwap))) g AuthWatch
       (sample_scope ActionCollect) = Err ErrScopeMismatch.
Proof.
  intros c g; split; [|vm_compute; reflexivity].
  assert (Ht : forall k, typed_scope (sample_scope k))
    by (intros k; unfold typed_scope; cbn; split_and?; try lia; reflexivity).
  rewrite (proj2 (scope_confines c (sample_scope ActionSwap) (sample_scope ActionCollect) g AuthWatch
    (Ht _) (Ht _))); [vm_compute; reflexivity|vm_compute; discriminate].
Defined.
