(* ===== verification/DexSession.v ===== *)
(** * DexSession: the client of the DEX session protocol

    [session.go], [watch.go], [promise.go] and [pipeline.go]. The peer and the
    transport are one unrestricted function: given the messages sent so far it
    answers the last one with bytes, or the call fails. The ends of contexts are
    another: it says at each observation whether the context is seen to have
    ended. A promise is what its goroutine resolves it with; a goroutine's calls
    are made when it is spawned, which loses nothing where a theorem speaks about
    every peer, since a peer may answer a call as if others had come in between. *)

From S2P Require Import Prelude Wire Builder BuilderSpec Roundtrip Envelope Sha256.
From S2P Require Import DexWire DexCall DexCap.
From stdpp Require Import gmap.
From Stdlib Require String.
Import String.StringSyntax.
Local Delimit Scope string_scope with string.
Local Open Scope Z_scope.

(** ** Operations *)

(** What an operation gives: a value, an error, or nothing yet after the polls
    it was allowed. *)
Inductive answer (A : Type) : Type :=
| Value (a : A)
| Fail (e : dex_error)
| Pending.
Arguments Value {A} a.
Arguments Fail {A} e.
Arguments Pending {A}.

(** What operations change: the messages sent, the sleeps taken, the number of
    times a context was looked at, the grant table and the tokens drawn. *)
Record St : Type := mkSt {
  sent : list Message;
  slept : list Z;
  tick : nat;
  tbl : grants;
  drawn : nat
}.

Definition op (A : Type) : Type := St -> outcome (answer A * St).

#[export] Instance op_ret : MRet op := fun A a st => Ret (Value a, st).
#[export] Instance op_bind : MBind op := fun A B k x st =>
  match x st with
  | Ret (Value a, st') => k a st'
  | Ret (Fail e, st') => Ret (Fail e, st')
  | Ret (Pending, st') => Ret (Pending, st')
  | Panic => Panic
  end.

Definition fail {A} (e : dex_error) : op A := fun st => Ret (Fail e, st).

(** [if err := gate; err != nil { return err }] *)
Definition gate (r : result unit dex_error) : op unit :=
  match r with Ok _ => mret tt | Err e => fail e end.

(** A builder's [(msg, err)]. *)
Definition built (x : outcome (result Message zap_error)) : op Message := fun st =>
  r ← x; match r with Ok m => Ret (Value m, st) | Err e => Ret (Fail (ErrBuild e), st) end.

Definition reading {A} (x : outcome A) : op A := fun st => a ← x; Ret (Value a, st).

(** A client session: its grant and the markets it serves. *)
Record clientSession : Type := mkClientSession {
  cs_grant : Authority;
  market : ID -> option PoolKeyArgs
}.

Record IntentWatch : Type := mkIntentWatch {
  w_session : bool;      (** the session pointer is set *)
  w_intentID : ID
}.

Record FlowStages : Type := mkFlowStages {
  fs_Quote : answer QuoteResult;
  fs_Intent : answer PreparedIntent;
  fs_Watch : answer IntentWatch;
  fs_Committed : answer DExportRef;
  fs_Settle : answer SettlementSubmitResult
}.

(** ** Promises

    The cell a producer resolves and consumers wait on. [done] is the channel
    that is closed on resolution; closing it twice would panic. *)

Record Promise (T : Type) : Type := mkPromise {
  p_val : option (T * option dex_error);     (** [val] and [err] once [ready] *)
  ready : bool;
  done_closed : bool
}.
Arguments mkPromise {T}.
Arguments p_val {T}.
Arguments ready {T}.
Arguments done_closed {T}.

Definition newPromise {T} : Promise T := mkPromise None false false.

(** [close(ch)], on a channel that may be closed already. *)
Definition close (closed : bool) : outcome bool := if closed then Panic else Ret true.

Definition fulfil {T} (p : Promise T) (v : T) (err : option dex_error) : outcome (Promise T) :=
  if ready p then Ret p else
  c ← close (done_closed p);
  Ret (mkPromise (Some (v, err)) true c).

Definition resolved {T} (v : T) (err : option dex_error) : outcome (Promise T) :=
  fulfil newPromise v err.

(** ** Helpers *)

Definition addr9999 : Account := put (put (zeros 20) 18 [Byte.x99]) 19 [Byte.x99].

Definition zeroForOneFor (req : SwapIntentRequest) : bool := true.

(** [if reason == "" { reason = def }] *)
Definition or_default (reason def : list byte) : list byte :=
  if len reason =? 0 then def else reason.

(** Durations in nanoseconds. *)
Definition millisecond : Z := 1000000.
Definition minBackoff : Z := 25 * millisecond.
Definition maxBackoff : Z := 2000 * millisecond.
Definition watchPollCadence : Z := 25 * millisecond.

(** [if backoff < maxBackoff { backoff *= 2; if backoff > maxBackoff { ... } }] *)
Definition next_backoff (backoff : Z) : Z :=
  if backoff <? maxBackoff then
    let backoff := backoff * 2 in
    if maxBackoff <? backoff then maxBackoff else backoff
  else backoff.

Section session.
Context (peer : list Message -> option (list byte)).
Context (ends : nat -> bool).
Context (s : clientSession).

(** [s.conn.Call(ctx, s.peerID, msg)]: only what parses is ever delivered. *)
Definition Call (msg : Message) : op Message := fun st =>
  let st := mkSt (sent st ++ [msg]) (slept st) (tick st) (tbl st) (drawn st) in
  match peer (sent st) with
  | None => Ret (Fail ErrCall, st)
  | Some d =>
      r ← Parse d;
      match r with Ok m => Ret (Value m, st) | Err _ => Ret (Fail ErrCall, st) end
  end.

(** Looks at the context: is it seen to have ended? *)
Definition ctx_ended : op bool := fun st =>
  Ret (Value (ends (tick st)), mkSt (sent st) (slept st) (S (tick st)) (tbl st) (drawn st)).

(** A timer of [d] against the context; true when it ran out. *)
Definition sleepCtx (d : Z) : op bool := fun st =>
  Ret (Value (negb (ends (tick st))),
       mkSt (sent st) (slept st ++ [d]) (S (tick st)) (tbl st) (drawn st)).

(** [p.Await(ctx)] *)
Definition Await {A} (p : answer A) : op A :=
  e ← ctx_ended; if (e : bool) then fail ErrCtx else fun st => Ret (p, st).

(** The promise of a goroutine that runs [x]. *)
Definition spawn {A} (x : op A) : op (answer A) := fun st => r ← x st; Ret (Value r.1, r.2).

Definition thenAsync {A B} (p : answer A) (fn : A -> op B) : op B := v ← Await p; fn v.

(** ** The operations of a session *)

Definition Quote (req : QuoteRequest) : op QuoteResult :=
  _ ← gate (requireGrant (cs_grant s) AuthQuote);
  reqMsg ← built (buildQuoteRequest req);
  resp ← Call reqMsg;
  reading (readQuoteResult resp).

Definition GetState (req : StateRequest) : op StateResult :=
  _ ← gate (requireGrant (cs_grant s) AuthQuote);
  reqMsg ← built (buildStateRequest req);
  resp ← Call reqMsg;
  reading (readStateResult resp).

(** The estimate, 0 when the quote fails. *)
Definition quote_or_zero (req : QuoteRequest) : op Z := fun st =>
  r ← (p ← spawn (Quote req); Await p) st;
  match r with
  | (Value qr, st) => Ret (Value (qRes_AmountOut qr), st)
  | (Fail _, st) => Ret (Value 0, st)
  | (Pending, st) => Ret (Pending, st)
  end.

Definition prepareLocal (req : SwapIntentRequest) : op PreparedIntent :=
  if sir_AmountIn req =? 0 then fail ErrZeroAmount else
  match market s (sir_MarketID req) with
  | None => fail (ErrUnknownMarket (sir_MarketID req))
  | Some pk =>
      quoted ← quote_or_zero
        (mkQuoteRequest (sir_MarketID req) (sir_AmountIn req) (zeroForOneFor req));
      let intentID := DeriveIntentID (sir_NetworkID req) (sir_CChainID req) (sir_DChainID req)
        (sir_Account req) (sir_AssetIn req) (sir_AmountIn req) (sir_MarketID req)
        (sir_Nonce req) in
      let hookData := EncodeIntentHookData (sir_Deadline req) (sir_Nonce req) in
      let calldata := EncodeSwapCalldata pk (zeroForOneFor req) (sir_AmountIn req) hookData in
      mret (mkPreparedIntent addr9999 calldata hookData intentID quoted
              (sir_DChainID req) (sir_CChainID req) (sir_Account req) (sir_Recipient req)
              (sir_AssetIn req) (sir_AmountIn req) (sir_MarketID req))
  end.

Definition PrepareSwapIntent (req : SwapIntentRequest) : op PreparedIntent :=
  _ ← gate (requireGrant (cs_grant s) AuthIntent);
  prepareLocal req.

(** The watch tracks the id the peer replies with. *)
Definition NotifyIntent (intent : answer PreparedIntent) : op IntentWatch :=
  thenAsync intent (fun pi =>
    _ ← gate (requireGrant (cs_grant s) AuthIntent);
    notifyMsg ← built (buildPreparedIntent pi MsgNotify);
    resp ← Call notifyMsg;
    ref ← reading (readIntentWatchRef resp);
    mret (mkIntentWatch true (iw_IntentID ref))).

Definition ImportSettlement (ref : answer DExportRef) : op SettlementSubmitResult :=
  thenAsync ref (fun r =>
    _ ← gate (requireGrant (cs_grant s) AuthSettlement);
    reqMsg ← built (buildDExportRef r);
    resp ← Call reqMsg;
    reading (readSettlementResult resp)).

(** ** Watches *)

Definition Poll (w : IntentWatch) : op IntentStatus :=
  if negb (w_session w) then fail ErrNilWatch else
  _ ← gate (requireGrant (cs_grant s) AuthWatch);
  reqMsg ← built (buildWatchPollRequest (w_intentID w));
  resp ← Call reqMsg;
  reading (readIntentStatus resp).

(** The polling loop, with the polls it may make. *)
Fixpoint streamUntilCommitted (polls : nat) (backoff : Z) (w : IntentWatch) : op DExportRef :=
  match polls with
  | O => fun st => Ret (Pending, st)
  | S polls =>
      e ← ctx_ended;
      if (e : bool) then fail ErrCtx else
      st ← Poll w;
      if is_Phase st =? PhaseCommitted then mret (rebind (is_Ref st) (w_intentID w)) else
      if is_Phase st =? PhaseRejected then
        fail (ErrRejected (or_default (is_Reason st) (ascii "intent rejected by D"%string))) else
      fired ← sleepCtx backoff;
      if negb fired then fail ErrCtx else
      streamUntilCommitted polls (next_backoff backoff) w
  end.

Definition OnCommitted (polls : nat) (w : IntentWatch) : op (answer DExportRef) :=
  if negb (w_session w) then mret (Fail ErrNilWatch) else
  match requireGrant (cs_grant s) AuthWatch with
  | Err e => mret (Fail e)
  | Ok _ => spawn (streamUntilCommitted polls minBackoff w)
  end.

(** ** Flows *)

Definition SwapFlow (polls : nat) (req : SwapIntentRequest) : op FlowStages :=
  quote ← spawn (Quote (mkQuoteRequest (sir_MarketID req) (sir_AmountIn req) (zeroForOneFor req)));
  intent ← spawn (PrepareSwapIntent req);
  watch ← spawn (NotifyIntent intent);
  committed ← spawn (thenAsync watch (fun w => p ← OnCommitted polls w; Await p));
  settle ← spawn (ImportSettlement committed);
  mret (mkFlowStages quote intent watch committed settle).

(** [send] is the wallet: it submits the calldata, or fails. *)
Definition SwapFlowWithSender (polls : nat) (req : SwapIntentRequest)
  (send : option (Account -> list byte -> bool)) : op FlowStages :=
  quote ← spawn (Quote (mkQuoteRequest (sir_MarketID req) (sir_AmountIn req) (zeroForOneFor req)));
  intent ← spawn (PrepareSwapIntent req);
  funded ← spawn (thenAsync intent (fun pi =>
    match send with
    | None => fail ErrNoSender
    | Some send => if send (pi_To pi) (pi_Calldata pi) then mret pi else fail ErrSend
    end));
  watch ← spawn (NotifyIntent funded);
  committed ← spawn (thenAsync watch (fun w => p ← OnCommitted polls w; Await p));
  settle ← spawn (ImportSettlement committed);
  mret (mkFlowStages quote intent watch committed settle).
End session.

(** ** Reasoning about operations *)

(** From [st], [x] returns (it does not panic) an answer and a state in [Q]. *)
Definition runs {A} (x : op A) (st : St) (Q : answer A -> St -> Prop) : Prop :=
  exists a st', x st = Ret (a, st') /\ Q a st'.

Lemma runs_mono {A} (x : op A) st (Q Q' : answer A -> St -> Prop) :
  runs x st Q -> (forall a st', Q a st' -> Q' a st') -> runs x st Q'.
Proof. intros (a & st' & Hx & Hq) H; exists a, st'; auto. Qed.

Lemma runs_ret {A} (a : A) st (Q : answer A -> St -> Prop) : Q (Value a) st -> runs (mret a) st Q.
Proof. intros; exists (Value a), st; done. Qed.

Lemma runs_fail {A} e st (Q : answer A -> St -> Prop) : Q (Fail e) st -> runs (fail e) st Q.
Proof. intros; exists (Fail e), st; done. Qed.

(** What a bind passes on. *)
Definition continue {A B} (k : A -> op B) (Q : answer B -> St -> Prop) (a : answer A) (st : St) : Prop :=
  match a with
  | Value v => runs (k v) st Q
  | Fail e => Q (Fail e) st
  | Pending => Q Pending st
  end.

Lemma runs_bind {A B} (x : op A) (k : A -> op B) st Q :
  runs x st (continue k Q) -> runs (x ≫= k) st Q.
Proof.
  intros ([v|e|] & st' & Hx & Hq); simpl in Hq.
  - destruct Hq as (b & st2 & Hk & Hq); exists b, st2; unfold mbind, op_bind; rewrite Hx; done.
  - exists (Fail e), st'; unfold mbind, op_bind; rewrite Hx; done.
  - exists Pending, st'; unfold mbind, op_bind; rewrite Hx; done.
Qed.

Lemma runs_gate r st Q :
  (r = Ok tt -> Q (Value tt) st) -> (forall e, r = Err e -> Q (Fail e) st) -> runs (gate r) st Q.
Proof. destruct r as [[]|e]; intros H H'; [apply runs_ret|apply runs_fail]; auto. Qed.

Lemma runs_reading {A} (x : outcome A) P st (Q : answer A -> St -> Prop) :
  gives x P -> (forall a, x = Ret a -> P a -> Q (Value a) st) -> runs (reading x) st Q.
Proof. intros (a & Hx & Ha) H; exists (Value a), st; unfold reading; rewrite Hx; split; [done|auto]. Qed.

(** A well-typed value that fits a message is built. *)
Lemma runs_built {T} (e : Envelope T) `{!EnvelopeLaws e} x st Q :
  typed e x -> env_size e x < 2 ^ 31 ->
  (forall d, build e x = Ret (Ok (WrapBuffer d)) -> Parse d = Ret (Ok (WrapBuffer d)) ->
     Message_Flags (WrapBuffer d) = Ret (env_flags e) -> Q (Value (WrapBuffer d)) st) ->
  runs (built (build e x)) st Q.
Proof.
  intros Ht Hs HQ; destruct (env_roundtrip x Ht Hs) as (d & Hb & Hp & _ & Hf & _).
  exists (Value (WrapBuffer d)), st; unfold built; rewrite Hb; split; [done|auto].
Qed.

Definition with_sent (st : St) (m : Message) : St :=
  mkSt (sent st ++ [m]) (slept st) (tick st) (tbl st) (drawn st).
Definition with_tick (st : St) : St :=
  mkSt (sent st) (slept st) (S (tick st)) (tbl st) (drawn st).
Definition with_sleep (st : St) (d : Z) : St :=
  mkSt (sent st) (slept st ++ [d]) (S (tick st)) (tbl st) (drawn st).

Section logic.
Context (peer : list Message -> option (list byte)).
Context (ends : nat -> bool).
Context (s : clientSession).

(** The reply the peer gives to the last of the messages [h]. *)
Definition replies (h : list Message) (m : Message) : Prop :=
  exists d, peer h = Some d /\ Parse d = Ret (Ok m).

Lemma runs_Call msg st Q :
  Q (Fail ErrCall) (with_sent st msg) ->
  (forall m, replies (sent (with_sent st msg)) m -> Q (Value m) (with_sent st msg)) ->
  runs (Call peer msg) st Q.
Proof.
  intros Hf Hv; unfold Call; fold (with_sent st msg).
  destruct (peer (sent (with_sent st msg))) as [d|] eqn:Hp;
    [|eexists _, _; unfold Call; fold (with_sent st msg); rewrite Hp; split; [reflexivity|done]].
  destruct (Parse d) as [[m|e]|] eqn:Hd; [..|pose proof Hd as Hd'; rewrite Parse_eq in Hd'; done].
  - exists (Value m), (with_sent st msg); fold (with_sent st msg); rewrite Hp, Hd; split; [done|].
    apply Hv; exists d; done.
  - exists (Fail ErrCall), (with_sent st msg); fold (with_sent st msg); rewrite Hp, Hd; done.
Qed.

Lemma runs_ctx st Q : Q (Value (ends (tick st))) (with_tick st) -> runs (ctx_ended ends) st Q.
Proof. intros; eexists _, _; split; [reflexivity|done]. Qed.

Lemma runs_sleep d st Q :
  Q (Value (negb (ends (tick st)))) (with_sleep st d) -> runs (sleepCtx ends d) st Q.
Proof. intros; eexists _, _; split; [reflexivity|done]. Qed.

Lemma runs_Await {A} (p : answer A) st (Q : answer A -> St -> Prop) :
  Q (if ends (tick st) then Fail ErrCtx else p) (with_tick st) -> runs (Await ends p) st Q.
Proof.
  intros HQ; unfold Await; apply runs_bind, runs_ctx; simpl.
  destruct (ends (tick st)); [apply runs_fail; done|]; eexists _, _; split; [reflexivity|done].
Qed.

Lemma runs_spawn {A} (x : op A) st Q :
  runs x st (fun a st' => Q (Value a) st') -> runs (spawn x) st Q.
Proof.
  intros (a & st' & Hx & HQ); exists (Value a), st'; unfold spawn; rewrite Hx; done.
Qed.

Lemma runs_thenAsync {A B} (p : answer A) (fn : A -> op B) st Q :
  continue fn Q (if ends (tick st) then Fail ErrCtx else p) (with_tick st) ->
  runs (thenAsync ends p fn) st Q.
Proof. intros HQ; unfold thenAsync; apply runs_bind, runs_Await; done. Qed.
End logic.

(** ** One exchange *)

(** A gated request with a typed reply: nothing is sent without the grant, one
    message otherwise; the answer is read off the peer's reply. *)
Section exchange.
Context (peer : list Message -> option (list byte)) (ends : nat -> bool) (s : clientSession).
Context {T U : Type} (e : Envelope T) (r : Envelope U).
Context `{!EnvelopeLaws e} `{!EnvelopeLaws r}.

Definition exchange (need : Authority) (x : T) : op U :=
  _ ← gate (requireGrant (cs_grant s) need);
  reqMsg ← built (build e x);
  resp ← Call peer reqMsg;
  reading (read r resp).

(** The answers of an exchange from [st]. *)
Definition exchanged (need : Authority) (x : T) (st : St) (a : answer U) (st' : St) : Prop :=
  (permits (cs_grant s) need = false /\ a = Fail ErrNoAuthority /\ st' = st)
  \/ (permits (cs_grant s) need = true
      /\ exists m, build e x = Ret (Ok m) /\ Message_Flags m = Ret (env_flags e)
         /\ st' = with_sent st m
         /\ (a = Fail ErrCall
             \/ exists resp u, replies peer (sent st') resp /\ read r resp = Ret u
                /\ a = Value u /\ typed r u /\ norm r u = u)).

Lemma exchange_runs need x st :
  typed e x -> env_size e x < 2 ^ 31 -> runs (exchange need x) st (exchanged need x st).
Proof.
  intros Ht Hs; unfold exchange, exchanged, requireGrant.
  destruct (permits (cs_grant s) need) eqn:Hp; cbn [negb].
  - apply runs_bind, runs_gate; [intros _|done]; cbn [continue]; apply runs_bind, (runs_built e); try done.
    intros d Hb Hd Hf; cbn [continue]; apply runs_bind, runs_Call; cbn [continue].
    + right; split; [done|]; eexists; split_and!; try done; auto.
    + intros m Hm; destruct Hm as (d' & Hd1 & Hd2).
      apply (runs_reading _ _ _ _ (env_total d' m Hd2)); intros u Hu [Htu Hnu].
      right; split; [done|]; eexists; split; [done|split; [done|split; [done|]]].
      right; exists m, u; split_and!; try done; exists d'; done.
  - apply runs_bind, runs_gate; [done|]; intros e' [= <-]; left; done.
Qed.
End exchange.

(** ** What the operations send and answer *)

(** [st'] differs from [st] by the messages [ms] (and sleeps and looks at the
    context). *)
Definition sends (st st' : St) (ms : list Message) : Prop :=
  sent st' = sent st ++ ms /\ tbl st' = tbl st /\ drawn st' = drawn st.

Lemma sends_nil st : sends st st [].
Proof. split_and!; [rewrite app_nil_r; done|done|done]. Qed.
Lemma sends_tick st st' ms : sends (with_tick st) st' ms -> sends st st' ms.
Proof. done. Qed.
Lemma sends_trans st1 st2 st3 ms ns : sends st1 st2 ms -> sends st2 st3 ns -> sends st1 st3 (ms ++ ns).
Proof. intros (H & ? & ?) (H' & ? & ?); split_and!; [rewrite H', H, app_assoc; done|congruence..]. Qed.
Lemma sends_tick_r st st' ms : sends st st' ms -> sends st (with_tick st') ms.
Proof. done. Qed.
Lemma sends_one st m : sends st (with_sent st m) [m].
Proof. done. Qed.

(** At most one message, and then the one [x] builds. *)
Definition at_most_one (x : outcome (result Message zap_error)) (ms : list Message) : Prop :=
  ms = [] \/ exists m, ms = [m] /\ x = Ret (Ok m).

Lemma tag_inj t t' : 0 <= t < 256 -> 0 <= t' < 256 -> tag t = tag t' -> t = t'.
Proof.
  unfold tag, u16; rewrite !Z.shiftl_mul_pow2 by lia; intros Ht Ht'.
  rewrite !Z.mod_small by lia; lia.
Qed.

(** The classes of messages and the authority each takes. *)
Definition classes : list (Z * Authority) :=
  [(tag MsgQuote, AuthQuote); (tag MsgGetState, AuthQuote); (tag MsgNotify, AuthIntent);
   (tag MsgWatchPoll, AuthWatch); (tag MsgImport, AuthSettlement)].

Ltac in_classes := repeat (apply list_elem_of_here || apply list_elem_of_further).

Section specs.
Context (peer : list Message -> option (list byte)) (ends : nat -> bool) (s : clientSession).

(** A message of a class the session's grant covers. *)
Definition allowed (m : Message) : Prop :=
  exists flags need, (flags, need) ∈ classes /\ Message_Flags m = Ret flags
    /\ permits (cs_grant s) need = true.

Lemma exchanged_sends {T U} (e : Envelope T) (r : Envelope U) need x st a st' :
  exchanged peer s e r need x st a st' -> (env_flags e, need) ∈ classes ->
  exists ms, sends st st' ms /\ at_most_one (build e x) ms /\ Forall allowed ms /\ a <> Pending
    /\ (forall u, a = Value u -> ms <> [] /\ typed r u /\ norm r u = u
          /\ exists resp, replies peer (sent st') resp /\ read r resp = Ret u).
Proof.
  intros [(Hp & -> & ->)|(Hp & m & Hb & Hf & -> & Ha)] Hc.
  - exists []; split; [apply sends_nil|split; [by left|split; [constructor|split; [done|done]]]].
  - exists [m]; split; [apply sends_one|split; [right; eauto|split]].
    { constructor; [|constructor]; exists (env_flags e), need; done. }
    destruct Ha as [->|(resp & u & Hr & Hu & -> & Ht & Hn)]; split; try done.
    intros u' [= <-]; split_and!; try done; eauto.
Qed.

Lemma Quote_runs req st :
  typed QuoteRequest_env req ->
  runs (Quote peer s req) st (exchanged peer s QuoteRequest_env QuoteResult_env AuthQuote req st).
Proof. intros Ht; apply (exchange_runs peer s QuoteRequest_env QuoteResult_env); done. Qed.

(** The estimate is a 64-bit number, whatever the peer does. *)
Lemma quote_or_zero_runs req st :
  typed QuoteRequest_env req ->
  runs (quote_or_zero peer ends s req) st (fun a st' =>
    exists q ms, a = Value q /\ 0 <= q < 2 ^ 64 /\ sends st st' ms
      /\ at_most_one (buildQuoteRequest req) ms /\ Forall allowed ms).
Proof.
  intros Ht; destruct (Quote_runs req st Ht) as (a & st' & Hq & Hex).
  destruct (exchanged_sends _ _ _ _ _ _ _ Hex ltac:(in_classes)) as (ms & Hs & Ho & Hal & Hnp & Hv).
  unfold runs, quote_or_zero, spawn, mbind, op_bind, outcome_bind; rewrite Hq; cbn [fst snd].
  unfold Await, mbind, op_bind, ctx_ended; cbn beta iota.
  destruct (ends (tick st')); cbn; [exists (Value 0), (with_tick st'); split; [done|]|].
  { exists 0, ms; split_and!; done. }
  destruct a as [qr|e|]; [..|done].
  - exists (Value (qRes_AmountOut qr)), (with_tick st'); split; [done|].
    destruct (Hv qr eq_refl) as (_ & (_ & _ & ? & _) & _); exists (qRes_AmountOut qr), ms; split_and!; done || lia.
  - exists (Value 0), (with_tick st'); split; [done|]; exists 0, ms; split_and!; done.
Qed.

(** ** Preparing an intent *)

(** The intent the client signs for [req] on the market [pk]; only the estimate
    [q] comes from outside. *)
Definition prepared (req : SwapIntentRequest) (pk : PoolKeyArgs) (q : Z) : PreparedIntent :=
  let hookData := EncodeIntentHookData (sir_Deadline req) (sir_Nonce req) in
  mkPreparedIntent addr9999
    (EncodeSwapCalldata pk true (sir_AmountIn req) hookData) hookData
    (DeriveIntentID (sir_NetworkID req) (sir_CChainID req) (sir_DChainID req) (sir_Account req)
       (sir_AssetIn req) (sir_AmountIn req) (sir_MarketID req) (sir_Nonce req))
    q (sir_DChainID req) (sir_CChainID req) (sir_Account req) (sir_Recipient req)
    (sir_AssetIn req) (sir_AmountIn req) (sir_MarketID req).

Definition prepare_answer (req : SwapIntentRequest) (q : Z) : answer PreparedIntent :=
  if negb (permits (cs_grant s) AuthIntent) then Fail ErrNoAuthority else
  if sir_AmountIn req =? 0 then Fail ErrZeroAmount else
  match market s (sir_MarketID req) with
  | None => Fail (ErrUnknownMarket (sir_MarketID req))
  | Some pk => Value (prepared req pk q)
  end.

Definition quote_of (req : SwapIntentRequest) : QuoteRequest :=
  mkQuoteRequest (sir_MarketID req) (sir_AmountIn req) true.

Lemma quote_of_typed req : typed SwapIntentRequest_env req -> typed QuoteRequest_env (quote_of req).
Proof. cbn; intros H; destruct_and? H; split_and!; done || lia. Qed.

Lemma PrepareSwapIntent_runs req st :
  typed SwapIntentRequest_env req ->
  runs (PrepareSwapIntent peer ends s req) st (fun a st' =>
    exists q ms, a = prepare_answer req q /\ 0 <= q < 2 ^ 64 /\ sends st st' ms
      /\ at_most_one (buildQuoteRequest (quote_of req)) ms /\ Forall allowed ms).
Proof.
  intros Ht; unfold PrepareSwapIntent, prepare_answer, requireGrant.
  assert (Hno : forall a : answer PreparedIntent, exists q ms, a = a /\ 0 <= q < 2 ^ 64 /\ sends st st ms
      /\ at_most_one (buildQuoteRequest (quote_of req)) ms /\ Forall allowed ms)
    by (intros a; exists 0, []; split_and!; try done; [apply sends_nil|left; done]).
  destruct (permits (cs_grant s) AuthIntent); cbn [negb].
  2: { apply runs_bind, runs_gate; [done|]; intros e [= <-]; apply (Hno (Fail ErrNoAuthority)). }
  apply runs_bind, runs_gate; [intros _|done]; cbn [continue]; unfold prepareLocal.
  destruct (sir_AmountIn req =? 0); [apply runs_fail, (Hno (Fail ErrZeroAmount))|].
  destruct (market s (sir_MarketID req)) as [pk|]; [|apply runs_fail, (Hno (Fail (ErrUnknownMarket _)))].
  apply runs_bind; eapply runs_mono; [apply (quote_or_zero_runs (quote_of req)), quote_of_typed, Ht|].
  intros a st' (q & ms & -> & Hq & Hs & Ho & Hal); apply runs_ret; exists q, ms; split_and!; done || lia.
Qed.
End specs.

(** ** Watching *)

(** The sleeps of a loop that starts at [b]. *)
Fixpoint backoffs (n : nat) (b : Z) : list Z :=
  match n with O => [] | S n => b :: backoffs n (next_backoff b) end.

(** The loop stops at such a status. *)
Definition terminal (st : IntentStatus) : bool :=
  (is_Phase st =? PhaseCommitted) || (is_Phase st =? PhaseRejected).

Section watching.
Context (peer : list Message -> option (list byte)) (ends : nat -> bool) (s : clientSession).

(** The peer answers the last of the messages [h] with status [x]. *)
Definition reports (h : list Message) (x : IntentStatus) : Prop :=
  exists resp, replies peer h resp /\ readIntentStatus resp = Ret x.

Lemma reports_typed h x : reports h x -> typed IntentStatus_env x.
Proof.
  intros (resp & (d & _ & Hd) & Hr).
  destruct (env_total (e := IntentStatus_env) d resp Hd) as (y & Hy & Ht & _).
  unfold read in Hy; cbn in Hy; rewrite Hr in Hy; simplify_eq; done.
Qed.

Lemma Poll_runs w st :
  is_ID (w_intentID w) ->
  runs (Poll peer s w) st (fun a st' =>
    (w_session w = false /\ a = Fail ErrNilWatch /\ st' = st)
    \/ exchanged peer s WatchPollRequest_env IntentStatus_env AuthWatch (w_intentID w) st a st').
Proof.
  intros Hi; unfold Poll; destruct (w_session w); cbn [negb].
  - eapply runs_mono; [apply (exchange_runs peer s WatchPollRequest_env IntentStatus_env AuthWatch)|];
      [done|done|]; auto.
  - apply runs_fail; auto.
Qed.

(** What the loop sends, and what it resolves to. *)
Definition streamed (w : IntentWatch) (n : nat) (st : St) (a : answer DExportRef) (st' : St) : Prop :=
  exists ms, sends st st' ms /\ len ms <= Z.of_nat n
    /\ Forall (fun m => buildWatchPollRequest (w_intentID w) = Ret (Ok m)) ms
    /\ Forall (allowed s) ms
    /\ (forall ref, a = Value ref -> ms <> [] /\ exists x, reports (sent st') x
          /\ is_Phase x = PhaseCommitted /\ ref = rebind (is_Ref x) (w_intentID w)).

Lemma streamed_none w n st st' a :
  sends st st' [] -> (forall ref, a <> Value ref) -> streamed w n st a st'.
Proof.
  intros Hs Ha; exists []; split; [done|split; [unfold len; simpl; lia|split; [constructor|split; [constructor|]]]].
  intros ref He; destruct (Ha ref He).
Qed.

Lemma stream_runs w : is_ID (w_intentID w) -> forall n b st,
  runs (streamUntilCommitted peer ends s n b w) st (streamed w n st).
Proof.
  intros Hi; induction n as [|n IH]; intros b st; cbn [streamUntilCommitted].
  { eexists _, _; split; [reflexivity|]; apply streamed_none; [apply sends_nil|done]. }
  apply runs_bind, runs_ctx; cbn [continue]; destruct (ends (tick st)).
  { apply runs_fail, streamed_none; [apply sends_tick_r, sends_nil|done]. }
  apply runs_bind; eapply runs_mono; [apply (Poll_runs w (with_tick st) Hi)|].
  intros a st1 [(_ & -> & ->)|Hex]; [apply streamed_none; [apply sends_tick_r, sends_nil|done]|].
  destruct (exchanged_sends peer s _ _ _ _ _ _ _ Hex ltac:(in_classes)) as (ms & Hs & Ho & Hal & Hnp & Hv).
  assert (Hs0 : sends st st1 ms) by exact Hs; clear Hs.
  assert (Hms : Forall (fun m => buildWatchPollRequest (w_intentID w) = Ret (Ok m)) ms /\ len ms <= 1).
  { destruct Ho as [->|(m & -> & Hm)].
    - split; [constructor|unfold len; simpl; lia].
    - split; [apply Forall_singleton; exact Hm|unfold len; simpl; lia]. }
  assert (Hfin : forall st2 a, sends st1 st2 [] -> (forall ref, a = Value ref -> ms <> [] /\ exists x,
      reports (sent st2) x /\ is_Phase x = PhaseCommitted /\ ref = rebind (is_Ref x) (w_intentID w)) ->
      streamed w (S n) st a st2).
  { intros st2 a' Hs2 Ha'; exists ms; split; [rewrite <- (app_nil_r ms); eapply sends_trans; eauto|].
    destruct Hms; split; [lia|split_and!; done]. }
  destruct a as [x|e|]; cbn [continue]; [|apply Hfin; [apply sends_nil|done]|done].
  destruct (Hv x eq_refl) as (Hne & Htx & _ & resp & Hresp & Hrd).
  destruct (Z.eqb_spec (is_Phase x) PhaseCommitted) as [Hph|Hph].
  { apply runs_ret, Hfin; [apply sends_nil|]; intros ref [= <-]; split; [done|].
    exists x; split; [exists resp; done|done]. }
  destruct (is_Phase x =? PhaseRejected); [apply runs_fail, Hfin; [apply sends_nil|done]|].
  apply runs_bind, runs_sleep; cbn [continue]; destruct (ends (tick st1)); cbn [negb].
  { apply runs_fail, Hfin; [|done]; split_and!; [rewrite app_nil_r; done|done|done]. }
  eapply runs_mono; [apply IH|]; intros a st2 (ms' & Hs' & Hl' & Hf' & Hal' & Hv').
  exists (ms ++ ms'); split; [eapply sends_trans; [exact Hs0|exact Hs']|].
  destruct Hms; split; [rewrite len_app; lia|split; [apply Forall_app; done|split; [apply Forall_app; done|]]].
  intros ref Hr; destruct (Hv' ref Hr) as [? ?]; split; [|done].
  intros [? ?]%app_nil; done.
Qed.
End watching.

Section watch_live.
Context (peer : list Message -> option (list byte)) (ends : nat -> bool) (s : clientSession).
Context (w : IntentWatch) (pm : Message).
Hypothesis Hses : w_session w = true.
Hypothesis Hgrant : permits (cs_grant s) AuthWatch = true.
Hypothesis Hpm : buildWatchPollRequest (w_intentID w) = Ret (Ok pm).

Lemma Poll_reports x st :
  reports peer (sent st ++ [pm]) x -> Poll peer s w st = Ret (Value x, with_sent st pm).
Proof.
  intros (resp & (d & Hd & Hp) & Hr); unfold Poll, requireGrant; rewrite Hses, Hgrant; cbn [negb gate].
  unfold built; rewrite Hpm; unfold mbind, op_bind; cbn -[Call sent].
  unfold Call; fold (with_sent st pm); change (sent (with_sent st pm)) with (sent st ++ [pm]).
  rewrite Hd, Hp; cbn; unfold reading; rewrite Hr; done.
Qed.

(** One round of the loop in front of a status that is not terminal. *)
Lemma stream_step x n b st :
  ends (tick st) = false -> ends (S (tick st)) = false ->
  reports peer (sent st ++ [pm]) x -> terminal x = false ->
  streamUntilCommitted peer ends s (S n) b w st
  = streamUntilCommitted peer ends s n (next_backoff b) w
      (with_sleep (with_sent (with_tick st) pm) b).
Proof.
  intros H0 H1 Hr Hx; cbn [streamUntilCommitted]; unfold mbind, op_bind, ctx_ended; rewrite H0.
  cbn beta iota; fold (with_tick st); rewrite (Poll_reports x (with_tick st) Hr); cbn beta iota.
  unfold terminal in Hx; apply orb_false_iff in Hx as [-> ->].
  unfold sleepCtx; change (tick (with_sent (with_tick st) pm)) with (S (tick st)).
  rewrite H1; done.
Qed.

Lemma stream_commits k : forall n b st xs x,
  length xs = k -> (k < n)%nat ->
  (forall j, (tick st <= j <= tick st + 2 * k)%nat -> ends j = false) ->
  (forall (i : nat) y, xs !! i = Some y ->
     reports peer (sent st ++ replicate (S i) pm) y /\ terminal y = false) ->
  reports peer (sent st ++ replicate (S k) pm) x -> is_Phase x = PhaseCommitted ->
  exists st', streamUntilCommitted peer ends s n b w st
      = Ret (Value (rebind (is_Ref x) (w_intentID w)), st')
    /\ sent st' = sent st ++ replicate (S k) pm /\ slept st' = slept st ++ backoffs k b.
Proof.
  induction k as [|k IH]; intros n b st xs x Hxs Hn He Hy Hx Hph; destruct n as [|n]; try lia.
  - exists (with_sent (with_tick st) pm); cbn [streamUntilCommitted].
    unfold mbind, op_bind, ctx_ended; rewrite He by lia; cbn beta iota; fold (with_tick st).
    rewrite (Poll_reports x (with_tick st) Hx); cbn beta iota; rewrite Hph; cbn.
    split; [done|split; [done|rewrite app_nil_r; done]].
  - destruct xs as [|y xs]; simpl in Hxs; [done|]; destruct (Hy 0%nat y eq_refl) as [Hr Ht].
    rewrite (stream_step y) by (assumption || (apply He; lia)).
    set (st1 := with_sleep (with_sent (with_tick st) pm) b).
    assert (Hs1 : forall j, sent st1 ++ replicate j pm = sent st ++ replicate (S j) pm)
      by (intros j; unfold st1; simpl; rewrite <- app_assoc; done).
    destruct (IH n (next_backoff b) st1 xs x) as (st' & Hst & Hse & Hsl);
      [lia|lia|intros j Hj; apply He; simpl in Hj; lia| |rewrite Hs1; done|done|].
    { intros i z Hz; rewrite Hs1; apply (Hy (S i) z Hz). }
    exists st'; rewrite Hst, Hse, Hs1, Hsl; split; [done|split; [done|]].
    unfold st1; simpl; rewrite <- app_assoc; done.
Qed.

(** Without a terminal status the loop never resolves. *)
Lemma stream_pending n : forall b st,
  (forall j, ends j = false) ->
  (forall i, exists y, reports peer (sent st ++ replicate (S i) pm) y /\ terminal y = false) ->
  exists st', streamUntilCommitted peer ends s n b w st = Ret (Pending, st').
Proof.
  induction n as [|n IH]; intros b st He Hy; [exists st; done|].
  destruct (Hy 0%nat) as (y & Hr & Ht); rewrite (stream_step y) by (done || apply He).
  apply IH; [done|]; intros i; destruct (Hy (S i)) as (z & Hz & ?); exists z; split; [|done].
  simpl in *; rewrite <- app_assoc; done.
Qed.
End watch_live.

(** The loop ends once the context does. *)
Lemma stream_ends peer ends s w n : forall b st j a st',
  ends j = true -> (tick st <= j < tick st + 2 * n)%nat ->
  streamUntilCommitted peer ends s n b w st = Ret (a, st') -> a <> Pending.
Proof.
  induction n as [|n IH]; intros b st j a st' Hj Hn; [lia|]; cbn [streamUntilCommitted].
  unfold mbind at 1, op_bind at 1, ctx_ended; fold (with_tick st).
  destruct (ends (tick st)) eqn:E0; [intros [= <- <-]; done|].
  assert (Hpoll : forall r st1, Poll peer s w (with_tick st) = Ret (r, st1) ->
    r <> Pending /\ tick st1 = S (tick st)).
  { intros r st1; unfold Poll; destruct (w_session w); cbn [negb]; [|intros [= <- <-]; done].
    unfold requireGrant; destruct (permits _ _); cbn [negb gate]; [|intros [= <- <-]; done].
    unfold mbind, op_bind, built; cbn [mret op_ret].
    destruct (buildWatchPollRequest _) as [[m|e]|]; cbn -[Call]; [|intros [= <- <-]; done|done].
    unfold Call; cbn -[Parse]; destruct (peer _) as [d|]; [|intros [= <- <-]; done].
    destruct (Parse d) as [[m'|e]|]; cbn; [|intros [= <- <-]; done|done].
    unfold reading; destruct (readIntentStatus m'); cbn; [intros [= <- <-]; done|done]. }
  unfold mbind at 1, op_bind at 1; destruct (Poll peer s w (with_tick st)) as [[r st1]|] eqn:Hp; [|done].
  destruct (Hpoll r st1 eq_refl) as [Hnp Ht]; destruct r as [x|e|]; [|intros [= <- <-]; done|done].
  destruct (is_Phase x =? PhaseCommitted); [intros [= <- <-]; done|].
  destruct (is_Phase x =? PhaseRejected); [intros [= <- <-]; done|].
  unfold mbind, op_bind, sleepCtx; fold (with_sleep st1 b); rewrite Ht.
  destruct (ends (S (tick st))) eqn:E1; cbn [negb]; [intros [= <- <-]; done|].
  apply (IH _ _ j); [done|]; simpl; rewrite Ht.
  assert (j <> tick st /\ j <> S (tick st)) by (split; intros ->; congruence); lia.
Qed.

(** The sleeps double from 25 ms and stop at 2 s. *)
Lemma backoffs_lookup n : forall b (i : nat) d,
  0 < b <= maxBackoff -> backoffs n b !! i = Some d -> d = Z.min (b * 2 ^ Z.of_nat i) maxBackoff.
Proof.
  induction n as [|n IH]; intros b [|i] d Hb Hd; simpl in Hd; try done.
  - injection Hd as <-; rewrite Z.mul_1_r; lia.
  - unfold maxBackoff, millisecond in *.
    assert (Hn : next_backoff b = Z.min (b * 2) (2000 * 1000000))
      by (unfold next_backoff, maxBackoff, millisecond; repeat case_match; lia).
    apply IH in Hd; [|unfold maxBackoff, millisecond; lia].
    rewrite Hd, Hn, Nat2Z.inj_succ, Z.pow_succ_r by lia; unfold maxBackoff, millisecond.
    pose proof (Z.pow_pos_nonneg 2 (Z.of_nat i)); nia.
Qed.

(** ** Stages of a flow *)

(** A message of the stage that answer [i] feeds: at most one, built from it. *)
Definition fed {A} (i : answer A) (b : A -> outcome (result Message zap_error)) (ms : list Message) : Prop :=
  ms = [] \/ exists x m, i = Value x /\ ms = [m] /\ b x = Ret (Ok m).

Section stages.
Context (peer : list Message -> option (list byte)) (ends : nat -> bool) (s : clientSession).

(** A stage waits for its input, makes one exchange and passes [f] of the
    reply on. *)
Section stage.
Context {T U B : Type} (e : Envelope T) (r : Envelope U).
Context `{!EnvelopeLaws e} `{!EnvelopeLaws r}.
Context (need : Authority) (fn : T -> op B) (f : U -> B).
Hypothesis Hclass : (env_flags e, need) ∈ classes.
Hypothesis Hfn : forall x st, fn x st = (exchange peer s e r need x ≫= fun u => mret (f u)) st.

Definition staged (i : answer T) (st : St) (a : answer B) (st' : St) : Prop :=
  exists ms, sends st st' ms /\ fed i (build e) ms /\ Forall (allowed s) ms
    /\ (forall v, a = Value v -> ms <> [] /\ exists u, v = f u /\ typed r u).

Lemma stage_runs i st :
  (forall x, i = Value x -> typed e x /\ env_size e x < 2 ^ 31) ->
  runs (thenAsync ends i fn) st (staged i st).
Proof.
  intros Hi; apply runs_thenAsync.
  assert (Hno : forall a : answer B, (forall v, a <> Value v) -> staged i st a (with_tick st)).
  { intros a Ha; exists []; split_and!; [apply sends_tick_r, sends_nil|left; done|constructor|].
    intros v Hv; destruct (Ha v Hv). }
  destruct (ends (tick st)); [apply Hno; done|]; destruct i as [x|err|]; [|apply Hno; done..].
  destruct (Hi x eq_refl) as [Ht Hsz]; cbn [continue].
  destruct (exchange_runs peer s e r need x (with_tick st) Ht Hsz) as (a & st1 & Hx & Hex).
  destruct (exchanged_sends peer s _ _ _ _ _ _ _ Hex Hclass) as (ms & Hs & Ho & Hal & Hnp & Hv).
  assert (Hpost : forall b : answer B, (forall v, b = Value v -> exists u, a = Value u /\ v = f u) ->
    staged (Value x) st b st1).
  { intros b Hb; exists ms; split; [exact Hs|split; [|split; [exact Hal|]]].
    - destruct Ho as [->|(m & -> & Hm)]; [by left|right; exists x, m; done].
    - intros v Hv'; destruct (Hb v Hv') as (u & Hu & ->); destruct (Hv u Hu) as (? & ? & _); eauto. }
  unfold runs; rewrite Hfn; unfold mbind, op_bind; rewrite Hx; destruct a as [u|err|]; [..|done].
  - eexists _, _; split; [reflexivity|]; apply Hpost; intros v [= <-]; eauto.
  - eexists _, _; split; [reflexivity|]; apply Hpost; done.
Qed.
End stage.

Ltac stage := intros ? ?; unfold exchange, mbind, op_bind;
  destruct (gate _ _) as [[[?|?|] ?]|]; try done;
  destruct (built _ _) as [[[?|?|] ?]|]; try done;
  destruct (Call _ _ _) as [[[?|?|] ?]|]; try done;
  try (destruct (reading _ _) as [[[?|?|] ?]|]; done).

Lemma NotifyIntent_runs i st :
  (forall pi, i = Value pi -> typed (PreparedIntent_env MsgNotify) pi
     /\ env_size (PreparedIntent_env MsgNotify) pi < 2 ^ 31) ->
  runs (NotifyIntent peer ends s i) st
    (staged (PreparedIntent_env MsgNotify) IntentWatchRef_env
       (fun ref => mkIntentWatch true (iw_IntentID ref)) i st).
Proof. apply (stage_runs _ _ AuthIntent); [in_classes|stage]. Qed.

Lemma ImportSettlement_runs i st :
  (forall ref, i = Value ref -> typed_ref ref) ->
  runs (ImportSettlement peer ends s i) st
    (staged DExportRef_env SettlementSubmitResult_env (fun r => r) i st).
Proof.
  intros Hi; apply (stage_runs _ _ AuthSettlement); [in_classes|stage|].
  intros ref Hr; split; [apply Hi; done|done].
Qed.

(** The stage that follows a watch to its export. *)
Definition committing (n : nat) (i : answer IntentWatch) (st : St) (a : answer DExportRef) (st' : St) : Prop :=
  exists ms, sends st st' ms /\ len ms <= Z.of_nat n /\ Forall (allowed s) ms
    /\ (forall m, m ∈ ms -> exists w, i = Value w /\ buildWatchPollRequest (w_intentID w) = Ret (Ok m))
    /\ (forall ref, a = Value ref -> exists w x, i = Value w /\ ms <> [] /\ reports peer (sent st') x
          /\ is_Phase x = PhaseCommitted /\ ref = rebind (is_Ref x) (w_intentID w)).

Lemma committing_none n i st st' a :
  sends st st' [] -> (forall ref, a <> Value ref) -> committing n i st a st'.
Proof.
  intros Hs Ha; exists []; split; [done|split; [unfold len; simpl; lia|split; [constructor|split]]].
  - intros m Hm; destruct (not_elem_of_nil m Hm).
  - intros ref Hr; destruct (Ha ref Hr).
Qed.

Lemma committed_runs n i st :
  (forall w, i = Value w -> is_ID (w_intentID w)) ->
  runs (thenAsync ends i (fun w => p ← OnCommitted peer ends s n w; Await ends p)) st (committing n i st).
Proof.
  intros Hi; apply runs_thenAsync; destruct (ends (tick st)).
  { apply committing_none; [apply sends_tick_r, sends_nil|done]. }
  destruct i as [w|e|]; [|apply committing_none; [apply sends_tick_r, sends_nil|done]..].
  cbn [continue]; apply runs_bind; unfold OnCommitted.
  assert (Hno : forall e, continue (Await ends) (committing n (Value w) st) (Value (Fail e)) (with_tick st)).
  { intros e; cbn [continue]; apply runs_Await; apply committing_none;
      [do 2 apply sends_tick_r; apply sends_nil|]; intros ref; case_match; done. }
  destruct (w_session w); cbn [negb]; [|apply runs_ret, Hno].
  destruct (requireGrant (cs_grant s) AuthWatch); [|apply runs_ret, Hno].
  apply runs_spawn; eapply runs_mono; [apply stream_runs, Hi; done|].
  intros a' st' (ms & Hs & Hl & Hf & Hal & Hv); cbn [continue]; apply runs_Await.
  exists ms; split; [apply sends_tick_r; exact Hs|split; [done|split; [done|split]]].
  - intros m Hm; exists w; split; [done|]; apply (proj1 (Forall_forall _ _) Hf m Hm).
  - intros ref Hr; destruct (ends (tick st')); [done|]; destruct (Hv ref Hr) as (Hne & x & Hx).
    exists w, x; done.
Qed.
End stages.

(** ** Whole flows *)

Definition markets_typed (s : clientSession) : Prop :=
  forall i pk, market s i = Some pk -> typed_pool pk.

Lemma len_intent_hook deadline nonce : len (EncodeIntentHookData deadline nonce) <= 68.
Proof.
  unfold EncodeIntentHookData; assert (Hw : forall v, len (wordU256FromU64 v) = 32).
  { intros v; unfold wordU256FromU64; rewrite len_put; rewrite ?len_be_bytes; done || lia. }
  case_match; [done|]; case_match; rewrite ?len_app, ?Hw; change (len intentPhaseTag) with 4; lia.
Qed.

Lemma len_swap_calldata pk z am hook :
  typed_pool pk -> 0 <= am < 2 ^ 64 -> len hook < 2 ^ 63 ->
  len (EncodeSwapCalldata pk z am hook) <= 356 + len hook.
Proof.
  intros Hpk Ham Hh; rewrite swap_calldata_shape by done.
  destruct (encodeDynamicBytes_eq hook Hh) as (k & -> & Hk & _).
  rewrite !len_app, len_words, !len_be_bytes by
    (lia || (apply Forall_app; split; [apply pool_words_len; done|]; rewrite wordBool_abi;
             repeat constructor; apply is_word_be)).
  unfold pool_words, len at 1; simpl length; rewrite len_zeros by lia; lia.
Qed.

Lemma prepared_typed t req pk q :
  typed SwapIntentRequest_env req -> typed_pool pk -> 0 <= q < 2 ^ 64 ->
  typed (PreparedIntent_env t) (prepared req pk q)
  /\ env_size (PreparedIntent_env t) (prepared req pk q) < 2 ^ 31.
Proof.
  intros Ht Hpk Hq; cbn in Ht; destruct_and? Ht.
  pose proof (len_intent_hook (sir_Deadline req) (sir_Nonce req)) as Hh; split.
  - cbn -[DeriveIntentID]; split_and?; first [done|lia|apply DeriveIntentID_ID].
  - cbn -[EncodeSwapCalldata EncodeIntentHookData]; unfold piSize.
    pose proof (len_swap_calldata pk true (sir_AmountIn req)
      (EncodeIntentHookData (sir_Deadline req) (sir_Nonce req)) Hpk ltac:(lia) ltac:(lia)); lia.
Qed.

Lemma rebind_typed h x i peer :
  reports peer h x -> is_ID i -> typed_ref (rebind (is_Ref x) i).
Proof. intros Hr Hi; apply reports_typed in Hr; cbn in *; destruct_and? Hr; split_and!; done || lia. Qed.

Section trace.
Context (peer : list Message -> option (list byte)) (ends : nat -> bool) (s : clientSession).

(** The messages of a flow, stage by stage: quotes [qs], then the notification,
    the polls and the import. *)
Definition flow_trace (n : nat) (req : SwapIntentRequest) (notified : answer PreparedIntent)
  (st st' : St) (f : FlowStages) : Prop :=
  exists qs ns ps ms,
    sends st st' (qs ++ ns ++ ps ++ ms) /\ Forall (allowed s) (qs ++ ns ++ ps ++ ms)
    (* quotes of the request, at most two *)
    /\ len qs <= 2 /\ (forall m, m ∈ qs -> buildQuoteRequest (quote_of req) = Ret (Ok m))
    (* the notified intent is the prepared one *)
    /\ fed notified (fun pi => buildPreparedIntent pi MsgNotify) ns
    (* polls of the watch the notification gave *)
    /\ len ps <= Z.of_nat n
    /\ (forall m, m ∈ ps -> ns <> [] /\ exists w, fs_Watch f = Value w
          /\ buildWatchPollRequest (w_intentID w) = Ret (Ok m))
    (* the import of the export a committed status pointed at *)
    /\ fed (fs_Committed f) buildDExportRef ms
    /\ (forall ref, fs_Committed f = Value ref -> exists w x, fs_Watch f = Value w
          /\ reports peer (sent st ++ qs ++ ns ++ ps) x /\ is_Phase x = PhaseCommitted
          /\ ref = rebind (is_Ref x) (w_intentID w) /\ ps <> [])
    /\ (forall r, fs_Settle f = Value r -> ms <> []).

(** The last three stages, behind whatever was sent before. *)
Lemma flow_tail n req notified q i st0 st qs :
  sends st0 st qs -> Forall (allowed s) qs -> len qs <= 2 ->
  (forall m, m ∈ qs -> buildQuoteRequest (quote_of req) = Ret (Ok m)) ->
  (forall pi, notified = Value pi -> typed (PreparedIntent_env MsgNotify) pi
     /\ env_size (PreparedIntent_env MsgNotify) pi < 2 ^ 31) ->
  runs (watch ← spawn (NotifyIntent peer ends s notified);
        committed ← spawn (thenAsync ends watch (fun w => p ← OnCommitted peer ends s n w; Await ends p));
        settle ← spawn (ImportSettlement peer ends s committed);
        mret (mkFlowStages q i watch committed settle)) st (fun a st' =>
    exists w c e, a = Value (mkFlowStages q i w c e)
      /\ flow_trace n req notified st0 st' (mkFlowStages q i w c e)).
Proof.
  intros Hqs Haq Hlq Hmq Hn; apply runs_bind, runs_spawn.
  eapply runs_mono; [apply NotifyIntent_runs, Hn|]; intros w st1 (ns & Hs1 & Hf1 & Hal1 & Hv1).
  assert (Hw : forall w', w = Value w' -> ns <> [] /\ is_ID (w_intentID w')).
  { intros w' Hw'; destruct (Hv1 w' Hw') as (? & u & -> & ?); done. }
  cbn [continue]; apply runs_bind, runs_spawn.
  eapply runs_mono; [apply committed_runs; intros w' Hw'; apply Hw; done|].
  intros c st2 (ps & Hs2 & Hl2 & Hal2 & Hb2 & Hv2); cbn [continue]; apply runs_bind, runs_spawn.
  assert (Hsent : sent st2 = sent st0 ++ qs ++ ns ++ ps).
  { destruct Hqs as (E0 & _), Hs1 as (E1 & _), Hs2 as (E2 & _); rewrite E2, E1, E0, !app_assoc; done. }
  eapply runs_mono; [apply ImportSettlement_runs|].
  { intros ref Hr; destruct (Hv2 ref Hr) as (w' & x & Hw' & _ & Hx & _ & ->).
    eapply rebind_typed; [exact Hx|apply Hw; done]. }
  intros e st3 (ms & Hs3 & Hf3 & Hal3 & Hv3); cbn [continue]; apply runs_ret.
  exists w, c, e; split; [done|]; exists qs, ns, ps, ms; cbn [fs_Committed fs_Watch fs_Settle].
  split; [repeat (eapply sends_trans; [eassumption|]); done|].
  split; [repeat (apply Forall_app; split); done|].
  split; [done|split; [done|split; [done|split; [done|split]]]].
  { intros m Hm; destruct (Hb2 m Hm) as (w' & Hw' & Hb); split; [apply (Hw w' Hw')|eauto]. }
  split; [done|split; [|intros r Hr; apply (Hv3 r Hr)]].
  intros ref Hr; destruct (Hv2 ref Hr) as (w' & x & Hw' & Hne & Hx & Hph & Href).
  exists w', x; rewrite <- Hsent; done.
Qed.
End trace.

(** ** Promises, interleaved *)

(** A promise with any number of producers and consumers, which act in any
    order: what was offered to it so far and what consumers got from it. *)
Inductive used {T} : Promise T -> list (T * option dex_error) -> list (T * option dex_error) -> Prop :=
| used_new : used newPromise [] []
| used_fulfil p fs rs v err p' :
    used p fs rs -> fulfil p v err = Ret p' -> used p' (fs ++ [(v, err)]) rs
| used_await p fs rs r :
    used p fs rs -> done_closed p = true -> p_val p = Some r -> used p fs (rs ++ [r]).

Lemma used_inv {T} (p : Promise T) fs rs :
  used p fs rs ->
  p_val p = head fs /\ ready p = done_closed p /\ (ready p = true <-> fs <> [])
  /\ forall r, r ∈ rs -> head fs = Some r.
Proof.
  induction 1 as [|p fs rs v err p' _ (Hv & Hd & Hr & Hrs) Hf|p fs rs r _ (Hv & Hd & Hr & Hrs) Hc Hp].
  - split_and!; try done; intros r Hin; destruct (not_elem_of_nil r Hin).
  - unfold fulfil in Hf; destruct (ready p) eqn:E.
    + injection Hf as <-; assert (fs <> []) by (apply Hr; done).
      destruct fs as [|f fs]; [done|]; split; [done|split; [congruence|split; [rewrite E; done|done]]].
    + assert (fs = []) as -> by (destruct fs; [done|]; assert (false = true) by (apply Hr; done); done).
      rewrite <- Hd in Hf; cbn in Hf; injection Hf as <-; split_and!; try done.
      intros r Hin; specialize (Hrs r Hin); done.
  - split; [done|split; [done|split; [done|]]]; intros r' Hin.
    apply elem_of_app in Hin as [Hin|Hin]; [auto|].
    apply list_elem_of_singleton in Hin as ->; congruence.
Qed.

(** ** Sessions as a whole *)

(** What a holder of a session can ask of it. *)
Inductive cmd : Type :=
| CQuote (req : QuoteRequest)
| CGetState (req : StateRequest)
| CPrepare (req : SwapIntentRequest)
| CNotify (i : answer PreparedIntent)
| CPoll (w : IntentWatch)
| CWatch (n : nat) (w : IntentWatch)
| CImport (r : answer DExportRef).

Definition typed_cmd (c : cmd) : Prop :=
  match c with
  | CQuote req => typed QuoteRequest_env req
  | CGetState req => typed StateRequest_env req
  | CPrepare req => typed SwapIntentRequest_env req
  | CNotify i => forall pi, i = Value pi -> typed (PreparedIntent_env MsgNotify) pi
                   /\ env_size (PreparedIntent_env MsgNotify) pi < 2 ^ 31
  | CPoll w => is_ID (w_intentID w)
  | CWatch _ w => is_ID (w_intentID w)
  | CImport r => forall ref, r = Value ref -> typed_ref ref
  end.

Section commands.
Context (peer : list Message -> option (list byte)) (ends : nat -> bool) (s : clientSession).

(** Its effect; the answer is not needed here. *)
Definition exec {A} (x : op A) : St -> outcome St := fun st => r ← x st; Ret r.2.

Definition do_cmd (c : cmd) : St -> outcome St :=
  match c with
  | CQuote req => exec (Quote peer s req)
  | CGetState req => exec (GetState peer s req)
  | CPrepare req => exec (PrepareSwapIntent peer ends s req)
  | CNotify i => exec (NotifyIntent peer ends s i)
  | CPoll w => exec (Poll peer s w)
  | CWatch n w => exec (OnCommitted peer ends s n w)
  | CImport r => exec (ImportSettlement peer ends s r)
  end.

Fixpoint do_cmds (cs : list cmd) (st : St) : outcome St :=
  match cs with
  | [] => Ret st
  | c :: cs => st ← do_cmd c st; do_cmds cs st
  end.

Lemma exec_sends {A} (x : op A) st (Q : answer A -> St -> Prop) :
  runs x st Q -> (forall a st', Q a st' -> exists ms, sends st st' ms /\ Forall (allowed s) ms) ->
  exists st' ms, exec x st = Ret st' /\ sends st st' ms /\ Forall (allowed s) ms.
Proof.
  intros (a & st' & Hx & HQ) H; destruct (H a st' HQ) as (ms & ? & ?).
  exists st', ms; unfold exec; rewrite Hx; done.
Qed.

Lemma exchanged_allowed {T U} (e : Envelope T) (r : Envelope U) need x st a st' :
  (env_flags e, need) ∈ classes -> exchanged peer s e r need x st a st' ->
  exists ms, sends st st' ms /\ Forall (allowed s) ms.
Proof.
  intros Hc Hex; destruct (exchanged_sends peer s _ _ _ _ _ _ _ Hex Hc) as (ms & ? & _ & ? & _); eauto.
Qed.

Lemma do_cmd_sends c st :
  typed_cmd c -> exists st' ms, do_cmd c st = Ret st' /\ sends st st' ms /\ Forall (allowed s) ms.
Proof.
  destruct c as [req|req|req|i|w|n w|r]; simpl typed_cmd; intros Ht; cbn [do_cmd].
  - eapply exec_sends; [apply Quote_runs, Ht|]; intros a st'; apply exchanged_allowed; in_classes.
  - eapply exec_sends;
      [apply (exchange_runs peer s StateRequest_env StateResult_env AuthQuote); done|].
    intros a st'; apply exchanged_allowed; in_classes.
  - eapply exec_sends; [apply PrepareSwapIntent_runs, Ht|]; intros a st' (q & ms & _ & _ & ? & _ & ?); eauto.
  - eapply exec_sends; [apply NotifyIntent_runs, Ht|]; intros a st' (ms & ? & _ & ? & _); eauto.
  - eapply exec_sends; [apply Poll_runs, Ht|]; intros a st' [(_ & _ & ->)|Hex].
    + exists []; split; [apply sends_nil|constructor].
    + eapply exchanged_allowed; [|exact Hex]; in_classes.
  - eapply (exec_sends _ _ (fun _ st' => exists ms, sends st st' ms /\ Forall (allowed s) ms)); [|done].
    unfold OnCommitted; assert (Hno : exists ms, sends st st ms /\ Forall (allowed s) ms)
      by (exists []; split; [apply sends_nil|constructor]).
    destruct (w_session w); cbn [negb]; [|apply runs_ret; done].
    destruct (requireGrant _ _) as [[]|]; [|apply runs_ret; done].
    apply runs_spawn; eapply runs_mono; [apply stream_runs, Ht|].
    intros a st' (ms & ? & _ & _ & ? & _); eauto.
  - eapply exec_sends; [apply ImportSettlement_runs, Ht|]; intros a st' (ms & ? & _ & ? & _); eauto.
Qed.
End commands.

(** The first two stages: the quote and the prepared intent. *)
Lemma flow_head peer ends s req st (k : answer QuoteResult -> answer PreparedIntent -> op FlowStages) Q :
  typed SwapIntentRequest_env req ->
  (forall qa st2 q qs, 0 <= q < 2 ^ 64 -> sends st st2 qs -> Forall (allowed s) qs -> len qs <= 2 ->
     (forall m, m ∈ qs -> buildQuoteRequest (quote_of req) = Ret (Ok m)) ->
     runs (k qa (prepare_answer s req q)) st2 Q) ->
  runs (quote ← spawn (Quote peer s (quote_of req));
        intent ← spawn (PrepareSwapIntent peer ends s req); k quote intent) st Q.
Proof.
  intros Ht Hk; apply runs_bind, runs_spawn.
  eapply runs_mono; [apply (Quote_runs peer s (quote_of req)), quote_of_typed, Ht|]; intros qa st1 Hex.
  destruct (exchanged_sends peer s _ _ _ _ _ _ _ Hex ltac:(in_classes)) as (ms & Hs & Ho & Hal & _).
  cbn [continue]; apply runs_bind, runs_spawn; eapply runs_mono; [apply PrepareSwapIntent_runs, Ht|].
  intros ia st2 (q & ms' & -> & Hq & Hs' & Ho' & Hal'); cbn [continue].
  apply (Hk qa st2 q (ms ++ ms')); try done.
  - eapply sends_trans; eauto.
  - apply Forall_app; done.
  - destruct Ho as [->|(? & -> & _)], Ho' as [->|(? & -> & _)]; done.
  - intros m Hm; apply elem_of_app in Hm as [Hm|Hm];
      [destruct Ho as [->|(m' & -> & E)]|destruct Ho' as [->|(m' & -> & E)]];
      try (destruct (not_elem_of_nil _ Hm)); apply list_elem_of_singleton in Hm as ->; done.
Qed.

(** ** Properties *)

(** What a wallet is asked to sign comes from its own request. Whatever the
    peer answers, preparing a swap returns: an error exactly when the session may
    not prepare, the amount is zero or the market is unknown; otherwise an intent
    addressed to the settlement contract whose calldata an ABI reader decodes to
    the market's pool, the requested amount as exact input and hook data with the
    requested deadline and nonce, and whose id is derived from the request. Only
    the estimate depends on the peer. *)
Theorem prepared_intent_is_local peer ends s req st :
  typed SwapIntentRequest_env req -> markets_typed s ->
  runs (PrepareSwapIntent peer ends s req) st (fun a _ =>
    (exists q, 0 <= q < 2 ^ 64 /\ a = prepare_answer s req q)
    /\ forall pi, a = Value pi -> exists pk, market s (sir_MarketID req) = Some pk
         /\ pi_To pi = addr9999
         /\ decode_swap (pi_Calldata pi) = Some (pk, true, - sir_AmountIn req, 0, pi_HookData pi)
         /\ decode_hook (pi_HookData pi) = Some (IntentHook (sir_Deadline req) (sir_Nonce req))
         /\ pi_IntentID pi = DeriveIntentID (sir_NetworkID req) (sir_CChainID req)
              (sir_DChainID req) (sir_Account req) (sir_AssetIn req) (sir_AmountIn req)
              (sir_MarketID req) (sir_Nonce req)).
Proof.
  intros Ht Hm; eapply runs_mono; [apply PrepareSwapIntent_runs, Ht|].
  intros a st' (q & ms & -> & Hq & _); split; [exists q; done|]; intros pi.
  unfold prepare_answer; repeat case_match; try done; intros [= <-].
  exists p; split; [done|split; [done|]]; cbn in Ht; destruct_and? Ht.
  pose proof (len_intent_hook (sir_Deadline req) (sir_Nonce req)).
  split; [|split; [|done]].
  - cbn [prepared pi_Calldata pi_HookData]; apply swap_decodes; [eapply Hm; eauto|lia|lia].
  - apply intent_hook_decodes; lia.
Qed.

(** Nothing the wallet is asked to sign depends on the slippage floor. Two
    requests that differ in [MinAmountOut] alone give the same answer up to the
    estimate, calldata and intent id included, although the comments of
    [session.go] and [wire_intent.go] say the floor is baked into the calldata. *)
Theorem min_amount_out_unsigned peer ends s req floor st :
  let req' := mkSwapIntentRequest (sir_NetworkID req) (sir_CChainID req) (sir_DChainID req)
    (sir_Account req) (sir_AssetIn req) (sir_AssetInAddr req) (sir_AmountIn req) (sir_MarketID req)
    floor (sir_Recipient req) (sir_Deadline req) (sir_Nonce req) in
  typed SwapIntentRequest_env req' -> 
  runs (PrepareSwapIntent peer ends s req') st (fun a _ => exists q, a = prepare_answer s req q).
Proof.
  intros req' Ht; eapply runs_mono; [apply PrepareSwapIntent_runs, Ht|].
  intros a st' (q & ms & -> & _); exists q; done.
Qed.

(** A flow does what its stages say and no more. In any environment, a swap
    flow sends at most two quotes of the request, then at most one notification,
    carrying the prepared intent (with a sender: only after the sender accepted
    exactly that calldata), then at most [polls] polls of the watch it was given,
    then at most one import; the import names the export that a committed status,
    received as the reply to the last poll, pointed at; and every message is of
    a class the session's grant covers. *)
Theorem swap_flow_trace peer ends s n req send st :
  typed SwapIntentRequest_env req -> markets_typed s ->
  runs (SwapFlow peer ends s n req) st (fun a st' =>
    exists f q, a = Value f /\ fs_Intent f = prepare_answer s req q
      /\ flow_trace peer s n req (fs_Intent f) st st' f)
  /\ runs (SwapFlowWithSender peer ends s n req send) st (fun a st' =>
    exists f q funded, a = Value f /\ fs_Intent f = prepare_answer s req q
      /\ (forall pi, funded = Value pi -> fs_Intent f = Value pi
            /\ exists accept, send = Some accept /\ accept (pi_To pi) (pi_Calldata pi) = true)
      /\ flow_trace peer s n req funded st st' f).
Proof.
  intros Ht Hm; pose proof (quote_of_typed req Ht) as Hqt.
  assert (Hp : forall q pi, 0 <= q < 2 ^ 64 -> prepare_answer s req q = Value pi ->
    typed (PreparedIntent_env MsgNotify) pi /\ env_size (PreparedIntent_env MsgNotify) pi < 2 ^ 31).
  { intros q pi Hq; unfold prepare_answer; repeat case_match; try done; intros [= <-].
    apply prepared_typed; try done; eapply Hm; eauto. }
  split.
  - apply flow_head; [done|]; intros qa st2 q qs Hq Hs Hal Hl Hb.
    eapply runs_mono; [apply (flow_tail peer ends s n req _ _ _ st st2 qs); eauto|].
    intros a st' (w & c & e & -> & Htr); eexists _, q; split; [done|split; done].
  - apply flow_head; [done|]; intros qa st2 q qs Hq Hs Hal Hl Hb.
    apply runs_bind, runs_spawn.
    apply (runs_mono _ _ (fun funded st3 => st3 = with_tick st2
      /\ forall pi, funded = Value pi -> prepare_answer s req q = Value pi
         /\ exists accept, send = Some accept /\ accept (pi_To pi) (pi_Calldata pi) = true)).
    { apply runs_thenAsync; destruct (ends (tick st2)); [split; done|].
      destruct (prepare_answer s req q) as [pi|e|]; [|split; done..]; cbn [continue].
      destruct send as [accept|]; [|apply runs_fail; split; done].
      destruct (accept (pi_To pi) (pi_Calldata pi)) eqn:Hac; [apply runs_ret|apply runs_fail]; split; try done.
      intros pi' [= <-]; eauto. }
    intros funded st3 [-> Hfd]; cbn [continue].
    eapply runs_mono; [apply (flow_tail peer ends s n req funded _ _ st (with_tick st2) qs)|]; try done.
    { intros pi Hpi; destruct (Hfd pi Hpi) as [? _]; eauto. }
    intros a st' (w & c & e & -> & Htr); eexists _, q, funded; split_and!; done.
Qed.

(** C35: a watch resolves with the export D committed, and only then. If the
    peer reports statuses that are neither committed nor rejected to the first
    [k] polls and a committed one to the next, and the context lasts that long,
    then the loop makes exactly [k + 1] polls, sleeping 25 ms doubled up to at
    most 2 s in between, and resolves to that status's pointer bound to the
    watched intent; while the peer never reports a terminal status, the loop
    stays unresolved however long it polls. *)
Theorem watch_resolves peer ends s w pm k n xs x st :
  w_session w = true -> permits (cs_grant s) AuthWatch = true ->
  buildWatchPollRequest (w_intentID w) = Ret (Ok pm) ->
  length xs = k -> (k < n)%nat ->
  (forall j, (tick st <= j <= tick st + 2 * k)%nat -> ends j = false) ->
  (forall (i : nat) y, xs !! i = Some y ->
     reports peer (sent st ++ replicate (S i) pm) y /\ terminal y = false) ->
  reports peer (sent st ++ replicate (S k) pm) x -> is_Phase x = PhaseCommitted ->
  (exists st', streamUntilCommitted peer ends s n minBackoff w st
      = Ret (Value (rebind (is_Ref x) (w_intentID w)), st')
    /\ sent st' = sent st ++ replicate (S k) pm
    /\ slept st' = slept st ++ backoffs k minBackoff
    /\ forall (i : nat) d, backoffs k minBackoff !! i = Some d ->
         d = Z.min (25 * 2 ^ Z.of_nat i) 2000 * millisecond)
  /\ forall ends' peer',
       (forall j, ends' j = false) ->
       (forall i, exists y, reports peer' (sent st ++ replicate (S i) pm) y /\ terminal y = false) ->
       forall n', exists st', streamUntilCommitted peer' ends' s n' minBackoff w st = Ret (Pending, st').
Proof.
  intros Hw Hg Hpm Hxs Hn He Hy Hx Hph; split.
  - destruct (stream_commits peer ends s w pm Hw Hg Hpm k n minBackoff st xs x) as (st' & ? & ? & ?);
      try assumption.
    exists st'; split; [assumption|split; [assumption|split; [assumption|]]]; intros i d Hd.
    apply backoffs_lookup in Hd; [|unfold minBackoff, maxBackoff, millisecond; lia].
    rewrite Hd; unfold minBackoff, maxBackoff, millisecond; lia.
  - intros ends' peer' He' Hy' n'; apply (stream_pending peer' ends' s w pm Hw Hg Hpm); done.
Qed.

(** A watch terminates with its context. Whatever the peer answers, if the
    context is seen to have ended at one of the looks the first [n] rounds take
    (two in each), the loop has returned a value or an error by then. *)
Theorem watch_ends peer ends s w n b st j :
  is_ID (w_intentID w) -> ends j = true -> (tick st <= j < tick st + 2 * n)%nat ->
  runs (streamUntilCommitted peer ends s n b w) st (fun a _ => a <> Pending).
Proof.
  intros Hi Hj Hn; destruct (stream_runs peer ends s w Hi n b st) as (a & st' & Hs & _).
  exists a, st'; split; [done|]; eapply stream_ends; eauto.
Qed.

(** A promise is resolved once. With any number of producers and consumers
    acting in any order, resolving never panics, every consumer gets the same
    result, and it is the first that was offered. *)
Theorem promise_first_wins {T} (p : Promise T) fs rs v err :
  used p fs rs ->
  is_ret (fulfil p v err) /\ (done_closed p = true <-> fs <> []) /\ p_val p = head fs
  /\ forall r, r ∈ rs -> head fs = Some r.
Proof.
  intros (Hv & Hd & Hr & Hrs)%used_inv; split_and!; try done.
  - unfold fulfil; destruct (ready p); [eexists; done|]; rewrite <- Hd; cbn; eexists; done.
  - rewrite <- Hd; done.
Qed.

(** C36: authority gates the wire. Whatever sequence of operations a holder
    invokes on a session, in any environment, no operation panics, the grant
    table stays as it was, and each message sent is of a class (quote, state,
    notify, poll, import) that the session's grant covers; a session without a
    grant sends nothing. *)
Theorem authority_gates_wire peer ends s cs : forall st,
  Forall typed_cmd cs ->
  exists st' ms, do_cmds peer ends s cs st = Ret st' /\ sends st st' ms /\ Forall (allowed s) ms
    /\ (cs_grant s = 0 -> ms = []).
Proof.
  assert (Hz : cs_grant s = 0 -> forall m, ~ allowed s m).
  { intros Hg m (flags & need & Hc & _ & Hp); rewrite Hg in Hp.
    unfold classes in Hc; repeat (apply elem_of_cons in Hc as [[= -> ->]|Hc]; [done|]).
    destruct (not_elem_of_nil _ Hc). }
  induction cs as [|c cs IH]; intros st Ht.
  { exists st, []; split_and!; try done; apply sends_nil. }
  apply Forall_cons in Ht as [Hc Ht].
  destruct (do_cmd_sends peer ends s c st Hc) as (st1 & ms1 & H1 & Hs1 & Ha1).
  destruct (IH st1 Ht) as (st2 & ms2 & H2 & Hs2 & Ha2 & _).
  exists st2, (ms1 ++ ms2); cbn [do_cmds]; rewrite H1; cbn [mbind outcome_bind].
  split; [done|split; [eapply sends_trans; eauto|]].
  assert (Ha : Forall (allowed s) (ms1 ++ ms2)) by (apply Forall_app; done); split; [done|].
  intros Hg; destruct (ms1 ++ ms2) as [|m ms]; [done|]; apply Forall_cons in Ha as [Ha _].
  destruct (Hz Hg m Ha).
Qed.

(** ** Witnesses *)

Definition sample_request : SwapIntentRequest :=
  mkSwapIntentRequest 1 (rep 32 Byte.x0c) (rep 32 Byte.x0d) (rep 20 Byte.x01) ZeroID (zeros 20)
    1000 (rep 32 Byte.x04) 900 (rep 20 Byte.x01) 77 5.

Definition sample_session : clientSession :=
  mkClientSession AuthorityPublic
    (fun i => if bool_decide (i = rep 32 Byte.x04) then Some sample_pool else None).

Definition sample_intent : ID :=
  DeriveIntentID 1 (rep 32 Byte.x0c) (rep 32 Byte.x0d) (rep 20 Byte.x01) ZeroID 1000
    (rep 32 Byte.x04) 5.

Definition sample_status (phase : Z) : IntentStatus :=
  mkIntentStatus sample_intent phase (mkDExportRef (rep 32 Byte.x0d) (rep 32 Byte.x0e) 3 ZeroID) [] 990.

Definition bytes_of (x : outcome (result Message zap_error)) : option (list byte) :=
  match x with Ret (Ok m) => Some (data m) | _ => None end.

(** A peer that answers every request; the intent is committed at the second
    poll of a flow. *)
Definition sample_peer (h : list Message) : option (list byte) :=
  match last h with
  | None => None
  | Some m =>
      match Message_Flags m with
      | Ret f =>
          if f =? tag MsgQuote then
            bytes_of (buildQuoteResult (mkQuoteResult (rep 32 Byte.x04) 1000 990 0 true)) else
          if f =? tag MsgNotify then bytes_of (buildIntentWatchRef (mkIntentWatchRef sample_intent)) else
          if f =? tag MsgWatchPoll then
            bytes_of (buildIntentStatus
              (sample_status (if (length h <? 5)%nat then PhaseMatching else PhaseCommitted))) else
          if f =? tag MsgImport then
            bytes_of (buildSettlementResult (mkSettlementSubmitResult SettleCalldata addr9999
              [Byte.xf3] (rep 32 Byte.x0f) ZeroID)) else None
      | Panic => None
      end
  end.

Definition st0 : St := mkSt [] [] 0 ∅ 0.
Definition never (_ : nat) : bool := false.

Lemma sample_typed : typed SwapIntentRequest_env sample_request /\ markets_typed sample_session.
Proof.
  split; [cbn; unfold is_ID, is_Account, len; simpl; lia|].
  intros i pk; cbn; case_bool_decide; [|done]; intros [= <-].
  unfold typed_pool; cbn; split_and?; try lia; reflexivity.
Qed.

Lemma prepared_intent_is_local_witness :
  runs (PrepareSwapIntent (fun _ => None) never sample_session sample_request) st0 (fun a _ =>
    exists q, 0 <= q < 2 ^ 64 /\ a = prepare_answer sample_session sample_request q)
  /\ match PrepareSwapIntent (fun _ => None) never sample_session sample_request st0 with
     | Ret (Value pi, _) => pi_IntentID pi = sample_intent
     | _ => False
     end.
Proof.
  split; [|vm_compute; reflexivity].
  eapply runs_mono; [exact (prepared_intent_is_local (fun _ => None) never sample_session
    sample_request st0 (proj1 sample_typed) (proj2 sample_typed))|].
  intros a st' H; exact (proj1 H).
Defined.

Lemma min_amount_out_unsigned_witness :
  runs (PrepareSwapIntent (fun _ => None) never sample_session
    (mkSwapIntentRequest 1 (rep 32 Byte.x0c) (rep 32 Byte.x0d) (rep 20 Byte.x01) ZeroID (zeros 20)
       1000 (rep 32 Byte.x04) 1 (rep 20 Byte.x01) 77 5)) st0
    (fun a _ => exists q, a = prepare_answer sample_session sample_request q).
Proof.
  apply (min_amount_out_unsigned (fun _ => None) never sample_session sample_request 1 st0).
  cbn; unfold is_ID, is_Account, len; simpl; lia.
Defined.

Lemma swap_flow_trace_witness :
  runs (SwapFlow sample_peer never sample_session 4 sample_request) st0 (fun a st' =>
    exists f q, a = Value f /\ fs_Intent f = prepare_answer sample_session sample_request q
      /\ flow_trace sample_peer sample_session 4 sample_request (fs_Intent f) st0 st' f)
  /\ match SwapFlow sample_peer never sample_session 4 sample_request st0 with
     | Ret (Value f, st') =>
         fs_Committed f = Value (rebind (is_Ref (sample_status PhaseCommitted)) sample_intent)
         /\ length (sent st') = 6%nat /\ slept st' = [minBackoff]
     | _ => False
     end.
Proof.
  split; [|vm_compute; split; [reflexivity|split; reflexivity]].
  exact (proj1 (swap_flow_trace sample_peer never sample_session 4 sample_request None st0
    (proj1 sample_typed) (proj2 sample_typed))).
Defined.

Definition watched : ID := rep 32 Byte.x07.

Definition poll_status (phase : Z) : IntentStatus :=
  mkIntentStatus watched phase (mkDExportRef (rep 32 Byte.x0d) (rep 32 Byte.x0e) 3 ZeroID) [] 990.

Definition poll_message : Message :=
  match buildWatchPollRequest watched with Ret (Ok m) => m | _ => WrapBuffer [] end.

(** A peer that reports matching once, then the commit. *)
Definition poll_peer (h : list Message) : option (list byte) :=
  bytes_of (buildIntentStatus
    (poll_status (if (length h <=? 1)%nat then PhaseMatching else PhaseCommitted))).

Lemma poll_peer_reports n : reports poll_peer (replicate (S n) poll_message)
  (norm IntentStatus_env (poll_status (if (n <=? 0)%nat then PhaseMatching else PhaseCommitted))).
Proof.
  set (x := poll_status _).
  assert (Ht : typed IntentStatus_env x)
    by (unfold x; case_match; cbn; unfold is_ID, len, PhaseMatching, PhaseCommitted; simpl; lia).
  destruct (env_roundtrip (e := IntentStatus_env) x Ht) as (d & Hb & Hp & _ & _ & Hr);
    [unfold x; case_match; vm_compute; reflexivity|].
  exists (WrapBuffer d); split; [|exact Hr]; exists d; split; [|exact Hp].
  unfold poll_peer; rewrite length_replicate.
  replace (S n <=? 1)%nat with (n <=? 0)%nat by (destruct n; done); fold x.
  change (buildIntentStatus x) with (build IntentStatus_env x); rewrite Hb; done.
Qed.

Lemma watch_resolves_witness :
  exists st', streamUntilCommitted poll_peer never sample_session 5 minBackoff
      (mkIntentWatch true watched) st0
    = Ret (Value (rebind (is_Ref (poll_status PhaseCommitted)) watched), st')
    /\ sent st' = replicate 2 poll_message /\ slept st' = [minBackoff].
Proof.
  destruct (watch_resolves poll_peer never sample_session (mkIntentWatch true watched)
    poll_message 1 5 [norm IntentStatus_env (poll_status PhaseMatching)]
    (norm IntentStatus_env (poll_status PhaseCommitted)) st0) as [(st' & H & Hs & Hl & _) _];
    [reflexivity|reflexivity|vm_compute; reflexivity|reflexivity|lia|reflexivity| | |reflexivity|].
  - intros [|i] y Hy; [|done]; injection Hy as <-; split; [apply (poll_peer_reports 0)|reflexivity].
  - apply (poll_peer_reports 1).
  - exists st'; split; [exact H|split; [exact Hs|exact Hl]].
Defined.

Lemma watch_ends_witness :
  runs (streamUntilCommitted poll_peer (fun j => (3 <=? j)%nat) sample_session 3 minBackoff
    (mkIntentWatch true watched)) st0 (fun a _ => a <> Pending).
Proof.
  apply (watch_ends poll_peer (fun j => (3 <=? j)%nat) sample_session
    (mkIntentWatch true watched) 3 minBackoff st0 3); [reflexivity|reflexivity|simpl; lia].
Defined.

Lemma promise_first_wins_witness :
  exists p : Promise Z, used p [(1, None); (2, None)] [(1, None)] /\ p_val p = Some (1, None).
Proof.
  set (p := mkPromise (Some (1, None)) true true : Promise Z).
  assert (Hu : used p [(1, None); (2, None)] [(1, None)]).
  { apply (used_fulfil p [(1, None)] [(1, None)] 2 None p); [|reflexivity].
    apply (used_await p [(1, None)] []); [|reflexivity|reflexivity].
    apply (used_fulfil newPromise [] [] 1 None p); [constructor|reflexivity]. }
  exists p; split; [exact Hu|].
  exact (proj1 (proj2 (proj2 (promise_first_wins p _ _ 3 None Hu)))).
Defined.

Lemma authority_gates_wire_witness :
  exists st', do_cmds sample_peer never (mkClientSession 0 (fun _ => None))
    [CQuote (quote_of sample_request); CPoll (mkIntentWatch true watched)] st0 = Ret st'
    /\ sent st' = [].
Proof.
  destruct (authority_gates_wire sample_peer never (mkClientSession 0 (fun _ => None))
    [CQuote (quote_of sample_request); CPoll (mkIntentWatch true watched)] st0)
    as (st' & ms & H & (Hs & _) & _ & Hz).
  { repeat constructor; cbn; unfold is_ID, len; simpl; lia. }
  exists st'; split; [exact H|]; rewrite (Hz eq_refl) in Hs; exact Hs.
Defined.
