(* ===== verification/DexV4.v ===== *)
(** * DexV4: one session per action

    [v4msg.go], [v4session.go] and the watch of [v4route.go]: the message set of
    the control plane, the factory that opens a session confined to one action,
    and the sessions for swaps, routes, liquidity, removals and reads. Sessions
    run over the client of [DexSession]; the tokens the random generator draws,
    one after the other, and the texts of errors are arguments. A stream is what
    was put on its channel, with whether the channel was closed. *)

From S2P Require Import Prelude Wire Builder BuilderSpec Roundtrip Envelope Sha256.
From S2P Require Import DexWire DexCall DexCap DexSession.
From stdpp Require Import gmap.
From Stdlib Require String.
Import String.StringSyntax.
Local Delimit Scope string_scope with string.
Local Open Scope Z_scope.

(** ** Messages of the control plane *)

Definition V4MsgType : Type := Z.

Definition V4_SWAP_OPEN : V4MsgType := 0x1000.
Definition V4_SWAP_PREPARE_INTENT : V4MsgType := 0x1001.
Definition V4_SWAP_NOTIFY_C_EXPORT : V4MsgType := 0x1002.
Definition V4_SWAP_D_IMPORTED : V4MsgType := 0x1003.
Definition V4_SWAP_MATCHED : V4MsgType := 0x1004.
Definition V4_SWAP_D_EXPORT_READY : V4MsgType := 0x1005.
Definition V4_SWAP_PREPARE_C_SETTLEMENT : V4MsgType := 0x1006.
Definition V4_SWAP_SUBMIT_C_SETTLEMENT : V4MsgType := 0x1007.
Definition V4_SWAP_C_SETTLED : V4MsgType := 0x1008.

Definition V4_ROUTE_OPEN : V4MsgType := 0x1100.
Definition V4_ROUTE_PREPARE_INTENT : V4MsgType := 0x1101.
Definition V4_ROUTE_NOTIFY_C_EXPORT : V4MsgType := 0x1102.
Definition V4_ROUTE_HOP_STARTED : V4MsgType := 0x1103.
Definition V4_ROUTE_HOP_FILLED : V4MsgType := 0x1104.
Definition V4_ROUTE_D_EXPORT_READY : V4MsgType := 0x1105.
Definition V4_ROUTE_REFUND_READY : V4MsgType := 0x1106.
Definition V4_ROUTE_PREPARE_C_SETTLEMENT : V4MsgType := 0x1107.
Definition V4_ROUTE_C_SETTLED : V4MsgType := 0x1108.

Definition V4_LP_OPEN : V4MsgType := 0x1200.
Definition V4_LP_PREPARE_COMMIT : V4MsgType := 0x1201.
Definition V4_LP_NOTIFY_C_EXPORT : V4MsgType := 0x1202.
Definition V4_LP_D_COMMITTED : V4MsgType := 0x1203.
Definition V4_LP_POSITION_OPEN : V4MsgType := 0x1204.

Definition V4_COLLECT_OPEN : V4MsgType := 0x1300.
Definition V4_COLLECT_REQUEST : V4MsgType := 0x1301.
Definition V4_COLLECT_D_EXPORT_READY : V4MsgType := 0x1302.
Definition V4_COLLECT_PREPARE_C_SETTLEMENT : V4MsgType := 0x1303.
Definition V4_COLLECT_C_SETTLED : V4MsgType := 0x1304.

Definition V4_CANCEL_OPEN : V4MsgType := 0x1400.
Definition V4_CANCEL_REQUEST : V4MsgType := 0x1401.
Definition V4_CANCEL_D_EXPORT_READY : V4MsgType := 0x1402.
Definition V4_CANCEL_PREPARE_C_SETTLEMENT : V4MsgType := 0x1403.
Definition V4_CANCEL_C_SETTLED : V4MsgType := 0x1404.

Definition V4_STATE_OPEN : V4MsgType := 0x1500.
Definition V4_STATE_QUOTE_UPDATE : V4MsgType := 0x1501.
Definition V4_STATE_BOOK_UPDATE : V4MsgType := 0x1502.
Definition V4_STATE_CLOSE : V4MsgType := 0x1503.

Definition V4_ERROR : V4MsgType := 0x1F00.
Definition V4_HALTED : V4MsgType := 0x1F01.

Inductive V4Dir : Type := DirCToD | DirDToC | DirLocal.

(** [case a, b, ...:] *)
Definition one_of (t : Z) (l : list Z) : bool := existsb (Z.eqb t) l.

Definition Dir (t : V4MsgType) : V4Dir :=
  if one_of t [V4_SWAP_OPEN; V4_ROUTE_OPEN; V4_LP_OPEN; V4_COLLECT_OPEN; V4_CANCEL_OPEN;
               V4_STATE_OPEN; V4_STATE_CLOSE] then DirLocal else
  if one_of t [V4_SWAP_PREPARE_INTENT; V4_SWAP_NOTIFY_C_EXPORT; V4_SWAP_PREPARE_C_SETTLEMENT;
               V4_SWAP_SUBMIT_C_SETTLEMENT; V4_ROUTE_PREPARE_INTENT; V4_ROUTE_NOTIFY_C_EXPORT;
               V4_ROUTE_PREPARE_C_SETTLEMENT; V4_LP_PREPARE_COMMIT; V4_LP_NOTIFY_C_EXPORT;
               V4_COLLECT_REQUEST; V4_COLLECT_PREPARE_C_SETTLEMENT; V4_CANCEL_REQUEST;
               V4_CANCEL_PREPARE_C_SETTLEMENT] then DirCToD else
  DirDToC.

(** The frame a message travels as, for those that have one of their own. *)
Definition v4Wire (t : V4MsgType) : option Z :=
  if one_of t [V4_SWAP_PREPARE_INTENT; V4_ROUTE_PREPARE_INTENT] then Some MsgPrepare else
  if one_of t [V4_SWAP_NOTIFY_C_EXPORT; V4_ROUTE_NOTIFY_C_EXPORT; V4_LP_NOTIFY_C_EXPORT]
  then Some MsgNotify else
  if one_of t [V4_SWAP_PREPARE_C_SETTLEMENT; V4_ROUTE_PREPARE_C_SETTLEMENT;
               V4_COLLECT_PREPARE_C_SETTLEMENT; V4_CANCEL_PREPARE_C_SETTLEMENT]
  then Some MsgImport else
  if one_of t [V4_LP_PREPARE_COMMIT; V4_COLLECT_REQUEST; V4_CANCEL_REQUEST] then Some MsgPrepare else
  if t =? V4_STATE_QUOTE_UPDATE then Some MsgQuote else
  if t =? V4_STATE_BOOK_UPDATE then Some MsgGetState else None.

(** No message moves value by itself. *)
Definition CreditsValue (t : V4MsgType) : bool := false.

Definition V4MsgType_String (t : V4MsgType) : list byte :=
  if t =? V4_SWAP_OPEN then ascii "V4_SWAP_OPEN"%string else
  if t =? V4_SWAP_PREPARE_INTENT then ascii "V4_SWAP_PREPARE_INTENT"%string else
  if t =? V4_SWAP_NOTIFY_C_EXPORT then ascii "V4_SWAP_NOTIFY_C_EXPORT"%string else
  if t =? V4_SWAP_D_IMPORTED then ascii "V4_SWAP_D_IMPORTED"%string else
  if t =? V4_SWAP_MATCHED then ascii "V4_SWAP_MATCHED"%string else
  if t =? V4_SWAP_D_EXPORT_READY then ascii "V4_SWAP_D_EXPORT_READY"%string else
  if t =? V4_SWAP_PREPARE_C_SETTLEMENT then ascii "V4_SWAP_PREPARE_C_SETTLEMENT"%string else
  if t =? V4_SWAP_SUBMIT_C_SETTLEMENT then ascii "V4_SWAP_SUBMIT_C_SETTLEMENT"%string else
  if t =? V4_SWAP_C_SETTLED then ascii "V4_SWAP_C_SETTLED"%string else
  if t =? V4_ROUTE_HOP_STARTED then ascii "V4_ROUTE_HOP_STARTED"%string else
  if t =? V4_ROUTE_HOP_FILLED then ascii "V4_ROUTE_HOP_FILLED"%string else
  if t =? V4_ROUTE_D_EXPORT_READY then ascii "V4_ROUTE_D_EXPORT_READY"%string else
  if t =? V4_ROUTE_REFUND_READY then ascii "V4_ROUTE_REFUND_READY"%string else
  if t =? V4_LP_D_COMMITTED then ascii "V4_LP_D_COMMITTED"%string else
  if t =? V4_LP_POSITION_OPEN then ascii "V4_LP_POSITION_OPEN"%string else
  if t =? V4_COLLECT_D_EXPORT_READY then ascii "V4_COLLECT_D_EXPORT_READY"%string else
  if t =? V4_CANCEL_D_EXPORT_READY then ascii "V4_CANCEL_D_EXPORT_READY"%string else
  if t =? V4_ERROR then ascii "V4_ERROR"%string else
  if t =? V4_HALTED then ascii "V4_HALTED"%string else
  ascii "V4_MSG"%string.

Record V4Event : Type := mkV4Event {
  ev_Type : V4MsgType;
  ev_SessionID : ID;
  ev_IntentID : ID;
  ev_EstAmount : Z;
  ev_HopIndex : Z;
  ev_Ref : DExportRef;
  ev_Reason : list byte
}.

Definition HasRef (e : V4Event) : bool :=
  (ev_Type e =? V4_SWAP_D_EXPORT_READY) || (ev_Type e =? V4_ROUTE_D_EXPORT_READY)
  || (ev_Type e =? V4_ROUTE_REFUND_READY) || (ev_Type e =? V4_COLLECT_D_EXPORT_READY)
  || (ev_Type e =? V4_CANCEL_D_EXPORT_READY).

(** ** Requests and sessions *)

Record LiquidityRequest : Type := mkLiquidityRequest {
  lr_NetworkID : Z;
  lr_CChainID : ID;
  lr_DChainID : ID;
  lr_Account : Account;
  lr_MarketID : ID;
  lr_TickLower : Z;
  lr_TickUpper : Z;
  lr_LiquidityDelta : Z;
  lr_Salt : ID;
  lr_AssetIn : ID;
  lr_AmountIn : Z;
  lr_CallIndex : Z
}.

Record CollectRequest : Type := mkCollectRequest {
  cr_NetworkID : Z;
  cr_CChainID : ID;
  cr_DChainID : ID;
  cr_Account : Account;
  cr_MarketID : ID;
  cr_TickLower : Z;
  cr_TickUpper : Z;
  cr_LiquidityDelta : Z;
  cr_Salt : ID;
  cr_AssetOut : ID;
  cr_CallIndex : Z;
  cr_IsCancel : bool
}.

(** The factory; its client session is the one the operations run over. *)
Record V4PrecompileSession : Type := mkV4PrecompileSession {
  v_netID : Z;
  v_cChain : ID;
  v_dChain : ID;
  v_addr : Account
}.

Record V4SwapSession : Type := mkV4SwapSession {
  sw_cap : scopedCap;
  sw_req : SwapIntentRequest;
  sw_intentID : ID
}.

Record V4RouteSession : Type := mkV4RouteSession {
  ro_cap : scopedCap;
  ro_req : RouteRequest;
  ro_intentID : ID;
  ro_entry : ID
}.

Record V4LiquiditySession : Type := mkV4LiquiditySession {
  lp_cap : scopedCap;
  lp_req : LiquidityRequest;
  lp_pk : PoolKeyArgs;
  lp_intentID : ID
}.

Record V4CollectSession : Type := mkV4CollectSession {
  co_cap : scopedCap;
  co_req : CollectRequest;
  co_pk : PoolKeyArgs;
  co_intentID : ID;
  co_kind : V4Action
}.

Record V4StateSession : Type := mkV4StateSession {
  ss_cap : scopedCap;
  ss_marketID : ID
}.

(** A route watch; its session, when the pointer is set. *)
Record RouteWatch : Type := mkRouteWatch {
  rw_session : option V4RouteSession;
  rw_intentID : ID;
  rw_hopCount : Z
}.

Definition ZeroAccount : Account := zeros 20.

(** [NewV4PrecompileSession] over a client session; the address defaults to
    0x9999. *)
Definition NewV4PrecompileSession (netID : Z) (cChain dChain : ID) (addr : Account)
  : V4PrecompileSession :=
  let addr := if bool_decide (addr = ZeroAccount) then addr9999 else addr in
  mkV4PrecompileSession netID cChain dChain addr.

Definition scopeFor (v : V4PrecompileSession) (kind : V4Action) (account : Account)
  (poolKeyHash paramsHash intentID : ID) : V4ActionScope :=
  mkV4ActionScope (v_netID v) (v_cChain v) (v_dChain v) (v_addr v) account poolKeyHash paramsHash
    kind intentID.

Section v4.
Context (peer : list Message -> option (list byte)).
Context (ends : nat -> bool).
Context (rng : nat -> token).
Context (err_text : dex_error -> list byte).
Context (s : clientSession).

(** [s.issue(bits)]: a token is drawn only for an authority the session has. *)
Definition issuing (b : Authority) : op capCore := fun st =>
  if negb (permits (cs_grant s) b) then Ret (Fail ErrNoAuthority, st) else
  let r := issue (cs_grant s) (rng (drawn st)) b (tbl st) in
  let st := mkSt (sent st) (slept st) (tick st) r.2 (S (drawn st)) in
  match r.1 with Ok c => Ret (Value c, st) | Err e => Ret (Fail e, st) end.

Definition mint (b : Authority) (scope : V4ActionScope) : op scopedCap :=
  core ← issuing b; mret (newScopedCap core scope).

(** [s.cap.authorizeSelf(need)] *)
Definition self (cap : scopedCap) (need : Authority) : op unit := fun st =>
  gate (authorizeSelf cap (tbl st) need) st.

(** [s.dex.Revoke(s.cap.core.tok)] *)
Definition Close (cap : scopedCap) : op unit := fun st =>
  match core cap with
  | None => Panic
  | Some c => Ret (Value tt, mkSt (sent st) (slept st) (tick st) (Revoke (tok c) (tbl st)) (drawn st))
  end.

(** [thenAsync] with the check that the value belongs to this session. *)
Definition guarded {A} (idOf : A -> ID) (intentID : ID) (p : answer A) : op A :=
  thenAsync ends p (fun x => if negb (bool_decide (idOf x = intentID)) then fail ErrScopeMismatch
                             else mret x).

(** ** Opening *)

Definition OpenSwap (v : V4PrecompileSession) (req : SwapIntentRequest) : op V4SwapSession :=
  match market s (sir_MarketID req) with
  | None => fail (ErrUnknownMarket (sir_MarketID req))
  | Some pk =>
      let zfo := zeroForOneFor req in
      let poolKeyHash := DerivePoolKeyHash pk in
      let paramsHash := DeriveSwapParamsHash zfo (sir_AmountIn req) in
      let intentID := DeriveIntentID (sir_NetworkID req) (sir_CChainID req) (sir_DChainID req)
        (sir_Account req) (sir_AssetIn req) (sir_AmountIn req) (sir_MarketID req) (sir_Nonce req) in
      cap ← mint (Z.lor (Z.lor AuthIntent AuthWatch) AuthSettlement)
              (scopeFor v ActionSwap (sir_Account req) poolKeyHash paramsHash intentID);
      mret (mkV4SwapSession cap req intentID)
  end.

Definition OpenRoute (v : V4PrecompileSession) (req : RouteRequest) : op V4RouteSession :=
  match firstMarket req with
  | None => fail ErrEmptyPath
  | Some first =>
      match market s first with
      | None => fail (ErrUnknownMarket first)
      | Some _ =>
          let pathHash := DeriveRoutePathHash (rr_Path req) in
          let paramsHash := DeriveSwapParamsHash true (rr_AmountIn req) in
          let intentID := DeriveIntentID (rr_NetworkID req) (rr_CChainID req) (rr_DChainID req)
            (rr_Account req) (rr_AssetIn req) (rr_AmountIn req) first (rr_CallIndex req) in
          cap ← mint (Z.lor (Z.lor AuthIntent AuthWatch) AuthSettlement)
                  (scopeFor v ActionRoute (rr_Account req) pathHash paramsHash intentID);
          mret (mkV4RouteSession cap req intentID first)
      end
  end.

Definition OpenModifyLiquidity (v : V4PrecompileSession) (req : LiquidityRequest)
  : op V4LiquiditySession :=
  if lr_LiquidityDelta req <=? 0 then fail ErrDelta else
  match market s (lr_MarketID req) with
  | None => fail (ErrUnknownMarket (lr_MarketID req))
  | Some pk =>
      let poolKeyHash := DerivePoolKeyHash pk in
      let paramsHash := DeriveLiquidityParamsHash (lr_TickLower req) (lr_TickUpper req)
        (lr_LiquidityDelta req) (lr_Salt req) in
      let intentID := DeriveIntentID (lr_NetworkID req) (lr_CChainID req) (lr_DChainID req)
        (lr_Account req) (lr_AssetIn req) (lr_AmountIn req) (lr_MarketID req) (lr_CallIndex req) in
      cap ← mint (Z.lor AuthIntent AuthWatch)
              (scopeFor v ActionModifyLiquidity (lr_Account req) poolKeyHash paramsHash intentID);
      mret (mkV4LiquiditySession cap req pk intentID)
  end.

Definition openRemoval (v : V4PrecompileSession) (req : CollectRequest) (kind : V4Action)
  : op V4CollectSession :=
  if 0 <=? cr_LiquidityDelta req then fail ErrDelta else
  match market s (cr_MarketID req) with
  | None => fail (ErrUnknownMarket (cr_MarketID req))
  | Some pk =>
      let poolKeyHash := DerivePoolKeyHash pk in
      let paramsHash := DeriveLiquidityParamsHash (cr_TickLower req) (cr_TickUpper req)
        (cr_LiquidityDelta req) (cr_Salt req) in
      let intentID := DeriveIntentID (cr_NetworkID req) (cr_CChainID req) (cr_DChainID req)
        (cr_Account req) (cr_AssetOut req) 0 (cr_MarketID req) (cr_CallIndex req) in
      cap ← mint (Z.lor (Z.lor AuthIntent AuthWatch) AuthSettlement)
              (scopeFor v kind (cr_Account req) poolKeyHash paramsHash intentID);
      mret (mkV4CollectSession cap req pk intentID kind)
  end.

Definition OpenCollect (v : V4PrecompileSession) (req : CollectRequest) : op V4CollectSession :=
  openRemoval v req ActionCollect.

Definition OpenCancel (v : V4PrecompileSession) (req : CollectRequest) : op V4CollectSession :=
  let req := mkCollectRequest (cr_NetworkID req) (cr_CChainID req) (cr_DChainID req) (cr_Account req)
    (cr_MarketID req) (cr_TickLower req) (cr_TickUpper req) (cr_LiquidityDelta req) (cr_Salt req)
    (cr_AssetOut req) (cr_CallIndex req) true in
  openRemoval v req ActionCancel.

Definition OpenState (v : V4PrecompileSession) (account : Account) (marketID : ID)
  : op V4StateSession :=
  match market s marketID with
  | None => fail (ErrUnknownMarket marketID)
  | Some pk =>
      cap ← mint AuthQuote (scopeFor v ActionState account (DerivePoolKeyHash pk) ZeroID ZeroID);
      mret (mkV4StateSession cap marketID)
  end.

(** ** Events *)

(** [emit(ctx, ch, ev)]; false when the context ended instead. *)
Definition emit (ch : list V4Event) (ev : V4Event) : op (bool * list V4Event) :=
  e ← ctx_ended ends; mret (if (e : bool) then (false, ch) else (true, ch ++ [ev])).

Definition emit_if (c : bool) (ch : list V4Event) (ev : V4Event) : op (bool * list V4Event) :=
  if c then emit ch ev else mret (true, ch).

(** The last event of a stream: the channel is closed whether it was taken or
    not. *)
Definition emit_last (ch : list V4Event) (ev : V4Event) : op (bool * list V4Event) :=
  r ← emit ch ev; mret (true, r.2).

Definition event (t : V4MsgType) (sid intentID : ID) (est hop : Z) (ref : DExportRef)
  (reason : list byte) : V4Event := mkV4Event t sid intentID est hop ref reason.

Definition error_event (sid intentID : ID) (reason : list byte) : V4Event :=
  event V4_ERROR sid intentID 0 0 DExportRef_zero reason.

(** ** Swaps *)

Section swap.
Context (x : V4SwapSession).

Definition Swap_SessionID : ID := sessionID (sw_cap x).

Definition Swap_WritePrepareIntent : op PreparedIntent :=
  _ ← self (sw_cap x) AuthIntent;
  PrepareSwapIntent peer ends s (sw_req x).

Definition Swap_WriteNotifyCToDExport (intent : answer PreparedIntent) : op IntentWatch :=
  _ ← self (sw_cap x) AuthIntent;
  g ← spawn (guarded pi_IntentID (sw_intentID x) intent);
  NotifyIntent peer ends s g.

(** The polling loop of a stream; [true] is a closed channel, [false] one that is
    still open after the polls it was allowed. *)
Fixpoint streamEvents (polls : nat) (emittedImported : bool) (w : IntentWatch) (ch : list V4Event)
  : op (bool * list V4Event) :=
  match polls with
  | O => mret (false, ch)
  | S polls =>
      let sid := Swap_SessionID in
      e ← ctx_ended ends;
      if (e : bool) then mret (true, ch) else
      r ← spawn (Poll peer s w);
      match r with
      | Pending => mret (false, ch)
      | Fail err => emit_last ch (error_event sid (sw_intentID x) (err_text err))
      | Value st =>
          let again (imported : bool) (ch : list V4Event) : op (bool * list V4Event) :=
            fired ← sleepCtx ends watchPollCadence;
            if negb fired then mret (true, ch) else streamEvents polls imported w ch in
          if is_Phase st =? PhaseMatching then
            r ← emit_if (negb emittedImported) ch
                  (event V4_SWAP_D_IMPORTED sid (sw_intentID x) 0 0 DExportRef_zero []);
            if negb (r.1 : bool) then mret (true, r.2) else
            r ← emit r.2 (event V4_SWAP_MATCHED sid (sw_intentID x) (is_MatchedOut st) 0
                            DExportRef_zero []);
            if negb (r.1 : bool) then mret (true, r.2) else again true r.2
          else if is_Phase st =? PhaseCommitted then
            emit_last ch (event V4_SWAP_D_EXPORT_READY sid (sw_intentID x) (is_MatchedOut st) 0
                            (rebind (is_Ref st) (sw_intentID x)) [])
          else if is_Phase st =? PhaseRejected then
            emit_last ch (error_event sid (sw_intentID x)
                            (or_default (is_Reason st) (ascii "intent rejected by D"%string)))
          else again emittedImported ch
      end
  end.

Definition Swap_ReadStream (polls : nat) (w : IntentWatch) : op (bool * list V4Event) := fun st =>
  match authorizeSelf (sw_cap x) (tbl st) AuthWatch with
  | Err e => Ret (Value (true, [error_event Swap_SessionID (sw_intentID x) (err_text e)]), st)
  | Ok _ => streamEvents polls false w [] st
  end.

Definition Swap_OnExportReady (polls : nat) (w : IntentWatch) : op (answer DExportRef) := fun st =>
  match authorizeSelf (sw_cap x) (tbl st) AuthWatch with
  | Err e => Ret (Value (Fail e), st)
  | Ok _ => OnCommitted peer ends s polls w st
  end.

Definition Swap_WritePrepareCSettlement (ref : answer DExportRef) : op SettlementSubmitResult :=
  _ ← self (sw_cap x) AuthSettlement;
  g ← spawn (guarded der_IntentID (sw_intentID x) ref);
  ImportSettlement peer ends s g.

Definition Swap_Run (polls : nat) : op FlowStages :=
  intent ← spawn Swap_WritePrepareIntent;
  watch ← spawn (Swap_WriteNotifyCToDExport intent);
  committed ← spawn (thenAsync ends watch (fun w => p ← Swap_OnExportReady polls w; Await ends p));
  settle ← spawn (Swap_WritePrepareCSettlement committed);
  quote ← spawn (Quote peer s (mkQuoteRequest (sir_MarketID (sw_req x)) (sir_AmountIn (sw_req x))
                                 (zeroForOneFor (sw_req x))));
  mret (mkFlowStages quote intent watch committed settle).
End swap.

(** ** Routes *)

(** The watch polls under the capability of its own session. *)
Definition RouteWatch_Poll (w : RouteWatch) : op RouteStatus :=
  match rw_session w with
  | None => fail ErrNilWatch
  | Some r =>
      _ ← self (ro_cap r) AuthWatch;
      reqMsg ← built (buildRouteWatchPoll (rw_intentID w));
      resp ← Call peer reqMsg;
      reading (readRouteStatus resp)
  end.

Fixpoint streamUntilFinal (polls : nat) (backoff : Z) (w : RouteWatch) : op DExportRef :=
  match polls with
  | O => fun st => Ret (Pending, st)
  | S polls =>
      e ← ctx_ended ends;
      if (e : bool) then fail ErrCtx else
      st ← RouteWatch_Poll w;
      if (rs_Phase st =? RouteCommitted) || (rs_Phase st =? RouteRefunded) then
        mret (rebind (rs_Ref st) (rw_intentID w)) else
      if rs_Phase st =? RouteRejected then
        fail (ErrRejected (or_default (rs_Reason st) (ascii "route rejected by D"%string))) else
      fired ← sleepCtx ends backoff;
      if negb fired then fail ErrCtx else
      streamUntilFinal polls (next_backoff backoff) w
  end.

Section route.
Context (x : V4RouteSession).

Definition Route_SessionID : ID := sessionID (ro_cap x).

Definition prepareRouteLocal : op PreparedIntent :=
  if rr_AmountIn (ro_req x) =? 0 then fail ErrZeroAmount else
  if len (rr_Path (ro_req x)) =? 0 then fail ErrEmptyPath else
  match market s (ro_entry x) with
  | None => fail (ErrUnknownMarket (ro_entry x))
  | Some pk =>
      let hookData := EncodeIntentHookData (rr_Deadline (ro_req x)) (rr_CallIndex (ro_req x)) in
      let calldata := EncodeSwapCalldata pk true (rr_AmountIn (ro_req x)) hookData in
      mret (mkPreparedIntent addr9999 calldata hookData (ro_intentID x) 0
              (rr_DChainID (ro_req x)) (rr_CChainID (ro_req x)) (rr_Account (ro_req x))
              (rr_Recipient (ro_req x)) (rr_AssetIn (ro_req x)) (rr_AmountIn (ro_req x))
              (ro_entry x))
  end.

Definition Route_WritePrepareIntent : op PreparedIntent :=
  _ ← self (ro_cap x) AuthIntent; prepareRouteLocal.

(** The whole route goes to D with the notification. *)
Definition Route_WriteNotifyCToDExport (intent : answer PreparedIntent) : op RouteWatch :=
  _ ← self (ro_cap x) AuthIntent;
  thenAsync ends intent (fun pi =>
    if negb (bool_decide (pi_IntentID pi = ro_intentID x)) then fail ErrScopeMismatch else
    reqMsg ← built (buildRouteRequest (ro_req x));
    _ ← Call peer reqMsg;
    mret (mkRouteWatch (Some x) (ro_intentID x) (u32 (len (rr_Path (ro_req x)))))).

Fixpoint streamRoute (polls : nat) (lastHop : Z) (w : RouteWatch) (ch : list V4Event)
  : op (bool * list V4Event) :=
  match polls with
  | O => mret (false, ch)
  | S polls =>
      let sid := Route_SessionID in
      e ← ctx_ended ends;
      if (e : bool) then mret (true, ch) else
      r ← spawn (RouteWatch_Poll w);
      match r with
      | Pending => mret (false, ch)
      | Fail err => emit_last ch (error_event sid (ro_intentID x) (err_text err))
      | Value st =>
          let again (lastHop : Z) (ch : list V4Event) : op (bool * list V4Event) :=
            fired ← sleepCtx ends watchPollCadence;
            if negb fired then mret (true, ch) else streamRoute polls lastHop w ch in
          if rs_Phase st =? RouteHopping then
            let started := lastHop <? rs_HopIndex st in
            let lastHop := if started then rs_HopIndex st else lastHop in
            r ← emit_if started ch
                  (event V4_ROUTE_HOP_STARTED sid (ro_intentID x) 0 (rs_HopIndex st)
                     DExportRef_zero []);
            if negb (r.1 : bool) then mret (true, r.2) else
            r ← emit r.2 (event V4_ROUTE_HOP_FILLED sid (ro_intentID x) (rs_HopAmountOut st)
                            (rs_HopIndex st) DExportRef_zero []);
            if negb (r.1 : bool) then mret (true, r.2) else again lastHop r.2
          else if rs_Phase st =? RouteCommitted then
            emit_last ch (event V4_ROUTE_D_EXPORT_READY sid (ro_intentID x) (rs_FinalOut st) 0
                            (rebind (rs_Ref st) (ro_intentID x)) [])
          else if rs_Phase st =? RouteRefunded then
            emit_last ch (event V4_ROUTE_REFUND_READY sid (ro_intentID x) (rs_FinalOut st) 0
                            (rebind (rs_Ref st) (ro_intentID x)) (rs_Reason st))
          else if rs_Phase st =? RouteRejected then
            emit_last ch (error_event sid (ro_intentID x)
                            (or_default (rs_Reason st) (ascii "route rejected by D"%string)))
          else again lastHop ch
      end
  end.

Definition Route_ReadStream (polls : nat) (w : RouteWatch) : op (bool * list V4Event) := fun st =>
  match authorizeSelf (ro_cap x) (tbl st) AuthWatch with
  | Err e => Ret (Value (true, [error_event Route_SessionID (ro_intentID x) (err_text e)]), st)
  | Ok _ => streamRoute polls (-1) w [] st
  end.

Definition OnFinalExport (polls : nat) (w : RouteWatch) : op DExportRef :=
  _ ← self (ro_cap x) AuthWatch; streamUntilFinal polls minBackoff w.

Definition Route_WritePrepareCSettlement (ref : answer DExportRef) : op SettlementSubmitResult :=
  _ ← self (ro_cap x) AuthSettlement;
  g ← spawn (guarded der_IntentID (ro_intentID x) ref);
  ImportSettlement peer ends s g.
End route.

(** ** Liquidity *)

Section liquidity.
Context (x : V4LiquiditySession).

Definition WritePrepareCommit : op PreparedIntent :=
  _ ← self (lp_cap x) AuthIntent;
  let req := lp_req x in
  let args := mkModifyLiquidityArgs (lr_TickLower req) (lr_TickUpper req) (lr_LiquidityDelta req)
    (lr_Salt req) in
  let hookData := EncodeIntentHookData 0 (lr_CallIndex req) in
  let calldata := EncodeModifyLiquidityCalldata (lp_pk x) args hookData in
  mret (mkPreparedIntent addr9999 calldata hookData (lp_intentID x) 0 (lr_DChainID req)
          (lr_CChainID req) (lr_Account req) ZeroAccount (lr_AssetIn req) (lr_AmountIn req)
          (lr_MarketID req)).

Definition Liquidity_WriteNotifyCToDExport (intent : answer PreparedIntent) : op IntentWatch :=
  _ ← self (lp_cap x) AuthIntent;
  g ← spawn (guarded pi_IntentID (lp_intentID x) intent);
  NotifyIntent peer ends s g.
End liquidity.

(** ** Removals *)

Section collect.
Context (x : V4CollectSession).

Definition WriteRequest : op PreparedIntent :=
  _ ← self (co_cap x) AuthIntent;
  let req := co_req x in
  let args := mkModifyLiquidityArgs (cr_TickLower req) (cr_TickUpper req) (cr_LiquidityDelta req)
    (cr_Salt req) in
  let hookData := EncodeIntentHookData 0 (cr_CallIndex req) in
  let calldata := EncodeModifyLiquidityCalldata (co_pk x) args hookData in
  mret (mkPreparedIntent addr9999 calldata hookData (co_intentID x) 0 (cr_DChainID req)
          (cr_CChainID req) (cr_Account req) ZeroAccount (cr_AssetOut req) 0 (cr_MarketID req)).

Definition WriteNotify (intent : answer PreparedIntent) : op IntentWatch :=
  _ ← self (co_cap x) AuthIntent;
  g ← spawn (guarded pi_IntentID (co_intentID x) intent);
  NotifyIntent peer ends s g.

Definition Collect_OnExportReady (polls : nat) (w : IntentWatch) : op (answer DExportRef) := fun st =>
  match authorizeSelf (co_cap x) (tbl st) AuthWatch with
  | Err e => Ret (Value (Fail e), st)
  | Ok _ => OnCommitted peer ends s polls w st
  end.

Definition Collect_WritePrepareCSettlement (ref : answer DExportRef) : op SettlementSubmitResult :=
  _ ← self (co_cap x) AuthSettlement;
  g ← spawn (guarded der_IntentID (co_intentID x) ref);
  ImportSettlement peer ends s g.
End collect.

(** ** Reads *)

Section state.
Context (x : V4StateSession).

Definition State_SessionID : ID := sessionID (ss_cap x).

Definition ReadQuote (amountIn : Z) (zeroForOne : bool) : op QuoteResult :=
  _ ← self (ss_cap x) AuthQuote;
  Quote peer s (mkQuoteRequest (ss_marketID x) amountIn zeroForOne).

Definition ReadState (kind : Z) (account : Account) (asset : ID) : op StateResult :=
  _ ← self (ss_cap x) AuthQuote;
  GetState peer s (mkStateRequest kind (ss_marketID x) account asset ZeroID).

Fixpoint quote_loop (rounds : nat) (amountIn : Z) (zeroForOne : bool) (ch : list V4Event)
  : op (bool * list V4Event) :=
  match rounds with
  | O => mret (false, ch)
  | S rounds =>
      let sid := State_SessionID in
      p ← spawn (Quote peer s (mkQuoteRequest (ss_marketID x) amountIn zeroForOne));
      r ← spawn (Await ends p);
      match r with
      | Pending => mret (false, ch)
      | Fail err => emit_last ch (error_event sid ZeroID (err_text err))
      | Value qr =>
          r ← emit ch (event V4_STATE_QUOTE_UPDATE sid ZeroID (qRes_AmountOut qr) 0
                         DExportRef_zero []);
          if negb (r.1 : bool) then mret (true, r.2) else
          fired ← sleepCtx ends watchPollCadence;
          if negb fired then mret (true, r.2) else quote_loop rounds amountIn zeroForOne r.2
      end
  end.

Definition StreamQuotes (rounds : nat) (amountIn : Z) (zeroForOne : bool)
  : op (bool * list V4Event) := fun st =>
  match authorizeSelf (ss_cap x) (tbl st) AuthQuote with
  | Err e => Ret (Value (true, [error_event State_SessionID ZeroID (err_text e)]), st)
  | Ok _ => quote_loop rounds amountIn zeroForOne [] st
  end.
End state.
End v4.

(** ** Reasoning about sessions *)

Definition with_tbl (st : St) (g : grants) : St :=
  mkSt (sent st) (slept st) (tick st) g (drawn st).

Section v4_logic.
Context (peer : list Message -> option (list byte)) (ends : nat -> bool).
Context (rng : nat -> token) (err_text : dex_error -> list byte) (s : clientSession).

(** [cap] authorizes [need] at the table of [st]. *)
Definition holds (cap : scopedCap) (need : Authority) (st : St) : Prop :=
  authorizeSelf cap (tbl st) need = Ok tt.

Lemma runs_self cap need st Q :
  (holds cap need st -> Q (Value tt) st) ->
  (forall e, authorizeSelf cap (tbl st) need = Err e -> Q (Fail e) st) ->
  runs (self cap need) st Q.
Proof.
  intros Hok Herr; unfold self, runs, holds in *.
  destruct (authorizeSelf cap (tbl st) need) as [[]|e]; eexists _, _; split; try reflexivity; auto.
Qed.

Lemma runs_emit ch ev st Q :
  Q (Value (if ends (tick st) then (false, ch) else (true, ch ++ [ev]))) (with_tick st) ->
  runs (emit ends ch ev) st Q.
Proof. intros HQ; unfold emit; apply runs_bind, runs_ctx; cbn [continue]; apply runs_ret; done. Qed.

Lemma runs_emit_last ch ev st Q :
  Q (Value (true, if ends (tick st) then ch else ch ++ [ev])) (with_tick st) ->
  runs (emit_last ends ch ev) st Q.
Proof.
  intros HQ; unfold emit_last; apply runs_bind, runs_emit; cbn [continue]; apply runs_ret.
  destruct (ends (tick st)); done.
Qed.

(** What the guard lets through is what it was given, with this session's id. *)
Definition own {A} (idOf : A -> ID) (i : ID) (p a : answer A) : Prop :=
  forall x, a = Value x -> p = Value x /\ idOf x = i.

Lemma runs_guarded {A} (idOf : A -> ID) i p st (Q : answer A -> St -> Prop) :
  (forall a, own idOf i p a -> Q a (with_tick st)) -> runs (guarded ends idOf i p) st Q.
Proof.
  intros HQ; unfold guarded; apply runs_thenAsync.
  destruct (ends (tick st)); [apply HQ; intros x; done|]; destruct p as [x|e|]; cbn [continue].
  - case_bool_decide as Hid; cbn [negb]; [apply runs_ret, HQ|apply runs_fail, HQ]; intros y; [|done].
    intros [= <-]; done.
  - apply HQ; intros x; done.
  - apply HQ; intros x; done.
Qed.

(** One request without a gate of its own. *)
Section ask.
Context {T U : Type} (e : Envelope T) (r : Envelope U) `{!EnvelopeLaws e} `{!EnvelopeLaws r}.

Definition ask (x : T) : op U :=
  reqMsg ← built (build e x); resp ← Call peer reqMsg; reading (read r resp).

Definition asked (x : T) (st : St) (a : answer U) (st' : St) : Prop :=
  exists m, build e x = Ret (Ok m) /\ st' = with_sent st m
    /\ (a = Fail ErrCall
        \/ exists resp u, replies peer (sent st') resp /\ read r resp = Ret u /\ a = Value u
           /\ typed r u /\ norm r u = u).

Lemma ask_runs x st : typed e x -> env_size e x < 2 ^ 31 -> runs (ask x) st (asked x st).
Proof.
  intros Ht Hs; destruct (exchange_runs peer s e r 0 x st Ht Hs) as (a & st' & Hx & Hex).
  assert (Hp : permits (cs_grant s) 0 = true) by (unfold permits; rewrite Z.land_0_r; done).
  exists a, st'; unfold exchange, requireGrant, mbind at 1, op_bind at 1 in Hx; rewrite Hp in Hx.
  split; [exact Hx|].
  destruct Hex as [(Hp' & _)|(_ & m & Hb & _ & Hst & Ha)]; [congruence|exists m; auto].
Qed.
End ask.

(** A poll of a route: refused, or one message and its reply. *)
Lemma RouteWatch_Poll_runs w st :
  is_ID (rw_intentID w) ->
  runs (RouteWatch_Poll peer w) st (fun a st' =>
    (st' = st /\ exists e, a = Fail e)
    \/ (exists r, rw_session w = Some r /\ holds (ro_cap r) AuthWatch st)
       /\ asked RouteWatchPoll_env RouteStatus_env (rw_intentID w) st a st').
Proof.
  intros Hi; unfold RouteWatch_Poll; destruct (rw_session w) as [r|].
  - apply runs_bind, runs_self; cbn [continue]; [intros Hh|left; eauto].
    eapply runs_mono; [apply (ask_runs RouteWatchPoll_env RouteStatus_env); done|].
    intros a st' Ha; right; eauto.
  - apply runs_fail; left; eauto.
Qed.
End v4_logic.

(** ** Streams *)

(** A stream polls and puts events on its channel: a body that depends on where
    the loop stands, then at most one last event, with which the channel is
    closed. A channel that is still open has used every poll it was allowed, and
    the context was not seen to end in between. *)
Section streams.
Context (ends : nat -> bool).
Context {B : Type} (body : B -> list V4Event -> Prop) (last : St -> V4Event -> Prop).
Context (poll : Message -> Prop).
Hypothesis body_nil : forall b, body b [].

Definition quiet (st st' : St) : Prop :=
  forall j, (tick st <= j < tick st')%nat -> ends j = false.

Definition streaming (b : B) (n : nat) (ch : list V4Event) (st : St)
  (a : answer (bool * list V4Event)) (st' : St) : Prop :=
  exists closed evs tl ms, a = Value (closed, ch ++ evs ++ tl)
    /\ sends st st' ms /\ Forall poll ms /\ len ms <= Z.of_nat n
    /\ body b evs /\ (tl = [] \/ closed = true /\ exists t, tl = [t] /\ last st' t)
    /\ (closed = false -> len ms = Z.of_nat n /\ (tick st + 2 * n <= tick st')%nat /\ quiet st st').

Lemma streaming_open b ch st : streaming b 0 ch st (Value (false, ch)) st.
Proof.
  exists false, [], [], []; rewrite !app_nil_r.
  split_and!; auto using sends_nil; try done; intros _; split_and!; [done|lia|]; intros j; lia.
Qed.

(** The channel is closed after [evs]. *)
Lemma streaming_closed b n ch evs st st' ms :
  sends st st' ms -> Forall poll ms -> len ms <= Z.of_nat n -> body b evs ->
  streaming b n ch st (Value (true, ch ++ evs)) st'.
Proof.
  intros Hs Hp Hl Hb; exists true, evs, [], ms; rewrite app_nil_r; split_and!; auto; done.
Qed.

Lemma streaming_stop b n ch st st' ms :
  sends st st' ms -> Forall poll ms -> len ms <= Z.of_nat n ->
  streaming b n ch st (Value (true, ch)) st'.
Proof.
  intros Hs Hp Hl; rewrite <- (app_nil_r ch) at 2; eapply streaming_closed; eauto.
Qed.

(** The channel is closed with a last event, unless the context ended first. *)
Lemma streaming_last b n ch ev st st' ms :
  sends st st' ms -> Forall poll ms -> len ms <= Z.of_nat n -> last (with_tick st') ev ->
  runs (emit_last ends ch ev) st' (streaming b n ch st).
Proof.
  intros Hs Hp Hl Hev; apply runs_emit_last; destruct (ends (tick st')).
  - exists true, [], [], ms; rewrite !app_nil_r; split_and!; auto; done.
  - exists true, [], [ev], ms; split_and!; auto; [right; eauto|done].
Qed.

(** One round that goes on. *)
Lemma streaming_step b b' n ch evs st st1 m a st' :
  sends st st1 [m] -> poll m -> (tick st + 2 <= tick st1)%nat -> quiet st st1 ->
  (forall evs', body b' evs' -> body b (evs ++ evs')) ->
  streaming b' n (ch ++ evs) st1 a st' -> streaming b (S n) ch st a st'.
Proof.
  intros Hs Hm Ht Hq Hb (closed & evs' & tl & ms & -> & Hs' & Hp & Hl & Hb' & Htl & Ho).
  exists closed, (evs ++ evs'), tl, (m :: ms); rewrite !len_cons, <- !app_assoc.
  split; [done|split; [apply (sends_trans st st1 st' [m] ms); done|]].
  split; [constructor; done|split; [lia|split; [auto|split; [done|]]]].
  intros Hc; destruct (Ho Hc) as (? & ? & Hq'); split_and!; [lia|lia|].
  intros j Hj; destruct (decide (j < tick st1)%nat); [apply Hq; lia|apply Hq'; lia].
Qed.

Lemma quiet_nil st : quiet st st.
Proof. intros j; lia. Qed.
Lemma quiet_tick st st' : quiet st st' -> ends (tick st') = false -> quiet st (with_tick st').
Proof.
  intros Hq He j Hj; simpl in Hj; destruct (decide (j = tick st')) as [->|]; [done|apply Hq; lia].
Qed.
Lemma quiet_sleep st st' d : quiet st st' -> ends (tick st') = false -> quiet st (with_sleep st' d).
Proof.
  intros Hq He j Hj; simpl in Hj; destruct (decide (j = tick st')) as [->|]; [done|apply Hq; lia].
Qed.

(** A round without an event: a sleep, and the next round. *)
Lemma streaming_idle b b' n ch evs st st1 m d k :
  sends st st1 [m] -> poll m -> (tick st < tick st1)%nat -> quiet st st1 ->
  body b evs -> (forall evs', body b' evs' -> body b (evs ++ evs')) ->
  (forall st2, tbl st2 = tbl st1 -> runs k st2 (streaming b' n (ch ++ evs) st2)) ->
  runs (fired ← sleepCtx ends d; if negb fired then mret (true, ch ++ evs) else k) st1
    (streaming b (S n) ch st).
Proof.
  intros Hs Hm Ht Hq Hb Hb' Hk; apply runs_bind, runs_sleep; cbn [continue].
  destruct (ends (tick st1)) eqn:He; cbn [negb].
  - apply runs_ret, (streaming_closed _ _ _ _ _ _ [m]); [done|by apply Forall_singleton|rewrite len_cons, len_nil; lia|done].
  - eapply runs_mono; [apply Hk; done|]; intros a st2 Hst; apply (streaming_step b b' n ch evs st (with_sleep st1 d) m); try done; [simpl; lia|].
    apply quiet_sleep; done.
Qed.

(** A round with one more event behind [evs]. *)
Lemma streaming_round b b' n ch evs ev st st1 m d k :
  sends st st1 [m] -> poll m -> (tick st < tick st1)%nat -> quiet st st1 ->
  body b evs -> (forall evs', body b' evs' -> body b (evs ++ ev :: evs')) ->
  (forall st2, tbl st2 = tbl st1 -> runs (k (ch ++ evs ++ [ev])) st2 (streaming b' n (ch ++ evs ++ [ev]) st2)) ->
  runs (r ← emit ends (ch ++ evs) ev;
        if negb (r.1 : bool) then mret (true, r.2) else
        fired ← sleepCtx ends d; if negb fired then mret (true, r.2) else k r.2) st1
    (streaming b (S n) ch st).
Proof.
  intros Hs Hm Ht Hq Hb Hb' Hk; apply runs_bind, runs_emit; cbn [continue].
  destruct (ends (tick st1)) eqn:He; cbn [negb fst snd].
  - apply runs_ret, (streaming_closed _ _ _ _ _ _ [m]); [done|by apply Forall_singleton|rewrite len_cons, len_nil; lia|done].
  - rewrite <- app_assoc; apply (streaming_idle b b' n ch (evs ++ [ev]) st (with_tick st1) m); auto using quiet_tick.
    + simpl; lia.
    + intros evs' He'; rewrite <- app_assoc; apply Hb'; done.
Qed.


(** A round with an event that may come before. *)
Lemma streaming_round_if b b' n ch (c : bool) ev0 ev st st1 m d k :
  let evs := if c then [ev0] else [] in
  sends st st1 [m] -> poll m -> (tick st < tick st1)%nat -> quiet st st1 ->
  body b evs -> (forall evs', body b' evs' -> body b (evs ++ ev :: evs')) ->
  (forall st2 ch, tbl st2 = tbl st1 -> runs (k ch) st2 (streaming b' n ch st2)) ->
  runs (r ← emit_if ends c ch ev0;
        if negb (r.1 : bool) then mret (true, r.2) else
        r ← emit ends r.2 ev;
        if negb (r.1 : bool) then mret (true, r.2) else
        fired ← sleepCtx ends d; if negb fired then mret (true, r.2) else k r.2) st1
    (streaming b (S n) ch st).
Proof.
  intros evs Hs Hm Ht Hq Hb Hb' Hk; unfold emit_if; apply runs_bind; destruct c.
  - apply runs_emit; cbn [continue]; destruct (ends (tick st1)) eqn:E; cbn [negb fst snd].
    + apply runs_ret, (streaming_stop _ _ _ _ _ [m]);
        [done|by apply Forall_singleton|rewrite len_cons, len_nil; lia].
    + eapply (streaming_round b b' n ch [ev0]); eauto using quiet_tick; simpl; lia.
  - apply runs_ret; cbn [continue negb fst snd]; rewrite <- (app_nil_r ch) at 1.
    eapply (streaming_round b b' n ch []); eauto.
Qed.
End streams.
Create HintDb dex discriminated.
#[export] Hint Resolve quiet_nil quiet_tick quiet_sleep : dex.


Section swap_stream.
Context (peer : list Message -> option (list byte)) (ends : nat -> bool).
Context (err_text : dex_error -> list byte) (s : clientSession) (x : V4SwapSession).

Definition swap_imported : V4Event :=
  event V4_SWAP_D_IMPORTED (Swap_SessionID x) (sw_intentID x) 0 0 DExportRef_zero [].

Definition swap_matched (ev : V4Event) : Prop :=
  exists est, ev = event V4_SWAP_MATCHED (Swap_SessionID x) (sw_intentID x) est 0 DExportRef_zero [].

(** Nothing, or the import followed by matches; once imported, matches only. *)
Definition swap_body (imported : bool) (evs : list V4Event) : Prop :=
  if imported then Forall swap_matched evs
  else evs = [] \/ exists ms, evs = swap_imported :: ms /\ Forall swap_matched ms.

(** The last event: an error, or the export of a status reported as committed. *)
Definition swap_last (st : St) (ev : V4Event) : Prop :=
  (exists reason, ev = error_event (Swap_SessionID x) (sw_intentID x) reason)
  \/ exists y, reports peer (sent st) y /\ is_Phase y = PhaseCommitted
     /\ ev = event V4_SWAP_D_EXPORT_READY (Swap_SessionID x) (sw_intentID x) (is_MatchedOut y) 0
               (rebind (is_Ref y) (sw_intentID x)) [].

Definition swap_poll (w : IntentWatch) (m : Message) : Prop :=
  buildWatchPollRequest (w_intentID w) = Ret (Ok m) /\ allowed s m.

Lemma swap_body_nil b : swap_body b [].
Proof. destruct b; [constructor|by left]. Qed.

Lemma swap_body_matched imported est evs :
  swap_body true evs ->
  swap_body imported ((if imported then [] else [swap_imported])
    ++ event V4_SWAP_MATCHED (Swap_SessionID x) (sw_intentID x) est 0 DExportRef_zero [] :: evs).
Proof.
  intros Hb; assert (Hm : Forall swap_matched
    (event V4_SWAP_MATCHED (Swap_SessionID x) (sw_intentID x) est 0 DExportRef_zero [] :: evs))
    by (constructor; [eexists; done|exact Hb]).
  destruct imported; [exact Hm|right; eauto].
Qed.

(** What one poll of a stream gives. *)
Lemma swap_poll_runs w st :
  is_ID (w_intentID w) ->
  runs (spawn (Poll peer s w)) st (fun a st' => exists r ms, a = Value r /\ r <> Pending
    /\ sends st st' ms /\ Forall (swap_poll w) ms /\ len ms <= 1 /\ tick st' = tick st
    /\ forall y, r = Value y -> (exists m, ms = [m]) /\ reports peer (sent st') y).
Proof.
  intros Hi; apply runs_spawn; eapply runs_mono; [apply Poll_runs, Hi|].
  intros a st' [(_ & -> & ->)|Hex].
  { exists (Fail ErrNilWatch), []; split_and!; try done; apply sends_nil. }
  assert (Htick : tick st' = tick st)
    by (destruct Hex as [(_ & _ & ->)|(_ & m & _ & _ & -> & _)]; done).
  destruct (exchanged_sends peer s _ _ _ _ _ _ _ Hex ltac:(in_classes)) as (ms & Hs & Ho & Hal & Hnp & Hv).
  exists a, ms; split; [done|split; [exact Hnp|split; [exact Hs|]]].
  destruct Ho as [->|(m & -> & Hm)].
  - split; [constructor|split; [done|split; [done|]]]; intros y Hy; destruct (Hv y Hy) as [? _]; done.
  - split; [apply Forall_singleton; split; [exact Hm|apply Forall_singleton; exact Hal]|].
    split; [done|split; [done|]]; intros y Hy; split; [eauto|].
    destruct (Hv y Hy) as (_ & _ & _ & resp & ? & ?); exists resp; split; assumption.
Qed.

Lemma streamEvents_runs w : is_ID (w_intentID w) -> forall n imported ch st,
  runs (streamEvents peer ends err_text s x n imported w ch) st
    (streaming ends swap_body swap_last (swap_poll w) imported n ch st).
Proof.
  intros Hi; induction n as [|n IH]; intros imported ch st; cbn [streamEvents].
  { apply runs_ret, streaming_open, swap_body_nil. }
  apply runs_bind, runs_ctx; cbn [continue]; destruct (ends (tick st)) eqn:He.
  { apply runs_ret; eapply (streaming_stop _ _ _ _ swap_body_nil);
      [apply sends_tick_r, sends_nil|constructor|done]. }
  apply runs_bind; eapply runs_mono; [apply swap_poll_runs, Hi|].
  intros a st1 (r & ms & -> & Hnp & Hs & Hp & Hl & Ht & Hy); cbn [continue].
  assert (Hs' : sends st st1 ms) by exact Hs; clear Hs; simpl in Ht.
  destruct r as [y|err|]; [|eapply streaming_last; eauto using swap_body_nil; [lia|left; eauto]|done].
  destruct (Hy y eq_refl) as ((m & ->) & Hrep); 
  assert (Hq : quiet ends st st1)
    by (intros j Hj; rewrite Ht in Hj; assert (j = tick st) as -> by lia; done).
  destruct (Z.eqb_spec (is_Phase y) PhaseMatching).
  { apply (streaming_round_if _ _ _ _ swap_body_nil imported true n _ _ _ _ _ _ m); try done; [apply Forall_singleton, Hp|lia|..].
    - destruct imported; [constructor|right; exists []; split; [done|constructor]].
    - intros evs' He'; pose proof (swap_body_matched imported (is_MatchedOut y) evs' He') as Hb.
      destruct imported; exact Hb. }
  assert (Hlen : len [m] <= Z.of_nat (S n)) by lia.
  destruct (Z.eqb_spec (is_Phase y) PhaseCommitted).
  { apply (streaming_last _ _ _ _ swap_body_nil _ _ _ _ _ _ [m]);
      [exact Hs'|exact Hp|done|right; exists y; done]. }
  destruct (is_Phase y =? PhaseRejected).
  { apply (streaming_last _ _ _ _ swap_body_nil _ _ _ _ _ _ [m]);
      [exact Hs'|exact Hp|done|left; eauto]. }
  pose proof (streaming_idle ends swap_body swap_last (swap_poll w) imported imported n ch [] st st1 m
    watchPollCadence (streamEvents peer ends err_text s x n imported w ch)) as H.
  rewrite app_nil_r in H; apply H; auto using swap_body_nil; [apply Forall_singleton, Hp|lia].
Qed.
End swap_stream.

Section route_stream.
Context (peer : list Message -> option (list byte)) (ends : nat -> bool).
Context (err_text : dex_error -> list byte) (s : clientSession) (x : V4RouteSession).

(** The peer answers the last of the messages [h] with status [y]. *)
Definition route_reports (h : list Message) (y : RouteStatus) : Prop :=
  exists resp, replies peer h resp /\ readRouteStatus resp = Ret y.

Definition route_event (t : V4MsgType) (est hop : Z) (ref : DExportRef) (reason : list byte) : V4Event :=
  event t (Route_SessionID x) (ro_intentID x) est hop ref reason.

(** Hop events behind hop [last]: a hop is started once, in increasing order,
    and filled only after it or a later one was started; none has a pointer. *)
Inductive hops : Z -> list V4Event -> Prop :=
| hops_nil last : hops last []
| hops_started last i evs :
    last < i -> hops i evs -> hops last (route_event V4_ROUTE_HOP_STARTED 0 i DExportRef_zero [] :: evs)
| hops_filled last i est evs :
    i <= last -> hops last evs ->
    hops last (route_event V4_ROUTE_HOP_FILLED est i DExportRef_zero [] :: evs).

(** The last event: an error, the export of a route reported as committed, or the
    refund of one reported as refunded. *)
Definition route_last (st : St) (ev : V4Event) : Prop :=
  (exists reason, ev = error_event (Route_SessionID x) (ro_intentID x) reason)
  \/ exists y, route_reports (sent st) y
     /\ ((rs_Phase y = RouteCommitted
          /\ ev = route_event V4_ROUTE_D_EXPORT_READY (rs_FinalOut y) 0
                    (rebind (rs_Ref y) (ro_intentID x)) [])
         \/ (rs_Phase y = RouteRefunded
             /\ ev = route_event V4_ROUTE_REFUND_READY (rs_FinalOut y) 0
                       (rebind (rs_Ref y) (ro_intentID x)) (rs_Reason y))).

(** A poll of [w], by a session whose capability authorizes it at [g]. *)
Definition route_poll (w : RouteWatch) (g : grants) (m : Message) : Prop :=
  buildRouteWatchPoll (rw_intentID w) = Ret (Ok m)
  /\ exists r, rw_session w = Some r /\ authorizeSelf (ro_cap r) g AuthWatch = Ok tt.

Lemma route_poll_runs w st :
  is_ID (rw_intentID w) ->
  runs (RouteWatch_Poll peer w) st (fun r st' => exists ms, r <> Pending
    /\ sends st st' ms /\ Forall (route_poll w (tbl st)) ms /\ len ms <= 1 /\ tick st' = tick st
    /\ forall y, r = Value y -> (exists m, ms = [m]) /\ route_reports (sent st') y
         /\ typed RouteStatus_env y).
Proof.
  intros Hi; eapply runs_mono; [apply (RouteWatch_Poll_runs peer s), Hi|].
  intros a st' [(-> & e & ->)|(Hh & m & Hb & -> & Ha)].
  { exists []; split_and!; try done; apply sends_nil. }
  exists [m]; assert (Hm : Forall (route_poll w (tbl st)) [m]) by (apply Forall_singleton; split; done).
  destruct Ha as [->|(resp & u & Hr & Hu & -> & Ht & _)].
  - split; [done|split; [apply sends_one|split; [exact Hm|split; [done|split; [done|done]]]]].
  - split; [done|split; [apply sends_one|split; [exact Hm|split; [done|split; [done|]]]]].
    intros y [= <-]; split; [eauto|split; [exists resp; split; assumption|assumption]].
Qed.

Lemma streamRoute_runs w : is_ID (rw_intentID w) -> forall n last ch st,
  runs (streamRoute peer ends err_text x n last w ch) st
    (streaming ends hops route_last (route_poll w (tbl st)) last n ch st).
Proof.
  intros Hi; induction n as [|n IH]; intros last ch st; cbn [streamRoute].
  { apply runs_ret, streaming_open; constructor. }
  apply runs_bind, runs_ctx; cbn [continue]; destruct (ends (tick st)) eqn:He.
  { apply runs_ret; eapply (streaming_stop _ _ _ _ hops_nil);
      [apply sends_tick_r, sends_nil|constructor|done]. }
  apply runs_bind, runs_spawn; eapply runs_mono; [apply route_poll_runs, Hi|].
  intros r st1 (ms & Hnp & Hs & Hp & Hl & Ht & Hy); cbn [continue].
  assert (Hs' : sends st st1 ms) by exact Hs; clear Hs; simpl in Ht, Hp.
  destruct r as [y|err|]; [|eapply streaming_last; eauto using hops_nil; [lia|left; eauto]|done].
  destruct (Hy y eq_refl) as ((m & ->) & Hrep & _).
  assert (Hq : quiet ends st st1)
    by (intros j Hj; rewrite Ht in Hj; assert (j = tick st) as -> by lia; done).
  assert (Hg : tbl st1 = tbl st) by apply Hs'.
  assert (Hlen : len [m] <= Z.of_nat (S n)) by lia.
  assert (Hm : route_poll w (tbl st) m) by apply Forall_singleton, Hp.
  assert (HIH : forall last st2 ch, tbl st2 = tbl st1 -> runs (streamRoute peer ends err_text x n last w ch)
    st2 (streaming ends hops route_last (route_poll w (tbl st)) last n ch st2))
    by (intros last' st2 ch' E; rewrite <- Hg, <- E; apply IH).
  destruct (Z.eqb_spec (rs_Phase y) RouteHopping).
  { apply (streaming_round_if _ _ _ _ hops_nil last (if last <? rs_HopIndex y then rs_HopIndex y else last)
      n _ _ _ _ _ _ m); try done; [lia|..].
    - destruct (Z.ltb_spec last (rs_HopIndex y)); repeat constructor; done.
    - intros evs' He'; destruct (Z.ltb_spec last (rs_HopIndex y)); cbn [app];
        repeat constructor; done || lia.
    - intros st2 ch' E; apply HIH; done. }
  destruct (Z.eqb_spec (rs_Phase y) RouteCommitted).
  { apply (streaming_last _ _ _ _ hops_nil _ _ _ _ _ _ [m]); [exact Hs'|exact Hp|done|right; eauto 6]. }
  destruct (Z.eqb_spec (rs_Phase y) RouteRefunded).
  { apply (streaming_last _ _ _ _ hops_nil _ _ _ _ _ _ [m]); [exact Hs'|exact Hp|done|right; eauto 6]. }
  destruct (rs_Phase y =? RouteRejected).
  { apply (streaming_last _ _ _ _ hops_nil _ _ _ _ _ _ [m]); [exact Hs'|exact Hp|done|left; eauto]. }
  pose proof (streaming_idle ends hops route_last (route_poll w (tbl st)) last last n ch [] st st1 m
    watchPollCadence (streamRoute peer ends err_text x n last w ch)) as H.
  rewrite app_nil_r in H; apply H; auto using hops_nil; lia.
Qed.
End route_stream.

Section route_final.
Context (peer : list Message -> option (list byte)) (ends : nat -> bool) (s : clientSession).

(** What the loop of a route watch sends and resolves to; while it is pending it
    has not seen the context end. *)
Definition finalized (w : RouteWatch) (n : nat) (st : St) (a : answer DExportRef) (st' : St) : Prop :=
  exists ms, sends st st' ms /\ len ms <= Z.of_nat n /\ Forall (route_poll w (tbl st)) ms
    /\ (forall ref, a = Value ref -> exists y, ms <> [] /\ route_reports peer (sent st') y
          /\ (rs_Phase y = RouteCommitted \/ rs_Phase y = RouteRefunded)
          /\ typed RouteStatus_env y /\ ref = rebind (rs_Ref y) (rw_intentID w))
    /\ (a = Pending -> (tick st + 2 * n <= tick st')%nat /\ quiet ends st st').

Lemma finalized_fail w n st e st' ms :
  sends st st' ms -> len ms <= Z.of_nat n -> Forall (route_poll w (tbl st)) ms ->
  finalized w n st (Fail e) st'.
Proof. intros Hs Hl Hp; exists ms; split; [done|split; [done|split; [done|done]]]. Qed.

Lemma streamUntilFinal_runs w : is_ID (rw_intentID w) -> forall n b st,
  runs (streamUntilFinal peer ends n b w) st (finalized w n st).
Proof.
  intros Hi; induction n as [|n IH]; intros b st; cbn [streamUntilFinal].
  { eexists _, _; split; [reflexivity|]; exists []; split; [apply sends_nil|].
    split; [done|split; [constructor|split; [done|]]]; intros _; split; [lia|apply quiet_nil]. }
  apply runs_bind, runs_ctx; cbn [continue]; destruct (ends (tick st)) eqn:He.
  { apply runs_fail; eapply finalized_fail; [apply sends_tick_r, sends_nil|done|constructor]. }
  apply runs_bind; eapply runs_mono; [apply (route_poll_runs peer s), Hi|].
  intros r st1 (ms & Hnp & Hs & Hp & Hl & Ht & Hy); cbn [continue].
  assert (Hs' : sends st st1 ms) by exact Hs; clear Hs; simpl in Ht, Hp.
  assert (Hl' : len ms <= Z.of_nat (S n)) by lia.
  destruct r as [y|err|]; [|eapply finalized_fail; eauto|done]; cbn [continue].
  destruct (Hy y eq_refl) as ((m & ->) & Hrep & Hty).
  destruct ((rs_Phase y =? RouteCommitted) || (rs_Phase y =? RouteRefunded)) eqn:Hph.
  { apply orb_true_iff in Hph; rewrite !Z.eqb_eq in Hph; apply runs_ret; exists [m].
    split; [exact Hs'|split; [exact Hl'|split; [exact Hp|split; [|done]]]].
    intros ref [= <-]; exists y; split; [done|split; [exact Hrep|split; [exact Hph|split; [exact Hty|done]]]]. }
  destruct (rs_Phase y =? RouteRejected); [apply runs_fail; eapply finalized_fail; eauto|].
  apply runs_bind, runs_sleep; cbn [continue]; destruct (ends (tick st1)) eqn:He1; cbn [negb].
  { apply runs_fail, (finalized_fail _ _ _ _ _ [m]); [exact Hs'|exact Hl'|exact Hp]. }
  eapply runs_mono; [apply IH|]; intros a st2 (ms & Hs2 & Hl2 & Hp2 & Hv2 & Hpd2).
  assert (Hg : tbl st1 = tbl st) by apply Hs'.
  exists (m :: ms); split; [apply (sends_trans st st1 st2 [m] ms); done|].
  split; [rewrite len_cons; lia|split; [|split]].
  - constructor; [apply Forall_singleton, Hp|simpl in Hp2; rewrite Hg in Hp2; exact Hp2].
  - intros ref Hr; destruct (Hv2 ref Hr) as (z & _ & Hz); exists z; split; [done|exact Hz].
  - intros Hpe; destruct (Hpd2 Hpe) as [Ht2 Hq2]; simpl in Ht2; split; [lia|]; intros j Hj.
    destruct (decide (j = tick st)) as [->|]; [done|]; destruct (decide (j = S (tick st))) as [->|].
    + rewrite <- Ht; done.
    + apply Hq2; simpl; lia.
Qed.
End route_final.

(** ** Quote streams *)

Section quote_stream.
Context (peer : list Message -> option (list byte)) (ends : nat -> bool).
Context (err_text : dex_error -> list byte) (s : clientSession) (x : V4StateSession).

Definition quote_update (ev : V4Event) : Prop :=
  exists est, ev = event V4_STATE_QUOTE_UPDATE (State_SessionID x) ZeroID est 0 DExportRef_zero [].

Definition quote_last (_ : St) (ev : V4Event) : Prop :=
  exists reason, ev = error_event (State_SessionID x) ZeroID reason.

Definition quote_poll (am : Z) (z : bool) (m : Message) : Prop :=
  buildQuoteRequest (mkQuoteRequest (ss_marketID x) am z) = Ret (Ok m) /\ allowed s m.

Lemma quote_loop_runs am z : is_ID (ss_marketID x) -> 0 <= am < 2 ^ 64 -> forall n ch st,
  runs (quote_loop peer ends err_text s x n am z ch) st
    (streaming ends (fun _ => Forall quote_update) quote_last (quote_poll am z) tt n ch st).
Proof.
  intros Hi Ham; set (body := fun _ : unit => Forall quote_update).
  assert (Hb0 : forall b, body b []) by (intros; constructor).
  induction n as [|n IH]; intros ch st; cbn [quote_loop].
  { apply runs_ret, streaming_open, Hb0. }
  apply runs_bind, runs_spawn; eapply runs_mono;
    [apply (Quote_runs peer s (mkQuoteRequest (ss_marketID x) am z)); cbn; split_and!; lia || done|].
  intros a st1 Hex; assert (Htick : tick st1 = tick st)
    by (destruct Hex as [(_ & _ & ->)|(_ & m & _ & _ & -> & _)]; done).
  destruct (exchanged_sends peer s _ _ _ _ _ _ _ Hex ltac:(in_classes)) as (ms & Hs & Ho & Hal & Hnp & Hv).
  assert (Hp : Forall (quote_poll am z) ms /\ len ms <= 1).
  { destruct Ho as [->|(m & -> & Hm)]; [split; [constructor|done]|split; [|done]].
    apply Forall_singleton; split; [exact Hm|apply Forall_singleton; exact Hal]. }
  destruct Hp as [Hp Hl]; cbn [continue].
  apply runs_bind, runs_spawn, runs_Await; cbn [continue].
  destruct (ends (tick st1)) eqn:E.
  { eapply (streaming_last ends body _ _ Hb0); [apply sends_tick_r; exact Hs|exact Hp|lia|eexists; done]. }
  destruct a as [qr|err|]; [|eapply (streaming_last ends body _ _ Hb0);
    [apply sends_tick_r; exact Hs|exact Hp|lia|eexists; done]|done].
  destruct (Hv qr eq_refl) as [Hne _]; destruct Ho as [->|(m & -> & Hm)]; [done|].
  pose proof (streaming_round ends body quote_last (quote_poll am z) Hb0 tt tt n ch []
    (event V4_STATE_QUOTE_UPDATE (State_SessionID x) ZeroID (qRes_AmountOut qr) 0 DExportRef_zero [])
    st (with_tick st1) m watchPollCadence (quote_loop peer ends err_text s x n am z)) as H.
  rewrite app_nil_r in H; apply H; clear H.
  - apply sends_tick_r; exact Hs.
  - apply Forall_singleton, Hp.
  - simpl; lia.
  - apply quiet_tick; [|done]; intros j Hj; lia.
  - constructor.
  - intros evs' He'; constructor; [eexists; done|done].
  - intros st2 _; apply IH.
Qed.
End quote_stream.

(** ** What sessions send *)

Section own_intent.
Context (peer : list Message -> option (list byte)) (ends : nat -> bool) (s : clientSession).

(** At most one message, only when [cap] authorizes [need]; it is built from the
    value of [p], which carries the id [i]. *)
Definition own_message {A B} (cap : scopedCap) (need : Authority) (idOf : A -> ID) (i : ID)
  (p : answer A) (b : A -> outcome (result Message zap_error)) (P : B -> Prop)
  (st : St) (a : answer B) (st' : St) : Prop :=
  exists ms, sends st st' ms /\ Forall (allowed s) ms
    /\ (ms = [] \/ holds cap need st /\ exists y m, p = Value y /\ idOf y = i /\ ms = [m] /\ b y = Ret (Ok m))
    /\ (forall v, a = Value v -> ms <> [] /\ P v).

Lemma own_none {A B} cap need (idOf : A -> ID) i p b P st (a : answer B) st' :
  sends st st' [] -> (forall v, a <> Value v) -> own_message cap need idOf i p b P st a st'.
Proof.
  intros Hs Ha; exists []; split; [done|split; [constructor|split; [by left|]]].
  intros v Hv; destruct (Ha v Hv).
Qed.

(** A guarded stage of a session. *)
Lemma guarded_runs {A B} cap need (idOf : A -> ID) i p b P (fn : answer A -> op B) st :
  (forall g st1, own idOf i p g -> runs (fn g) st1 (fun a st' => exists ms, sends st1 st' ms
     /\ fed g b ms /\ Forall (allowed s) ms /\ forall v, a = Value v -> ms <> [] /\ P v)) ->
  runs (_ ← self cap need; g ← spawn (guarded ends idOf i p); fn g) st
    (own_message cap need idOf i p b P st).
Proof.
  intros Hfn; apply runs_bind, runs_self; cbn [continue].
  - intros Hh; apply runs_bind, runs_spawn, runs_guarded; intros g Hg; cbn [continue].
    eapply runs_mono; [apply Hfn, Hg|]; intros a st' (ms & Hs & Hf & Hal & Hv).
    exists ms; split; [exact Hs|split; [exact Hal|split; [|exact Hv]]].
    destruct Hf as [->|(y & m & -> & -> & Hm)]; [by left|right; split; [exact Hh|]].
    destruct (Hg y eq_refl) as [-> Hid]; exists y, m; auto.
  - intros e _; apply own_none; [apply sends_nil|done].
Qed.

Lemma notify_own_runs cap i p st :
  (forall pi, p = Value pi -> typed (PreparedIntent_env MsgNotify) pi
     /\ env_size (PreparedIntent_env MsgNotify) pi < 2 ^ 31) ->
  runs (_ ← self cap AuthIntent; g ← spawn (guarded ends pi_IntentID i p); NotifyIntent peer ends s g) st
    (own_message cap AuthIntent pi_IntentID i p (fun pi => buildPreparedIntent pi MsgNotify)
       (fun w => is_ID (w_intentID w)) st).
Proof.
  intros Hp; apply guarded_runs; intros g st1 Hg.
  eapply runs_mono; [apply NotifyIntent_runs; intros pi ->; apply Hp, Hg; done|].
  intros a st' (ms & Hs & Hf & Hal & Hv); exists ms; split; [exact Hs|split; [exact Hf|split; [exact Hal|]]].
  intros v Hv'; destruct (Hv v Hv') as (? & u & -> & ?); split; assumption.
Qed.

Lemma import_own_runs cap i p st :
  (forall ref, p = Value ref -> typed_ref ref) ->
  runs (_ ← self cap AuthSettlement; g ← spawn (guarded ends der_IntentID i p);
        ImportSettlement peer ends s g) st
    (own_message cap AuthSettlement der_IntentID i p buildDExportRef
       (typed SettlementSubmitResult_env) st).
Proof.
  intros Hp; apply guarded_runs; intros g st1 Hg.
  eapply runs_mono; [apply ImportSettlement_runs; intros ref ->; apply Hp, Hg; done|].
  intros a st' (ms & Hs & Hf & Hal & Hv); exists ms; split; [exact Hs|split; [exact Hf|split; [exact Hal|]]].
  intros v Hv'; destruct (Hv v Hv') as (? & u & -> & ?); split; assumption.
Qed.

(** The notification of a route carries the route itself. *)
Definition route_notified (x : V4RouteSession) (i : answer PreparedIntent) (st : St)
  (a : answer RouteWatch) (st' : St) : Prop :=
  exists ms, sends st st' ms
    /\ (ms = [] \/ holds (ro_cap x) AuthIntent st /\ exists pi m, i = Value pi
          /\ pi_IntentID pi = ro_intentID x /\ ms = [m] /\ buildRouteRequest (ro_req x) = Ret (Ok m))
    /\ (forall w, a = Value w -> ms <> [] /\ rw_session w = Some x /\ rw_intentID w = ro_intentID x).

Lemma route_notify_runs x i st :
  typed RouteRequest_env (ro_req x) -> env_size RouteRequest_env (ro_req x) < 2 ^ 31 ->
  runs (Route_WriteNotifyCToDExport peer ends x i) st (route_notified x i st).
Proof.
  intros Ht Hsz; unfold Route_WriteNotifyCToDExport; apply runs_bind, runs_self; cbn [continue].
  2: { intros e _; exists []; split; [apply sends_nil|split; [by left|done]]. }
  assert (Hno : forall a, (forall w, a <> Value w) -> route_notified x i st a (with_tick st)).
  { intros a Ha; exists []; split; [apply sends_tick_r, sends_nil|split; [by left|]].
    intros w Hw; destruct (Ha w Hw). }
  intros Hh; apply runs_thenAsync; destruct (ends (tick st)); [apply Hno; done|].
  destruct i as [pi|e|]; [|apply Hno; done..]; cbn [continue].
  case_bool_decide as Hid; cbn [negb]; [|apply runs_fail, Hno; done].
  apply runs_bind, (runs_built RouteRequest_env); [exact Ht|exact Hsz|]; intros d Hb _ _; cbn [continue].
  assert (Hyes : forall a, (forall w, a = Value w -> rw_session w = Some x /\ rw_intentID w = ro_intentID x) ->
    route_notified x (Value pi) st a (with_sent (with_tick st) (WrapBuffer d))).
  { intros a Ha; exists [WrapBuffer d]; split; [apply sends_tick, sends_one|split].
    - right; split; [exact Hh|]; exists pi, (WrapBuffer d); split; [done|split; [done|split; [done|exact Hb]]].
    - intros w Hw; split; [done|auto]. }
  apply runs_bind, runs_Call; cbn [continue]; [apply Hyes; done|].
  intros m _; apply runs_ret, Hyes; intros w [= <-]; done.
Qed.
End own_intent.

(** ** Closing *)

Lemma authorizeSelf_core cap g need c :
  core cap = Some c -> authorizeSelf cap g need = Ok tt -> checkGrant g (tok c) need = Ok tt.
Proof.
  unfold authorizeSelf, authorizeScoped, authorize; intros ->; case_bool_decide; [done|].
  destruct (permits (core_bits c) need); cbn [negb]; [|done].
  destruct (checkGrant g (tok c) need) as [[]|]; done.
Qed.

(** A revoked token authorizes nothing. *)
Lemma checkGrant_revoked g t need : checkGrant (Revoke t g) t need <> Ok tt.
Proof.
  intros (b & Hl & _)%checkGrant_Ok; revert Hl.
  change (Revoke t g) with (apply_event 0 g (ERevoke t)); rewrite lookup_revoke.
  destruct (g !! t); done.
Qed.

Lemma Close_runs cap c st Q :
  core cap = Some c -> Q (Value tt) (with_tbl st (Revoke (tok c) (tbl st))) -> runs (Close cap) st Q.
Proof. intros Hc HQ; exists (Value tt); eexists; unfold Close; rewrite Hc; split; [reflexivity|exact HQ]. Qed.
