(* ===== verification/DexV4Spec.v ===== *)
(** * DexV4Spec: what the sessions of single actions promise

    Opening a session (one token, one scope), what its id binds, whom it acts for,
    the grammar of its event streams, closing, and a swap session from end to end,
    over the definitions of [DexV4]. *)

From S2P Require Import Prelude Wire Builder BuilderSpec Roundtrip Envelope Sha256.
From S2P Require Import DexWire DexCall DexCap DexSession DexV4.
From stdpp Require Import gmap.
Local Open Scope Z_scope.

(** ** Opening a session *)

Inductive action : Type :=
| ASwap (req : SwapIntentRequest)
| ARoute (req : RouteRequest)
| ALiquidity (req : LiquidityRequest)
| ACollect (req : CollectRequest)
| ACancel (req : CollectRequest)
| AState (account : Account) (marketID : ID).

Definition typed_liquidity (r : LiquidityRequest) : Prop :=
  0 <= lr_NetworkID r < 2 ^ 32 /\ is_ID (lr_CChainID r) /\ is_ID (lr_DChainID r)
  /\ is_Account (lr_Account r) /\ is_ID (lr_MarketID r)
  /\ - 2 ^ 31 <= lr_TickLower r < 2 ^ 31 /\ - 2 ^ 31 <= lr_TickUpper r < 2 ^ 31
  /\ - 2 ^ 63 <= lr_LiquidityDelta r < 2 ^ 63 /\ is_ID (lr_Salt r) /\ is_ID (lr_AssetIn r)
  /\ 0 <= lr_AmountIn r < 2 ^ 64 /\ 0 <= lr_CallIndex r < 2 ^ 32.

Definition typed_collect (r : CollectRequest) : Prop :=
  0 <= cr_NetworkID r < 2 ^ 32 /\ is_ID (cr_CChainID r) /\ is_ID (cr_DChainID r)
  /\ is_Account (cr_Account r) /\ is_ID (cr_MarketID r)
  /\ - 2 ^ 31 <= cr_TickLower r < 2 ^ 31 /\ - 2 ^ 31 <= cr_TickUpper r < 2 ^ 31
  /\ - 2 ^ 63 <= cr_LiquidityDelta r < 2 ^ 63 /\ is_ID (cr_Salt r) /\ is_ID (cr_AssetOut r)
  /\ 0 <= cr_CallIndex r < 2 ^ 32.

Definition typed_action (a : action) : Prop :=
  match a with
  | ASwap r => typed SwapIntentRequest_env r
  | ARoute r => typed RouteRequest_env r /\ len (rr_Path r) < 2 ^ 32
  | ALiquidity r => typed_liquidity r
  | ACollect r | ACancel r => typed_collect r
  | AState account marketID => is_Account account /\ is_ID marketID
  end.

Section opening.
Context (rng : nat -> token) (s : clientSession).

(** The capability an opened session is given. *)
Definition open_cap (v : V4PrecompileSession) (a : action) : op scopedCap :=
  match a with
  | ASwap r => x ← OpenSwap rng s v r; mret (sw_cap x)
  | ARoute r => x ← OpenRoute rng s v r; mret (ro_cap x)
  | ALiquidity r => x ← OpenModifyLiquidity rng s v r; mret (lp_cap x)
  | ACollect r => x ← OpenCollect rng s v r; mret (co_cap x)
  | ACancel r => x ← OpenCancel rng s v r; mret (co_cap x)
  | AState account marketID => x ← OpenState rng s v account marketID; mret (ss_cap x)
  end.

Definition action_bits (a : action) : Authority :=
  match a with
  | ASwap _ | ARoute _ | ACollect _ | ACancel _ => Z.lor (Z.lor AuthIntent AuthWatch) AuthSettlement
  | ALiquidity _ => Z.lor AuthIntent AuthWatch
  | AState _ _ => AuthQuote
  end.

(** What is hashed for an action: its pool or path, its parameters and the
    identity of its intent; nothing when it cannot be opened. *)
Definition action_inputs (a : action) : option (list byte * list byte * list byte) :=
  match a with
  | ASwap r =>
      pk ← market s (sir_MarketID r);
      Some (pool_input pk, swap_params_input true (sir_AmountIn r),
            intent_input (sir_NetworkID r) (sir_CChainID r) (sir_DChainID r) (sir_Account r)
              (sir_AssetIn r) (sir_AmountIn r) (sir_MarketID r) (sir_Nonce r))
  | ARoute r =>
      first ← firstMarket r; _ ← market s first;
      Some (route_path_input (rr_Path r), swap_params_input true (rr_AmountIn r),
            intent_input (rr_NetworkID r) (rr_CChainID r) (rr_DChainID r) (rr_Account r)
              (rr_AssetIn r) (rr_AmountIn r) first (rr_CallIndex r))
  | ALiquidity r =>
      if lr_LiquidityDelta r <=? 0 then None else
      pk ← market s (lr_MarketID r);
      Some (pool_input pk,
            lp_params_input (lr_TickLower r) (lr_TickUpper r) (lr_LiquidityDelta r) (lr_Salt r),
            intent_input (lr_NetworkID r) (lr_CChainID r) (lr_DChainID r) (lr_Account r)
              (lr_AssetIn r) (lr_AmountIn r) (lr_MarketID r) (lr_CallIndex r))
  | ACollect r | ACancel r =>
      if 0 <=? cr_LiquidityDelta r then None else
      pk ← market s (cr_MarketID r);
      Some (pool_input pk,
            lp_params_input (cr_TickLower r) (cr_TickUpper r) (cr_LiquidityDelta r) (cr_Salt r),
            intent_input (cr_NetworkID r) (cr_CChainID r) (cr_DChainID r) (cr_Account r)
              (cr_AssetOut r) 0 (cr_MarketID r) (cr_CallIndex r))
  | AState _ marketID => pk ← market s marketID; Some (pool_input pk, [], [])
  end.

Definition digest (x : list byte) : ID := to_array 32 (sha256 x).

Definition action_account (a : action) : Account :=
  match a with
  | ASwap r => sir_Account r | ARoute r => rr_Account r | ALiquidity r => lr_Account r
  | ACollect r | ACancel r => cr_Account r | AState account _ => account
  end.

Definition action_kind (a : action) : V4Action :=
  match a with
  | ASwap _ => ActionSwap | ARoute _ => ActionRoute | ALiquidity _ => ActionModifyLiquidity
  | ACollect _ => ActionCollect | ACancel _ => ActionCancel | AState _ _ => ActionState
  end.

(** The scope an action is confined to; a read has neither parameters nor an
    intent. *)
Definition action_scope (v : V4PrecompileSession) (a : action) : option V4ActionScope :=
  '(pool, params, intent) ← action_inputs a;
  let h x := match a with AState _ _ => ZeroID | _ => digest x end in
  Some (scopeFor v (action_kind a) (action_account a) (digest pool) (h params) (h intent)).

(** The answers of an opening from [st]. *)
Definition opened (v : V4PrecompileSession) (a : action) (st : St)
  (r : answer scopedCap) (st' : St) : Prop :=
  match action_scope v a with
  | None => (exists e, r = Fail e) /\ st' = st
  | Some sc =>
      if negb (permits (cs_grant s) (action_bits a)) then r = Fail ErrNoAuthority /\ st' = st else
      let t := rng (drawn st) in
      sent st' = sent st /\ drawn st' = S (drawn st) /\
      if bool_decide (t = zero_token) then r = Fail ErrNoAuthority /\ tbl st' = tbl st else
      r = Value (newScopedCap (mkCapCore t (action_bits a)) sc)
      /\ tbl st' = <[t := mkGrant (action_bits a) false]> (tbl st)
  end.

Lemma mint_runs b sc st :
  runs (mint rng s b sc) st (fun r st' =>
    if negb (permits (cs_grant s) b) then r = Fail ErrNoAuthority /\ st' = st else
    let t := rng (drawn st) in
    sent st' = sent st /\ drawn st' = S (drawn st) /\
    if bool_decide (t = zero_token) then r = Fail ErrNoAuthority /\ tbl st' = tbl st else
    r = Value (newScopedCap (mkCapCore t b) sc) /\ tbl st' = <[t := mkGrant b false]> (tbl st)).
Proof.
  unfold mint, issuing; apply runs_bind, (runs_mono _ _ (fun r st' =>
    if negb (permits (cs_grant s) b) then r = Fail ErrNoAuthority /\ st' = st else
    let t := rng (drawn st) in
    sent st' = sent st /\ drawn st' = S (drawn st) /\
    if bool_decide (t = zero_token) then r = Fail ErrNoAuthority /\ tbl st' = tbl st else
    r = Value (mkCapCore t b) /\ tbl st' = <[t := mkGrant b false]> (tbl st))).
  - unfold runs; destruct (permits (cs_grant s) b) eqn:Hp; cbn [negb].
    + unfold issue; rewrite Hp; cbn [negb]; case_bool_decide as Ht; cbn [fst snd];
        eexists _, _; split; try reflexivity; done.
    + eexists _, _; split; [reflexivity|done].
  - intros r st'; destruct (permits (cs_grant s) b); cbn [negb]; [|intros [-> ->]; cbn [continue]; done].
    cbn zeta; case_bool_decide; intros (Hs & Hd & -> & Ht); cbn [continue]; [done|]; apply runs_ret; done.
Qed.

Ltac open_scope :=
  unfold action_scope, action_inputs;
  repeat (match goal with H : _ = _ |- _ => rewrite H end; cbn [mbind option_bind]);
  unfold digest, zeroForOneFor, DerivePoolKeyHash, DeriveSwapParamsHash, DeriveRoutePathHash,
    DeriveLiquidityParamsHash, DeriveIntentID;
  reflexivity.

Lemma open_cap_runs v a st : runs (open_cap v a) st (opened v a st).
Proof.
  assert (Hcap : forall {X} (b : Authority) sc (mk : scopedCap -> X) (prj : X -> scopedCap),
    (forall c, prj (mk c) = c) -> b = action_bits a -> action_scope v a = Some sc ->
    runs (x ← (cap ← mint rng s b sc; mret (mk cap)); mret (prj x)) st (opened v a st)).
  { intros X b sc mk prj Hprj -> Hsc; do 2 apply runs_bind; eapply runs_mono; [apply mint_runs|].
    intros r st'; unfold opened; rewrite Hsc; destruct (permits _ _); cbn [negb]; [|intros [-> ->]; cbn [continue]; done].
    cbn zeta; case_bool_decide; intros (Hs & Hd & -> & Ht); cbn [continue]; [done|].
    apply runs_ret; cbn [continue]; apply runs_ret; rewrite Hprj; done. }
  assert (Hno : forall {X} e (prj : X -> scopedCap), action_scope v a = None ->
    runs (x ← fail e; mret (prj x)) st (opened v a st)).
  { intros X e prj Hsc; apply runs_bind, runs_fail; cbn [continue]; unfold opened; rewrite Hsc; eauto. }
  destruct a as [r|r|r|r|r|account mk]; cbn [open_cap].
  all: unfold OpenSwap, OpenRoute, OpenModifyLiquidity, OpenCollect, OpenCancel, openRemoval, OpenState.
  all: cbn [cr_LiquidityDelta cr_MarketID].
  - destruct (market s (sir_MarketID r)) as [pk|] eqn:Hm; [|apply Hno; open_scope].
    eapply Hcap; [done|done|open_scope].
  - destruct (firstMarket r) as [first|] eqn:Hf; [|apply Hno; open_scope].
    destruct (market s first) as [pk|] eqn:Hm; [|apply Hno; open_scope].
    eapply Hcap; [done|done|open_scope].
  - destruct (lr_LiquidityDelta r <=? 0) eqn:Hd; [apply Hno; open_scope|].
    destruct (market s (lr_MarketID r)) as [pk|] eqn:Hm; [|apply Hno; open_scope].
    eapply Hcap; [done|done|open_scope].
  - destruct (0 <=? cr_LiquidityDelta r) eqn:Hd; [apply Hno; open_scope|].
    destruct (market s (cr_MarketID r)) as [pk|] eqn:Hm; [|apply Hno; open_scope].
    eapply Hcap; [done|done|open_scope].
  - destruct (0 <=? cr_LiquidityDelta r) eqn:Hd; [apply Hno; open_scope|].
    destruct (market s (cr_MarketID r)) as [pk|] eqn:Hm; [|apply Hno; open_scope].
    eapply Hcap; [done|done|open_scope].
  - destruct (market s mk) as [pk|] eqn:Hm; [|apply Hno; open_scope].
    eapply Hcap; [done|done|open_scope].
Qed.
End opening.

(** ** What a session id binds *)

Section binding.
Context (s : clientSession) (v v' : V4PrecompileSession).
Hypothesis Hmk : markets_typed s.

Definition typed_v4 (v : V4PrecompileSession) : Prop :=
  0 <= v_netID v < 2 ^ 32 /\ is_ID (v_cChain v) /\ is_ID (v_dChain v) /\ is_Account (v_addr v).

(** Two actions that agree on everything their session id is taken of. *)
Definition same_action (a a' : action) : Prop :=
  match a, a' with
  | ASwap r, ASwap r' =>
      (sir_NetworkID r, sir_CChainID r, sir_DChainID r, sir_Account r, sir_AssetIn r, sir_AmountIn r,
       sir_MarketID r, sir_Nonce r)
      = (sir_NetworkID r', sir_CChainID r', sir_DChainID r', sir_Account r', sir_AssetIn r',
         sir_AmountIn r', sir_MarketID r', sir_Nonce r')
  | ARoute r, ARoute r' =>
      (rr_NetworkID r, rr_CChainID r, rr_DChainID r, rr_Account r, rr_AssetIn r, rr_AmountIn r,
       rr_Path r, rr_CallIndex r)
      = (rr_NetworkID r', rr_CChainID r', rr_DChainID r', rr_Account r', rr_AssetIn r', rr_AmountIn r',
         rr_Path r', rr_CallIndex r')
  | ALiquidity r, ALiquidity r' => r = r'
  | ACollect r, ACollect r' | ACancel r, ACancel r' =>
      (cr_NetworkID r, cr_CChainID r, cr_DChainID r, cr_Account r, cr_MarketID r, cr_TickLower r,
       cr_TickUpper r, cr_LiquidityDelta r, cr_Salt r, cr_AssetOut r, cr_CallIndex r)
      = (cr_NetworkID r', cr_CChainID r', cr_DChainID r', cr_Account r', cr_MarketID r', cr_TickLower r',
         cr_TickUpper r', cr_LiquidityDelta r', cr_Salt r', cr_AssetOut r', cr_CallIndex r')
  | AState account mk, AState account' mk' =>
      account = account' /\ market s mk = market s mk'
  | _, _ => False
  end.

(** Two of the byte strings hashed for [a] and [a'] collide. *)
Definition inputs_collide (a a' : action) : Prop :=
  exists pool params intent pool' params' intent',
    action_inputs s a = Some (pool, params, intent)
    /\ action_inputs s a' = Some (pool', params', intent')
    /\ (collides sha256 pool pool' \/ collides sha256 params params' \/ collides sha256 intent intent').

Lemma len_digest x : len (digest x) = 32.
Proof. apply len_to_array; lia. Qed.

Lemma digest_eq x y : digest x = digest y -> x = y \/ collides sha256 x y.
Proof. unfold digest; rewrite !to_array_id by apply len_sha256; apply hash_eq. Qed.

Lemma action_scope_typed v0 a sc :
  typed_v4 v0 -> typed_action a -> action_scope s v0 a = Some sc -> typed_scope sc.
Proof.
  intros (Hn & Hc & Hd & Ha) Ht; unfold action_scope.
  destruct (action_inputs s a) as [[[pool params] intent]|]; cbn [mbind option_bind]; [|done].
  intros [= <-]; unfold typed_scope; cbn.
  pose proof (fun x => len_digest x : is_ID (digest x)) as Hdg.
  split; [done|split; [done|split; [done|split; [done|split; [|split; [apply Hdg|split]]]]]].
  - destruct a; cbn in Ht |- *; unfold typed_liquidity, typed_collect in Ht; destruct_and? Ht; done.
  - destruct a; apply Hdg || done.
  - destruct a; apply Hdg || done.
Qed.

Lemma action_kind_typed a a' : action_kind a = action_kind a' ->
  match a, a' with
  | ASwap _, ASwap _ | ARoute _, ARoute _ | ALiquidity _, ALiquidity _ | ACollect _, ACollect _
  | ACancel _, ACancel _ | AState _ _, AState _ _ => True
  | _, _ => False
  end.
Proof. destruct a, a'; done. Qed.

Lemma some3_inj {A B C} (x x' : A) (y y' : B) (z z' : C) :
  Some (x, y, z) = Some (x', y', z') -> x = x' /\ y = y' /\ z = z'.
Proof. intros [= -> -> ->]; done. Qed.

Lemma collect_inputs_inj r r' i :
  typed_collect r -> typed_collect r' ->
  action_inputs s (ACollect r) = Some i -> action_inputs s (ACollect r') = Some i ->
  same_action (ACollect r) (ACollect r').
Proof.
  intros Ht Ht'; cbn [action_inputs same_action].
  destruct (0 <=? cr_LiquidityDelta r), (0 <=? cr_LiquidityDelta r'); try done.
  destruct (market s (cr_MarketID r)); cbn [mbind option_bind]; [|done]; intros <-.
  destruct (market s (cr_MarketID r')); cbn [mbind option_bind]; [|done]; intros (_ & Hp & Hi)%some3_inj.
  unfold typed_collect in *; destruct_and? Ht; destruct_and? Ht'.
  apply intent_input_inj in Hi; try done || lia; apply lp_params_inj in Hp; try done; congruence.
Qed.

(** The inputs of two actions of one kind determine the actions. *)
Lemma action_inputs_inj a a' i :
  typed_action a -> typed_action a' -> action_kind a = action_kind a' ->
  action_account a = action_account a' ->
  action_inputs s a = Some i -> action_inputs s a' = Some i -> same_action a a'.
Proof.
  intros Ht Ht' Hk Hac; destruct a as [r|r|r|r|r|ac mk], a' as [r'|r'|r'|r'|r'|ac' mk']; try done.
  all: cbn [action_inputs same_action action_account] in *; cbn in Ht, Ht'.
  - destruct (market s (sir_MarketID r)); cbn [mbind option_bind]; [|done]; intros <-.
    destruct (market s (sir_MarketID r')); cbn [mbind option_bind]; [|done]; intros (_ & _ & Hi)%some3_inj.
    destruct_and? Ht; destruct_and? Ht'; apply intent_input_inj in Hi; done || lia || congruence.
  - destruct Ht as [(? & ? & ? & ? & ? & ? & ? & Ht & ? & ? & ? & ?) Hl].
    destruct Ht' as [(? & ? & ? & ? & ? & ? & ? & Ht' & ? & ? & ? & ?) Hl'].
    destruct (firstMarket r) as [f|] eqn:Ef; cbn [mbind option_bind]; [|done].
    destruct (firstMarket r') as [f'|] eqn:Ef'; cbn [mbind option_bind]; [|done].
    assert (is_ID f) by (unfold firstMarket in Ef; apply head_Some in Ef as (l & Ef); rewrite Ef in Ht; apply Forall_cons in Ht as [? _]; done).
    assert (is_ID f') by (unfold firstMarket in Ef'; apply head_Some in Ef' as (l & Ef'); rewrite Ef' in Ht'; apply Forall_cons in Ht' as [? _]; done).
    destruct (market s f), (market s f'); cbn [mbind option_bind]; try done; intros <-.
    intros (Hp & _ & Hi)%some3_inj; apply route_path_inj in Hp; try done.
    apply intent_input_inj in Hi; done || lia || congruence.
  - destruct (lr_LiquidityDelta r <=? 0), (lr_LiquidityDelta r' <=? 0); try done.
    destruct (market s (lr_MarketID r)); cbn [mbind option_bind]; [|done]; intros <-.
    destruct (market s (lr_MarketID r')); cbn [mbind option_bind]; [|done]; intros (_ & Hp & Hi)%some3_inj.
    destruct r, r'; unfold typed_liquidity in *; cbn in *; destruct_and? Ht; destruct_and? Ht'.
    apply intent_input_inj in Hi; try done || lia; apply lp_params_inj in Hp; try done; congruence.
  - eapply collect_inputs_inj; eauto.
  - eapply collect_inputs_inj; eauto.
  - destruct (market s mk) as [pk|] eqn:E; cbn [mbind option_bind]; [|done]; intros <-.
    destruct (market s mk') as [pk'|] eqn:E'; cbn [mbind option_bind]; [|done].
    intros (Hp & _)%some3_inj; split; [done|f_equal]; apply pool_input_inj; eauto.
Qed.

Lemma scopeFor_inj w w' k ac p q i k' ac' p' q' i' :
  Some (scopeFor w k ac p q i) = Some (scopeFor w' k' ac' p' q' i') ->
  w = w' /\ k = k' /\ ac = ac' /\ p = p' /\ q = q' /\ i = i'.
Proof. destruct w, w'; intros [= -> -> -> -> -> -> -> -> ->]; done. Qed.

Lemma session_id_binds a a' sc sc' :
  typed_v4 v -> typed_v4 v' -> typed_action a -> typed_action a' ->
  action_scope s v a = Some sc -> action_scope s v' a' = Some sc' ->
  DeriveSessionID sc = DeriveSessionID sc' ->
  (v = v' /\ same_action a a') \/ inputs_collide a a' \/ collides sha256 (scope_input sc) (scope_input sc').
Proof.
  intros Hv Hv' Ht Ht' Hs Hs' Hid.
  pose proof (action_scope_typed v a sc Hv Ht Hs); pose proof (action_scope_typed v' a' sc' Hv' Ht' Hs').
  unfold DeriveSessionID in Hid; rewrite !to_array_id in Hid by apply len_sha256.
  apply hash_eq in Hid as [Hid|]; [|auto]; apply scope_input_inj in Hid as <-; [|assumption..].
  unfold action_scope in Hs, Hs'.
  destruct (action_inputs s a) as [[[pool params] intent]|] eqn:E; cbn [mbind option_bind] in Hs; [|done].
  destruct (action_inputs s a') as [[[pool' params'] intent']|] eqn:E'; cbn [mbind option_bind] in Hs'; [|done].
  rewrite <- Hs' in Hs; clear Hs'; apply scopeFor_inj in Hs as (-> & Hk & Hac & Hpool & Hpar & Hint).
  assert (Hin : (pool, params, intent) = (pool', params', intent') \/ inputs_collide a a').
  { assert (Hc : collides sha256 pool pool' \/ collides sha256 params params' \/ collides sha256 intent intent' ->
      inputs_collide a a') by (intros; exists pool, params, intent, pool', params', intent'; done).
    apply digest_eq in Hpool as [<-|]; [|auto].
    assert (Hd : digest params = digest params' -> digest intent = digest intent' ->
      (pool, params, intent) = (pool, params', intent') \/ inputs_collide a a').
    { intros Hp Hi; apply digest_eq in Hp as [<-|]; [|auto]; apply digest_eq in Hi as [<-|]; auto. }
    destruct a, a'; try discriminate Hk; cbn [action_inputs] in E, E'; try (apply Hd; assumption).
    left; destruct (market s marketID), (market s marketID0); cbn in E, E'; try done.
    apply some3_inj in E as (_ & <- & <-), E' as (_ & <- & <-); done. }
  destruct Hin as [Hin|]; [|auto]; left; split; [done|].
  eapply action_inputs_inj; eauto; rewrite E'; congruence.
Qed.
End binding.

(** ** Properties *)

(** Opening a session hands out exactly one capability, for exactly one
    action. Opening fails, and draws nothing, when the action cannot be opened
    (unknown market, empty path, delta of the wrong sign) or the client session
    lacks the authority it takes; otherwise one token is drawn, entered in the
    grant table with the action's authority (no settlement for a commit, quotes
    only for reads), and bound to the scope of the action. The new capability
    authorizes exactly that authority. No message is sent. *)
Theorem v4_open_exact rng s v a st :
  runs (open_cap rng s v a) st (fun r st' =>
    opened rng s v a st r st' /\ sent st' = sent st
    /\ forall cap, r = Value cap -> sessionID cap <> ZeroID ->
         forall need, authorizeSelf cap (tbl st') need = Ok tt <-> permits (action_bits a) need = true).
Proof.
  eapply runs_mono; [apply open_cap_runs|]; intros r st' Ho; split; [exact Ho|]; unfold opened in Ho.
  destruct (action_scope s v a) as [sc|]; [|destruct Ho as [[e ->] ->]; done].
  destruct (permits (cs_grant s) (action_bits a)); cbn [negb] in Ho; [|destruct Ho as [-> ->]; done].
  cbn zeta in Ho; destruct Ho as (Hs & _ & Ho); split; [exact Hs|].
  case_bool_decide; destruct Ho as [-> Ht]; [done|]; intros cap [= <-] Hz need.
  unfold authorizeSelf, authorizeScoped, authorize; cbn [core newScopedCap sessionID scope tok core_bits] in *.
  rewrite bool_decide_eq_false_2 by done; unfold checkGrant; rewrite Ht, lookup_insert_eq; cbn [revoked bits].
  destruct (permits (action_bits a) need); cbn [negb]; [|done]; rewrite bool_decide_eq_true_2 by done; done.
Qed.


(** C33: a session acts for its own intent only. In any environment, a
    notification through a swap, liquidity or removal session carries a prepared
    intent with the session's intent id, a notification through a route session
    carries the session's own route, and a settlement through a swap, route or
    removal session names an export with the session's intent id; each is one
    message at most, and only when the session's capability authorizes it. *)
Theorem v4_own_intent_only peer ends s sw ro lp co i ref st :
  (forall pi, i = Value pi -> typed (PreparedIntent_env MsgNotify) pi
     /\ env_size (PreparedIntent_env MsgNotify) pi < 2 ^ 31) ->
  (forall r, ref = Value r -> typed_ref r) ->
  typed RouteRequest_env (ro_req ro) -> env_size RouteRequest_env (ro_req ro) < 2 ^ 31 ->
  let notify (cap : scopedCap) (intentID : ID) : answer IntentWatch -> St -> Prop :=
    own_message s cap AuthIntent pi_IntentID intentID i (fun pi => buildPreparedIntent pi MsgNotify)
      (fun w => is_ID (w_intentID w)) st in
  let settle (cap : scopedCap) (intentID : ID) : answer SettlementSubmitResult -> St -> Prop :=
    own_message s cap AuthSettlement der_IntentID intentID ref buildDExportRef
      (typed SettlementSubmitResult_env) st in
  runs (Swap_WriteNotifyCToDExport peer ends s sw i) st (notify (sw_cap sw) (sw_intentID sw))
  /\ runs (Liquidity_WriteNotifyCToDExport peer ends s lp i) st (notify (lp_cap lp) (lp_intentID lp))
  /\ runs (WriteNotify peer ends s co i) st (notify (co_cap co) (co_intentID co))
  /\ runs (Route_WriteNotifyCToDExport peer ends ro i) st (route_notified ro i st)
  /\ runs (Swap_WritePrepareCSettlement peer ends s sw ref) st (settle (sw_cap sw) (sw_intentID sw))
  /\ runs (Route_WritePrepareCSettlement peer ends s ro ref) st (settle (ro_cap ro) (ro_intentID ro))
  /\ runs (Collect_WritePrepareCSettlement peer ends s co ref) st (settle (co_cap co) (co_intentID co)).
Proof.
  intros Hi Hr Ht Hsz notify settle; unfold notify, settle.
  split; [apply notify_own_runs, Hi|split; [apply notify_own_runs, Hi|split; [apply notify_own_runs, Hi|]]].
  split; [apply route_notify_runs; assumption|].
  split; [apply import_own_runs, Hr|split; apply import_own_runs, Hr].
Qed.

(** Event streams keep their grammar, whatever the peer answers. A swap
    stream is empty or one D_IMPORTED followed by MATCHED events; a route stream
    is hop events with strictly increasing HOP_STARTED indices, each HOP_FILLED at
    or below the last started hop; a quote stream is quote updates. At most one
    last event follows, with which the channel is closed: an error, or a pointer
    (rebound to this session's intent) that the peer's last reply reported as
    committed or refunded; no other event has a pointer. Every event carries the
    session's ids, every round sends one poll, and a channel that is still open
    has used all its polls without seeing the context end. *)
Theorem v4_stream_grammar peer ends err_text s sw ro q n w rw am z st :
  is_ID (w_intentID w) -> is_ID (rw_intentID rw) -> is_ID (ss_marketID q) -> 0 <= am < 2 ^ 64 ->
  runs (Swap_ReadStream peer ends err_text s sw n w) st
    (streaming ends (swap_body sw) (swap_last peer sw) (swap_poll s w) false n [] st)
  /\ runs (Route_ReadStream peer ends err_text ro n rw) st
       (streaming ends (hops ro) (route_last peer ro) (route_poll rw (tbl st)) (-1) n [] st)
  /\ runs (StreamQuotes peer ends err_text s q n am z) st
       (streaming ends (fun _ => Forall (quote_update q)) (quote_last q) (quote_poll s q am z) tt n [] st).
Proof.
  assert (Hrefused : forall B (body : B -> list V4Event -> Prop) (last : St -> V4Event -> Prop) poll b ev,
    body b [] -> last st ev -> streaming ends body last poll b n [] st (Value (true, [ev])) st).
  { intros B body last poll b ev Hb Hl; exists true, [], [ev], []; split; [done|].
    split; [apply sends_nil|split; [constructor|split; [unfold len; simpl; lia|split; [exact Hb|split]]]].
    - right; eauto.
    - done. }
  intros Hw Hrw Hq Ham; split; [|split].
  - unfold Swap_ReadStream, runs; destruct (authorizeSelf _ _ _); [apply streamEvents_runs, Hw|].
    eexists _, _; split; [reflexivity|]; apply Hrefused; [apply swap_body_nil|left; eauto].
  - unfold Route_ReadStream, runs; destruct (authorizeSelf _ _ _); [apply (streamRoute_runs peer ends err_text s), Hrw|].
    eexists _, _; split; [reflexivity|]; apply Hrefused; [apply hops_nil|left; eauto].
  - unfold StreamQuotes, runs; destruct (authorizeSelf _ _ _); [apply quote_loop_runs; assumption|].
    eexists _, _; split; [reflexivity|]; apply Hrefused; [constructor|eexists; done].
Qed.

(** A route resolves to the one pointer D reported, and stops with its
    context. In any environment, waiting for the final export of a route makes at
    most the polls it was allowed, each authorized by the capability of the
    watch's session; a value is the pointer of the status in the peer's last reply,
    which was committed or refunded, rebound to the watched intent; and as long as
    nothing was resolved, the context was not seen to end. *)
Theorem route_final_pointer peer ends x n w st j :
  is_ID (rw_intentID w) -> ends j = true -> (tick st <= j < tick st + 2 * n)%nat ->
  runs (OnFinalExport peer ends x n w) st (fun a st' =>
    finalized peer ends w n st a st' /\ a <> Pending).
Proof.
  intros Hi Hj Hn; unfold OnFinalExport; apply runs_bind, runs_self; cbn [continue].
  - intros _; eapply runs_mono; [apply (streamUntilFinal_runs peer ends (mkClientSession 0 (fun _ => None))), Hi|].
    intros a st' Hf; split; [exact Hf|]; intros ->; destruct Hf as (ms & _ & _ & _ & _ & Hp).
    destruct (Hp eq_refl) as [Ht Hq]; rewrite (Hq j) in Hj by lia; done.
  - intros e _; split; [|done]; apply (finalized_fail _ _ _ _ _ _ _ []);
      [apply sends_nil|unfold len; simpl; lia|constructor].
Qed.

(** Closing is final. After a session is closed, whatever other tokens are
    issued and revoked later, its capability authorizes nothing, so that none of
    its gated operations sends anything; a route watch of the session, too, is
    refused at once. *)
Theorem v4_close_final peer s cap c st :
  core cap = Some c ->
  runs (Close cap) st (fun a st' => a = Value tt /\ sent st' = sent st
    /\ forall h st2, tbl st2 = foldl (apply_event (cs_grant s)) (tbl st') h ->
         (forall b e, e ∈ h -> ~ hands_out (cs_grant s) (tok c) b e) ->
         (forall need, exists e, self cap need st2 = Ret (Fail e, st2))
         /\ forall w x, rw_session w = Some x -> ro_cap x = cap ->
              exists e, RouteWatch_Poll peer w st2 = Ret (Fail e, st2)).
Proof.
  intros Hc; apply (Close_runs cap c); [exact Hc|]; split; [done|split; [done|]].
  intros h st2 Ht Hh; assert (Hno : forall need, exists e, self cap need st2 = Ret (Fail e, st2)).
  { intros need; unfold self; destruct (authorizeSelf cap (tbl st2) need) as [[]|e] eqn:E; [|eexists; done].
    apply (authorizeSelf_core cap _ _ c Hc), checkGrant_Ok in E as (b & Hl & _); rewrite Ht in Hl.
    apply run_quiet in Hl; [done|exact Hh|]; intros b'; cbn [tbl with_tbl].
    change (Revoke (tok c) (tbl st)) with (apply_event 0 (tbl st) (ERevoke (tok c))).
    rewrite lookup_revoke; destruct (tbl st !! tok c); done. }
  split; [exact Hno|]; intros w x Hw <-; destruct (Hno AuthWatch) as (e & He).
  exists e; unfold RouteWatch_Poll; rewrite Hw; unfold mbind, op_bind; rewrite He; done.
Qed.

(** A swap's watch outlives its session. After a swap session is closed, its
    watch still polls the peer: the check of the watch is against the grant of the
    client session and not against the capability that was retired, although the
    comment on [Close] says that no further operation may use it. *)
Theorem swap_watch_outlives_close peer s x c w st :
  core (sw_cap x) = Some c -> w_session w = true -> is_ID (w_intentID w) ->
  permits (cs_grant s) AuthWatch = true ->
  runs (_ ← Close (sw_cap x); Poll peer s w) st (fun a st' =>
    ~ holds (sw_cap x) AuthWatch st' /\ exists m, buildWatchPollRequest (w_intentID w) = Ret (Ok m)
      /\ sent st' = sent st ++ [m]).
Proof.
  intros Hc Hw Hi Hg; apply runs_bind, (Close_runs _ c); [exact Hc|]; cbn [continue].
  eapply runs_mono; [apply Poll_runs, Hi|].
  intros a st' [(Hn & _)|[(Hn & _)|(_ & m & Hb & _ & -> & _)]]; [congruence|congruence|split].
  - unfold holds; intros E; apply (authorizeSelf_core _ _ _ c Hc) in E.
    destruct (checkGrant_revoked _ _ _ E).
  - exists m; split; [exact Hb|done].
Qed.

(** ** A swap from end to end *)

(** The stages of a run: at most one quote, the notification of the session's
    intent, polls, one settlement of the session's intent, one more quote. *)
Definition run_trace (peer : list Message -> option (list byte)) (s : clientSession)
  (x : V4SwapSession) (n : nat) (st st' : St) (f : FlowStages) : Prop :=
  exists qs ns ps ms qs', sends st st' (qs ++ ns ++ ps ++ ms ++ qs')
    /\ Forall (allowed s) (qs ++ ns ++ ps ++ ms ++ qs')
    /\ len qs <= 1 /\ len qs' <= 1 /\ len ps <= Z.of_nat n
    /\ (ns = [] \/ holds (sw_cap x) AuthIntent st /\ exists pi m, fs_Intent f = Value pi
          /\ pi_IntentID pi = sw_intentID x /\ ns = [m] /\ buildPreparedIntent pi MsgNotify = Ret (Ok m))
    /\ (ms = [] \/ holds (sw_cap x) AuthSettlement st /\ exists w y m, fs_Watch f = Value w
          /\ w_intentID w = sw_intentID x /\ reports peer (sent st ++ qs ++ ns ++ ps) y
          /\ is_Phase y = PhaseCommitted /\ ms = [m]
          /\ buildDExportRef (rebind (is_Ref y) (sw_intentID x)) = Ret (Ok m)).

Section swap_run.
Context (peer : list Message -> option (list byte)) (ends : nat -> bool) (s : clientSession).
Context (x : V4SwapSession).

Lemma at_most_one_len b ms : at_most_one b ms -> len ms <= 1.
Proof. intros [->|(m & -> & _)]; unfold len; simpl; lia. Qed.

Lemma swap_prepare_runs st :
  typed SwapIntentRequest_env (sw_req x) ->
  runs (Swap_WritePrepareIntent peer ends s x) st (fun a st' =>
    exists ms, sends st st' ms /\ Forall (allowed s) ms /\ len ms <= 1
      /\ ((exists e, a = Fail e) \/ exists q, 0 <= q < 2 ^ 64 /\ a = prepare_answer s (sw_req x) q)).
Proof.
  intros Ht; unfold Swap_WritePrepareIntent; apply runs_bind, runs_self; cbn [continue].
  - intros _; eapply runs_mono; [apply PrepareSwapIntent_runs, Ht|].
    intros a st' (q & ms & -> & Hq & Hs & Ho & Hal); exists ms; split; [exact Hs|].
    split; [exact Hal|split; [apply (at_most_one_len _ _ Ho)|eauto]].
  - intros e _; exists []; split; [apply sends_nil|split; [constructor|split; [done|eauto]]].
Qed.

Lemma swap_committed_runs n i st :
  (forall w, i = Value w -> is_ID (w_intentID w)) ->
  runs (thenAsync ends i (fun w => p ← Swap_OnExportReady peer ends s x n w; Await ends p)) st
    (committing peer s n i st).
Proof.
  intros Hi; destruct (authorizeSelf (sw_cap x) (tbl st) AuthWatch) as [[]|e] eqn:E.
  - destruct (committed_runs peer ends s n i st Hi) as (a & st' & Hr & Hc); exists a, st'; split; [|exact Hc].
    rewrite <- Hr; unfold thenAsync, Await, mbind, op_bind, ctx_ended; destruct (ends (tick st)); [done|].
    destruct i as [w| |]; [|done..]; unfold Swap_OnExportReady; cbn [tbl]; rewrite E; done.
  - apply runs_thenAsync; destruct (ends (tick st)).
    { apply committing_none; [apply sends_tick_r, sends_nil|done]. }
    destruct i as [w|e'|]; [|apply committing_none; [apply sends_tick_r, sends_nil|done]..].
    cbn [continue]; apply runs_bind; unfold Swap_OnExportReady.
    exists (Value (Fail e)), (with_tick st); cbn [tbl with_tick]; rewrite E; split; [done|].
    cbn [continue]; apply runs_Await, committing_none; [do 2 apply sends_tick_r; apply sends_nil|].
    intros ref; case_match; done.
Qed.
End swap_run.

(** C12: a run of a swap session settles the session's own intent or nothing. In
    any environment, a run notifies the prepared intent only under the session's
    intent id, and asks for a settlement only if the watch the peer gave tracks
    that same id and the reply to the last poll reported it committed; the
    settlement then names the reported export under the session's intent id. The
    run terminates, never panics, and leaves the grant table as it was. *)
Theorem swap_run_settles_own peer ends s x n st :
  typed SwapIntentRequest_env (sw_req x) -> markets_typed s -> is_ID (sw_intentID x) ->
  runs (Swap_Run peer ends s x n) st (fun a st' => exists f, a = Value f /\ run_trace peer s x n st st' f).
Proof.
  intros Ht Hm Hid; unfold Swap_Run; apply runs_bind, runs_spawn.
  eapply runs_mono; [apply swap_prepare_runs, Ht|]; intros i st1 (qs & Hs1 & Ha1 & Hl1 & Hi); cbn [continue].
  assert (Hti : forall pi, i = Value pi -> typed (PreparedIntent_env MsgNotify) pi
     /\ env_size (PreparedIntent_env MsgNotify) pi < 2 ^ 31).
  { intros pi ->; destruct Hi as [(e & Hi)|(q & Hq & Hi)]; [discriminate Hi|]; revert Hi.
    unfold prepare_answer; repeat case_match; try discriminate; intros [= ->].
    apply prepared_typed; [exact Ht|eapply Hm; eauto|exact Hq]. }
  apply runs_bind, runs_spawn; eapply runs_mono; [apply notify_own_runs, Hti|].
  intros w st2 (ns & Hs2 & Ha2 & Hn2 & Hv2); cbn [continue].
  apply runs_bind, runs_spawn; eapply runs_mono; [apply swap_committed_runs; intros w' Hw'; apply (Hv2 w' Hw')|].
  intros c st3 (ps & Hs3 & Hl3 & Ha3 & _ & Hv3); cbn [continue].
  apply runs_bind, runs_spawn; eapply runs_mono; [apply import_own_runs|].
  { intros ref Hr; destruct (Hv3 ref Hr) as (w' & y & Hw' & _ & Hy & _ & ->).
    eapply rebind_typed; [exact Hy|apply (Hv2 w' Hw')]. }
  intros e st4 (ms & Hs4 & Ha4 & Hm4 & _); cbn [continue].
  apply runs_bind, runs_spawn; eapply runs_mono;
    [apply (Quote_runs peer s (quote_of (sw_req x))), quote_of_typed, Ht|].
  intros q st5 Hex; cbn [continue]; apply runs_ret; eexists; split; [done|].
  destruct (exchanged_sends peer s _ _ _ _ _ _ _ Hex ltac:(in_classes)) as (qs' & Hs5 & Ho5 & Ha5 & _).
  assert (Hsent : sent st3 = sent st ++ qs ++ ns ++ ps).
  { destruct Hs1 as (E0 & _), Hs2 as (E1 & _), Hs3 as (E2 & _); rewrite E2, E1, E0, !app_assoc; done. }
  assert (Htb : tbl st1 = tbl st /\ tbl st3 = tbl st).
  { destruct Hs1 as (_ & E0 & _), Hs2 as (_ & E1 & _), Hs3 as (_ & E2 & _); split; congruence. }
  exists qs, ns, ps, ms, qs'; cbn [fs_Intent fs_Watch].
  split; [repeat (eapply sends_trans; [eassumption|]); exact Hs5|].
  split; [repeat (apply Forall_app; split); assumption|].
  split; [exact Hl1|split; [apply (at_most_one_len _ _ Ho5)|split; [exact Hl3|]]].
  unfold holds in *; destruct Htb as [Hb1 Hb3]; rewrite Hb1 in Hn2; rewrite Hb3 in Hm4; split; [exact Hn2|].
  destruct Hm4 as [->|(Hh & ref & m & Hr & Hi' & -> & Hb)]; [by left|right; split; [exact Hh|]].
  destruct (Hv3 ref Hr) as (w' & y & Hw' & _ & Hy & Hph & ->); cbn [der_IntentID rebind] in Hi'.
  exists w', y, m; rewrite <- Hsent, <- Hi'; split; [exact Hw'|split; [done|split; [exact Hy|]]].
  split; [exact Hph|split; [done|exact Hb]].
Qed.

(** What a session asks the wallet to sign is its own action. Without asking
    any peer, a route session prepares a swap on the path's entry market for
    exactly the requested amount, a liquidity session an addition and a removal
    session a removal of exactly the requested position change; an ABI reader gets
    the pool, the ticks, the delta and the salt back, and the hook data carries the
    deadline and the call index. The intent id is the session's. *)
Theorem v4_prepared_is_own_action s ro lp co pk st :
  typed RouteRequest_env (ro_req ro) -> market s (ro_entry ro) = Some pk -> typed_pool pk ->
  rr_AmountIn (ro_req ro) <> 0 -> rr_Path (ro_req ro) <> [] ->
  typed_liquidity (lp_req lp) -> typed_pool (lp_pk lp) ->
  - 2 ^ 23 <= lr_TickLower (lp_req lp) < 2 ^ 23 -> - 2 ^ 23 <= lr_TickUpper (lp_req lp) < 2 ^ 23 ->
  typed_collect (co_req co) -> typed_pool (co_pk co) ->
  - 2 ^ 23 <= cr_TickLower (co_req co) < 2 ^ 23 -> - 2 ^ 23 <= cr_TickUpper (co_req co) < 2 ^ 23 ->
  holds (ro_cap ro) AuthIntent st -> holds (lp_cap lp) AuthIntent st -> holds (co_cap co) AuthIntent st ->
  runs (Route_WritePrepareIntent s ro) st (fun a st' => st' = st /\ exists pi, a = Value pi
    /\ decode_swap (pi_Calldata pi) = Some (pk, true, - rr_AmountIn (ro_req ro), 0, pi_HookData pi)
    /\ decode_hook (pi_HookData pi)
       = Some (IntentHook (rr_Deadline (ro_req ro)) (rr_CallIndex (ro_req ro)))
    /\ pi_To pi = addr9999 /\ pi_IntentID pi = ro_intentID ro)
  /\ runs (WritePrepareCommit lp) st (fun a st' => st' = st /\ exists pi, a = Value pi
       /\ decode_modifyLiquidity (pi_Calldata pi) = Some (lp_pk lp,
            mkModifyLiquidityArgs (lr_TickLower (lp_req lp)) (lr_TickUpper (lp_req lp))
              (lr_LiquidityDelta (lp_req lp)) (lr_Salt (lp_req lp)), pi_HookData pi)
       /\ decode_hook (pi_HookData pi) = Some (IntentHook 0 (lr_CallIndex (lp_req lp)))
       /\ pi_To pi = addr9999 /\ pi_IntentID pi = lp_intentID lp)
  /\ runs (WriteRequest co) st (fun a st' => st' = st /\ exists pi, a = Value pi
       /\ decode_modifyLiquidity (pi_Calldata pi) = Some (co_pk co,
            mkModifyLiquidityArgs (cr_TickLower (co_req co)) (cr_TickUpper (co_req co))
              (cr_LiquidityDelta (co_req co)) (cr_Salt (co_req co)), pi_HookData pi)
       /\ decode_hook (pi_HookData pi) = Some (IntentHook 0 (cr_CallIndex (co_req co)))
       /\ pi_To pi = addr9999 /\ pi_IntentID pi = co_intentID co).
Proof.
  intros Hro Hmk Hpk Ham Hpath Hlp Hlpk Hl1 Hl2 Hco Hcpk Hc1 Hc2 Hh1 Hh2 Hh3.
  assert (Hself : forall (cap : scopedCap) {A} (k : op A) Q, holds cap AuthIntent st -> runs k st Q ->
    runs (_ ← self cap AuthIntent; k) st Q).
  { intros cap A k Q Hh Hk; apply runs_bind, runs_self; cbn [continue]; [done|].
    intros e He; unfold holds in Hh; rewrite Hh in He; discriminate He. }
  cbn in Hro; unfold typed_liquidity in Hlp; unfold typed_collect in Hco.
  destruct_and? Hro; destruct_and? Hlp; destruct_and? Hco; split; [|split]; apply Hself; try assumption.
  - unfold prepareRouteLocal; rewrite (proj2 (Z.eqb_neq _ _) Ham).
    replace (len (rr_Path (ro_req ro)) =? 0) with false
      by (symmetry; apply Z.eqb_neq; destruct (rr_Path (ro_req ro)); [done|rewrite len_cons; pose proof (len_nonneg l); lia]).
    rewrite Hmk; apply runs_ret; split; [done|]; eexists; split; [reflexivity|].
    pose proof (len_intent_hook (rr_Deadline (ro_req ro)) (rr_CallIndex (ro_req ro))).
    cbn [pi_Calldata pi_HookData pi_To pi_IntentID]; split; [apply swap_decodes; assumption || lia|].
    split; [apply intent_hook_decodes; lia|done].
  - apply runs_ret; split; [done|]; eexists; split; [reflexivity|].
    pose proof (len_intent_hook 0 (lr_CallIndex (lp_req lp))).
    cbn [pi_Calldata pi_HookData pi_To pi_IntentID]; split; [apply modify_decodes; assumption || (cbn; lia)|].
    split; [apply intent_hook_decodes; lia|done].
  - apply runs_ret; split; [done|]; eexists; split; [reflexivity|].
    pose proof (len_intent_hook 0 (cr_CallIndex (co_req co))).
    cbn [pi_Calldata pi_HookData pi_To pi_IntentID]; split; [apply modify_decodes; assumption || (cbn; lia)|].
    split; [apply intent_hook_decodes; lia|done].
Qed.

(** ** Witnesses *)

Definition sample_v4 : V4PrecompileSession :=
  NewV4PrecompileSession 1 (rep 32 Byte.x0c) (rep 32 Byte.x0d) ZeroAccount.

(** The same swap with another floor and another deadline. *)
Definition sample_request' : SwapIntentRequest :=
  mkSwapIntentRequest 1 (rep 32 Byte.x0c) (rep 32 Byte.x0d) (rep 20 Byte.x01) ZeroID (zeros 20)
    1000 (rep 32 Byte.x04) 1 (rep 20 Byte.x02) 78 5.

Definition sample_swap_scope : V4ActionScope :=
  scopeFor sample_v4 ActionSwap (rep 20 Byte.x01) (DerivePoolKeyHash sample_pool)
    (DeriveSwapParamsHash true 1000) sample_intent.

Lemma sample_v4_typed : typed_v4 sample_v4.
Proof. unfold typed_v4, is_ID, is_Account, len; simpl; lia. Qed.


(** The value and the state an operation ended in. *)
Definition value_of {A} (x : outcome (answer A * St)) : option (A * St) :=
  match x with Ret (Value a, st) => Some (a, st) | _ => None end.

Definition sample_core : capCore :=
  mkCapCore (rep 32 Byte.x07) (Z.lor (Z.lor AuthIntent AuthWatch) AuthSettlement).

Definition sample_cap : scopedCap := newScopedCap sample_core sample_swap_scope.

Definition sample_swap : V4SwapSession := mkV4SwapSession sample_cap sample_request sample_intent.

(** A state in which the capability is live. *)
Definition st_open : St :=
  with_tbl st0 {[ tok sample_core := mkGrant (core_bits sample_core) false ]}.

Definition sample_route : V4RouteSession :=
  mkV4RouteSession sample_cap
    (mkRouteRequest 1 (rep 32 Byte.x0c) (rep 32 Byte.x0d) (rep 20 Byte.x01) ZeroID (zeros 20) 1000
       [rep 32 Byte.x04; rep 32 Byte.x05] 900 (rep 20 Byte.x01) 77 5)
    watched (rep 32 Byte.x04).

Definition sample_liquidity : V4LiquiditySession :=
  mkV4LiquiditySession sample_cap
    (mkLiquidityRequest 1 (rep 32 Byte.x0c) (rep 32 Byte.x0d) (rep 20 Byte.x01) (rep 32 Byte.x04)
       (-60) 60 500 ZeroID ZeroID 1000 5) sample_pool watched.

Definition sample_collect : V4CollectSession :=
  mkV4CollectSession sample_cap
    (mkCollectRequest 1 (rep 32 Byte.x0c) (rep 32 Byte.x0d) (rep 20 Byte.x01) (rep 32 Byte.x04)
       (-60) 60 (-500) ZeroID ZeroID 6 false) sample_pool watched ActionCollect.

Lemma sample_route_typed : typed RouteRequest_env (ro_req sample_route).
Proof.
  cbn; split_and?; unfold is_ID, is_Account, len; simpl; try lia.
  repeat constructor; unfold is_ID, len; simpl; lia.
Qed.

Definition own_export : DExportRef := mkDExportRef (rep 32 Byte.x0d) (rep 32 Byte.x0e) 3 watched.
Definition own_prepared : PreparedIntent := prepared sample_request sample_pool 990.

Lemma Value_inj {A} (x y : A) : Value x = Value y -> x = y.
Proof. intros [= ->]; done. Qed.

Lemma v4_own_intent_only_witness :
  runs (Swap_WriteNotifyCToDExport sample_peer never sample_session sample_swap (Value own_prepared)) st_open
    (own_message sample_session (sw_cap sample_swap) AuthIntent pi_IntentID (sw_intentID sample_swap)
       (Value own_prepared)
       (fun pi => buildPreparedIntent pi MsgNotify) (fun w => is_ID (w_intentID w)) st_open)
  /\ (fun r => length (sent r.2)) <$> value_of (Swap_WriteNotifyCToDExport sample_peer never
       sample_session sample_swap (Value own_prepared) st_open) = Some 1%nat.
Proof.
  split; [|vm_compute; reflexivity].
  refine (proj1 (v4_own_intent_only sample_peer never sample_session sample_swap sample_route
    sample_liquidity sample_collect (Value own_prepared) (Value own_export) st_open _ _
    sample_route_typed _)).
  - intros pi <-%Value_inj; apply (prepared_typed MsgNotify sample_request sample_pool 990);
      [apply sample_typed|apply (proj2 sample_typed (rep 32 Byte.x04)); reflexivity|lia].
  - intros r <-%Value_inj; unfold typed_ref; cbn; unfold is_ID, len; simpl; lia.
  - reflexivity.
Defined.

Lemma v4_stream_grammar_witness :
  runs (Swap_ReadStream poll_peer never (fun _ => []) sample_session sample_swap 3
          (mkIntentWatch true watched)) st_open
    (streaming never (swap_body sample_swap) (swap_last poll_peer sample_swap)
       (swap_poll sample_session (mkIntentWatch true watched)) false 3 [] st_open)
  /\ (fun r => (r.1.1, map ev_Type r.1.2)) <$> value_of (Swap_ReadStream poll_peer never (fun _ => [])
       sample_session sample_swap 3 (mkIntentWatch true watched) st_open)
     = Some (true, [V4_SWAP_D_IMPORTED; V4_SWAP_MATCHED; V4_SWAP_D_EXPORT_READY]).
Proof.
  split; [|vm_compute; reflexivity].
  refine (proj1 (v4_stream_grammar poll_peer never (fun _ => []) sample_session sample_swap sample_route
    (mkV4StateSession sample_cap (rep 32 Byte.x04)) 3 (mkIntentWatch true watched)
    (mkRouteWatch (Some sample_route) watched 2) 1000 true st_open _ _ _ _)); try reflexivity; lia.
Defined.

Lemma route_final_pointer_witness :
  runs (OnFinalExport poll_peer (fun j => (3 <=? j)%nat) sample_route 3
          (mkRouteWatch (Some sample_route) watched 2)) st_open (fun a st' =>
    finalized poll_peer (fun j => (3 <=? j)%nat) (mkRouteWatch (Some sample_route) watched 2) 3
      st_open a st' /\ a <> Pending).
Proof.
  apply (route_final_pointer poll_peer (fun j => (3 <=? j)%nat) sample_route 3
    (mkRouteWatch (Some sample_route) watched 2) st_open 3); [reflexivity|reflexivity|simpl; lia].
Defined.

Lemma v4_close_final_witness :
  runs (Close sample_cap) st_open (fun a st' => a = Value tt /\ exists e,
    RouteWatch_Poll poll_peer (mkRouteWatch (Some sample_route) watched 2) st' = Ret (Fail e, st')).
Proof.
  eapply runs_mono; [apply (v4_close_final poll_peer sample_session sample_cap sample_core st_open eq_refl)|].
  intros a st' (Ha & _ & H); split; [exact Ha|].
  refine (proj2 (H [] st' eq_refl _) (mkRouteWatch (Some sample_route) watched 2) sample_route eq_refl eq_refl).
  intros b e He; destruct (not_elem_of_nil e He).
Defined.

Lemma swap_watch_outlives_close_witness :
  runs (_ ← Close (sw_cap sample_swap); Poll poll_peer sample_session (mkIntentWatch true watched)) st_open
    (fun a st' => ~ holds (sw_cap sample_swap) AuthWatch st' /\ exists m,
       buildWatchPollRequest watched = Ret (Ok m) /\ sent st' = sent st_open ++ [m]).
Proof.
  exact (swap_watch_outlives_close poll_peer sample_session sample_swap sample_core
    (mkIntentWatch true watched) st_open eq_refl eq_refl eq_refl eq_refl).
Defined.

Lemma swap_run_settles_own_witness :
  runs (Swap_Run sample_peer never sample_session sample_swap 4) st_open (fun a st' =>
    exists f, a = Value f /\ run_trace sample_peer sample_session sample_swap 4 st_open st' f)
  /\ (fun r => length (sent r.2)) <$> value_of (Swap_Run sample_peer never sample_session sample_swap 4
        st_open) = Some 7%nat.
Proof.
  split; [|vm_compute; reflexivity].
  apply (swap_run_settles_own sample_peer never sample_session sample_swap 4 st_open
    (proj1 sample_typed) (proj2 sample_typed)).
  apply DeriveIntentID_ID.
Defined.

Lemma v4_prepared_is_own_action_witness :
  runs (Route_WritePrepareIntent sample_session sample_route) st_open (fun a st' => st' = st_open
    /\ exists pi, a = Value pi
    /\ decode_swap (pi_Calldata pi) = Some (sample_pool, true, - 1000, 0, pi_HookData pi)
    /\ decode_hook (pi_HookData pi) = Some (IntentHook 77 5)
    /\ pi_To pi = addr9999 /\ pi_IntentID pi = watched).
Proof.
  assert (Hpk : typed_pool sample_pool) by (apply (proj2 sample_typed (rep 32 Byte.x04)); reflexivity).
  assert (Hh : holds sample_cap AuthIntent st_open) by (vm_compute; reflexivity).
  refine (proj1 (v4_prepared_is_own_action sample_session sample_route sample_liquidity sample_collect
    sample_pool st_open sample_route_typed eq_refl Hpk _ _ _ Hpk _ _ _ Hpk _ _ Hh Hh Hh)).
  1-2: discriminate.
  all: unfold typed_liquidity, typed_collect; cbn; unfold is_ID, is_Account, len; simpl; lia.
Defined.
