(* ===== verification/DexServer.v ===== *)
(** * DexServer: the serving side of the DEX session protocol

    [server.go] and the constructors of [session.go]: the handlers a node
    registers for a venue. A venue is the application's code, a parameter: each
    of its methods answers a request or fails. A venue that changes over time is
    a family of venues, one for each request that is served. *)

From S2P Require Import Prelude Wire Builder BuilderSpec Roundtrip HsLabels HsFrames BufPool NodeWire.
From S2P Require Import NodeLoop Envelope Sha256 DexWire DexCall DexCap DexSession.
From stdpp Require Import gmap.
From Stdlib Require String.
Import String.StringSyntax.
Local Delimit Scope string_scope with string.
Local Open Scope Z_scope.

(** ** Venues *)

(** The interface [RouteVenue]. *)
Record RouteVenue : Type := mkRouteVenue {
  rv_NotifyRoute : RouteRequest -> option IntentWatchRef;
  rv_RouteStatus : ID -> option RouteStatus
}.

(** The interface [Venue]; [ve_route] is what the type assertion for routes
    gives. *)
Record Venue : Type := mkVenue {
  ve_Quote : QuoteRequest -> option QuoteResult;
  ve_State : StateRequest -> option StateResult;
  ve_NotifyIntent : PreparedIntent -> option IntentWatchRef;
  ve_WatchStatus : ID -> option IntentStatus;
  ve_ResolveExport : DExportRef -> option SettlementSubmitResult;
  ve_route : option RouteVenue
}.

(** ** Handlers *)

(** A handler's [return buildX(...)]. *)
Definition returning (x : outcome (result Message zap_error))
  : outcome (result (option Message) unit) :=
  r ← x; Ret (match r with Ok m => Ok (Some m) | Err _ => Err tt end).

Section handlers.
Context (venue : Venue).

Definition handleQuote : Handler := fun _ msg =>
  req ← readQuoteRequest msg;
  match ve_Quote venue req with
  | None =>
      req ← readQuoteRequest msg;
      returning (buildQuoteResult (mkQuoteResult (qReq_MarketID req) 0 0 0 false))
  | Some res => returning (buildQuoteResult res)
  end.

Definition handleGetState : Handler := fun _ msg =>
  req ← readStateRequest msg;
  match ve_State venue req with
  | None =>
      req ← readStateRequest msg;
      returning (buildStateResult (mkStateResult (sReq_Kind req) false ZeroID ZeroID 0 false))
  | Some res => returning (buildStateResult res)
  end.

Definition handleNotify : Handler := fun _ msg =>
  pi ← readPreparedIntent msg;
  match ve_NotifyIntent venue pi with
  | None =>
      pi ← readPreparedIntent msg;
      returning (buildIntentWatchRef (mkIntentWatchRef (pi_IntentID pi)))
  | Some ref => returning (buildIntentWatchRef ref)
  end.

Definition handleWatchPoll : Handler := fun _ msg =>
  intentID ← readWatchPollRequest msg;
  match ve_WatchStatus venue intentID with
  | None =>
      returning (buildIntentStatus (mkIntentStatus intentID PhaseUnknown DExportRef_zero
        (ascii "venue unavailable"%string) 0))
  | Some st =>
      returning (buildIntentStatus (mkIntentStatus intentID (is_Phase st) (is_Ref st)
        (is_Reason st) (is_MatchedOut st)))
  end.

Definition handleImport : Handler := fun _ msg =>
  ref ← readDExportRef msg;
  match ve_ResolveExport venue ref with
  | None =>
      returning (buildSettlementResult (mkSettlementSubmitResult SettleCalldata addr9999 []
        (ObjectKey ref) ZeroID))
  | Some res =>
      returning (buildSettlementResult (mkSettlementSubmitResult (ss_Mode res) addr9999
        (ss_Calldata res) (ObjectKey ref) (ss_CTxHash res)))
  end.

Section routes.
Context (rv : RouteVenue).

(** Without a path the first market is the zero id. *)
Definition handleRoutePrepare : Handler := fun _ msg =>
  req ← readRouteRequest msg;
  match rv_NotifyRoute rv req with
  | None =>
      let first := default ZeroID (firstMarket req) in
      returning (buildIntentWatchRef (mkIntentWatchRef
        (DeriveIntentID (rr_NetworkID req) (rr_CChainID req) (rr_DChainID req) (rr_Account req)
           (rr_AssetIn req) (rr_AmountIn req) first (rr_CallIndex req))))
  | Some ref => returning (buildIntentWatchRef ref)
  end.

Definition handleRouteStatus : Handler := fun _ msg =>
  intentID ← readRouteWatchPoll msg;
  match rv_RouteStatus rv intentID with
  | None =>
      returning (buildRouteStatus (mkRouteStatus intentID RouteUnknown 0 0 0 0 DExportRef_zero
        (ascii "venue unavailable"%string)))
  | Some st =>
      returning (buildRouteStatus (mkRouteStatus intentID (rs_Phase st) (rs_HopIndex st)
        (rs_HopCount st) (rs_HopAmountOut st) (rs_FinalOut st) (rs_Ref st) (rs_Reason st)))
  end.
End routes.

(** [fsn.node.Handle(msgType, handler)] for each operation; routes only for a
    venue that serves them. *)
Definition registerHandlers (handlers : gmap Z Handler) : gmap Z Handler :=
  let handlers := <[MsgQuote := handleQuote]> handlers in
  let handlers := <[MsgGetState := handleGetState]> handlers in
  let handlers := <[MsgNotify := handleNotify]> handlers in
  let handlers := <[MsgWatchPoll := handleWatchPoll]> handlers in
  let handlers := <[MsgImport := handleImport]> handlers in
  match ve_route venue with
  | None => handlers
  | Some rv =>
      let handlers := <[MsgRoutePrepare := handleRoutePrepare rv]> handlers in
      <[MsgRouteStatus := handleRouteStatus rv]> handlers
  end.
End handlers.

(** ** Sessions from a server *)

(** Without a market mapping no market is known. *)
Definition NewSession (grant : Authority) (markets : option (ID -> option PoolKeyArgs)) : clientSession :=
  mkClientSession grant (match markets with Some m => m | None => fun _ => None end).

Record FullServiceNode : Type := mkFullServiceNode {
  fsn_venue : Venue;
  fsn_markets : option (ID -> option PoolKeyArgs);
  fsn_handlers : gmap Z Handler     (** of its node *)
}.

Definition NewFullServiceNode (handlers : gmap Z Handler) (venue : Venue)
  (markets : option (ID -> option PoolKeyArgs)) : FullServiceNode :=
  mkFullServiceNode venue markets (registerHandlers venue handlers).

Definition Bootstrap (fsn : FullServiceNode) (grant : Authority) : clientSession :=
  NewSession grant (fsn_markets fsn).

(** ** What the venue is asked and what the client gets *)

Definition quote_reply (ve : Venue) (q : QuoteRequest) : QuoteResult :=
  default (mkQuoteResult (qReq_MarketID q) 0 0 0 false) (ve_Quote ve q).

Definition state_reply (ve : Venue) (q : StateRequest) : StateResult :=
  default (mkStateResult (sReq_Kind q) false ZeroID ZeroID 0 false) (ve_State ve q).

Definition notify_reply (ve : Venue) (pi : PreparedIntent) : IntentWatchRef :=
  default (mkIntentWatchRef (pi_IntentID pi)) (ve_NotifyIntent ve pi).

(** The status is of the intent that was asked for, whatever the venue says. *)
Definition status_reply (ve : Venue) (i : ID) : IntentStatus :=
  match ve_WatchStatus ve i with
  | None => mkIntentStatus i PhaseUnknown DExportRef_zero (ascii "venue unavailable"%string) 0
  | Some st => mkIntentStatus i (is_Phase st) (is_Ref st) (is_Reason st) (is_MatchedOut st)
  end.

(** The settlement is addressed to 0x9999 and names the object of the reference,
    whatever the venue says. *)
Definition import_reply (ve : Venue) (ref : DExportRef) : SettlementSubmitResult :=
  match ve_ResolveExport ve ref with
  | None => mkSettlementSubmitResult SettleCalldata addr9999 [] (ObjectKey ref) ZeroID
  | Some res => mkSettlementSubmitResult (ss_Mode res) addr9999 (ss_Calldata res) (ObjectKey ref)
                  (ss_CTxHash res)
  end.

Definition route_reply (rv : RouteVenue) (q : RouteRequest) : IntentWatchRef :=
  default (mkIntentWatchRef (DeriveIntentID (rr_NetworkID q) (rr_CChainID q) (rr_DChainID q)
    (rr_Account q) (rr_AssetIn q) (rr_AmountIn q) (default ZeroID (firstMarket q)) (rr_CallIndex q)))
    (rv_NotifyRoute rv q).

Definition route_status_reply (rv : RouteVenue) (i : ID) : RouteStatus :=
  match rv_RouteStatus rv i with
  | None => mkRouteStatus i RouteUnknown 0 0 0 0 DExportRef_zero (ascii "venue unavailable"%string)
  | Some st => mkRouteStatus i (rs_Phase st) (rs_HopIndex st) (rs_HopCount st) (rs_HopAmountOut st)
                 (rs_FinalOut st) (rs_Ref st) (rs_Reason st)
  end.

(** The venue's answers to values are values of their types, and fit a frame. *)
Definition fits {T} (e : Envelope T) (x : T) : Prop := typed e x /\ env_size e x + 8 <= MaxMessage.

Record RouteVenueLaws (rv : RouteVenue) : Prop := {
  rv_notify_fits q ref : typed RouteRequest_env q -> rv_NotifyRoute rv q = Some ref -> fits IntentWatchRef_env ref;
  rv_status_fits i st : is_ID i -> rv_RouteStatus rv i = Some st -> fits RouteStatus_env st
}.

Class VenueLaws (ve : Venue) : Prop := {
  ve_quote_fits q res : typed QuoteRequest_env q -> ve_Quote ve q = Some res -> fits QuoteResult_env res;
  ve_state_fits q res : typed StateRequest_env q -> ve_State ve q = Some res -> fits StateResult_env res;
  ve_notify_fits pi ref :
    typed (PreparedIntent_env MsgNotify) pi -> ve_NotifyIntent ve pi = Some ref -> fits IntentWatchRef_env ref;
  ve_status_fits i st : is_ID i -> ve_WatchStatus ve i = Some st -> fits IntentStatus_env st;
  ve_resolve_fits ref res :
    typed_ref ref -> ve_ResolveExport ve ref = Some res -> fits SettlementSubmitResult_env res;
  ve_route_laws rv : ve_route ve = Some rv -> RouteVenueLaws rv
}.

(** A handler that reads an [e], and answers what it reads with an [r]. *)
Definition handles {T U} (h : Handler) (e : Envelope T) (r : Envelope U) (f : T -> U) : Prop :=
  forall peerID m x, read e m = Ret x -> h peerID m = returning (build r (f x)).

Section handles.
Context (ve : Venue) (rv : RouteVenue).


Lemma handleQuote_handles : handles (handleQuote ve) QuoteRequest_env QuoteResult_env (quote_reply ve).
Proof.
  intros peerID m x Hx; unfold handleQuote, quote_reply; change (readQuoteRequest m = Ret x) in Hx.
  rewrite Hx; cbn [mbind outcome_bind]; destruct (ve_Quote ve x); done.
Qed.

Lemma handleGetState_handles : handles (handleGetState ve) StateRequest_env StateResult_env (state_reply ve).
Proof.
  intros peerID m x Hx; unfold handleGetState, state_reply; change (readStateRequest m = Ret x) in Hx.
  rewrite Hx; cbn [mbind outcome_bind]; destruct (ve_State ve x); done.
Qed.

Lemma handleNotify_handles t :
  handles (handleNotify ve) (PreparedIntent_env t) IntentWatchRef_env (notify_reply ve).
Proof.
  intros peerID m x Hx; unfold handleNotify, notify_reply; change (readPreparedIntent m = Ret x) in Hx.
  rewrite Hx; cbn [mbind outcome_bind]; destruct (ve_NotifyIntent ve x); done.
Qed.

Lemma handleWatchPoll_handles :
  handles (handleWatchPoll ve) WatchPollRequest_env IntentStatus_env (status_reply ve).
Proof.
  intros peerID m x Hx; unfold handleWatchPoll, status_reply; change (readWatchPollRequest m = Ret x) in Hx.
  rewrite Hx; cbn [mbind outcome_bind]; destruct (ve_WatchStatus ve x); done.
Qed.

Lemma handleImport_handles :
  handles (handleImport ve) DExportRef_env SettlementSubmitResult_env (import_reply ve).
Proof.
  intros peerID m x Hx; unfold handleImport, import_reply; change (readDExportRef m = Ret x) in Hx.
  rewrite Hx; cbn [mbind outcome_bind]; destruct (ve_ResolveExport ve x); done.
Qed.

Lemma handleRoutePrepare_handles :
  handles (handleRoutePrepare rv) RouteRequest_env IntentWatchRef_env (route_reply rv).
Proof.
  intros peerID m x Hx; unfold handleRoutePrepare, route_reply; change (readRouteRequest m = Ret x) in Hx.
  rewrite Hx; cbn [mbind outcome_bind]; destruct (rv_NotifyRoute rv x); done.
Qed.

Lemma handleRouteStatus_handles :
  handles (handleRouteStatus rv) RouteWatchPoll_env RouteStatus_env (route_status_reply rv).
Proof.
  intros peerID m x Hx; unfold handleRouteStatus, route_status_reply; change (readRouteWatchPoll m = Ret x) in Hx.
  rewrite Hx; cbn [mbind outcome_bind]; destruct (rv_RouteStatus rv x); done.
Qed.
End handles.

(** ** Serving *)

(** Whatever parses is answered with a message that reads as the reply. *)
Lemma handles_any {T U} (e : Envelope T) (r : Envelope U) `{!EnvelopeLaws e} `{!EnvelopeLaws r}
  h f peerID d m :
  handles h e r f -> (forall x, typed e x -> fits r (f x)) -> Parse d = Ret (Ok m) ->
  exists x d', read e m = Ret x /\ typed e x /\ h peerID m = Ret (Ok (Some (WrapBuffer d')))
    /\ Parse d' = Ret (Ok (WrapBuffer d')) /\ len d' + 8 <= MaxMessage
    /\ read r (WrapBuffer d') = Ret (norm r (f x)).
Proof.
  intros Hh Hf Hp; destruct (env_total (e := e) d m Hp) as (x & Hx & Ht & _).
  destruct (Hf x Ht) as [Htr Hsz].
  destruct (env_roundtrip (e := r) (f x) Htr) as (d' & Hb & Hp' & Hl & _ & Hr);
    [unfold MaxMessage in Hsz; lia|].
  exists x, d'; rewrite (Hh peerID m x Hx), Hb, Hl; split_and!; auto.
Qed.

Section fits.
Context (ve : Venue) `{!VenueLaws ve}.

Ltac fits := split; [cbn; unfold is_ID, is_Account; split_and?; first [done|lia]|cbn; done].

Lemma quote_reply_fits q : typed QuoteRequest_env q -> fits QuoteResult_env (quote_reply ve q).
Proof.
  intros Ht; unfold quote_reply; destruct (ve_Quote ve q) eqn:E; [eapply ve_quote_fits; eauto|].
  cbn in Ht; destruct_and? Ht; fits.
Qed.

Lemma state_reply_fits q : typed StateRequest_env q -> fits StateResult_env (state_reply ve q).
Proof.
  intros Ht; unfold state_reply; destruct (ve_State ve q) eqn:E; [eapply ve_state_fits; eauto|].
  cbn in Ht; destruct_and? Ht; fits.
Qed.

Lemma notify_reply_fits t pi :
  typed (PreparedIntent_env t) pi -> fits IntentWatchRef_env (notify_reply ve pi).
Proof.
  intros Ht; unfold notify_reply; destruct (ve_NotifyIntent ve pi) eqn:E; [eapply ve_notify_fits; eauto|].
  cbn in Ht; destruct_and? Ht; fits.
Qed.

Lemma status_reply_fits i : typed WatchPollRequest_env i -> fits IntentStatus_env (status_reply ve i).
Proof.
  intros Ht; unfold status_reply; destruct (ve_WatchStatus ve i) as [st|] eqn:E.
  - apply ve_status_fits in E as [Hs Hz]; [|exact Ht]; split; [|exact Hz]; cbn in Hs |- *; destruct_and? Hs; split_and?; done.
  - unfold PhaseUnknown; cbn in Ht; fits.
Qed.

Lemma import_reply_fits ref :
  typed DExportRef_env ref -> fits SettlementSubmitResult_env (import_reply ve ref).
Proof.
  intros Ht; pose proof (DeriveUTXOID_ID (der_SourceTxID ref) (der_OutputIndex ref)) as Hk.
  unfold import_reply; destruct (ve_ResolveExport ve ref) as [res|] eqn:E.
  - apply ve_resolve_fits in E as [Hs Hz]; [|exact Ht]; split; [|exact Hz].
    cbn -[ObjectKey] in Hs |- *; destruct_and? Hs; split_and?; done.
  - split; [|done]; cbn -[ObjectKey]; split_and?; done.
Qed.
End fits.

Section route_fits.
Context (rv : RouteVenue) (Hrv : RouteVenueLaws rv).

Lemma route_reply_fits q : typed RouteRequest_env q -> fits IntentWatchRef_env (route_reply rv q).
Proof.
  intros Ht; unfold route_reply; destruct (rv_NotifyRoute rv q) eqn:E; [eapply rv_notify_fits; eauto|].
  split; [apply DeriveIntentID_ID|done].
Qed.

Lemma route_status_reply_fits i : typed RouteWatchPoll_env i -> fits RouteStatus_env (route_status_reply rv i).
Proof.
  intros Ht; unfold route_status_reply; destruct (rv_RouteStatus rv i) as [st|] eqn:E.
  - apply rv_status_fits in E as [Hs Hz]; [|done|exact Ht]; split; [|exact Hz].
    cbn in Hs |- *; destruct_and? Hs; split_and?; done.
  - split; [|done]; unfold RouteUnknown; cbn; cbn in Ht; split_and?; done || lia.
Qed.
End route_fits.

(** The table after registration. *)
Lemma registered ve hs :
  registerHandlers ve hs !! MsgQuote = Some (handleQuote ve)
  /\ registerHandlers ve hs !! MsgGetState = Some (handleGetState ve)
  /\ registerHandlers ve hs !! MsgNotify = Some (handleNotify ve)
  /\ registerHandlers ve hs !! MsgWatchPoll = Some (handleWatchPoll ve)
  /\ registerHandlers ve hs !! MsgImport = Some (handleImport ve)
  /\ (forall rv, ve_route ve = Some rv ->
        registerHandlers ve hs !! MsgRoutePrepare = Some (handleRoutePrepare rv)
        /\ registerHandlers ve hs !! MsgRouteStatus = Some (handleRouteStatus rv)).
Proof.
  unfold registerHandlers; destruct (ve_route ve) as [rv|].
  all: split_and!; try (repeat (rewrite lookup_insert_eq || rewrite lookup_insert_ne by done); done).
  intros rv' [= <-]; split; repeat (rewrite lookup_insert_eq || rewrite lookup_insert_ne by done); done.
Qed.

(** Every handler of a fresh node answers whatever parses. *)
Lemma registered_total ve `{!VenueLaws ve} t h peerID d m :
  registerHandlers ve ∅ !! t = Some h -> Parse d = Ret (Ok m) ->
  exists d', h peerID m = Ret (Ok (Some (WrapBuffer d'))) /\ Parse d' = Ret (Ok (WrapBuffer d')).
Proof.
  intros Hl Hp.
  assert (Hany : forall {T U} (e : Envelope T) (r : Envelope U) f,
    EnvelopeLaws e -> EnvelopeLaws r -> handles h e r f -> (forall x, typed e x -> fits r (f x)) ->
    exists d', h peerID m = Ret (Ok (Some (WrapBuffer d'))) /\ Parse d' = Ret (Ok (WrapBuffer d'))).
  { intros T U e r f ? ? Hh Hf.
    destruct (handles_any e r h f peerID d m Hh Hf Hp) as (x & d' & _ & _ & ? & ? & _); eauto. }
  unfold registerHandlers in Hl; destruct (ve_route ve) as [rv|] eqn:Hrv;
    repeat (apply lookup_insert_Some in Hl as [[_ <-]|[_ Hl]]); try (rewrite lookup_empty in Hl; done).
  1,2: pose proof (ve_route_laws rv Hrv) as Hrl.
  - eapply Hany; [| |apply handleRouteStatus_handles|apply route_status_reply_fits; done]; apply _.
  - eapply Hany; [| |apply handleRoutePrepare_handles|apply route_reply_fits; done]; apply _.
  - eapply Hany; [| |apply handleImport_handles|apply import_reply_fits, _]; apply _.
  - eapply Hany; [| |apply handleWatchPoll_handles|apply status_reply_fits, _]; apply _.
  - eapply Hany; [| |apply (handleNotify_handles _ MsgNotify)|apply notify_reply_fits, _]; apply _.
  - eapply Hany; [| |apply handleGetState_handles|apply state_reply_fits, _]; apply _.
  - eapply Hany; [| |apply handleQuote_handles|apply quote_reply_fits, _]; apply _.
  - eapply Hany; [| |apply handleImport_handles|apply import_reply_fits, _]; apply _.
  - eapply Hany; [| |apply handleWatchPoll_handles|apply status_reply_fits, _]; apply _.
  - eapply Hany; [| |apply (handleNotify_handles _ MsgNotify)|apply notify_reply_fits, _]; apply _.
  - eapply Hany; [| |apply handleGetState_handles|apply state_reply_fits, _]; apply _.
  - eapply Hany; [| |apply handleQuote_handles|apply quote_reply_fits, _]; apply _.
Qed.

(** A node with the table [hs] serves requests [e] with [r], by [f]. *)
Definition serves {T U} (hs : gmap Z Handler) (e : Envelope T) (r : Envelope U) (f : T -> U) : Prop :=
  forall peerID x, fits e x -> exists b out, build e x = Ret (Ok (WrapBuffer b))
    /\ answers hs peerID b out /\ parsed out = Some out /\ read r (WrapBuffer out) = Ret (norm r (f (norm e x))).

Lemma tag_type t : 0 <= t < 256 -> Z.shiftr (tag t) 8 = t.
Proof.
  intros Ht; unfold tag, u16; rewrite Z.shiftl_mul_pow2, Z.mod_small by lia.
  rewrite Z.shiftr_div_pow2, Z.div_mul by lia; done.
Qed.

Lemma flags_rd d f :
  Parse d = Ret (Ok (WrapBuffer d)) -> Message_Flags (WrapBuffer d) = Ret f -> rd 2 d 6 = f.
Proof.
  intros Hp; assert (Hpd : parsed d = Some d) by (unfold parsed; rewrite Hp; done).
  pose proof (parsed_len d d Hpd); unfold Message_Flags; cbn [data WrapBuffer].
  rewrite slice_ok by lia; cbn [mbind outcome_bind]; rewrite le_uint_sub by lia; cbn [mbind outcome_bind].
  intros [= <-]; done.
Qed.

Lemma serves_handler {T U} hs (e : Envelope T) (r : Envelope U) f t h
  `{!EnvelopeLaws e} `{!EnvelopeLaws r} :
  hs !! t = Some h -> 0 <= t < 256 -> env_flags e = tag t -> handles h e r f ->
  (forall x, typed e x -> fits r (f x)) -> serves hs e r f.
Proof.
  intros Hl Ht Hfl Hh Hf peerID x [Hx Hsz].
  destruct (env_roundtrip (e := e) x Hx) as (b & Hb & Hp & Hlb & Hbf & Hr); [unfold MaxMessage in Hsz; lia|].
  destruct (handles_any e r h f peerID b (WrapBuffer b) Hh Hf Hp) as (x' & out & Hx' & _ & Ha & Ho & Hlo & Hro).
  assert (x' = norm e x) as -> by congruence.
  exists b, out; split; [exact Hb|split; [|split; [unfold parsed; rewrite Ho; done|exact Hro]]].
  exists b, h, (WrapBuffer out); split; [unfold parsed; rewrite Hp; done|].
  rewrite (flags_rd b _ Hp Hbf), Hfl, tag_type by exact Ht; done.
Qed.

(** ** A server as the peer of a client *)

(** The reply to the last of the messages [h], by the node of the venue at that
    time; nothing when no handler answers. *)
Definition served (ve : list Message -> Venue) (h : list Message) : option (list byte) :=
  m ← last h;
  match Message_Flags m with
  | Ret flags =>
      hd ← registerHandlers (ve h) ∅ !! Z.shiftr flags 8;
      match safeHandle hd [] m with Ok (Some resp) => Some (data resp) | _ => None end
  | Panic => None
  end.

(** Requests [e] are answered with [r], by [f] of the venue. *)
Definition serving {T U} (e : Envelope T) (r : Envelope U) (f : Venue -> T -> U) (ve : list Message -> Venue) : Prop :=
  forall x h, fits e x -> exists b out, build e x = Ret (Ok (WrapBuffer b))
    /\ served ve (h ++ [WrapBuffer b]) = Some out /\ Parse out = Ret (Ok (WrapBuffer out))
    /\ read r (WrapBuffer out) = Ret (norm r (f (ve (h ++ [WrapBuffer b])) (norm e x))).

Lemma serving_served {T U} (e : Envelope T) (r : Envelope U) f t h
  `{!EnvelopeLaws e} `{!EnvelopeLaws r} ve :
  (forall l, registerHandlers (ve l) ∅ !! t = Some (h (ve l))) ->
  0 <= t < 256 -> env_flags e = tag t -> (forall v, handles (h v) e r (f v)) ->
  (forall l x, typed e x -> fits r (f (ve l) x)) -> serving e r f ve.
Proof.
  intros Hl Ht Hfl Hh Hf x l [Hx Hsz].
  destruct (env_roundtrip (e := e) x Hx) as (b & Hb & Hp & _ & Hbf & Hr); [unfold MaxMessage in Hsz; lia|].
  set (l' := l ++ [WrapBuffer b]).
  destruct (handles_any e r (h (ve l')) (f (ve l')) [] b (WrapBuffer b) (Hh _) (Hf l') Hp)
    as (x' & out & Hx' & _ & Ha & Ho & _ & Hro).
  assert (x' = norm e x) as -> by congruence.
  exists b, out; split; [exact Hb|split; [|split; [exact Ho|exact Hro]]].
  unfold served; fold l'; replace (last l') with (Some (WrapBuffer b)) by (unfold l'; rewrite last_snoc; done).
  cbn [mbind option_bind]; rewrite Hbf, Hfl, tag_type, Hl by exact Ht; cbn [mbind option_bind].
  unfold safeHandle; rewrite Ha; done.
Qed.

(** An exchange of a client that holds the grant with such a server. *)
Lemma exchange_served {T U} (e : Envelope T) (r : Envelope U) f ve s need x st
  `{!EnvelopeLaws e} `{!EnvelopeLaws r} :
  serving e r f ve -> permits (cs_grant s) need = true -> fits e x ->
  exists m, build e x = Ret (Ok m) /\ exchange (served ve) s e r need x st
    = Ret (Value (norm r (f (ve (sent st ++ [m])) (norm e x))), with_sent st m).
Proof.
  intros Hs Hp Hx; destruct (Hs x (sent st) Hx) as (b & out & Hb & Hd & Ho & Hr).
  exists (WrapBuffer b); split; [exact Hb|]; unfold exchange, requireGrant; rewrite Hp; cbn [negb].
  unfold mbind, op_bind; cbn [gate mret op_ret]; unfold built; rewrite Hb; cbn [mbind outcome_bind].
  unfold Call; cbn [sent]; rewrite Hd, Ho; cbn [mbind outcome_bind]; unfold reading; rewrite Hr; done.
Qed.

(** ** A whole swap against an honest server *)

Section honest.
Context (ve : list Message -> Venue) `{Hve : !forall l, VenueLaws (ve l)}.

Lemma quote_serving : serving QuoteRequest_env QuoteResult_env quote_reply ve.
Proof.
  apply (serving_served _ _ _ MsgQuote handleQuote); try done.
  - intros l; apply registered.
  - intros v; apply handleQuote_handles.
  - intros l x; apply quote_reply_fits, _.
Qed.

Lemma state_serving : serving StateRequest_env StateResult_env state_reply ve.
Proof.
  apply (serving_served _ _ _ MsgGetState handleGetState); try done.
  - intros l; apply registered.
  - intros v; apply handleGetState_handles.
  - intros l x; apply state_reply_fits, _.
Qed.

Lemma notify_serving : serving (PreparedIntent_env MsgNotify) IntentWatchRef_env notify_reply ve.
Proof.
  apply (serving_served _ _ _ MsgNotify handleNotify); try done.
  - intros l; apply registered.
  - intros v; apply handleNotify_handles.
  - intros l x; apply (notify_reply_fits (ve l) MsgNotify).
Qed.

Lemma status_serving : serving WatchPollRequest_env IntentStatus_env status_reply ve.
Proof.
  apply (serving_served _ _ _ MsgWatchPoll handleWatchPoll); try done.
  - intros l; apply registered.
  - intros v; apply handleWatchPoll_handles.
  - intros l x; apply status_reply_fits, _.
Qed.

Lemma import_serving : serving DExportRef_env SettlementSubmitResult_env import_reply ve.
Proof.
  apply (serving_served _ _ _ MsgImport handleImport); try done.
  - intros l; apply registered.
  - intros v; apply handleImport_handles.
  - intros l x; apply import_reply_fits, _.
Qed.

(** The poll of a watched intent reports the venue's status. *)
Lemma poll_reported i : is_ID i ->
  exists pm, buildWatchPollRequest i = Ret (Ok pm) /\ forall h,
    reports (served ve) (h ++ [pm]) (norm IntentStatus_env (status_reply (ve (h ++ [pm])) i)).
Proof.
  intros Hi; assert (Hf : fits WatchPollRequest_env i) by (split; [exact Hi|done]).
  destruct (status_serving i [] Hf) as (b & _ & Hb & _); exists (WrapBuffer b); split; [exact Hb|].
  intros h; destruct (status_serving i h Hf) as (b' & out & Hb' & Hd & Ho & Hr).
  assert (b' = b) as -> by (rewrite Hb in Hb'; injection Hb'; done).
  exists (WrapBuffer out); split; [exists out; split; [exact Hd|exact Ho]|exact Hr].
Qed.

Context (ends : nat -> bool) (s : clientSession).
Hypothesis Hends : forall j, ends j = false.
Hypothesis Hgrant : permits (cs_grant s) AuthorityPublic = true.

Lemma public_grants :
  permits (cs_grant s) AuthQuote = true /\ permits (cs_grant s) AuthIntent = true
  /\ permits (cs_grant s) AuthWatch = true /\ permits (cs_grant s) AuthSettlement = true.
Proof. split_and!; (eapply permits_trans; [exact Hgrant|done]). Qed.

Lemma Await_now {A} (p : answer A) st : Await ends p st = Ret (p, with_tick st).
Proof. unfold Await, mbind, op_bind, ctx_ended; rewrite Hends; done. Qed.

Lemma thenAsync_now {A B} (x : A) (fn : A -> op B) st : thenAsync ends (Value x) fn st = fn x (with_tick st).
Proof. unfold thenAsync, mbind, op_bind; rewrite Await_now; done. Qed.

Lemma prepare_served req pk st :
  typed SwapIntentRequest_env req -> market s (sir_MarketID req) = Some pk -> sir_AmountIn req <> 0 ->
  exists m q, 0 <= q < 2 ^ 64 /\ PrepareSwapIntent (served ve) ends s req st
    = Ret (Value (prepared req pk q), with_tick (with_sent st m)).
Proof.
  intros Ht Hm Ha; destruct public_grants as (Hq & Hi & _).
  assert (Hf : fits QuoteRequest_env (quote_of req)) by (split; [apply quote_of_typed, Ht|done]).
  destruct (exchange_served _ _ _ ve s AuthQuote (quote_of req) st quote_serving Hq Hf) as (m & _ & Hx).
  exists m; eexists; split; [|unfold PrepareSwapIntent, requireGrant, mbind, op_bind; rewrite Hi; cbn [negb gate mret op_ret];
    unfold prepareLocal; rewrite (proj2 (Z.eqb_neq _ _) Ha), Hm;
    unfold quote_or_zero, mbind, op_bind, spawn, outcome_bind].
  2: change (Quote (served ve) s (mkQuoteRequest (sir_MarketID req) (sir_AmountIn req) (zeroForOneFor req)))
       with (exchange (served ve) s QuoteRequest_env QuoteResult_env AuthQuote (quote_of req)).
  2: rewrite Hx; cbn [mbind outcome_bind fst snd]; rewrite Await_now; reflexivity.
  destruct (quote_reply_fits (ve (sent st ++ [m])) (norm QuoteRequest_env (quote_of req))) as [Hr _];
    [apply quote_of_typed, Ht|]; cbn in Hr |- *; tauto.
Qed.

Lemma notify_served pi st :
  fits (PreparedIntent_env MsgNotify) pi ->
  exists m, NotifyIntent (served ve) ends s (Value pi) st
    = Ret (Value (mkIntentWatch true (iw_IntentID (notify_reply (ve (sent st ++ [m])) pi))),
           with_sent (with_tick st) m).
Proof.
  intros Hf; destruct public_grants as (_ & Hi & _).
  destruct (exchange_served _ _ _ ve s AuthIntent pi (with_tick st) notify_serving Hi Hf) as (m & _ & Hx).
  exists m; unfold NotifyIntent; rewrite thenAsync_now; unfold exchange, mbind, op_bind in *; revert Hx.
  destruct (gate _ _) as [[[?|?|] ?]|]; try discriminate.
  change (build (PreparedIntent_env MsgNotify) pi) with (buildPreparedIntent pi MsgNotify).
  destruct (built _ _) as [[[?|?|] ?]|]; try discriminate.
  destruct (Call _ _ _) as [[[resp|?|] ?]|]; try discriminate.
  change (read IntentWatchRef_env resp) with (readIntentWatchRef resp).
  destruct (reading _ _) as [[[?|?|] ?]|]; try discriminate; intros [= -> ->]; done.
Qed.

Lemma import_served ref st :
  typed_ref ref ->
  exists m, buildDExportRef ref = Ret (Ok m) /\ ImportSettlement (served ve) ends s (Value ref) st
    = Ret (Value (norm SettlementSubmitResult_env (import_reply (ve (sent st ++ [m])) (norm DExportRef_env ref))),
           with_sent (with_tick st) m).
Proof.
  intros Hr; destruct public_grants as (_ & _ & _ & Hs).
  assert (Hf : fits DExportRef_env ref) by (split; [exact Hr|done]).
  destruct (exchange_served _ _ _ ve s AuthSettlement ref (with_tick st) import_serving Hs Hf) as (m & Hb & Hx).
  exists m; split; [exact Hb|]; unfold ImportSettlement; rewrite thenAsync_now; exact Hx.
Qed.

(** The watch stage, when the venue commits after [k] more polls. *)
Lemma commit_served i k n st :
  is_ID i -> (k < n)%nat ->
  (forall l, (length (sent st) < length l <= length (sent st) + k)%nat -> terminal (status_reply (ve l) i) = false) ->
  (forall l, length l = (length (sent st) + S k)%nat -> is_Phase (status_reply (ve l) i) = PhaseCommitted) ->
  exists st' pm, thenAsync ends (Value (mkIntentWatch true i))
      (fun w => p ← OnCommitted (served ve) ends s n w; Await ends p) st
    = Ret (Value (rebind (is_Ref (status_reply (ve (sent st')) i)) i), st')
    /\ sent st' = sent st ++ replicate (S k) pm /\ slept st' = slept st ++ backoffs k minBackoff.
Proof.
  intros Hi Hk Hn Hc; destruct public_grants as (_ & _ & Hw & _).
  destruct (poll_reported i Hi) as (pm & Hpm & Hrep).
  set (h j := sent st ++ replicate j pm).
  assert (Hh : forall j, h (S j) = h j ++ [pm]) by (intros j; unfold h; rewrite replicate_S_end, app_assoc; done).
  set (y j := norm IntentStatus_env (status_reply (ve (h (S j))) i)).
  assert (Hrep' : forall j, reports (served ve) (h (S j)) (y j)) by (intros j; unfold y; rewrite Hh; apply Hrep).
  assert (Hl : forall j, length (h j) = (length (sent st) + j)%nat)
    by (intros j; unfold h; rewrite length_app, length_replicate; done).
  destruct (stream_commits (served ve) ends s (mkIntentWatch true i) pm eq_refl Hw Hpm k n minBackoff
    (with_tick st) (y <$> seq 0 k) (y k)) as (st' & Hst & Hsent & Hsl).
  - rewrite length_fmap, length_seq; done.
  - exact Hk.
  - intros j _; apply Hends.
  - intros j z Hz; rewrite list_lookup_fmap in Hz; apply fmap_Some in Hz as (j' & Hj & ->); apply lookup_seq in Hj as [-> Hj].
    split; [exact (Hrep' j)|]; apply Hn; rewrite Hl; lia.
  - exact (Hrep' k).
  - apply Hc; rewrite Hl; done.
  - exists (with_tick st'), pm; rewrite thenAsync_now; unfold OnCommitted, requireGrant; cbn [w_session negb]; rewrite Hw.
    unfold mbind, op_bind, spawn, outcome_bind; cbn [negb]; rewrite Hst; cbn [mbind outcome_bind fst snd]; rewrite Await_now.
    split; [|split; [exact Hsent|exact Hsl]]; unfold y, h; cbn [sent with_tick]; cbn [sent with_tick] in Hsent.
    rewrite Hsent; done.
Qed.
End honest.

Lemma prepared_fits t req pk q :
  typed SwapIntentRequest_env req -> typed_pool pk -> 0 <= q < 2 ^ 64 ->
  fits (PreparedIntent_env t) (prepared req pk q).
Proof.
  intros Ht Hpk Hq; split; [apply prepared_typed; assumption|]; cbn in Ht; destruct_and? Ht.
  pose proof (len_intent_hook (sir_Deadline req) (sir_Nonce req)) as Hh.
  pose proof (len_swap_calldata pk true (sir_AmountIn req)
    (EncodeIntentHookData (sir_Deadline req) (sir_Nonce req)) Hpk ltac:(lia) ltac:(lia)).
  cbn -[EncodeSwapCalldata EncodeIntentHookData]; unfold piSize, MaxMessage; lia.
Qed.

(** ** Properties *)

(** The server answers whatever parses. On a node with the handlers of a
    venue, no message, however malformed its fields, makes a handler panic or
    fail: the reply is always a message, and it parses. *)
Theorem dex_server_total ve t h peerID d m :
  VenueLaws ve -> registerHandlers ve ∅ !! t = Some h -> Parse d = Ret (Ok m) ->
  exists d', h peerID m = Ret (Ok (Some (WrapBuffer d'))) /\ Parse d' = Ret (Ok (WrapBuffer d')).
Proof. intros; eapply registered_total; eauto. Qed.

(** C13: the server is the venue behind the wire, and fails closed. A request of
    each kind, as a client builds it, is answered through the node's dispatch
    with a message that reads as the venue's answer; a venue that fails is
    answered for with an illiquid quote, an absent state, the intent's own id, an
    unknown phase without a pointer, or a settlement without calldata. Statuses are
    always of the intent that was asked for, and settlements always addressed to
    0x9999 for the object the reference names, whatever the venue says. *)
Theorem dex_server_refines_venue ve handlers :
  VenueLaws ve ->
  let hs := registerHandlers ve handlers in
  serves hs QuoteRequest_env QuoteResult_env (quote_reply ve)
  /\ serves hs StateRequest_env StateResult_env (state_reply ve)
  /\ serves hs (PreparedIntent_env MsgNotify) IntentWatchRef_env (notify_reply ve)
  /\ serves hs WatchPollRequest_env IntentStatus_env (status_reply ve)
  /\ serves hs DExportRef_env SettlementSubmitResult_env (import_reply ve)
  /\ (forall rv, ve_route ve = Some rv ->
        serves hs RouteRequest_env IntentWatchRef_env (route_reply rv)
        /\ serves hs RouteWatchPoll_env RouteStatus_env (route_status_reply rv)).
Proof.
  intros Hve hs; destruct (registered ve handlers) as (H1 & H2 & H3 & H4 & H5 & H6); fold hs in H1, H2, H3, H4, H5, H6.
  split; [eapply serves_handler; [apply _|apply _|exact H1|done|done|apply handleQuote_handles|apply quote_reply_fits, _]|].
  split; [eapply serves_handler; [apply _|apply _|exact H2|done|done|apply handleGetState_handles|apply state_reply_fits, _]|].
  split; [eapply serves_handler; [apply _|apply _|exact H3|done|done|apply handleNotify_handles|apply notify_reply_fits, _]|].
  split; [eapply serves_handler; [apply _|apply _|exact H4|done|done|apply handleWatchPoll_handles|apply status_reply_fits, _]|].
  split; [eapply serves_handler; [apply _|apply _|exact H5|done|done|apply handleImport_handles|apply import_reply_fits, _]|].
  intros rv Hrv; destruct (H6 rv Hrv) as [H7 H8]; pose proof (ve_route_laws rv Hrv) as Hrl.
  split; [eapply serves_handler; [apply _|apply _|exact H7|done|done|apply handleRoutePrepare_handles|apply route_reply_fits, Hrl]|].
  eapply serves_handler; [apply _|apply _|exact H8|done|done|apply handleRouteStatus_handles|apply route_status_reply_fits, Hrl].
Qed.


(** ** Witnesses *)

(** A venue that quotes, accepts intents under their own id, reports them as
    matching or committed and resolves every export. *)
Definition sample_venue (committed : bool) : Venue :=
  mkVenue (fun q => Some (mkQuoteResult (qReq_MarketID q) (qReq_AmountIn q) 990 0 true))
    (fun _ => None)
    (fun pi => Some (mkIntentWatchRef (pi_IntentID pi)))
    (fun i => Some (mkIntentStatus i (if committed then PhaseCommitted else PhaseMatching)
       (mkDExportRef (rep 32 Byte.x0d) (rep 32 Byte.x0e) 3 ZeroID) [] 990))
    (fun ref => Some (mkSettlementSubmitResult SettleCalldata addr9999 [Byte.xf3] (der_SourceTxID ref) ZeroID))
    None.

Lemma sample_venue_laws b : VenueLaws (sample_venue b).
Proof.
  split.
  - intros q res Ht [= <-]; cbn in Ht; destruct_and? Ht; split; [cbn; split_and?; done || lia|done].
  - done.
  - intros pi ref Ht [= <-]; cbn in Ht; destruct_and? Ht; split; [done|done].
  - intros i st Hi [= <-]; split; [|done]; cbn; unfold is_ID, len, PhaseMatching, PhaseCommitted in *; simpl.
    case_match; split_and?; done || lia.
  - intros ref res Ht [= <-]; cbn in Ht; destruct_and? Ht; split; [|done]; cbn; split_and?; done.
  - done.
Qed.

Lemma dex_server_total_witness :
  exists d', handleNotify (sample_venue true) [] poll_message = Ret (Ok (Some (WrapBuffer d')))
    /\ Parse d' = Ret (Ok (WrapBuffer d')).
Proof.
  refine (dex_server_total (sample_venue true) MsgNotify (handleNotify (sample_venue true)) []
    (data poll_message) poll_message (sample_venue_laws true) _ _).
  - apply (registered (sample_venue true) ∅).
  - vm_compute; reflexivity.
Defined.

Lemma dex_server_refines_venue_witness :
  serves (registerHandlers (sample_venue true) ∅) WatchPollRequest_env IntentStatus_env
    (status_reply (sample_venue true))
  /\ status_reply (sample_venue true) watched = mkIntentStatus watched PhaseCommitted
       (mkDExportRef (rep 32 Byte.x0d) (rep 32 Byte.x0e) 3 ZeroID) [] 990.
Proof.
  split; [|reflexivity].
  exact (proj1 (proj2 (proj2 (proj2 (dex_server_refines_venue (sample_venue true) ∅
    (sample_venue_laws true)))))).
Defined.

(** The venue commits at the second poll: the fifth message. *)
Definition sample_venues (h : list Message) : Venue := sample_venue (4 <? length h)%nat.

